(** * Preheat: the state engine of the preloading daemon

    A shallow embedding of [src/state/state.c], [src/daemon/pause.c] and the
    save branch of [src/daemon/signals.c], with the properties of the
    specification that concern them, and of the blacklist
    ([src/config/blacklist.c]), the path prefixes ([src/utils/pattern.c])
    and the commands of preheat-ctl ([tools/]).

    Conventions of the embedding.
    - A C [int] is a [Z] kept in the 32-bit two's complement range by
      [int_wrap]; [size_t] and [unsigned long] are 64-bit and wrap by
      [ulong_wrap]; [long] and [time_t] are 64-bit.
    - A C [double] is a primitive binary64 [float].
    - Objects that the C code shares through pointers (maps, exes, markovs)
      live in heaps indexed by addresses; an exemap is owned by exactly one
      exe and is stored by value in the set of its owner.
    - A [GHashTable] is a [gmap]; a [GPtrArray], [GSList] or [GSet] is a list.
    - What lies outside the repository sources at hand (libc, GLib, the
      header constants, the scanner and the predictor) is a parameter. *)

From Stdlib Require Import ZArith Lia List String Ascii Bool DecimalString.
From Stdlib Require DecimalPos DecimalN DecimalFacts.
From Stdlib Require Import PrimFloat SpecFloat FloatOps.
From stdpp Require Import gmap strings list.

Local Open Scope Z_scope.

(* ================================================================== *)
(** * Part I: the model                                                *)
(* ================================================================== *)

(** ** Machine integers *)

Definition INT_MAX : Z := 2147483647.
Definition INT_MIN : Z := -2147483648.
Definition LONG_MAX : Z := 9223372036854775807.
Definition LONG_MIN : Z := -9223372036854775808.
Definition ULONG_MAX : Z := 18446744073709551615.

Definition int_wrap (z : Z) : Z := (z + 2 ^ 31) mod 2 ^ 32 - 2 ^ 31.
Definition long_wrap (z : Z) : Z := (z + 2 ^ 63) mod 2 ^ 64 - 2 ^ 63.
Definition ulong_wrap (z : Z) : Z := z mod 2 ^ 64.

Definition int_add (a b : Z) : Z := int_wrap (a + b).
Definition int_sub (a b : Z) : Z := int_wrap (a - b).
(** C division truncates toward zero. *)
Definition int_div (a b : Z) : Z := int_wrap (Z.quot a b).
Definition in_int (z : Z) : Prop := INT_MIN <= z <= INT_MAX.

(** ** Doubles *)

(** The conversion of an integer to [double] (exact below 2^53). *)
Definition Z2F (z : Z) : float := SF2Prim (binary_normalize prec emax z 0 false).

(** The binary64 nearest to the rational [p/q] ([0 <= p], [0 < q]), with the
    sign [neg]: the quotient is taken with 64 extra bits and a sticky bit,
    and rounded to nearest even. *)
Definition Q2F (neg : bool) (p q : Z) : float :=
  if p =? 0 then (if neg then PrimFloat.opp PrimFloat.zero else PrimFloat.zero)
  else
    let k := Z.max 0 (64 + Z.log2 q - Z.log2 p) in
    let n := p * 2 ^ k in
    let d := n / q in
    let m := if n mod q =? 0 then d else Z.lor d 1 in
    SF2Prim (binary_normalize prec emax (if neg then - m else m) (- k) neg).

Definition fzero : float := Z2F 0.
Definition fone : float := Z2F 1.

(** ** libc: the conversions of [sscanf] used by the state reader *)

Module Scan.

Definition isspace (c : ascii) : bool :=
  let n := nat_of_ascii c in
  (n =? 32)%nat || ((9 <=? n)%nat && (n <=? 13)%nat).

Fixpoint skip_ws (s : string) : string :=
  match s with
  | String c r => if isspace c then skip_ws r else s
  | EmptyString => s
  end.

Definition digit_val (c : ascii) : option Z :=
  let n := Z.of_nat (nat_of_ascii c) in
  if (48 <=? n) && (n <=? 57) then Some (n - 48) else None.

(** The longest run of decimal digits at the head of [s]: its value (on top
    of [acc]), how many digits it has, and what follows it. *)
Fixpoint scan_digits (s : string) (acc : Z) (n : nat) : Z * nat * string :=
  match s with
  | String c r =>
      match digit_val c with
      | Some d => scan_digits r (acc * 10 + d) (S n)
      | None => (acc, n, s)
      end
  | EmptyString => (acc, n, s)
  end.

Definition scan_sign (s : string) : bool * string :=
  match s with
  | String c r =>
      if Ascii.eqb c "-" then (true, r)
      else if Ascii.eqb c "+" then (false, r)
      else (false, s)
  | EmptyString => (false, s)
  end.

(** White space, an optional sign, at least one digit. *)
Definition scan_decimal (s : string) : option (bool * Z * string) :=
  let '(neg, r) := scan_sign (skip_ws s) in
  match scan_digits r 0 0 with
  | (_, O, _) => None
  | (v, _, r') => Some (neg, v, r')
  end.

Definition clamp_long (z : Z) : Z := Z.max LONG_MIN (Z.min LONG_MAX z).

(** [%ld]: as [strtol], saturating. *)
Definition conv_ld (s : string) : option (Z * string) :=
  match scan_decimal s with
  | Some (neg, v, r) => Some (clamp_long (if neg then - v else v), r)
  | None => None
  end.

(** [%d]: as [strtol], the result stored in an [int]. *)
Definition conv_d (s : string) : option (Z * string) :=
  match conv_ld s with
  | Some (v, r) => Some (int_wrap v, r)
  | None => None
  end.

(** [%lu]: as [strtoul]; a minus sign negates in unsigned arithmetic. *)
Definition conv_lu (s : string) : option (Z * string) :=
  match scan_decimal s with
  | Some (neg, v, r) =>
      Some (if ULONG_MAX <? v then ULONG_MAX
            else if neg then ulong_wrap (- v) else v, r)
  | None => None
  end.

Definition lower (c : ascii) : ascii :=
  let n := nat_of_ascii c in
  if ((65 <=? n)%nat && (n <=? 90)%nat) then ascii_of_nat (n + 32) else c.

(** [p] is a prefix of [s], letter case apart ([p] in lower case); what
    follows the prefix is returned. *)
Fixpoint strip_case_prefix (p s : string) : option string :=
  match p with
  | EmptyString => Some s
  | String a p' =>
      match s with
      | String c r => if Ascii.eqb (lower c) a then strip_case_prefix p' r else None
      | EmptyString => None
      end
  end.

Definition hex_val (c : ascii) : option Z :=
  let n := Z.of_nat (nat_of_ascii (lower c)) in
  match digit_val c with
  | Some d => Some d
  | None => if (97 <=? n) && (n <=? 102) then Some (n - 87) else None
  end.

(** The longest run of hexadecimal digits at the head of [s]. *)
Fixpoint scan_hex_digits (s : string) (acc : Z) (n : nat) : Z * nat * string :=
  match s with
  | String c r =>
      match hex_val c with
      | Some d => scan_hex_digits r (acc * 16 + d) (S n)
      | None => (acc, n, s)
      end
  | EmptyString => (acc, n, s)
  end.

(** The exponent part of a floating constant whose mantissa has a digit:
    the letter [mark] in either case, an optional sign and the digits that
    follow. glibc reads all of these; when no digit follows, what it has
    read of the exponent is consumed and the exponent is 0, as [strtod]
    converts the mantissa alone. *)
Definition scan_exponent (mark : ascii) (s : string) : Z * string :=
  match s with
  | String c r =>
      if Ascii.eqb (lower c) mark then
        let '(neg, r1) := scan_sign r in
        let '(v, _, r2) := scan_digits r1 0 0 in
        (if neg then - v else v, r2)
      else (0, s)
  | EmptyString => (0, s)
  end.

(** The mantissa: digits, and after a point more digits; its value as an
    integer, how many digits it has before and after the point, whether the
    point was read, and what follows. *)
Definition scan_mantissa (digits : string -> Z -> nat -> Z * nat * string) (s : string)
  : Z * nat * nat * bool * string :=
  let '(ip, ni, r1) := digits s 0 0%nat in
  match r1 with
  | String c r' =>
      if Ascii.eqb c "." then
        let '(m, nf, r2) := digits r' ip 0%nat in (m, ni, nf, true, r2)
      else (ip, ni, 0%nat, false, r1)
  | EmptyString => (ip, ni, 0%nat, false, r1)
  end.

(** The binary64 nearest to [m * 2 ^ e], with the sign [neg] ([0 <= m]). *)
Definition B2F (neg : bool) (m e : Z) : float :=
  SF2Prim (binary_normalize prec emax (if neg then - m else m) e neg).

(** [%lf], [%lg], as glibc reads them in the C locale: white space, an
    optional sign, then
    - [nan], or [inf] (and [infinity] in full once an [i] follows [inf]),
      in either case; or
    - [0x], hexadecimal digits with an optional point, and a binary
      exponent after [p] when a digit has been read: at least one character
      after [0x]; without a digit the value is that of the [0]; or
    - decimal digits with an optional point, at least one digit, and a
      decimal exponent after [e].
    The value is the nearest binary64. *)
Definition conv_lf (s : string) : option (float * string) :=
  let '(neg, r) := scan_sign (skip_ws s) in
  let sgn (f : float) := if neg then PrimFloat.opp f else f in
  let decimal :=
    let '(m, ni, nf, _, r2) := scan_mantissa scan_digits r in
    match (ni + nf)%nat with
    | O => None
    | _ =>
        let '(e, r3) := scan_exponent "e" r2 in
        let e' := e - Z.of_nat nf in
        Some (if 0 <=? e' then Q2F neg (m * 10 ^ e') 1
              else Q2F neg m (10 ^ (- e')), r3)
    end in
  match r with
  | String c r0 =>
      if Ascii.eqb (lower c) "n" then
        match strip_case_prefix "nan" r with
        | Some r' => Some (sgn PrimFloat.nan, r')
        | None => None
        end
      else if Ascii.eqb (lower c) "i" then
        match strip_case_prefix "inf" r with
        | Some (String c' r') =>
            if Ascii.eqb (lower c') "i" then
              match strip_case_prefix "inity" (String c' r') with
              | Some r'' => Some (sgn PrimFloat.infinity, r'')
              | None => None
              end
            else Some (sgn PrimFloat.infinity, String c' r')
        | Some EmptyString => Some (sgn PrimFloat.infinity, EmptyString)
        | None => None
        end
      else if Ascii.eqb c "0" then
        match r0 with
        | String x r1 =>
            if Ascii.eqb (lower x) "x" then
              let '(m, ni, nf, dot, r2) := scan_mantissa scan_hex_digits r1 in
              match (ni + nf)%nat with
              | O => if dot then Some (B2F neg 0 0, r2) else None
              | _ =>
                  let '(e, r3) := scan_exponent "p" r2 in
                  Some (B2F neg m (e - 4 * Z.of_nat nf), r3)
              end
            else decimal
        | EmptyString => decimal
        end
      else decimal
  | EmptyString => None
  end.

(** At most [w] characters of [s] that satisfy [keep]. *)
Fixpoint take_while (keep : ascii -> bool) (w : nat) (s : string) : string * string :=
  match w, s with
  | S w', String c r =>
      if keep c then let '(t, r') := take_while keep w' r in (String c t, r')
      else (EmptyString, s)
  | _, _ => (EmptyString, s)
  end.

(** [%ws]: white space, then at most [w] characters that are not white
    space, at least one. *)
Definition conv_s (w : nat) (s : string) : option (string * string) :=
  match take_while (fun c => negb (isspace c)) w (skip_ws s) with
  | (EmptyString, _) => None
  | (t, r) => Some (t, r)
  end.

(** [%w[^c]]: at most [w] characters other than [c], at least one; no white
    space is skipped. *)
Definition conv_set_not (c : ascii) (w : nat) (s : string) : option (string * string) :=
  match take_while (fun x => negb (Ascii.eqb x c)) w s with
  | (EmptyString, _) => None
  | (t, r) => Some (t, r)
  end.

Inductive directive :=
| Ws                                  (* white space in the format *)
| Lit (c : ascii)                     (* an ordinary character *)
| Conv_d
| Conv_lu
| Conv_lf
| Conv_s (w : nat)
| Conv_set_not (c : ascii) (w : nat)
| Skip_set_not (c : ascii).           (* [%*[^c]]: matched, not stored *)

Inductive value :=
| VInt (z : Z)
| VULong (z : Z)
| VDouble (f : float)
| VStr (s : string).

(** [sscanf fmt s]: the values converted, in order, until the first
    directive that fails, and the input left after the last directive that
    succeeded (where a final [%n] would point). The C function returns the
    number of values (or [EOF], which every caller treats like 0). *)
Fixpoint sscanf (fmt : list directive) (s : string) : list value * string :=
  match fmt with
  | [] => ([], s)
  | d :: fmt' =>
      match d with
      | Ws => sscanf fmt' (skip_ws s)
      | Lit c =>
          match s with
          | String c' r => if Ascii.eqb c' c then sscanf fmt' r else ([], s)
          | EmptyString => ([], s)
          end
      | Conv_d =>
          match conv_d s with
          | Some (z, r) => let '(vs, r') := sscanf fmt' r in (VInt z :: vs, r')
          | None => ([], s)
          end
      | Conv_lu =>
          match conv_lu s with
          | Some (z, r) => let '(vs, r') := sscanf fmt' r in (VULong z :: vs, r')
          | None => ([], s)
          end
      | Conv_lf =>
          match conv_lf s with
          | Some (f, r) => let '(vs, r') := sscanf fmt' r in (VDouble f :: vs, r')
          | None => ([], s)
          end
      | Conv_s w =>
          match conv_s w s with
          | Some (t, r) => let '(vs, r') := sscanf fmt' r in (VStr t :: vs, r')
          | None => ([], s)
          end
      | Conv_set_not c w =>
          match conv_set_not c w s with
          | Some (t, r) => let '(vs, r') := sscanf fmt' r in (VStr t :: vs, r')
          | None => ([], s)
          end
      | Skip_set_not c =>
          match conv_set_not c (String.length s) s with
          | Some (_, r) => sscanf fmt' r
          | None => ([], s)
          end
      end
  end.

(** Storing the [k]-th converted value through a pointer: the variable keeps
    its old content when the conversion was not reached. *)
Definition store_int (vs : list value) (k : nat) (old : Z) : Z :=
  match vs !! k with Some (VInt z) => z | Some (VULong z) => z | _ => old end.
Definition store_double (vs : list value) (k : nat) (old : float) : float :=
  match vs !! k with Some (VDouble f) => f | _ => old end.
Definition store_str (vs : list value) (k : nat) (old : string) : string :=
  match vs !! k with Some (VStr s) => s | _ => old end.

(** [fprintf] with [%ld]. *)
Definition show_long (z : Z) : string := NilZero.string_of_int (Z.to_int z).

End Scan.

(** ** The data model (the structures of state.h, as state.c uses them) *)

(** Addresses of heap objects. *)
Abbreviation addr := nat.

(** Arrays indexed by a C [int]: an index out of range is undefined in C;
    the model reads nothing and writes nothing there. *)
Definition zlookup {A} (l : list A) (i : Z) : option A :=
  if i <? 0 then None else l !! Z.to_nat i.
Definition zinsert {A} (i : Z) (x : A) (l : list A) : list A :=
  if i <? 0 then l else <[Z.to_nat i := x]> l.

Record kp_map_t := {
  m_path : string;
  m_offset : Z;
  m_length : Z;
  m_refcount : Z;
  m_update_time : Z;
  m_block : Z;
  m_seq : Z }.

Record kp_exemap_t := {
  em_map : addr;
  em_prob : float }.

Record kp_exe_t := {
  e_path : string;
  e_seq : Z;
  e_size : Z;
  e_time : Z;
  e_update_time : Z;
  e_change_timestamp : Z;
  e_running_timestamp : Z;
  e_pool : Z;
  e_weighted_launches : float;
  e_raw_launches : Z;
  e_total_duration_sec : Z;
  e_running_pids : list Z;
  e_exemaps : list kp_exemap_t;
  e_markovs : list addr }.

Record kp_markov_t := {
  mk_a : addr;
  mk_b : addr;
  mk_state : Z;
  mk_change_timestamp : Z;
  mk_time : Z;
  mk_time_to_leave : list float;
  mk_weight : list (list Z) }.

Record kp_app_family_t := {
  family_id : string;
  member_paths : list string;
  method : Z;
  total_weighted_launches : float;
  total_raw_launches : Z;
  last_used : Z }.

(** The key of the [maps] table: [kp_map_hash] and [kp_map_equal] compare
    the path, the offset and the length. *)
Definition map_key (m : kp_map_t) : string * Z * Z := (m_path m, m_offset m, m_length m).

Record kp_state_t := {
  st_time : Z;
  st_last_running_timestamp : Z;
  st_last_accounting_timestamp : Z;
  st_memstat_timestamp : Z;
  st_exes : gmap string addr;
  st_bad_exes : gmap string Z;
  st_maps : gmap (string * Z * Z) addr;
  st_maps_arr : list addr;
  st_running_exes : list addr;
  st_map_seq : Z;
  st_exe_seq : Z;
  st_dirty : bool;
  st_model_dirty : bool;
  st_app_families : gmap string kp_app_family_t;
  st_exe_to_family : gmap string string }.

(** The global [kp_state] together with the objects allocated with
    [g_slice_new]. *)
Record world := {
  kp_state : kp_state_t;
  map_heap : gmap addr kp_map_t;
  exe_heap : gmap addr kp_exe_t;
  markov_heap : gmap addr kp_markov_t;
  next_addr : addr }.

(** What the sources at hand leave open. *)
Record platform := {
  (** common.h: the width of the [%s] that fills [filebuf] *)
  FILELENSTR : nat;
  (** config.h: [(int) strtod (VERSION, NULL)] *)
  VERSION_major : Z;
  (** state.h: the enumerator of the observation pool *)
  POOL_OBSERVATION : Z;
  (** GLib: the file name of a [file:] URI, or an error *)
  g_filename_from_uri : string -> option string;
  (** state.h: the macro that tells whether an exe is running *)
  exe_is_running : kp_state_t -> kp_exe_t -> bool;
  (** what [g_slice_new] leaves in the fields nobody assigned *)
  uninit_int : Z;
  uninit_double : float;
  (** proc.c: the processes [kp_proc_foreach] visits, pid and path *)
  proc_list : list (Z * string);
  (** seeding.c *)
  kp_seed_from_sources : world -> world }.

(** *** Field updates *)

Definition set_refcount (v : Z) (m : kp_map_t) : kp_map_t :=
  {| m_path := m_path m; m_offset := m_offset m; m_length := m_length m;
     m_refcount := v; m_update_time := m_update_time m; m_block := m_block m;
     m_seq := m_seq m |}.
Definition set_map_seq (v : Z) (m : kp_map_t) : kp_map_t :=
  {| m_path := m_path m; m_offset := m_offset m; m_length := m_length m;
     m_refcount := m_refcount m; m_update_time := m_update_time m;
     m_block := m_block m; m_seq := v |}.
Definition set_map_update_time (v : Z) (m : kp_map_t) : kp_map_t :=
  {| m_path := m_path m; m_offset := m_offset m; m_length := m_length m;
     m_refcount := m_refcount m; m_update_time := v; m_block := m_block m;
     m_seq := m_seq m |}.

Definition exe_with (e : kp_exe_t) (seq size tm update_time change_timestamp
    running_timestamp pool : Z) (wl : float) (rl td : Z)
    (xs : list kp_exemap_t) (ms : list addr) : kp_exe_t :=
  {| e_path := e_path e; e_seq := seq; e_size := size; e_time := tm;
     e_update_time := update_time; e_change_timestamp := change_timestamp;
     e_running_timestamp := running_timestamp; e_pool := pool;
     e_weighted_launches := wl; e_raw_launches := rl;
     e_total_duration_sec := td; e_running_pids := e_running_pids e;
     e_exemaps := xs; e_markovs := ms |}.
Definition set_exe_seq (v : Z) (e : kp_exe_t) : kp_exe_t :=
  exe_with e v (e_size e) (e_time e) (e_update_time e) (e_change_timestamp e)
    (e_running_timestamp e) (e_pool e) (e_weighted_launches e) (e_raw_launches e)
    (e_total_duration_sec e) (e_exemaps e) (e_markovs e).
Definition set_exe_size (v : Z) (e : kp_exe_t) : kp_exe_t :=
  exe_with e (e_seq e) v (e_time e) (e_update_time e) (e_change_timestamp e)
    (e_running_timestamp e) (e_pool e) (e_weighted_launches e) (e_raw_launches e)
    (e_total_duration_sec e) (e_exemaps e) (e_markovs e).
Definition set_exe_running_timestamp (v : Z) (e : kp_exe_t) : kp_exe_t :=
  exe_with e (e_seq e) (e_size e) (e_time e) (e_update_time e) (e_change_timestamp e)
    v (e_pool e) (e_weighted_launches e) (e_raw_launches e)
    (e_total_duration_sec e) (e_exemaps e) (e_markovs e).
Definition set_exe_exemaps (v : list kp_exemap_t) (e : kp_exe_t) : kp_exe_t :=
  exe_with e (e_seq e) (e_size e) (e_time e) (e_update_time e) (e_change_timestamp e)
    (e_running_timestamp e) (e_pool e) (e_weighted_launches e) (e_raw_launches e)
    (e_total_duration_sec e) v (e_markovs e).
Definition set_exe_markovs (v : list addr) (e : kp_exe_t) : kp_exe_t :=
  exe_with e (e_seq e) (e_size e) (e_time e) (e_update_time e) (e_change_timestamp e)
    (e_running_timestamp e) (e_pool e) (e_weighted_launches e) (e_raw_launches e)
    (e_total_duration_sec e) (e_exemaps e) v.

Definition set_mk_state (v : Z) (m : kp_markov_t) : kp_markov_t :=
  {| mk_a := mk_a m; mk_b := mk_b m; mk_state := v;
     mk_change_timestamp := mk_change_timestamp m; mk_time := mk_time m;
     mk_time_to_leave := mk_time_to_leave m; mk_weight := mk_weight m |}.
Definition set_mk_change_timestamp (v : Z) (m : kp_markov_t) : kp_markov_t :=
  {| mk_a := mk_a m; mk_b := mk_b m; mk_state := mk_state m;
     mk_change_timestamp := v; mk_time := mk_time m;
     mk_time_to_leave := mk_time_to_leave m; mk_weight := mk_weight m |}.
Definition set_mk_time (v : Z) (m : kp_markov_t) : kp_markov_t :=
  {| mk_a := mk_a m; mk_b := mk_b m; mk_state := mk_state m;
     mk_change_timestamp := mk_change_timestamp m; mk_time := v;
     mk_time_to_leave := mk_time_to_leave m; mk_weight := mk_weight m |}.
Definition set_mk_time_to_leave (v : list float) (m : kp_markov_t) : kp_markov_t :=
  {| mk_a := mk_a m; mk_b := mk_b m; mk_state := mk_state m;
     mk_change_timestamp := mk_change_timestamp m; mk_time := mk_time m;
     mk_time_to_leave := v; mk_weight := mk_weight m |}.
Definition set_mk_weight (v : list (list Z)) (m : kp_markov_t) : kp_markov_t :=
  {| mk_a := mk_a m; mk_b := mk_b m; mk_state := mk_state m;
     mk_change_timestamp := mk_change_timestamp m; mk_time := mk_time m;
     mk_time_to_leave := mk_time_to_leave m; mk_weight := v |}.

Definition state_with (s : kp_state_t) (tm lrt lat mt : Z)
    (ex : gmap string addr) (bad : gmap string Z)
    (mp : gmap (string * Z * Z) addr) (arr run : list addr)
    (mseq eseq : Z) (d md : bool)
    (fam : gmap string kp_app_family_t) (e2f : gmap string string) : kp_state_t :=
  {| st_time := tm; st_last_running_timestamp := lrt;
     st_last_accounting_timestamp := lat; st_memstat_timestamp := mt;
     st_exes := ex; st_bad_exes := bad; st_maps := mp; st_maps_arr := arr;
     st_running_exes := run; st_map_seq := mseq; st_exe_seq := eseq;
     st_dirty := d; st_model_dirty := md; st_app_families := fam;
     st_exe_to_family := e2f |}.
Definition set_st_time (v : Z) (s : kp_state_t) : kp_state_t :=
  state_with s v (st_last_running_timestamp s) (st_last_accounting_timestamp s)
    (st_memstat_timestamp s) (st_exes s) (st_bad_exes s) (st_maps s) (st_maps_arr s)
    (st_running_exes s) (st_map_seq s) (st_exe_seq s) (st_dirty s) (st_model_dirty s)
    (st_app_families s) (st_exe_to_family s).
Definition set_st_last_running_timestamp (v : Z) (s : kp_state_t) : kp_state_t :=
  state_with s (st_time s) v (st_last_accounting_timestamp s)
    (st_memstat_timestamp s) (st_exes s) (st_bad_exes s) (st_maps s) (st_maps_arr s)
    (st_running_exes s) (st_map_seq s) (st_exe_seq s) (st_dirty s) (st_model_dirty s)
    (st_app_families s) (st_exe_to_family s).
Definition set_st_last_accounting_timestamp (v : Z) (s : kp_state_t) : kp_state_t :=
  state_with s (st_time s) (st_last_running_timestamp s) v
    (st_memstat_timestamp s) (st_exes s) (st_bad_exes s) (st_maps s) (st_maps_arr s)
    (st_running_exes s) (st_map_seq s) (st_exe_seq s) (st_dirty s) (st_model_dirty s)
    (st_app_families s) (st_exe_to_family s).
Definition set_st_memstat_timestamp (v : Z) (s : kp_state_t) : kp_state_t :=
  state_with s (st_time s) (st_last_running_timestamp s) (st_last_accounting_timestamp s)
    v (st_exes s) (st_bad_exes s) (st_maps s) (st_maps_arr s)
    (st_running_exes s) (st_map_seq s) (st_exe_seq s) (st_dirty s) (st_model_dirty s)
    (st_app_families s) (st_exe_to_family s).
Definition set_st_exes (v : gmap string addr) (s : kp_state_t) : kp_state_t :=
  state_with s (st_time s) (st_last_running_timestamp s) (st_last_accounting_timestamp s)
    (st_memstat_timestamp s) v (st_bad_exes s) (st_maps s) (st_maps_arr s)
    (st_running_exes s) (st_map_seq s) (st_exe_seq s) (st_dirty s) (st_model_dirty s)
    (st_app_families s) (st_exe_to_family s).
Definition set_st_bad_exes (v : gmap string Z) (s : kp_state_t) : kp_state_t :=
  state_with s (st_time s) (st_last_running_timestamp s) (st_last_accounting_timestamp s)
    (st_memstat_timestamp s) (st_exes s) v (st_maps s) (st_maps_arr s)
    (st_running_exes s) (st_map_seq s) (st_exe_seq s) (st_dirty s) (st_model_dirty s)
    (st_app_families s) (st_exe_to_family s).
Definition set_st_maps (v : gmap (string * Z * Z) addr) (arr : list addr)
    (s : kp_state_t) : kp_state_t :=
  state_with s (st_time s) (st_last_running_timestamp s) (st_last_accounting_timestamp s)
    (st_memstat_timestamp s) (st_exes s) (st_bad_exes s) v arr
    (st_running_exes s) (st_map_seq s) (st_exe_seq s) (st_dirty s) (st_model_dirty s)
    (st_app_families s) (st_exe_to_family s).
Definition set_st_running_exes (v : list addr) (s : kp_state_t) : kp_state_t :=
  state_with s (st_time s) (st_last_running_timestamp s) (st_last_accounting_timestamp s)
    (st_memstat_timestamp s) (st_exes s) (st_bad_exes s) (st_maps s) (st_maps_arr s)
    v (st_map_seq s) (st_exe_seq s) (st_dirty s) (st_model_dirty s)
    (st_app_families s) (st_exe_to_family s).
Definition set_st_map_seq (v : Z) (s : kp_state_t) : kp_state_t :=
  state_with s (st_time s) (st_last_running_timestamp s) (st_last_accounting_timestamp s)
    (st_memstat_timestamp s) (st_exes s) (st_bad_exes s) (st_maps s) (st_maps_arr s)
    (st_running_exes s) v (st_exe_seq s) (st_dirty s) (st_model_dirty s)
    (st_app_families s) (st_exe_to_family s).
Definition set_st_exe_seq (v : Z) (s : kp_state_t) : kp_state_t :=
  state_with s (st_time s) (st_last_running_timestamp s) (st_last_accounting_timestamp s)
    (st_memstat_timestamp s) (st_exes s) (st_bad_exes s) (st_maps s) (st_maps_arr s)
    (st_running_exes s) (st_map_seq s) v (st_dirty s) (st_model_dirty s)
    (st_app_families s) (st_exe_to_family s).
Definition set_st_dirty (v : bool) (s : kp_state_t) : kp_state_t :=
  state_with s (st_time s) (st_last_running_timestamp s) (st_last_accounting_timestamp s)
    (st_memstat_timestamp s) (st_exes s) (st_bad_exes s) (st_maps s) (st_maps_arr s)
    (st_running_exes s) (st_map_seq s) (st_exe_seq s) v (st_model_dirty s)
    (st_app_families s) (st_exe_to_family s).
Definition set_st_model_dirty (v : bool) (s : kp_state_t) : kp_state_t :=
  state_with s (st_time s) (st_last_running_timestamp s) (st_last_accounting_timestamp s)
    (st_memstat_timestamp s) (st_exes s) (st_bad_exes s) (st_maps s) (st_maps_arr s)
    (st_running_exes s) (st_map_seq s) (st_exe_seq s) (st_dirty s) v
    (st_app_families s) (st_exe_to_family s).
Definition set_st_families (fam : gmap string kp_app_family_t)
    (e2f : gmap string string) (s : kp_state_t) : kp_state_t :=
  state_with s (st_time s) (st_last_running_timestamp s) (st_last_accounting_timestamp s)
    (st_memstat_timestamp s) (st_exes s) (st_bad_exes s) (st_maps s) (st_maps_arr s)
    (st_running_exes s) (st_map_seq s) (st_exe_seq s) (st_dirty s) (st_model_dirty s)
    fam e2f.

Definition with_state (f : kp_state_t -> kp_state_t) (w : world) : world :=
  {| kp_state := f (kp_state w); map_heap := map_heap w; exe_heap := exe_heap w;
     markov_heap := markov_heap w; next_addr := next_addr w |}.
Definition with_maps (f : gmap addr kp_map_t -> gmap addr kp_map_t) (w : world) : world :=
  {| kp_state := kp_state w; map_heap := f (map_heap w); exe_heap := exe_heap w;
     markov_heap := markov_heap w; next_addr := next_addr w |}.
Definition with_exes (f : gmap addr kp_exe_t -> gmap addr kp_exe_t) (w : world) : world :=
  {| kp_state := kp_state w; map_heap := map_heap w; exe_heap := f (exe_heap w);
     markov_heap := markov_heap w; next_addr := next_addr w |}.
Definition with_markovs (f : gmap addr kp_markov_t -> gmap addr kp_markov_t)
    (w : world) : world :=
  {| kp_state := kp_state w; map_heap := map_heap w; exe_heap := exe_heap w;
     markov_heap := f (markov_heap w); next_addr := next_addr w |}.
(** [g_slice_new]: the next address is handed out, never a live one. *)
Definition bump (w : world) : world :=
  {| kp_state := kp_state w; map_heap := map_heap w; exe_heap := exe_heap w;
     markov_heap := markov_heap w; next_addr := S (next_addr w) |}.

(** [g_ptr_array_remove]: the first occurrence goes. *)
Fixpoint remove_first (a : addr) (l : list addr) : list addr :=
  match l with
  | [] => []
  | x :: r => if Nat.eqb x a then r else x :: remove_first a r
  end.

(** ** Markov chains: the arithmetic of state.c *)

Definition weight_get (wt : list (list Z)) (i j : Z) : Z :=
  match zlookup wt i with
  | Some row => default 0 (zlookup row j)
  | None => 0
  end.
Definition weight_set (i j v : Z) (wt : list (list Z)) : list (list Z) :=
  match zlookup wt i with
  | Some row => zinsert i (zinsert j v row) wt
  | None => wt
  end.
Definition ttl_get (ttl : list float) (i : Z) : float := default fzero (zlookup ttl i).

(** [kp_markov_state_changed], on the markov alone: [now] is
    [kp_state->time] and [new_state] what the macro [markov_state] gives. *)
Definition markov_state_changed (now new_state : Z) (m : kp_markov_t) : kp_markov_t :=
  if mk_change_timestamp m =? now then m       (* already taken care of *)
  else
    let old_state := mk_state m in
    if old_state =? new_state then m           (* g_return_if_fail *)
    else
      let w_oo := int_add (weight_get (mk_weight m) old_state old_state) 1 in
      let wt1 := weight_set old_state old_state w_oo (mk_weight m) in
      let t_old := ttl_get (mk_time_to_leave m) old_state in
      let t_new :=
        PrimFloat.add t_old
          (PrimFloat.div
             (PrimFloat.sub (Z2F (int_sub now (mk_change_timestamp m))) t_old)
             (Z2F w_oo)) in
      let ttl1 := zinsert old_state t_new (mk_time_to_leave m) in
      let wt2 := weight_set old_state new_state
                   (int_add (weight_get wt1 old_state new_state) 1) wt1 in
      {| mk_a := mk_a m; mk_b := mk_b m; mk_state := new_state;
         mk_change_timestamp := now; mk_time := mk_time m;
         mk_time_to_leave := ttl1; mk_weight := wt2 |}.

(** The value [kp_markov_correlation] computes before its assertion:
    [t] is [kp_state->time], [a] and [b] the running times of the two exes
    and [ab] the time of the markov. *)
Definition correlation (t a b ab : Z) : float :=
  if (a =? 0) || (a =? t) || (b =? 0) || (b =? t) then fzero
  else
    let numerator := PrimFloat.sub (PrimFloat.mul (Z2F t) (Z2F ab))
                                   (PrimFloat.mul (Z2F a) (Z2F b)) in
    let denominator2 :=
      PrimFloat.mul (PrimFloat.mul (Z2F a) (Z2F b))
                    (PrimFloat.mul (Z2F (int_sub t a)) (Z2F (int_sub t b))) in
    PrimFloat.div numerator (PrimFloat.sqrt denominator2).

(** The bound of the assertion, the double nearest to 1.00001. *)
Definition correlation_bound : float := Q2F false 100001 100000.

(** [g_assert (fabs (correlation) <= 1.00001)] *)
Definition correlation_assertion (c : float) : bool :=
  PrimFloat.leb (PrimFloat.abs c) correlation_bound.

(** ** The objects and the tables of state.c

    An address without an object stands for a dangling pointer, which is
    undefined in C: the functions that can abort answer [None] there, the
    others leave the world as it is. *)

Fixpoint fold_opt {A B} (f : B -> A -> option B) (l : list A) (b : B) : option B :=
  match l with
  | [] => Some b
  | x :: r => match f b x with Some b' => fold_opt f r b' | None => None end
  end.

Section Model.
Context (E : platform).

(** *** Maps *)

Definition kp_map_new (path : string) (offset length : Z) (w : world) : addr * world :=
  let a := next_addr w in
  (a, bump (with_maps (insert a
       {| m_path := path; m_offset := offset; m_length := length;
          m_refcount := 0; m_update_time := st_time (kp_state w);
          m_block := -1; m_seq := uninit_int E |}) w)).

Definition kp_map_free (a : addr) (w : world) : world :=
  match map_heap w !! a with
  | Some m => if m_refcount m =? 0 then with_maps (delete a) w else w
  | None => w
  end.

Definition kp_state_register_map (a : addr) (w : world) : world :=
  match map_heap w !! a with
  | Some m =>
      match st_maps (kp_state w) !! map_key m with
      | Some _ => w                              (* g_return_if_fail *)
      | None =>
          let seq := int_add (st_map_seq (kp_state w)) 1 in
          with_maps (insert a (set_map_seq seq m))
            (with_state (fun s =>
               set_st_maps (<[map_key m := a]> (st_maps s)) (st_maps_arr s ++ [a])
                 (set_st_map_seq seq s)) w)
      end
  | None => w
  end.

Definition kp_state_unregister_map (a : addr) (w : world) : world :=
  match map_heap w !! a with
  | Some m =>
      match st_maps (kp_state w) !! map_key m with
      | None => w                                (* g_return_if_fail *)
      | Some _ =>
          with_state (fun s =>
            set_st_maps (delete (map_key m) (st_maps s))
              (remove_first a (st_maps_arr s)) s) w
      end
  | None => w
  end.

Definition kp_map_ref (a : addr) (w : world) : world :=
  match map_heap w !! a with
  | Some m =>
      let w1 := if m_refcount m =? 0 then kp_state_register_map a w else w in
      with_maps (alter (fun m' => set_refcount (int_add (m_refcount m') 1) m') a) w1
  | None => w
  end.

Definition kp_map_unref (a : addr) (w : world) : world :=
  match map_heap w !! a with
  | Some m =>
      if 0 <? m_refcount m then
        let rc := int_sub (m_refcount m) 1 in
        let w1 := with_maps (alter (set_refcount rc) a) w in
        if rc =? 0 then kp_map_free a (kp_state_unregister_map a w1) else w1
      else w                                     (* g_return_if_fail *)
  | None => w
  end.

Definition kp_map_get_size (a : addr) (w : world) : Z :=
  match map_heap w !! a with Some m => m_length m | None => 0 end.

(** *** Exemaps *)

Definition kp_exemap_new (a : addr) (w : world) : kp_exemap_t * world :=
  ({| em_map := a; em_prob := fone |}, kp_map_ref a w).

Definition kp_exemap_free (x : kp_exemap_t) (w : world) : world :=
  kp_map_unref (em_map x) w.

(** *** Markovs *)

(** Modelled from the spec: state.h, with the macro [markov_state], is not
    among the sources; the joint state is the table of the data model
    (1 when a runs, plus 2 when b runs). *)
Definition markov_state (w : world) (m : kp_markov_t) : Z :=
  match exe_heap w !! mk_a m, exe_heap w !! mk_b m with
  | Some ea, Some eb =>
      (if exe_is_running E (kp_state w) ea then 1 else 0)
      + (if exe_is_running E (kp_state w) eb then 2 else 0)
  | _, _ => 0
  end.

Definition kp_markov_state_changed (mk : addr) (w : world) : world :=
  match markov_heap w !! mk with
  | Some m =>
      with_markovs
        (insert mk (markov_state_changed (st_time (kp_state w)) (markov_state w m) m)) w
  | None => w
  end.

Definition add_markov (mk : addr) (e : kp_exe_t) : kp_exe_t :=
  set_exe_markovs (e_markovs e ++ [mk]) e.
Definition remove_markov (mk : addr) (e : kp_exe_t) : kp_exe_t :=
  set_exe_markovs (remove_first mk (e_markovs e)) e.

(** The answer is the new markov, or [None] for the [NULL] that
    [g_return_val_if_fail (a != b, NULL)] returns. *)
Definition kp_markov_new (a b : addr) (initialize : bool) (w : world)
  : option addr * world :=
  if Nat.eqb a b then (None, w)
  else
    match exe_heap w !! a, exe_heap w !! b with
    | Some ea, Some eb =>
        let mk := next_addr w in
        let m0 := {| mk_a := a; mk_b := b; mk_state := uninit_int E;
                     mk_change_timestamp := uninit_int E; mk_time := uninit_int E;
                     mk_time_to_leave := replicate 4 (uninit_double E);
                     mk_weight := replicate 4 (replicate 4 (uninit_int E)) |} in
        let w1 := bump (with_markovs (insert mk m0) w) in
        let w2 :=
          if initialize then
            let now := st_time (kp_state w) in
            let st0 := markov_state w1 m0 in
            let '(ct, st) :=
              if (0 <? e_change_timestamp ea) && (0 <? e_change_timestamp eb) then
                let ct1 := if e_change_timestamp ea <? now
                           then e_change_timestamp ea else now in
                let ct2 := if (e_change_timestamp eb <? now)
                              && (ct1 <? e_change_timestamp eb)
                           then e_change_timestamp ea else ct1 in
                let s1 := if ct2 <? e_change_timestamp ea then Z.lxor st0 1 else st0 in
                let s2 := if ct2 <? e_change_timestamp eb then Z.lxor s1 2 else s1 in
                (ct2, s2)
              else (now, st0) in
            let m1 := {| mk_a := a; mk_b := b; mk_state := st;
                         mk_change_timestamp := ct; mk_time := 0;
                         mk_time_to_leave := replicate 4 fzero;
                         mk_weight := replicate 4 (replicate 4 0) |} in
            kp_markov_state_changed mk (with_markovs (insert mk m1) w1)
          else w1 in
        (Some mk, with_exes (alter (add_markov mk) b)
                    (with_exes (alter (add_markov mk) a) w2))
    | _, _ => (None, w)
    end.

(** [None]: the [g_assert] fails, or the markov is not there. *)
Definition kp_markov_free (mk : addr) (from : option addr) (w : world) : option world :=
  match markov_heap w !! mk with
  | None => None
  | Some m =>
      match from with
      | Some f =>
          if Nat.eqb (mk_a m) f || Nat.eqb (mk_b m) f then
            let other := if Nat.eqb (mk_a m) f then mk_b m else mk_a m in
            Some (with_markovs (delete mk)
                    (with_exes (alter (remove_markov mk) other) w))
          else None
      | None =>
          Some (with_markovs (delete mk)
                  (with_exes (alter (remove_markov mk) (mk_b m))
                     (with_exes (alter (remove_markov mk) (mk_a m)) w)))
      end
  end.

(** [None]: the [g_assert] fails, or an exe is not there. *)
Definition kp_markov_correlation (mk : addr) (w : world) : option float :=
  match markov_heap w !! mk with
  | Some m =>
      match exe_heap w !! mk_a m, exe_heap w !! mk_b m with
      | Some ea, Some eb =>
          let c := correlation (st_time (kp_state w)) (e_time ea) (e_time eb) (mk_time m) in
          if correlation_assertion c then Some c else None
      | _, _ => None
      end
  | None => None
  end.

(** *** Exes *)

Definition exe_add_map_size (w : world) (x : kp_exemap_t) (e : kp_exe_t) : kp_exe_t :=
  set_exe_size (ulong_wrap (e_size e + kp_map_get_size (em_map x) w)) e.

Definition kp_exe_new (path : string) (running : bool) (exemaps : list kp_exemap_t)
    (w : world) : addr * world :=
  let a := next_addr w in
  let ts := if running then st_last_running_timestamp (kp_state w) else -1 in
  let e0 := {| e_path := path; e_seq := uninit_int E; e_size := 0; e_time := 0;
               e_update_time := ts; e_change_timestamp := st_time (kp_state w);
               e_running_timestamp := ts; e_pool := uninit_int E;
               e_weighted_launches := fzero; e_raw_launches := 0;
               e_total_duration_sec := 0; e_running_pids := [];
               e_exemaps := exemaps; e_markovs := [] |} in
  (a, bump (with_exes (insert a (foldl (fun e x => exe_add_map_size w x e) e0 exemaps)) w)).

Definition kp_exe_free (ea : addr) (w : world) : option world :=
  match exe_heap w !! ea with
  | None => None
  | Some e =>
      let w1 := foldl (fun w' x => kp_exemap_free x w') w (e_exemaps e) in
      let w2 := with_exes (alter (set_exe_exemaps []) ea) w1 in
      match fold_opt (fun w' mk => kp_markov_free mk (Some ea) w') (e_markovs e) w2 with
      | Some w3 => Some (with_exes (delete ea) w3)
      | None => None
      end
  end.

(** The new exemap is the last of the set of the exe. *)
Definition kp_exe_map_new (ea a : addr) (w : world) : world :=
  let '(x, w1) := kp_exemap_new a w in
  with_exes (alter (fun e =>
     exe_add_map_size w1 x (set_exe_exemaps (e_exemaps e ++ [x]) e)) ea) w1.

(** [kp_state_register_exe] before its last statement: the sequence
    number and, with [create_markovs], a markov with every exe of the
    table other than the exe itself. *)
Definition register_exe_markovs (ea : addr) (e : kp_exe_t) (create_markovs : bool)
    (w : world) : world :=
  let seq := int_add (st_exe_seq (kp_state w)) 1 in
  let w1 := with_exes (insert ea (set_exe_seq seq e))
              (with_state (set_st_exe_seq seq) w) in
  if create_markovs then
    foldl (fun w' (kv : string * addr) =>
             if Nat.eqb kv.2 ea then w'
             else (kp_markov_new kv.2 ea true w').2)
          w1 (map_to_list (st_exes (kp_state w)))
  else w1.

(** [g_hash_table_insert] on [kp_state->exes], a table that destroys its
    values with [kp_exe_free] and leaves its keys alone: the entry of an
    equal key gets the new value and the exe it held is freed. The table
    keeps the key it had, the path of the exe that is freed; the model
    keeps the string. [None]: [kp_exe_free] does not return. *)
Definition exes_insert (path : string) (ea : addr) (w : world) : option world :=
  let w1 := with_state (fun s => set_st_exes (<[path := ea]> (st_exes s)) s) w in
  match st_exes (kp_state w) !! path with
  | Some old => kp_exe_free old w1
  | None => Some w1
  end.

(** The guard of the C function, [g_hash_table_lookup (kp_state->exes,
    exe)], hands the exe itself, not its path, to a table whose keys are
    path strings: what the table hashes and compares is the memory of the
    structure, which holds no path, so the lookup finds nothing and the
    guard never turns a registration down. An exe whose path is tracked is
    therefore registered like any other: it gets the next sequence number
    and its markovs, and takes the entry of the path, whose exe is freed.
    [None]: the exe is not there, or [kp_exe_free] does not return. *)
Definition kp_state_register_exe (ea : addr) (create_markovs : bool) (w : world)
  : option world :=
  match exe_heap w !! ea with
  | Some e => exes_insert (e_path e) ea (register_exe_markovs ea e create_markovs w)
  | None => None
  end.

(** *** Families *)

Definition kp_family_new (id : string) (mth : Z) : kp_app_family_t :=
  {| family_id := id; member_paths := []; method := mth;
     total_weighted_launches := fzero; total_raw_launches := 0; last_used := 0 |}.

Definition kp_family_add_member (f : kp_app_family_t) (exe_path : string) (w : world)
  : kp_app_family_t * world :=
  if existsb (String.eqb exe_path) (member_paths f) then (f, w)
  else
    ({| family_id := family_id f; member_paths := member_paths f ++ [exe_path];
        method := method f; total_weighted_launches := total_weighted_launches f;
        total_raw_launches := total_raw_launches f; last_used := last_used f |},
     with_state (fun s =>
       set_st_families (st_app_families s)
         (<[exe_path := family_id f]> (st_exe_to_family s)) s) w).

(** *** Reading the state file *)

Definition TAG_PRELOAD : string := "PRELOAD".
Definition TAG_MAP : string := "MAP".
Definition TAG_BADEXE : string := "BADEXE".
Definition TAG_EXE : string := "EXE".
Definition TAG_EXEMAP : string := "EXEMAP".
Definition TAG_MARKOV : string := "MARKOV".
Definition TAG_FAMILY : string := "FAMILY".
Definition TAG_CRC32 : string := "CRC32".

Definition READ_TAG_ERROR : string := "invalid tag".
Definition READ_SYNTAX_ERROR : string := "invalid syntax".
Definition READ_INDEX_ERROR : string := "invalid index".
Definition READ_DUPLICATE_INDEX_ERROR : string := "duplicate index".
Definition READ_DUPLICATE_OBJECT_ERROR : string := "duplicate object".
(** The message of the [GError] that [g_filename_from_uri] sets. *)
Definition URI_ERROR : string := "not an absolute URI using the file scheme".

Record read_context_t := {
  rc_line : string;
  rc_errmsg : option string;
  rc_err : option string;
  rc_maps : gmap Z addr;
  rc_exes : gmap Z addr;
  rc_filebuf : string }.

Definition set_rc_line (v : string) (rc : read_context_t) : read_context_t :=
  {| rc_line := v; rc_errmsg := rc_errmsg rc; rc_err := rc_err rc;
     rc_maps := rc_maps rc; rc_exes := rc_exes rc; rc_filebuf := rc_filebuf rc |}.
Definition set_rc_errmsg (v : string) (rc : read_context_t) : read_context_t :=
  {| rc_line := rc_line rc; rc_errmsg := Some v; rc_err := rc_err rc;
     rc_maps := rc_maps rc; rc_exes := rc_exes rc; rc_filebuf := rc_filebuf rc |}.
Definition set_rc_err (v : string) (rc : read_context_t) : read_context_t :=
  {| rc_line := rc_line rc; rc_errmsg := rc_errmsg rc; rc_err := Some v;
     rc_maps := rc_maps rc; rc_exes := rc_exes rc; rc_filebuf := rc_filebuf rc |}.
Definition set_rc_maps (v : gmap Z addr) (rc : read_context_t) : read_context_t :=
  {| rc_line := rc_line rc; rc_errmsg := rc_errmsg rc; rc_err := rc_err rc;
     rc_maps := v; rc_exes := rc_exes rc; rc_filebuf := rc_filebuf rc |}.
Definition set_rc_exes (v : gmap Z addr) (rc : read_context_t) : read_context_t :=
  {| rc_line := rc_line rc; rc_errmsg := rc_errmsg rc; rc_err := rc_err rc;
     rc_maps := rc_maps rc; rc_exes := v; rc_filebuf := rc_filebuf rc |}.
Definition set_rc_filebuf (v : string) (rc : read_context_t) : read_context_t :=
  {| rc_line := rc_line rc; rc_errmsg := rc_errmsg rc; rc_err := rc_err rc;
     rc_maps := rc_maps rc; rc_exes := rc_exes rc; rc_filebuf := v |}.

Definition fmt_map : list Scan.directive :=
  [Scan.Conv_d; Scan.Ws; Scan.Conv_d; Scan.Ws; Scan.Conv_lu; Scan.Ws; Scan.Conv_lu;
   Scan.Ws; Scan.Conv_d; Scan.Ws; Scan.Conv_s (FILELENSTR E)].

Definition read_map (rc : read_context_t) (w : world) : read_context_t * world :=
  let vs := (Scan.sscanf fmt_map (rc_line rc)).1 in
  let rc := set_rc_filebuf (Scan.store_str vs 5 (rc_filebuf rc)) rc in
  if (length vs <? 6)%nat then (set_rc_errmsg READ_SYNTAX_ERROR rc, w)
  else
    let i := Scan.store_int vs 0 (uninit_int E) in
    let update_time := Scan.store_int vs 1 (uninit_int E) in
    let offset := Scan.store_int vs 2 (uninit_int E) in
    let length := Scan.store_int vs 3 (uninit_int E) in
    match g_filename_from_uri E (rc_filebuf rc) with
    | None => (set_rc_err URI_ERROR rc, w)
    | Some path =>
        let '(a, w1) := kp_map_new path offset length w in
        if bool_decide (is_Some (rc_maps rc !! i)) then
          (set_rc_errmsg READ_DUPLICATE_INDEX_ERROR rc, kp_map_free a w1)
        else if bool_decide (is_Some (st_maps (kp_state w1) !! (path, offset, length))) then
          (set_rc_errmsg READ_DUPLICATE_OBJECT_ERROR rc, kp_map_free a w1)
        else
          let w2 := with_maps (alter (set_map_update_time update_time) a) w1 in
          (set_rc_maps (<[i := a]> (rc_maps rc)) rc, kp_map_ref a w2)
    end.

(** Bad exes are not read in: they get another chance at every start. *)
Definition read_badexe (rc : read_context_t) (w : world) : read_context_t * world :=
  (rc, w).

(** The local variables of [read_exe] that [sscanf] stores into. *)
Record exe_vars := {
  v_i : Z;
  v_update_time : Z;
  v_time : Z;
  v_expansion : Z;
  v_pool : Z;
  v_weighted_launches : float;
  v_raw_launches : Z;
  v_total_duration : Z;
  v_filebuf : string }.

Inductive exe_form := Form9 | Form6 | Form5.

Definition fmt_exe9 : list Scan.directive :=
  [Scan.Conv_d; Scan.Ws; Scan.Conv_d; Scan.Ws; Scan.Conv_d; Scan.Ws; Scan.Conv_d;
   Scan.Ws; Scan.Conv_d; Scan.Ws; Scan.Conv_lf; Scan.Ws; Scan.Conv_lu; Scan.Ws;
   Scan.Conv_lu; Scan.Ws; Scan.Conv_s (FILELENSTR E)].
Definition fmt_exe6 : list Scan.directive :=
  [Scan.Conv_d; Scan.Ws; Scan.Conv_d; Scan.Ws; Scan.Conv_d; Scan.Ws; Scan.Conv_d;
   Scan.Ws; Scan.Conv_d; Scan.Ws; Scan.Conv_s (FILELENSTR E)].
Definition fmt_exe5 : list Scan.directive :=
  [Scan.Conv_d; Scan.Ws; Scan.Conv_d; Scan.Ws; Scan.Conv_d; Scan.Ws; Scan.Conv_d;
   Scan.Ws; Scan.Conv_s (FILELENSTR E)].

(** The declarations of [read_exe]: what is initialised, and the buffer
    of the context. *)
Definition exe_vars_init (rc : read_context_t) : exe_vars :=
  {| v_i := uninit_int E; v_update_time := uninit_int E; v_time := uninit_int E;
     v_expansion := uninit_int E; v_pool := POOL_OBSERVATION E;
     v_weighted_launches := fzero; v_raw_launches := 0; v_total_duration := 0;
     v_filebuf := rc_filebuf rc |}.

Definition assign_exe9 (vs : list Scan.value) (x : exe_vars) : exe_vars :=
  {| v_i := Scan.store_int vs 0 (v_i x);
     v_update_time := Scan.store_int vs 1 (v_update_time x);
     v_time := Scan.store_int vs 2 (v_time x);
     v_expansion := Scan.store_int vs 3 (v_expansion x);
     v_pool := Scan.store_int vs 4 (v_pool x);
     v_weighted_launches := Scan.store_double vs 5 (v_weighted_launches x);
     v_raw_launches := Scan.store_int vs 6 (v_raw_launches x);
     v_total_duration := Scan.store_int vs 7 (v_total_duration x);
     v_filebuf := Scan.store_str vs 8 (v_filebuf x) |}.
Definition assign_exe6 (vs : list Scan.value) (x : exe_vars) : exe_vars :=
  {| v_i := Scan.store_int vs 0 (v_i x);
     v_update_time := Scan.store_int vs 1 (v_update_time x);
     v_time := Scan.store_int vs 2 (v_time x);
     v_expansion := Scan.store_int vs 3 (v_expansion x);
     v_pool := Scan.store_int vs 4 (v_pool x);
     v_weighted_launches := v_weighted_launches x;
     v_raw_launches := v_raw_launches x;
     v_total_duration := v_total_duration x;
     v_filebuf := Scan.store_str vs 5 (v_filebuf x) |}.
Definition assign_exe5 (vs : list Scan.value) (x : exe_vars) : exe_vars :=
  {| v_i := Scan.store_int vs 0 (v_i x);
     v_update_time := Scan.store_int vs 1 (v_update_time x);
     v_time := Scan.store_int vs 2 (v_time x);
     v_expansion := Scan.store_int vs 3 (v_expansion x);
     v_pool := v_pool x;
     v_weighted_launches := v_weighted_launches x;
     v_raw_launches := v_raw_launches x;
     v_total_duration := v_total_duration x;
     v_filebuf := Scan.store_str vs 4 (v_filebuf x) |}.
Definition set_v_pool (v : Z) (x : exe_vars) : exe_vars :=
  {| v_i := v_i x; v_update_time := v_update_time x; v_time := v_time x;
     v_expansion := v_expansion x; v_pool := v;
     v_weighted_launches := v_weighted_launches x;
     v_raw_launches := v_raw_launches x; v_total_duration := v_total_duration x;
     v_filebuf := v_filebuf x |}.

(** The three [sscanf] calls of [read_exe], the widest format first; the
    variables keep what an earlier, failed call has stored. [None]: none of
    the formats matches. *)
Definition scan_exe (line : string) (x0 : exe_vars) : option exe_form * exe_vars :=
  let vs9 := (Scan.sscanf fmt_exe9 line).1 in
  let x1 := assign_exe9 vs9 x0 in
  if (9 <=? length vs9)%nat then (Some Form9, x1)
  else
    let vs6 := (Scan.sscanf fmt_exe6 line).1 in
    let x2 := assign_exe6 vs6 x1 in
    if (6 <=? length vs6)%nat then (Some Form6, x2)
    else
      let vs5 := (Scan.sscanf fmt_exe5 line).1 in
      let x3 := assign_exe5 vs5 x2 in
      if (length vs5 <? 5)%nat then (None, x3)
      else (Some Form5, set_v_pool (POOL_OBSERVATION E) x3).

Definition read_exe (rc : read_context_t) (w : world) : option (read_context_t * world) :=
  let '(form, x) := scan_exe (rc_line rc) (exe_vars_init rc) in
  let rc := set_rc_filebuf (v_filebuf x) rc in
  match form with
  | None => Some (set_rc_errmsg READ_SYNTAX_ERROR rc, w)
  | Some _ =>
      match g_filename_from_uri E (rc_filebuf rc) with
      | None => Some (set_rc_err URI_ERROR rc, w)
      | Some path =>
          let '(ea, w1) := kp_exe_new path false [] w in
          let w2 := with_exes (alter (fun e =>
                      exe_with e (e_seq e) (e_size e) (e_time e) (e_update_time e)
                        (-1) (e_running_timestamp e) (v_pool x)
                        (v_weighted_launches x) (v_raw_launches x)
                        (v_total_duration x) (e_exemaps e) (e_markovs e)) ea) w1 in
          if bool_decide (is_Some (rc_exes rc !! v_i x)) then
            match kp_exe_free ea w2 with
            | Some w3 => Some (set_rc_errmsg READ_DUPLICATE_INDEX_ERROR rc, w3)
            | None => None
            end
          else if bool_decide (is_Some (st_exes (kp_state w2) !! path)) then
            match kp_exe_free ea w2 with
            | Some w3 => Some (set_rc_errmsg READ_DUPLICATE_OBJECT_ERROR rc, w3)
            | None => None
            end
          else
            let w3 := with_exes (alter (fun e =>
                        exe_with e (e_seq e) (e_size e) (v_time x) (v_update_time x)
                          (e_change_timestamp e) (e_running_timestamp e) (e_pool e)
                          (e_weighted_launches e) (e_raw_launches e)
                          (e_total_duration_sec e) (e_exemaps e) (e_markovs e)) ea) w2 in
            match kp_state_register_exe ea false w3 with
            | Some w4 => Some (set_rc_exes (<[v_i x := ea]> (rc_exes rc)) rc, w4)
            | None => None
            end
      end
  end.

Definition set_last_prob (p : float) (xs : list kp_exemap_t) : list kp_exemap_t :=
  match xs with
  | [] => []
  | _ => <[pred (length xs) := {| em_map := default 0%nat (em_map <$> last xs);
                                  em_prob := p |}]> xs
  end.

Definition read_exemap (rc : read_context_t) (w : world) : read_context_t * world :=
  let vs := (Scan.sscanf [Scan.Conv_d; Scan.Ws; Scan.Conv_d; Scan.Ws; Scan.Conv_lf]
               (rc_line rc)).1 in
  if (length vs <? 3)%nat then (set_rc_errmsg READ_SYNTAX_ERROR rc, w)
  else
    let iexe := Scan.store_int vs 0 (uninit_int E) in
    let imap := Scan.store_int vs 1 (uninit_int E) in
    let prob := Scan.store_double vs 2 (uninit_double E) in
    match rc_exes rc !! iexe, rc_maps rc !! imap with
    | Some ea, Some a =>
        (rc, with_exes (alter (fun e =>
                 set_exe_exemaps (set_last_prob prob (e_exemaps e)) e) ea)
               (kp_exe_map_new ea a w))
    | _, _ => (set_rc_errmsg READ_INDEX_ERROR rc, w)
    end.

(** [n] times [sscanf (line, "%lg%n", ...)], each from where the one
    before stopped: the values read until the first failure. *)
Fixpoint scan_doubles (n : nat) (line : string) : list float * string :=
  match n with
  | O => ([], line)
  | S n' =>
      match Scan.sscanf [Scan.Conv_lf] line with
      | ([Scan.VDouble x], r) => let '(xs, r') := scan_doubles n' r in (x :: xs, r')
      | _ => ([], line)
      end
  end.
Fixpoint scan_ints (n : nat) (line : string) : list Z * string :=
  match n with
  | O => ([], line)
  | S n' =>
      match Scan.sscanf [Scan.Conv_d] line with
      | ([Scan.VInt x], r) => let '(xs, r') := scan_ints n' r in (x :: xs, r')
      | _ => ([], line)
      end
  end.

Fixpoint rows_of (n : nat) (l : list Z) : list (list Z) :=
  match n with
  | O => []
  | S n' => take 4 l :: rows_of n' (drop 4 l)
  end.

(** [None]: [kp_markov_new] answers [NULL] (both indexes name one exe) and
    the store into [markov->time] faults, or an assertion fails. On a
    syntax error the markov is freed, and what was stored in it is lost
    with it. *)
Definition read_markov (rc : read_context_t) (w : world) : option (read_context_t * world) :=
  let '(vs, rest) := Scan.sscanf [Scan.Conv_d; Scan.Ws; Scan.Conv_d; Scan.Ws; Scan.Conv_d]
                       (rc_line rc) in
  if (length vs <? 3)%nat then Some (set_rc_errmsg READ_SYNTAX_ERROR rc, w)
  else
    let ia := Scan.store_int vs 0 (uninit_int E) in
    let ib := Scan.store_int vs 1 (uninit_int E) in
    let tm := Scan.store_int vs 2 (uninit_int E) in
    let rc := set_rc_line rest rc in
    match rc_exes rc !! ia, rc_exes rc !! ib with
    | Some a, Some b =>
        match kp_markov_new a b false w with
        | (None, _) => None
        | (Some mk, w1) =>
            let w2 := with_markovs (alter (set_mk_time tm) mk) w1 in
            let '(ds, r1) := scan_doubles 4 (rc_line rc) in
            if (length ds <? 4)%nat then
              match kp_markov_free mk None w2 with
              | Some w3 => Some (set_rc_errmsg READ_SYNTAX_ERROR (set_rc_line r1 rc), w3)
              | None => None
              end
            else
              let w3 := with_markovs (alter (set_mk_time_to_leave ds) mk) w2 in
              let '(ws, r2) := scan_ints 16 r1 in
              if (length ws <? 16)%nat then
                match kp_markov_free mk None w3 with
                | Some w4 => Some (set_rc_errmsg READ_SYNTAX_ERROR (set_rc_line r2 rc), w4)
                | None => None
                end
              else
                Some (set_rc_line r2 rc,
                      with_markovs (alter (set_mk_weight (rows_of 4 ws)) mk) w3)
        end
    | _, _ => Some (set_rc_errmsg READ_INDEX_ERROR rc, w)
    end.

(** The checksum is parsed but not compared with anything; a line that
    does not parse is logged and accepted as well. *)
Definition read_crc32 (rc : read_context_t) (w : world) : read_context_t * world :=
  (rc, w).

(** [strtok]: the pieces of [s] between the delimiters [d], empty pieces
    left out. [cur] collects the piece being read, in reverse. *)
Fixpoint strtok_all (d : ascii) (s : string) (cur : list ascii) : list string :=
  let flush (r : list string) :=
    match cur with [] => r | _ => string_of_list_ascii (rev cur) :: r end in
  match s with
  | EmptyString => flush []
  | String c r =>
      if Ascii.eqb c d then flush (strtok_all d r [])
      else strtok_all d r (c :: cur)
  end.

Fixpoint skip_spaces (s : string) : string :=
  match s with
  | String c r => if Ascii.eqb c " " then skip_spaces r else s
  | EmptyString => s
  end.

Definition read_family (rc : read_context_t) (w : world) : read_context_t * world :=
  let vs := (Scan.sscanf [Scan.Conv_s 255; Scan.Ws; Scan.Conv_d; Scan.Ws;
                          Scan.Conv_set_not "010" 4095] (rc_line rc)).1 in
  if (length vs <? 3)%nat then (set_rc_errmsg READ_SYNTAX_ERROR rc, w)
  else
    let id := Scan.store_str vs 0 EmptyString in
    let method_int := Scan.store_int vs 1 (uninit_int E) in
    let members_str := Scan.store_str vs 2 EmptyString in
    let '(family, w1) :=
      foldl (fun (fw : kp_app_family_t * world) tok =>
               let tok' := skip_spaces tok in
               match tok' with
               | EmptyString => fw
               | _ => kp_family_add_member fw.1 tok' fw.2
               end)
            (kp_family_new id method_int, w)
            (strtok_all ";" members_str []) in
    (rc, with_state (fun s =>
           set_st_families (<[id := family]> (st_app_families s))
             (st_exe_to_family s) s) w1).

Fixpoint string_drop (n : nat) (s : string) : string :=
  match n, s with
  | S n', String _ r => string_drop n' r
  | _, _ => s
  end.

Definition rc_failed (rc : read_context_t) : bool :=
  bool_decide (is_Some (rc_err rc)) || bool_decide (is_Some (rc_errmsg rc)).

(** One turn of the loop of [read_state], after the tag has been read and
    skipped: the flag tells whether the loop is left by [break]. *)
Definition read_record (lineno : Z) (first : option ascii) (tag : string)
    (rc : read_context_t) (w : world) : option (bool * read_context_t * world) :=
  if (lineno =? 1) && negb (String.eqb tag TAG_PRELOAD) then
    Some (true, rc, w)                 (* invalid header, ignoring it *)
  else if String.eqb tag TAG_PRELOAD then
    let vs := (Scan.sscanf [Scan.Conv_d; Scan.Lit "."; Scan.Skip_set_not "009";
                            Scan.Ws; Scan.Conv_d] (rc_line rc)).1 in
    if negb (lineno =? 1) || (length vs <? 2)%nat then
      Some (true, set_rc_errmsg READ_SYNTAX_ERROR rc, w)
    else
      let major_ver_read := Scan.store_int vs 0 (uninit_int E) in
      let tm := Scan.store_int vs 1 (uninit_int E) in
      if VERSION_major E <? major_ver_read then Some (true, rc, w)
      else if major_ver_read <? VERSION_major E then Some (true, rc, w)
      else
        Some (false, rc,
              with_state (fun s => set_st_last_accounting_timestamp tm (set_st_time tm s)) w)
  else if String.eqb tag TAG_MAP then
    let '(rc', w') := read_map rc w in Some (false, rc', w')
  else if String.eqb tag TAG_BADEXE then
    let '(rc', w') := read_badexe rc w in Some (false, rc', w')
  else if String.eqb tag TAG_EXE then
    match read_exe rc w with Some (rc', w') => Some (false, rc', w') | None => None end
  else if String.eqb tag TAG_EXEMAP then
    let '(rc', w') := read_exemap rc w in Some (false, rc', w')
  else if String.eqb tag TAG_MARKOV then
    match read_markov rc w with Some (rc', w') => Some (false, rc', w') | None => None end
  else if String.eqb tag TAG_FAMILY then
    let '(rc', w') := read_family rc w in Some (false, rc', w')
  else if String.eqb tag TAG_CRC32 then
    let '(rc', w') := read_crc32 rc w in Some (false, rc', w')
  else
    match first with
    | Some c =>
        if negb (Ascii.eqb c "#") then Some (true, set_rc_errmsg READ_TAG_ERROR rc, w)
        else Some (false, rc, w)
    | None => Some (false, rc, w)
    end.

Definition first_char (s : string) : option ascii :=
  match s with String c _ => Some c | EmptyString => None end.

(** The loop of [read_state] over the lines that
    [g_io_channel_read_line_string] delivers. The flag of the answer tells
    whether the loop was left before the end of the file (by [break], or
    by its condition). *)
Fixpoint read_lines (lines : list string) (lineno : Z) (rc : read_context_t) (w : world)
  : option (bool * Z * read_context_t * world) :=
  match lines with
  | [] => Some (false, lineno, rc, w)
  | l :: rest =>
      if rc_failed rc then Some (true, lineno, rc, w)
      else
        let lineno := int_add lineno 1 in
        let rc := set_rc_line l rc in
        match Scan.sscanf [Scan.Conv_s 31] l with
        | ([Scan.VStr tag], _) =>
            let rc := set_rc_line (string_drop (String.length tag) l) rc in
            match read_record lineno (first_char l) tag rc w with
            | Some (true, rc', w') => Some (true, lineno, rc', w')
            | Some (false, rc', w') => read_lines rest lineno rc' w'
            | None => None
            end
        | _ => Some (true, lineno, set_rc_errmsg READ_TAG_ERROR rc, w)
        end
  end.

Definition set_running_process_callback (path : string) (tm : Z) (w : world) : world :=
  match st_exes (kp_state w) !! path with
  | Some ea =>
      with_state (fun s => set_st_running_exes (ea :: st_running_exes s) s)
        (with_exes (alter (set_exe_running_timestamp tm) ea) w)
  | None => w
  end.

Definition set_markov_state_callback (mk : addr) (w : world) : world :=
  match markov_heap w !! mk with
  | Some m => with_markovs (insert mk (set_mk_state (markov_state w m) m)) w
  | None => w
  end.

(** Every markov once: from the exe that is its [a]. *)
Definition kp_markov_foreach (f : addr -> world -> world) (w : world) : world :=
  foldl (fun w' (kv : string * addr) =>
           match exe_heap w' !! kv.2 with
           | Some e =>
               foldl (fun w'' mk =>
                        match markov_heap w'' !! mk with
                        | Some m => if Nat.eqb (mk_a m) kv.2 then f mk w'' else w''
                        | None => w''
                        end) w' (e_markovs e)
           | None => w'
           end)
        w (map_to_list (st_exes (kp_state w))).

Definition rc_init : read_context_t :=
  {| rc_line := EmptyString; rc_errmsg := None; rc_err := None;
     rc_maps := ∅; rc_exes := ∅; rc_filebuf := EmptyString |}.

(** The answer of [read_state]: the line and the message of the error, if
    any. [None]: the process does not survive the file. *)
Definition read_state (lines : list string) (w : world)
  : option (option (Z * string) * world) :=
  match read_lines lines 0 rc_init w with
  | None => None
  | Some (_, lineno, rc, w1) =>
      (* g_hash_table_destroy (rc.maps), with kp_map_unref on every value *)
      let w2 := foldl (fun w' (kv : Z * addr) => kp_map_unref kv.2 w') w1
                  (map_to_list (rc_maps rc)) in
      let errmsg :=
        match rc_err rc with
        | Some msg => Some (lineno, msg)
        | None => match rc_errmsg rc with
                  | Some msg => Some (lineno, msg)
                  | None => None
                  end
        end in
      match errmsg with
      | Some _ => Some (errmsg, w2)
      | None =>
          let tm := st_time (kp_state w2) in
          let w3 := foldl (fun w' (p : Z * string) =>
                             set_running_process_callback p.2 tm w') w2 (proc_list E) in
          let w4 := with_state (set_st_last_running_timestamp tm) w3 in
          Some (None, kp_markov_foreach set_markov_state_callback w4)
      end
  end.

(** *** Loading and saving *)

(** The system calls of the persistence layer that matter here, each with
    its outcome. [SysWriteState] stands for all that [write_state] writes
    and flushes: the text rendering of the world it is given. *)
Inductive syscall :=
| SysOpen (path : string) (ok : bool)
| SysWriteState (path : string) (content : world) (ok : bool)
| SysFsync (path : string) (ok : bool)
| SysClose (path : string)
| SysRename (src dst : string) (ok : bool)
| SysUnlink (path : string).

(** What [g_io_channel_new_file] finds. *)
Inductive open_result :=
| OpenOk (lines : list string)
| OpenAcces
| OpenNoent
| OpenOther.

Record load_io := {
  lio_open : open_result;
  lio_timestamp : string;        (* strftime of the time of the load *)
  lio_rename_ok : bool }.

(** [memset (kp_state, 0, ...)] and the fresh tables of [kp_state_load]. *)
Definition world_init : world :=
  {| kp_state :=
       {| st_time := 0; st_last_running_timestamp := 0;
          st_last_accounting_timestamp := 0; st_memstat_timestamp := 0;
          st_exes := ∅; st_bad_exes := ∅; st_maps := ∅; st_maps_arr := [];
          st_running_exes := []; st_map_seq := 0; st_exe_seq := 0;
          st_dirty := false; st_model_dirty := false;
          st_app_families := ∅; st_exe_to_family := ∅ |};
     map_heap := ∅; exe_heap := ∅; markov_heap := ∅; next_addr := 0%nat |}.

Definition broken_path (statefile timestamp : string) : string :=
  (statefile ++ ".broken." ++ timestamp)%string.

Definition handle_corrupt_statefile (statefile : string) (io : load_io) : list syscall :=
  [SysRename statefile (broken_path statefile (lio_timestamp io)) (lio_rename_ok io)].

(** The memory statistics that the function fetches at its end are not
    part of the model. [None]: the process does not survive the file. *)
Definition kp_state_load (statefile : option string) (io : load_io)
  : option (world * list syscall) :=
  let loaded : option (bool * world * list syscall) :=
    match statefile with
    | Some sf =>
        if negb (String.eqb sf EmptyString) then
          match lio_open io with
          | OpenOk lines =>
              match read_state lines world_init with
              | None => None
              | Some (Some _, w1) => Some (true, w1, handle_corrupt_statefile sf io)
              | Some (None, w1) => Some (false, w1, [])
              end
          | OpenNoent => Some (true, world_init, [])
          | OpenAcces | OpenOther => Some (false, world_init, [])
          end
        else Some (false, world_init, [])
    | None => Some (false, world_init, [])
    end in
  match loaded with
  | None => None
  | Some (state_was_empty, w1, ev) =>
      let w2 := if state_was_empty || (size (st_exes (kp_state w1)) =? 0)%nat
                then kp_seed_from_sources E w1 else w1 in
      Some (with_state (fun s => set_st_memstat_timestamp (st_time s) s) w2, ev)
  end.

Record save_io := {
  sio_open_ok : bool;
  sio_write_error : option string;   (* the error message of write_state *)
  sio_fsync_ok : bool;
  sio_rename_ok : bool }.

Definition kp_state_save (statefile : option string) (io : save_io) (w : world)
  : world * list syscall :=
  let '(w1, ev) :=
    match statefile with
    | Some sf =>
        if st_dirty (kp_state w) && negb (String.eqb sf EmptyString) then
          let tmpfile := (sf ++ ".tmp")%string in
          let ev :=
            if negb (sio_open_ok io) then [SysOpen tmpfile false]
            else
              match sio_write_error io with
              | Some _ =>
                  [SysOpen tmpfile true; SysWriteState tmpfile w false;
                   SysClose tmpfile; SysUnlink tmpfile]
              | None =>
                  [SysOpen tmpfile true; SysWriteState tmpfile w true;
                   SysFsync tmpfile (sio_fsync_ok io); SysClose tmpfile;
                   SysRename tmpfile sf (sio_rename_ok io)]
                  ++ (if sio_rename_ok io then [] else [SysUnlink tmpfile])
              end in
          (with_state (set_st_dirty false) w, ev)
        else (w, [])
    | None => (w, [])
    end in
  (* clean up bad exes once in a while *)
  (with_state (set_st_bad_exes ∅) w1, ev).

End Model.

(** ** The pause state (pause.c) *)

Record pause_state_t := {
  active : bool;
  expiry : Z;
  initialized : bool }.

(** The pause state of the daemon and the content of the pause file, if
    the file exists. [unlink] is taken to succeed. *)
Definition pause_env : Type := pause_state_t * option string.

Definition set_pause (a : bool) (e : Z) (p : pause_env) : pause_state_t :=
  {| active := a; expiry := e; initialized := initialized p.1 |}.

(** [now] is what [time (NULL)] answers. *)
Definition load_pause_file (now : Z) (p : pause_env) : pause_env :=
  match p.2 with
  | None => (set_pause false (-1) p, None)
  | Some content =>
      match Scan.conv_ld content with
      | None => (set_pause false (-1) p, None)
      | Some (e, _) =>
          if e =? 0 then (set_pause true 0 p, p.2)
          else if now <? e then (set_pause true e p, p.2)
          else (set_pause false (-1) p, None)
      end
  end.

Definition kp_pause_init (now : Z) (p : pause_env) : pause_env :=
  load_pause_file now
    ({| active := active p.1; expiry := expiry p.1; initialized := true |}, p.2).

Definition kp_pause_clear (p : pause_env) : pause_env :=
  (set_pause false (-1) p, None).

Definition kp_pause_is_active (now : Z) (p : pause_env) : bool * pause_env :=
  let p1 := if initialized p.1 then p else kp_pause_init now p in
  if negb (active p1.1) then (false, p1)
  else if expiry p1.1 =? 0 then (true, p1)
  else if expiry p1.1 <=? now then (false, kp_pause_clear p1)
  else (true, p1).

(** [fopen_ok] tells whether the pause file can be opened for writing;
    when it cannot, the function warns and the file stays as it is. *)
Definition save_pause_file (fopen_ok : bool) (e : Z) (file : option string)
  : option string :=
  if fopen_ok then Some (Scan.show_long e ++ String "010" EmptyString)%string
  else file.

Definition kp_pause_set (now duration_sec : Z) (fopen_ok : bool) (p : pause_env)
  : pause_env :=
  let p1 := if initialized p.1 then p else kp_pause_init now p in
  let e := if duration_sec =? 0 then 0 else long_wrap (now + duration_sec) in
  (set_pause true e p1, save_pause_file fopen_ok e p1.2).

(** ** The periodic tasks and the signals (state.c, signals.c) *)

Record kp_conf_t := {
  cycle : Z;           (* model.cycle *)
  doscan : bool;       (* system.doscan *)
  dopredict : bool;    (* system.dopredict *)
  autosave : Z }.      (* system.autosave *)

(** The calls that leave this module. *)
Inductive call :=
| CallSpyScan
| CallSpyUpdateModel
| CallSessionCheck
| CallSessionPreloadTopApps (max_apps : Z)
| CallProphetPredict
| CallConfigLoad
| CallBlacklistReload
| CallRegisterManualApps
| CallLogReopen
| CallStateDumpLog
| CallConfigDumpLog
| CallStatsDumpToFile
| CallMainLoopQuit.

Inductive timer := TimerTick | TimerTick2 | TimerAutosave.

Inductive signal := SIGHUP | SIGUSR1 | SIGUSR2 | SIGTERM | SIGINT | SIGQUIT.

Section Daemon.
Context (E : platform).
(** The private state of the components this module calls (the scanner,
    the predictor, the session detector), and what their functions do to
    it and to the world. *)
Context {X : Type}.
Context (kp_spy_scan kp_spy_update_model kp_prophet_predict : X * world -> X * world).
Context (kp_session_check : X -> X) (kp_session_in_boot_window : X -> bool).
Context (kp_session_preload_top_apps : Z -> X * world -> X * world).

Record daemon := {
  d_world : world;
  d_conf : kp_conf_t;
  d_pause : pause_env;
  d_ext : X;
  d_calls : list call;               (* the calls made, the latest last *)
  d_timers : list (Z * timer);       (* g_timeout_add_seconds, the latest last *)
  d_syscalls : list syscall }.

Definition daemon_with (d : daemon) (w : world) (p : pause_env) (x : X)
    (cs : list call) (ts : list (Z * timer)) (sc : list syscall) : daemon :=
  {| d_world := w; d_conf := d_conf d; d_pause := p; d_ext := x; d_calls := cs;
     d_timers := ts; d_syscalls := sc |}.

(** A call of a function of another component. *)
Definition extern (c : call) (f : X * world -> X * world) (d : daemon) : daemon :=
  let '(x, w) := f (d_ext d, d_world d) in
  daemon_with d w (d_pause d) x (d_calls d ++ [c]) (d_timers d) (d_syscalls d).

Definition on_world (f : world -> world) (d : daemon) : daemon :=
  daemon_with d (f (d_world d)) (d_pause d) (d_ext d) (d_calls d) (d_timers d)
    (d_syscalls d).

Definition add_timer (delay : Z) (t : timer) (d : daemon) : daemon :=
  daemon_with d (d_world d) (d_pause d) (d_ext d) (d_calls d)
    (d_timers d ++ [(delay, t)]) (d_syscalls d).

(** Tick2: update the model after half a cycle. *)
Definition kp_state_tick2 (d : daemon) : daemon :=
  let d1 :=
    if st_model_dirty (kp_state (d_world d)) then
      on_world (with_state (set_st_model_dirty false))
        (extern CallSpyUpdateModel kp_spy_update_model d)
    else d in
  let half := int_div (int_add (cycle (d_conf d1)) 1) 2 in
  add_timer half TimerTick
    (on_world (with_state (fun s => set_st_time (int_add (st_time s) half) s)) d1).

(** Tick: scan and predict. [now] is the time of day during the tick. *)
Definition kp_state_tick (now : Z) (d : daemon) : daemon :=
  let d1 :=
    if doscan (d_conf d) then
      on_world (with_state (fun s => set_st_dirty true (set_st_model_dirty true s)))
        (extern CallSpyScan kp_spy_scan d)
    else d in
  let d2 :=
    if dopredict (d_conf d1) then
      let '(paused, p) := kp_pause_is_active now (d_pause d1) in
      let d1' := daemon_with d1 (d_world d1) p (d_ext d1) (d_calls d1) (d_timers d1)
                   (d_syscalls d1) in
      if paused then d1'              (* preloading paused - skipping prediction *)
      else
        let d3 := extern CallSessionCheck (fun xw => (kp_session_check xw.1, xw.2)) d1' in
        let d4 := if kp_session_in_boot_window (d_ext d3)
                  then extern (CallSessionPreloadTopApps 5)
                         (kp_session_preload_top_apps 5) d3
                  else d3 in
        extern CallProphetPredict kp_prophet_predict d4
    else d1 in
  let half := int_div (cycle (d_conf d2)) 2 in
  add_timer half TimerTick2
    (on_world (with_state (fun s => set_st_time (int_add (st_time s) half) s)) d2).

Definition kp_state_autosave (autosave_statefile : option string) (io : save_io)
    (d : daemon) : daemon :=
  let '(w, ev) := kp_state_save autosave_statefile io (d_world d) in
  add_timer (autosave (d_conf d)) TimerAutosave
    (daemon_with d w (d_pause d) (d_ext d) (d_calls d) (d_timers d)
       (d_syscalls d ++ ev)).

(** The functions that the other branches of [sig_handler_sync] call are
    not among the sources; their calls are recorded. *)
Definition sig_handler_sync (sig : signal) (statefile : option string) (io : save_io)
    (d : daemon) : daemon :=
  let called (cs : list call) :=
    daemon_with d (d_world d) (d_pause d) (d_ext d) (d_calls d ++ cs) (d_timers d)
      (d_syscalls d) in
  match sig with
  | SIGHUP => called [CallConfigLoad; CallBlacklistReload; CallRegisterManualApps;
                      CallLogReopen]
  | SIGUSR1 => called [CallStateDumpLog; CallConfigDumpLog; CallStatsDumpToFile]
  | SIGUSR2 =>
      let '(w, ev) := kp_state_save statefile io (d_world d) in
      daemon_with d w (d_pause d) (d_ext d) (d_calls d) (d_timers d) (d_syscalls d ++ ev)
  | _ => called [CallMainLoopQuit]
  end.

End Daemon.

(** ** Predicates of the specification *)

(** The arrays of a markov have their four states. *)
Definition weight_wf (wt : list (list Z)) : Prop :=
  length wt = 4%nat /\ Forall (fun r => length r = 4%nat) wt.
Definition markov_wf (m : kp_markov_t) : Prop :=
  length (mk_time_to_leave m) = 4%nat /\ weight_wf (mk_weight m).

(** A function of another component that leaves the logical time alone. *)
Definition keeps_time {X} (f : X * world -> X * world) : Prop :=
  forall xw, st_time (kp_state (f xw).2) = st_time (kp_state xw.2).

(** The pause is active and not expired at the time [now]: in the state of
    the daemon or, when that has not been initialised yet, in the pause
    file it is about to read. *)
Definition pause_unexpired (now : Z) (p : pause_env) : Prop :=
  (initialized p.1 = true /\ active p.1 = true
   /\ (expiry p.1 = 0 \/ now < expiry p.1))
  \/ (initialized p.1 = false
      /\ exists content e r,
           p.2 = Some content /\ Scan.conv_ld content = Some (e, r)
           /\ (e = 0 \/ now < e)).

(** The save reaches the state file: it opens the temporary file that is
    to replace it. *)
Definition writes_state_file (sf : string) (ev : list syscall) : Prop :=
  In (SysOpen (sf ++ ".tmp") true) ev \/ In (SysOpen (sf ++ ".tmp") false) ev.

(** The save replaces the state file by what [write_state] writes of the
    world [w]: the temporary file is opened, written, synced, closed and
    renamed over the state file. *)
Definition replaces_state_file (sf : string) (w : world) (ev : list syscall) : Prop :=
  exists synced,
    ev = [SysOpen (sf ++ ".tmp") true; SysWriteState (sf ++ ".tmp") w true;
          SysFsync (sf ++ ".tmp") synced; SysClose (sf ++ ".tmp");
          SysRename (sf ++ ".tmp") sf true].

(** The save fails for want of a resource. *)
Definition save_fails (io : save_io) : Prop :=
  sio_open_ok io = false \/ is_Some (sio_write_error io) \/ sio_rename_ok io = false.


(** The state file has been renamed aside. *)
Definition quarantined (sf : string) (io : load_io) (ev : list syscall) : Prop :=
  In (SysRename sf (broken_path sf (lio_timestamp io)) true) ev.



(** The contract of [g_filename_from_uri] that the reader relies on: a URI
    that it accepts uses the [file] scheme. *)
Definition uri_scheme (E : platform) : Prop :=
  forall s p, g_filename_from_uri E s = Some p ->
              is_Some (Scan.strip_case_prefix "file:/" s).

(** ** Sample inputs *)

(** A stand-in for [g_filename_from_uri] on the plain URIs of the samples:
    [file://] followed by an absolute path. *)
Definition sample_uri (s : string) : option string :=
  match Scan.strip_case_prefix "file://" s with
  | Some (String c r) => if Ascii.eqb c "/" then Some (String c r) else None
  | _ => None
  end.

Definition sample_platform : platform :=
  {| FILELENSTR := 511; VERSION_major := 0; POOL_OBSERVATION := 1;
     g_filename_from_uri := sample_uri;
     exe_is_running := fun s e => st_last_running_timestamp s <=? e_running_timestamp e;
     uninit_int := 0; uninit_double := fzero; proc_list := [];
     kp_seed_from_sources := fun w => w |}.

Definition tab : string := String "009" EmptyString.
Definition newline : string := String "010" EmptyString.
(** A record of the state file: fields separated by tabs. *)
Definition record (fields : list string) : string :=
  (String.concat tab fields ++ newline)%string.


(** A state file that [read_state] accepts, with a markov whose time
    exceeds the running times of its exes. *)
Definition inconsistent_state_file : list string :=
  [ record ["PRELOAD"; "0.6.4"; "10"];
    record ["EXE"; "1"; "-1"; "5"; "-1"; "0"; "0.000000"; "0"; "0"; "file:///bin/a"];
    record ["EXE"; "2"; "-1"; "5"; "-1"; "0"; "0.000000"; "0"; "0"; "file:///bin/b"];
    record ["MARKOV"; "1"; "2"; "100"; "0"; "0"; "0"; "0";
            "0"; "0"; "0"; "0"; "0"; "0"; "0"; "0";
            "0"; "0"; "0"; "0"; "0"; "0"; "0"; "0"] ].

Definition sample_statefile : string := "/var/lib/preheat/preheat.state".
Definition dirty_world : world :=
  with_state (set_st_dirty true) (with_state (set_st_time 40) world_init).
Definition io_ok : save_io :=
  {| sio_open_ok := true; sio_write_error := None; sio_fsync_ok := true;
     sio_rename_ok := true |}.
Definition io_open_fails : save_io :=
  {| sio_open_ok := false; sio_write_error := None; sio_fsync_ok := true;
     sio_rename_ok := true |}.

Definition sample_conf : kp_conf_t :=
  {| cycle := 21; doscan := true; dopredict := true; autosave := 3600 |}.
(** A daemon whose other components do nothing. *)
Definition sample_daemon (w : world) (p : pause_env) : @daemon unit :=
  {| d_world := w; d_conf := sample_conf; d_pause := p; d_ext := tt;
     d_calls := []; d_timers := []; d_syscalls := [] |}.
Definition no_op : unit * world -> unit * world := fun xw => xw.
Definition sample_tick : Z -> @daemon unit -> @daemon unit :=
  kp_state_tick no_op no_op (fun x => x) (fun _ => false) (fun _ => no_op).
Definition sample_tick2 : @daemon unit -> @daemon unit := kp_state_tick2 no_op.
Definition paused_until (e : Z) : pause_env :=
  ({| active := true; expiry := e; initialized := true |},
   Some (Scan.show_long e ++ newline)%string).

(** A state file whose markov line has three dwell times instead of four. *)
Definition truncated_markov_file : list string :=
  [ record ["PRELOAD"; "0.6.4"; "10"];
    record ["EXE"; "1"; "-1"; "5"; "-1"; "0"; "0.000000"; "0"; "0"; "file:///bin/a"];
    record ["EXE"; "2"; "-1"; "5"; "-1"; "0"; "0.000000"; "0"; "0"; "file:///bin/b"];
    record ["MARKOV"; "1"; "2"; "3"; "0"; "0"; "0";
            "0"; "0"; "0"; "0"; "0"; "0"; "0"; "0";
            "0"; "0"; "0"; "0"; "0"; "0"; "0"; "0"] ].
Definition load_of (lines : list string) : load_io :=
  {| lio_open := OpenOk lines; lio_timestamp := "20250101_000000";
     lio_rename_ok := true |}.

(** What is left of an [EXE] line of six fields after its tag. *)
Definition six_field_line : string :=
  record [""; "1"; "-1"; "5"; "-1"; "0"; "file:///bin/a"].
Definition rc_six : read_context_t :=
  {| rc_line := six_field_line; rc_errmsg := None; rc_err := None;
     rc_maps := ∅; rc_exes := ∅; rc_filebuf := EmptyString |}.

(** ** The reference counts of the maps *)

(** How often the address [a] occurs in [l]. *)
Definition occ (l : list addr) (a : addr) : nat := length (filter (fun b => b = a) l).

(** The number of exemaps, over all the exes, whose map is [a]. *)
Definition refs_in (h : gmap addr (list kp_exemap_t)) (a : addr) : nat :=
  map_fold (fun _ xs n => (occ (em_map <$> xs) a + n)%nat) 0%nat h.
Definition map_refs (w : world) (a : addr) : nat :=
  refs_in (e_exemaps <$> exe_heap w) a.

(** The maps of a world agree with the reference counts [c]. *)
Record maps_ok (c : addr -> nat) (w : world) : Prop := {
  ok_refcount : forall a m, map_heap w !! a = Some m -> m_refcount m = Z.of_nat (c a);
  ok_registered : forall a m, map_heap w !! a = Some m ->
    (st_maps (kp_state w) !! map_key m = Some a <-> 0 < m_refcount m);
  ok_table : forall k a, st_maps (kp_state w) !! k = Some a ->
    exists m, map_heap w !! a = Some m /\ map_key m = k;
  ok_live : forall a, (0 < c a)%nat -> is_Some (map_heap w !! a);
  ok_range : forall a, Z.of_nat (c a) <= INT_MAX }.

Definition incr (a : addr) (c : addr -> nat) (b : addr) : nat :=
  if decide (b = a) then S (c b) else c b.
Definition decr (a : addr) (c : addr -> nat) (b : addr) : nat :=
  if decide (b = a) then pred (c b) else c b.

Arguments occ : simpl never.
Arguments refs_in : simpl never.

Definition fresh_ok (w : world) : Prop :=
  forall a, (next_addr w <= a)%nat ->
    map_heap w !! a = None /\ exe_heap w !! a = None /\ markov_heap w !! a = None.

(** The reference counts of the maps are the numbers of exemaps that refer
    to them, plus the references [pins] held from outside the exes. *)
Definition pinned_ok (pins : list addr) (w : world) : Prop :=
  maps_ok (fun a => (map_refs w a + occ pins a)%nat) w /\ fresh_ok w.

(** A step that touches neither the maps nor the exemaps, and frees no exe. *)
Record quiet (w w' : world) : Prop := {
  q_heap : map_heap w' = map_heap w;
  q_table : st_maps (kp_state w') = st_maps (kp_state w);
  q_exemaps : e_exemaps <$> exe_heap w' = e_exemaps <$> exe_heap w;
  q_fresh : fresh_ok w -> fresh_ok w' }.

(** What the functions on maps leave alone: the exes, the markovs, the
    allocator, and the addresses that hold no map. *)
Definition maps_only (w w' : world) : Prop :=
  exe_heap w' = exe_heap w /\ markov_heap w' = markov_heap w
  /\ next_addr w' = next_addr w
  /\ forall b, map_heap w !! b = None -> map_heap w' !! b = None.

(** The references that the loader itself holds: one for every map of its
    index table. *)
Definition rc_pins (rc : read_context_t) : list addr := (map_to_list (rc_maps rc)).*2.

(** The invariant of the loop of [read_state]; [k] bounds the counts. *)
Record loading_ok (k : nat) (rc : read_context_t) (w : world) : Prop := {
  lo_pinned : pinned_ok (rc_pins rc) w;
  lo_exes : forall i ea, rc_exes rc !! i = Some ea -> is_Some (exe_heap w !! ea);
  lo_bound : forall a, (map_refs w a + occ (rc_pins rc) a <= k)%nat }.

Section Reach.
Context (E : platform).

(** The complete operations of state.c on the maps, the exes and their
    exemaps. An exemap is freed when it has left the set of its exe;
    [kp_exe_map_new] is called as the guard of [kp_state_register_map]
    asks: no map that is not counted yet has the key of a registered one. *)
Inductive step : world -> world -> Prop :=
| step_map_new path offset length w :
    step w (kp_map_new E path offset length w).2
| step_map_free a w :
    step w (kp_map_free a w)
| step_exe_new path running w :
    step w (kp_exe_new E path running [] w).2
| step_register_exe ea create_markovs w w' :
    kp_state_register_exe E ea create_markovs w = Some w' -> step w w'
| step_exe_map_new ea a e m w :
    exe_heap w !! ea = Some e -> map_heap w !! a = Some m ->
    (m_refcount m = 0 -> st_maps (kp_state w) !! map_key m = None) ->
    m_refcount m < INT_MAX ->
    step w (kp_exe_map_new ea a w)
| step_exemap_free ea e l1 x l2 w :
    exe_heap w !! ea = Some e -> e_exemaps e = l1 ++ x :: l2 ->
    step w (kp_exemap_free x (with_exes (insert ea (set_exe_exemaps (l1 ++ l2) e)) w))
| step_exe_free ea w w' :
    kp_exe_free ea w = Some w' -> step w w'
| step_markov_new a b initialize w :
    step w (kp_markov_new E a b initialize w).2
| step_markov_free mk from w w' :
    kp_markov_free mk from w = Some w' -> step w w'
| step_markov_state_changed mk w :
    step w (kp_markov_state_changed E mk w).

(** The worlds of the daemon: what [read_state] makes of a state file,
    read into the empty state as [kp_state_load] does, and what the
    operations make of such a world. *)
Inductive reachable : world -> Prop :=
| reach_init : reachable world_init
| reach_load lines err w :
    Z.of_nat (length lines) <= INT_MAX ->
    read_state E lines world_init = Some (err, w) -> reachable w
| reach_step w w' : reachable w -> step w w' -> reachable w'.
End Reach.

(** Every map of the registered set has as many references as exemaps
    refer to it. *)
Definition refcounts_exact (w : world) : Prop :=
  forall k a, st_maps (kp_state w) !! k = Some a ->
    exists m, map_heap w !! a = Some m /\ map_key m = k
              /\ m_refcount m = Z.of_nat (map_refs w a).

(** A map is in the registered set while it is referred to. *)
Definition registered_while_referenced (w : world) : Prop :=
  forall a m, map_heap w !! a = Some m ->
    (st_maps (kp_state w) !! map_key m = Some a <-> 0 < m_refcount m).

(** Taking a reference registers the map exactly when it is the first. *)
Definition ref_registers (w : world) : Prop :=
  forall a m, map_heap w !! a = Some m -> m_refcount m < INT_MAX ->
    (m_refcount m = 0 -> st_maps (kp_state w) !! map_key m = None) ->
    (st_maps (kp_state w) !! map_key m = None <-> m_refcount m = 0)
    /\ exists m', map_heap (kp_map_ref a w) !! a = Some m'
         /\ map_key m' = map_key m
         /\ m_refcount m' = m_refcount m + 1
         /\ st_maps (kp_state (kp_map_ref a w)) !! map_key m = Some a.

(** Dropping a reference unregisters and destroys the map exactly when it
    is the last. *)
Definition unref_destroys (w : world) : Prop :=
  forall a m, map_heap w !! a = Some m -> 0 < m_refcount m ->
    if m_refcount m =? 1 then
      map_heap (kp_map_unref a w) !! a = None
      /\ st_maps (kp_state (kp_map_unref a w)) !! map_key m = None
    else
      exists m', map_heap (kp_map_unref a w) !! a = Some m'
        /\ map_key m' = map_key m
        /\ m_refcount m' = m_refcount m - 1
        /\ st_maps (kp_state (kp_map_unref a w)) !! map_key m = Some a.

(** A state file with a map that two exes share, and a map that none uses. *)
Definition shared_map_file : list string :=
  [ record ["PRELOAD"; "0.6.4"; "10"];
    record ["MAP"; "1"; "5"; "0"; "4096"; "-1"; "file:///lib/libc.so"];
    record ["MAP"; "2"; "5"; "0"; "8192"; "-1"; "file:///lib/libm.so"];
    record ["EXE"; "1"; "-1"; "5"; "-1"; "0"; "0.000000"; "0"; "0"; "file:///bin/a"];
    record ["EXE"; "2"; "-1"; "5"; "-1"; "0"; "0.000000"; "0"; "0"; "file:///bin/b"];
    record ["EXEMAP"; "1"; "1"; "1.000000"];
    record ["EXEMAP"; "2"; "1"; "1.000000"] ].

(** ** Decimal numerals *)

(** The value of the digits [d] put after a numeral of value [acc]. *)
Fixpoint uint_acc (d : Decimal.uint) (acc : Z) : Z :=
  match d with
  | Decimal.Nil => acc
  | Decimal.D0 l => uint_acc l (acc * 10 + 0)
  | Decimal.D1 l => uint_acc l (acc * 10 + 1)
  | Decimal.D2 l => uint_acc l (acc * 10 + 2)
  | Decimal.D3 l => uint_acc l (acc * 10 + 3)
  | Decimal.D4 l => uint_acc l (acc * 10 + 4)
  | Decimal.D5 l => uint_acc l (acc * 10 + 5)
  | Decimal.D6 l => uint_acc l (acc * 10 + 6)
  | Decimal.D7 l => uint_acc l (acc * 10 + 7)
  | Decimal.D8 l => uint_acc l (acc * 10 + 8)
  | Decimal.D9 l => uint_acc l (acc * 10 + 9)
  end.

Definition is_digit (c : ascii) : bool := bool_decide (is_Some (Scan.digit_val c)).

(** No digit at the head. *)
Definition no_digit_head (s : string) : Prop :=
  match s with String c _ => Scan.digit_val c = None | EmptyString => True end.

(** ** preheat-ctl: the display of numbers (tools/ctl_display.c) *)

(** [snprintf] with [%lu]. *)
Definition show_ulong (n : Z) : string := NilZero.string_of_uint (N.to_uint (Z.to_N n)).

(** The loop of [format_number] from the index [i] on: [temp] holds the
    digits from there, [len] is the length of the whole. *)
Fixpoint format_number_from (temp : list ascii) (i len : nat) : list ascii :=
  match temp with
  | [] => []
  | c :: r =>
      (if (0 <? i)%nat && ((len - i) mod 3 =? 0)%nat then [","%char] else [])
      ++ c :: format_number_from r (S i) len
  end.

(** What [format_number] leaves in [buf], the terminator apart. *)
Definition format_number (num : Z) : string :=
  let temp := list_ascii_of_string (show_ulong num) in
  string_of_list_ascii (format_number_from temp 0 (length temp)).

(** ** Path prefixes (utils/pattern.c) *)

(** [p] is at the head of [s]: [strncmp (s, p, strlen (p)) == 0]. *)
Fixpoint starts_with (p s : string) : bool :=
  match p, s with
  | EmptyString, _ => true
  | String a p', String c s' => Ascii.eqb a c && starts_with p' s'
  | String _ _, EmptyString => false
  end.

(** [s[n]], the terminator included. *)
Definition char_at (s : string) (n : nat) : ascii :=
  match String.get n s with Some c => c | None => "000"%char end.

(** The loop of [kp_path_in_directories] from the index [i] on, [n] turns
    left. [None]: the array is read past its end. *)
Fixpoint path_in_directories_from (path : string) (prefixes : list (option string))
    (i n : nat) : option bool :=
  match n with
  | O => Some false
  | S n' =>
      match prefixes !! i with
      | None => None
      | Some None => path_in_directories_from path prefixes (S i) n'
      | Some (Some p) =>
          let prefix_len := String.length p in
          if starts_with p path
             && (Ascii.eqb (char_at path prefix_len) "000"
                 || Ascii.eqb (char_at path prefix_len) "/")
          then Some true
          else path_in_directories_from path prefixes (S i) n'
      end
  end.

(** A [NULL] path or array gives [FALSE]; [count] is a C [int]. *)
Definition kp_path_in_directories (path : option string)
    (prefixes : option (list (option string))) (count : Z) : option bool :=
  match path, prefixes with
  | Some path, Some prefixes => path_in_directories_from path prefixes 0 (Z.to_nat count)
  | _, _ => Some false
  end.

Definition is_comma (c : ascii) : bool := Ascii.eqb c ",".

(** A C string holds no NUL. *)
Definition c_string (s : string) : Prop := ~ In "000"%char (list_ascii_of_string s).

(** ** The pause state, continued (pause.c), and the pause commands of
    preheat-ctl (tools/ctl_cmd_basic.c) *)

(** The difference of two [time_t], cast to [int]. *)
Definition kp_pause_remaining (now : Z) (p : pause_env) : Z :=
  if negb (active p.1) then 0
  else if expiry p.1 =? 0 then -1                  (* until reboot *)
  else if expiry p.1 <=? now then 0
  else int_wrap (long_wrap (expiry p.1 - now)).

Definition kp_pause_free (p : pause_env) : pause_env :=
  ({| active := false; expiry := -1; initialized := false |}, p.2).

(** [cmd_pause], after [parse_duration] (not among the sources) has
    answered [seconds]: the exit code and the pause file. [fopen_ok] tells
    whether the file can be opened for writing. *)
Definition cmd_pause (now seconds : Z) (fopen_ok : bool) (file : option string)
  : Z * option string :=
  if seconds <? 0 then (1, file)
  else if negb fopen_ok then (1, file)
  else
    let expiry := if seconds =? 0 then 0 else long_wrap (now + seconds) in
    (0, Some (Scan.show_long expiry ++ newline)%string).

(** [cmd_resume]: [may_unlink] tells whether the file may be removed. *)
Definition cmd_resume (may_unlink : bool) (file : option string) : Z * option string :=
  match file with
  | None => (0, None)                              (* ENOENT: was not paused *)
  | Some _ => if may_unlink then (0, None) else (1, file)
  end.

(** The pause file changed from outside the daemon. *)
Definition with_pause_file {X} (file : option string) (d : @daemon X) : @daemon X :=
  {| d_world := d_world d; d_conf := d_conf d; d_pause := ((d_pause d).1, file);
     d_ext := d_ext d; d_calls := d_calls d; d_timers := d_timers d;
     d_syscalls := d_syscalls d |}.

(** The pause state of a daemon that has just started, without a pause
    file: the static [pause_state] is all zero. *)
Definition not_initialised : pause_env :=
  ({| active := false; expiry := 0; initialized := false |}, None).

(** A daemon that has looked at its pause state and is not paused. *)
Definition unpaused : pause_env :=
  ({| active := false; expiry := -1; initialized := true |}, None).

(** ** The blacklist (config/blacklist.c) *)

Definition BLACKLIST_LINE_MAX : nat := 256.

(** [fgets (line, n + 1, fp)]: at most [n] characters, the newline that
    ends the line included; what is read and what is left of the file. *)
Fixpoint fgets (n : nat) (s : string) : string * string :=
  match n, s with
  | S n', String c r =>
      if Ascii.eqb c "010" then (String c EmptyString, r)
      else let '(l, r') := fgets n' r in (String c l, r')
  | _, _ => (EmptyString, s)
  end.

(** The buffers that the calls of [fgets] fill until the end of the file;
    every call takes a character, so the length of the file is fuel enough. *)
Fixpoint fgets_all (fuel n : nat) (s : string) : list string :=
  match fuel, s with
  | S fuel', String _ _ => let '(l, r) := fgets n s in l :: fgets_all fuel' n r
  | _, _ => []
  end.

(** A buffer as the string functions of C see it: up to its first NUL. *)
Fixpoint c_str (s : string) : string :=
  match s with
  | String c r => if Ascii.eqb c "000" then EmptyString else String c (c_str r)
  | EmptyString => EmptyString
  end.

(** GLib's white space: the space, the tab, the newline, the form feed and
    the carriage return; not the vertical tab. *)
Definition g_ascii_isspace (c : ascii) : bool :=
  let n := nat_of_ascii c in
  ((n =? 32) || (n =? 9) || (n =? 10) || (n =? 12) || (n =? 13))%nat.

Fixpoint skip_gspace (s : string) : string :=
  match s with
  | String c r => if g_ascii_isspace c then skip_gspace r else s
  | EmptyString => s
  end.

Definition g_ascii_isalnum (c : ascii) : bool :=
  let n := nat_of_ascii c in
  ((48 <=? n) && (n <=? 57) || (65 <=? n) && (n <=? 90) || (97 <=? n) && (n <=? 122))%nat.

Fixpoint string_forallb (f : ascii -> bool) (s : string) : bool :=
  match s with
  | String c r => f c && string_forallb f r
  | EmptyString => true
  end.

Fixpoint string_rev_onto (s acc : string) : string :=
  match s with
  | String c r => string_rev_onto r (String c acc)
  | EmptyString => acc
  end.
Definition string_rev (s : string) : string := string_rev_onto s EmptyString.

(** The loop that cuts the white space off the end: it stops at the first
    character ([end > p]), which stays whatever it is. *)
Definition strip_end (p : string) : string :=
  match p with
  | String c r => String c (string_rev (skip_gspace (string_rev r)))
  | EmptyString => EmptyString
  end.

Definition valid_entry_char (c : ascii) : bool :=
  g_ascii_isalnum c || Ascii.eqb c "_" || Ascii.eqb c "-" || Ascii.eqb c ".".

Inductive line_result :=
| LineIgnored                       (* empty, or a comment *)
| LineSkipped                       (* too long, or bad characters *)
| LineEntry (name : string).

(** One turn of the loop of [load_blacklist_file], on the buffer [line]. *)
Definition blacklist_line (line : string) : line_result :=
  let p := skip_gspace (c_str line) in
  match p with
  | EmptyString => LineIgnored
  | String c _ =>
      if Ascii.eqb c "#" || Ascii.eqb c "010" then LineIgnored
      else
        let p := strip_end p in
        if (BLACKLIST_LINE_MAX - 1 <=? String.length p)%nat then LineSkipped
        else if negb (string_forallb valid_entry_char p) then LineSkipped
        else LineEntry p
  end.

Record blacklist_t := {
  bl_entries : option (gset string);       (* [NULL] before the first load *)
  bl_filepath : option string;
  bl_last_modified : Z;
  bl_count : Z }.

(** What [stat] and [fopen] find at the path of the blacklist. *)
Inductive blacklist_file :=
| BlNoStat                                  (* [stat] fails *)
| BlNoOpen (mtime : Z)                      (* [stat] succeeds, [fopen] fails *)
| BlFile (mtime : Z) (content : string).

Definition blacklist_zero : blacklist_t :=
  {| bl_entries := None; bl_filepath := None; bl_last_modified := 0; bl_count := 0 |}.

Definition load_blacklist_file (filepath : string) (f : blacklist_file) (b : blacklist_t)
  : blacklist_t :=
  let cleared (mtime : Z) :=
    {| bl_entries := Some ∅; bl_filepath := bl_filepath b;
       bl_last_modified := mtime; bl_count := 0 |} in
  match f with
  | BlNoStat => cleared (bl_last_modified b)
  | BlNoOpen mtime => cleared mtime
  | BlFile mtime content =>
      let '(entries, loaded) :=
        foldl (fun (acc : gset string * Z) line =>
                 match blacklist_line line with
                 | LineEntry name => ({[ name ]} ∪ acc.1, int_add acc.2 1)
                 | _ => acc
                 end)
              (∅, 0)
              (fgets_all (String.length content) (BLACKLIST_LINE_MAX - 1) content) in
      {| bl_entries := Some entries; bl_filepath := bl_filepath b;
         bl_last_modified := mtime; bl_count := loaded |}
  end.

Definition BLACKLIST_FILE : string := "/etc/preheat.d/blacklist".

Definition kp_blacklist_init (f : blacklist_file) (b : blacklist_t) : blacklist_t :=
  load_blacklist_file BLACKLIST_FILE f
    {| bl_entries := bl_entries b; bl_filepath := Some BLACKLIST_FILE;
       bl_last_modified := bl_last_modified b; bl_count := bl_count b |}.

Definition kp_blacklist_reload (f : blacklist_file) (b : blacklist_t) : blacklist_t :=
  match bl_filepath b with
  | None => kp_blacklist_init f b
  | Some filepath =>
      let unchanged :=
        match f with
        | BlNoStat => false
        | BlNoOpen mtime | BlFile mtime _ => mtime =? bl_last_modified b
        end in
      if unchanged then b else load_blacklist_file filepath f b
  end.

(** [basename] is the function of libc (libgen.h). *)
Definition kp_blacklist_contains (basename : string -> string) (b : blacklist_t)
    (binary_name : option string) : bool :=
  match bl_entries b, binary_name with
  | Some entries, Some name =>
      match name with
      | String c _ =>
          if Ascii.eqb c "/" then bool_decide (basename name ∈ entries)
          else bool_decide (name ∈ entries)
      | EmptyString => bool_decide (name ∈ entries)
      end
  | _, _ => false
  end.

Definition kp_blacklist_count (b : blacklist_t) : Z := bl_count b.

(** The states of the blacklist of a running daemon. *)
Inductive blacklist_reachable : blacklist_t -> Prop :=
| bl_reach_init f : blacklist_reachable (kp_blacklist_init f blacklist_zero)
| bl_reach_reload f b :
    blacklist_reachable b -> blacklist_reachable (kp_blacklist_reload f b).

(** A name the blacklist can hold: not empty, of letters, digits, [_],
    [-] and [.]. *)
Definition entry_name (s : string) : Prop :=
  s <> EmptyString /\ string_forallb valid_entry_char s = true.

(** A line of a text file: no newline and no NUL in it. *)
Definition text_line (l : string) : Prop :=
  string_forallb (fun c => negb (Ascii.eqb c "010") && negb (Ascii.eqb c "000")) l = true.

(** The white space at both ends taken away. *)
Definition trim (s : string) : string :=
  string_rev (skip_gspace (string_rev (skip_gspace s))).

(** The entry a line of the blacklist stands for. *)
Definition line_entry (l : string) : option string :=
  let t := trim l in
  match t with
  | EmptyString => None
  | String c _ =>
      if Ascii.eqb c "#" then None
      else if string_forallb valid_entry_char t then Some t else None
  end.

(** The text file with the lines [lines], each ended by a newline. *)
Fixpoint file_of_lines (lines : list string) : string :=
  match lines with
  | [] => EmptyString
  | l :: r => (l ++ newline ++ file_of_lines r)%string
  end.

Fixpoint string_contains (c : ascii) (s : string) : bool :=
  match s with
  | String x r => Ascii.eqb x c || string_contains c r
  | EmptyString => false
  end.

Definition entries_ok (b : blacklist_t) : Prop :=
  forall es e, bl_entries b = Some es -> e ∈ es ->
    entry_name e /\ (String.length e < BLACKLIST_LINE_MAX - 1)%nat.

Definition sample_blacklist : blacklist_t :=
  kp_blacklist_init (BlFile 1 ("# tools" ++ newline ++ "nmap" ++ newline)%string)
    blacklist_zero.

(** A blacklist with a comment, padding, an empty line, a bad line and a
    name listed twice. *)
Definition padded_blacklist : list string :=
  ["# security tools"; "  nmap  "; ""; "wire shark"; "nmap"]%string.

(** ** Families, continued (state.c) *)

Definition kp_family_lookup (family_id : string) (w : world) : option kp_app_family_t :=
  st_app_families (kp_state w) !! family_id.

Definition kp_family_lookup_by_exe (exe_path : string) (w : world) : option string :=
  st_exe_to_family (kp_state w) !! exe_path.

(** The line that [write_family] writes, when the channel takes it. *)
Definition write_family (family : kp_app_family_t) : string :=
  (TAG_FAMILY ++ tab
   ++ family_id family ++ tab ++ Scan.show_long (int_wrap (method family)) ++ tab
   ++ String.concat ";" (member_paths family) ++ newline)%string.

(** The context of the reader on a line, its tag passed (as the loop of
    [read_state] leaves it). *)
Definition rc_after_tag (tag line : string) (rc : read_context_t) : read_context_t :=
  set_rc_line (string_drop (String.length tag) line) (set_rc_line line rc).

(** A word: not empty, without white space and without NUL. *)
Definition word (s : string) : Prop :=
  s <> EmptyString
  /\ string_forallb (fun c => negb (Scan.isspace c) && negb (Ascii.eqb c "000")) s = true.

(** A member path that comes back from the state file as it is: not empty,
    no [;], no newline, no NUL, and no white space at its head. *)
Definition member_path (s : string) : Prop :=
  string_forallb (fun c => negb (Ascii.eqb c ";") && negb (Ascii.eqb c "010")
                           && negb (Ascii.eqb c "000")) s = true
  /\ exists c r, s = String c r /\ Scan.isspace c = false.

Definition not_semicolon (c : ascii) : bool := negb (Ascii.eqb c ";").
Definition not_newline (c : ascii) : bool := negb (Ascii.eqb c "010").

(** The loop of [read_family] over the tokens. *)
Definition add_members (fw : kp_app_family_t * world) (toks : list string)
  : kp_app_family_t * world :=
  foldl (fun (fw : kp_app_family_t * world) tok =>
           let tok' := skip_spaces tok in
           match tok' with
           | EmptyString => fw
           | _ => kp_family_add_member fw.1 tok' fw.2
           end) fw toks.

Definition sample_family : kp_app_family_t :=
  {| family_id := "web"; member_paths := ["/usr/bin/firefox"; "/usr/bin/firefox-esr"];
     method := 1; total_weighted_launches := Z2F 7; total_raw_launches := 7;
     last_used := 100 |}.

(** ** Manual apps (state.c) *)

Section ManualApps.
Context (E : platform).

(** One turn of the loop of [kp_state_register_manual_apps]: the world and
    the counter [registered]. *)
Definition register_manual_app (wr : world * Z) (app_path : string)
  : option (world * Z) :=
  match st_exes (kp_state wr.1) !! app_path with
  | Some _ => Some wr                             (* already tracked *)
  | None =>
      let '(ea, w1) := kp_exe_new E app_path false [] wr.1 in
      match kp_state_register_exe E ea false w1 with
      | Some w2 => Some (w2, int_add wr.2 1)
      | None => None
      end
  end.

(** [manual_apps_loaded] and [manual_apps_count] are the fields of
    [kp_conf->system]; the array ends with its first [NULL]. *)
Definition kp_state_register_manual_apps (manual_apps_loaded : option (list string))
    (manual_apps_count : Z) (w : world) : option world :=
  match manual_apps_loaded with
  | None => Some w
  | Some apps =>
      if manual_apps_count =? 0 then Some w
      else
        match fold_opt register_manual_app apps (w, 0) with
        | Some (w1, registered) =>
            Some (if 0 <? registered then with_state (set_st_dirty true) w1 else w1)
        | None => None
        end
  end.

End ManualApps.

(** What [kp_exe_new] and [kp_state_register_exe] leave in an exe that
    was registered for a path and has not run. *)
Definition manual_exe (E : platform) (p : string) (e : kp_exe_t) : Prop :=
  e_path e = p /\ e_exemaps e = [] /\ e_markovs e = [] /\ e_size e = 0 /\ e_time e = 0
  /\ e_running_timestamp e = -1 /\ e_update_time e = -1 /\ e_pool e = uninit_int E.

Definition tracked (w : world) (p : string) : Prop := is_Some (st_exes (kp_state w) !! p).

Definition sample_apps : list string := ["/usr/bin/firefox"; "/usr/bin/code"; "/usr/bin/firefox"].

(** ** Writing the maps (state.c) *)

(** The line that [write_map] writes, when the channel takes it; [None]
    when [g_filename_to_uri] fails, and nothing is written. *)
Definition write_map (g_filename_to_uri : string -> option string) (map : kp_map_t)
  : option string :=
  match g_filename_to_uri (m_path map) with
  | None => None
  | Some uri =>
      Some (TAG_MAP ++ tab
            ++ Scan.show_long (m_seq map) ++ tab ++ Scan.show_long (m_update_time map) ++ tab
            ++ show_ulong (ulong_wrap (long_wrap (m_offset map))) ++ tab
            ++ show_ulong (ulong_wrap (long_wrap (m_length map))) ++ tab
            ++ Scan.show_long (-1) ++ tab ++ uri ++ newline)%string
  end.

Definition in_ulong (z : Z) : Prop := 0 <= z <= ULONG_MAX.

Definition sample_map : kp_map_t :=
  {| m_path := "/lib/libc.so"; m_offset := 4096; m_length := 8192; m_refcount := 2;
     m_update_time := 7; m_block := -1; m_seq := 3 |}.
Definition sample_to_uri (p : string) : option string := Some ("file://" ++ p)%string.


Definition sample_map_line : string :=
  record ["MAP"; "3"; "7"; "4096"; "8192"; "-1"; "file:///lib/libc.so"].

(** ** Writing the exes (state.c) *)

(** The line that [write_exe] writes, when the channel takes it; [None]
    when [g_filename_to_uri] fails, and nothing is written. [show_f6] is
    the text that [printf] gives a double under [%.6f]. *)
Definition write_exe (g_filename_to_uri : string -> option string)
    (show_f6 : float -> string) (exe : kp_exe_t) : option string :=
  match g_filename_to_uri (e_path exe) with
  | None => None
  | Some uri =>
      Some (TAG_EXE ++ tab
            ++ Scan.show_long (e_seq exe) ++ tab ++ Scan.show_long (e_update_time exe) ++ tab
            ++ Scan.show_long (e_time exe) ++ tab ++ Scan.show_long (-1) ++ tab
            ++ Scan.show_long (int_wrap (e_pool exe)) ++ tab
            ++ show_f6 (e_weighted_launches exe) ++ tab
            ++ show_ulong (ulong_wrap (e_raw_launches exe)) ++ tab
            ++ show_ulong (ulong_wrap (e_total_duration_sec exe)) ++ tab
            ++ uri ++ newline)%string
  end.

(** ** preheat-ctl: export (tools/ctl_cmd_io.c) *)

Definition DEFAULT_EXPORT : string := "preheat-profile.json".

Definition dquote : string := String "034" EmptyString.
Definition quoted (s : string) : string := (dquote ++ s ++ dquote)%string.

(** ["EXE\t%d\t%d\t%d\t%d\t%511s"] *)
Definition fmt_export : list Scan.directive :=
  [Scan.Lit "E"; Scan.Lit "X"; Scan.Lit "E"; Scan.Ws; Scan.Conv_d; Scan.Ws; Scan.Conv_d;
   Scan.Ws; Scan.Conv_d; Scan.Ws; Scan.Conv_d; Scan.Ws; Scan.Conv_s 511].

Definition export_header (now : Z) : string :=
  ("{" ++ newline
   ++ "  " ++ quoted "preheat_export_version" ++ ": " ++ quoted "1.0" ++ "," ++ newline
   ++ "  " ++ quoted "exported_at" ++ ": " ++ Scan.show_long now ++ "," ++ newline
   ++ "  " ++ quoted "apps" ++ ": [" ++ newline)%string.

Definition export_footer : string :=
  (newline ++ "  ]" ++ newline ++ "}" ++ newline)%string.

Definition export_entry (path : string) (run_time : Z) : string :=
  ("    {" ++ quoted "path" ++ ": " ++ quoted path ++ ", "
   ++ quoted "run_time" ++ ": " ++ Scan.show_long run_time ++ "}")%string.

(** What the loop of [cmd_export] carries: the text written so far,
    [first] and [apps_exported]. *)
Record export_loop := {
  ex_text : string;
  ex_first : bool;
  ex_apps : Z }.

(** One buffer that [fgets] has filled. The variables that [sscanf] stores
    into are used only when all five conversions were made. *)
Definition export_line (st : export_loop) (line : string) : export_loop :=
  if starts_with (TAG_EXE ++ tab) line then
    let vs := (Scan.sscanf fmt_export (c_str line)).1 in
    if (5 <=? length vs)%nat then
      let path := Scan.store_str vs 4 EmptyString in
      let run_time := Scan.store_int vs 2 0 in
      {| ex_text := (ex_text st ++ (if ex_first st then "" else "," ++ newline)
                     ++ export_entry path run_time)%string;
         ex_first := false;
         ex_apps := int_add (ex_apps st) 1 |}
    else st
  else st.

(** [cmd_export]: [state_f] is the content of the state file ([None] when
    it cannot be opened) and [export_ok] tells whether the export file can
    be created. The answer is the exit status, the export file with its
    path, and the line on the standard output; the messages on the
    standard error are left out. *)
Definition cmd_export (filepath : option string) (now : Z) (state_f : option string)
    (export_ok : bool) : Z * option (string * string) * string :=
  let outpath := default DEFAULT_EXPORT filepath in
  match state_f with
  | None => (1, None, EmptyString)
  | Some content =>
      if export_ok then
        let st := foldl export_line
                    {| ex_text := export_header now; ex_first := true; ex_apps := 0 |}
                    (fgets_all (String.length content) 1023 content) in
        (0, Some (outpath, (ex_text st ++ export_footer)%string),
         ("Exported " ++ Scan.show_long (ex_apps st) ++ " apps to " ++ outpath ++ newline)%string)
      else (1, None, EmptyString)
  end.

(** A record of the state file that is no [EXE] record. *)
Definition other_record (l : string) : Prop := starts_with (TAG_EXE ++ tab) l = false.

Definition sample_exe : kp_exe_t :=
  {| e_path := "/usr/bin/firefox"; e_seq := 1; e_size := 0; e_time := 120;
     e_update_time := 5; e_change_timestamp := 0; e_running_timestamp := -1;
     e_pool := 0; e_weighted_launches := fzero; e_raw_launches := 3;
     e_total_duration_sec := 60; e_running_pids := []; e_exemaps := [];
     e_markovs := [] |}.
Definition sample_f6 (f : float) : string := "0.000000".
Definition sample_exe_line : string :=
  String.concat tab ["EXE"; "1"; "5"; "120"; "-1"; "0"; "0.000000"; "3"; "60";
                     "file:///usr/bin/firefox"].

(** The entries of the export file from the first one on, or from a later
    one. *)
Fixpoint join_entries (first : bool) (entries : list string) : string :=
  match entries with
  | [] => EmptyString
  | e :: r => ((if first then "" else "," ++ newline) ++ e ++ join_entries false r)%string
  end.

(** ** The counters of a markov *)

(** How often the state [s] was left for another one, by the counters of
    the transitions. *)
Definition departures (wt : list (list Z)) (s : Z) : Z :=
  foldr (fun t n => if t =? s then n else weight_get wt s t + n) 0 [0; 1; 2; 3].

(** The counters of a markov fit together: none is negative, and the
    counter [weight[s][s]] is the number of the transitions from [s]. *)
Definition counters_ok (m : kp_markov_t) : Prop :=
  markov_wf m /\ 0 <= mk_state m < 4
  /\ (forall s t, 0 <= s < 4 -> 0 <= t < 4 -> 0 <= weight_get (mk_weight m) s t)
  /\ (forall s, 0 <= s < 4 -> weight_get (mk_weight m) s s = departures (mk_weight m) s).

(** A markov that has left the state 1 twice: once for 0, once for 3. *)
Definition counted_markov : kp_markov_t :=
  {| mk_a := 1%nat; mk_b := 2%nat; mk_state := 1; mk_change_timestamp := 10;
     mk_time := 0; mk_time_to_leave := [fzero; Z2F 4; fzero; fzero];
     mk_weight := [[1; 1; 0; 0]; [1; 2; 0; 1]; [0; 0; 0; 0]; [1; 1; 0; 2]] |}.

(** [%lf] reads the text [s] as [f], whatever follows the tab after it. *)
Definition reads_as (s : string) (f : float) : Prop :=
  forall r, Scan.conv_lf (s ++ tab ++ r) = Some (f, (tab ++ r)%string).

Definition sample_exe_record : string :=
  (sample_exe_line ++ newline)%string.

(** ** The markovs of a new exe *)

(** A markov joins the exes [a] and [b]: it is in the sets of both. *)
Definition joined (a b : addr) (w : world) : Prop :=
  exists mk m x y,
    markov_heap w !! mk = Some m /\ mk_a m = a /\ mk_b m = b
    /\ exe_heap w !! a = Some x /\ mk ∈ e_markovs x
    /\ exe_heap w !! b = Some y /\ mk ∈ e_markovs y.

(** From [w] to [w'] markovs were added only. *)
Definition grows (w w' : world) : Prop :=
  (forall mk m, markov_heap w !! mk = Some m -> markov_heap w' !! mk = Some m)
  /\ (forall a x, exe_heap w !! a = Some x ->
        exists x', exe_heap w' !! a = Some x' /\ e_path x' = e_path x
                   /\ e_seq x' = e_seq x
                   /\ forall mk, mk ∈ e_markovs x -> mk ∈ e_markovs x')
  /\ kp_state w' = kp_state w /\ map_heap w' = map_heap w
  /\ fresh_ok w'.

(** A world with two tracked exes, and a third one that is not
    registered yet; both registrations return. *)
Definition three_exes : world :=
  let '(a, w1) := kp_exe_new sample_platform "/usr/bin/a" false [] world_init in
  let w2 := default w1 (kp_state_register_exe sample_platform a false w1) in
  let '(b, w3) := kp_exe_new sample_platform "/usr/bin/b" false [] w2 in
  let w4 := default w3 (kp_state_register_exe sample_platform b false w3) in
  (kp_exe_new sample_platform "/usr/bin/c" false [] w4).2.

Definition third_exe : kp_exe_t :=
  {| e_path := "/usr/bin/c"; e_seq := 0; e_size := 0; e_time := 0; e_update_time := -1;
     e_change_timestamp := 0; e_running_timestamp := -1; e_pool := 0;
     e_weighted_launches := fzero; e_raw_launches := 0; e_total_duration_sec := 0;
     e_running_pids := []; e_exemaps := []; e_markovs := [] |}.

(** ** preheat-ctl: import (tools/ctl_cmd_io.c) *)

(** [strstr (s, needle) != NULL] *)
Fixpoint strstr (s needle : string) : bool :=
  starts_with needle s
  || match s with
     | String _ r => strstr r needle
     | EmptyString => false
     end.

Definition import_note : string :=
  (newline ++ "Note: Import currently validates the file only." ++ newline
   ++ "To apply: copy the apps to your whitelist file at:" ++ newline
   ++ "  /etc/preheat.d/apps.list" ++ newline
   ++ "Then run: sudo preheat-ctl reload" ++ newline)%string.

(** One buffer that [fgets] has filled: [valid] and [apps_found]. *)
Definition import_line (st : bool * Z) (line : string) : bool * Z :=
  (if strstr (c_str line) "preheat_export_version" then true else st.1,
   if strstr (c_str line) (quoted "path") then int_add st.2 1 else st.2).

(** [cmd_import]: [file] is the content of the import file ([None] when
    it cannot be opened). The answer is the exit status and the text on
    the standard output; the messages on the standard error are left out. *)
Definition cmd_import (filepath : option string) (file : option string) : Z * string :=
  let inpath := default DEFAULT_EXPORT filepath in
  match file with
  | None => (1, EmptyString)
  | Some content =>
      let '(valid, apps_found) :=
        foldl import_line (false, 0) (fgets_all (String.length content) 2047 content) in
      if valid then
        (0, ("Found " ++ Scan.show_long apps_found ++ " apps in " ++ inpath ++ newline
             ++ import_note)%string)
      else (1, EmptyString)
  end.

(** The text of an export file with the entries [entries], path and run
    time, as [cmd_export] lays it out. *)
Definition export_text (now : Z) (entries : list (string * Z)) : string :=
  (export_header now
   ++ String.concat ("," ++ newline) (map (fun pt => export_entry pt.1 pt.2) entries)
   ++ export_footer)%string.

(** The lines of the entries: a comma after each but the last; an empty
    line when there is none. *)
Fixpoint body_lines (es : list string) : list string :=
  match es with
  | [] => [EmptyString]
  | [e] => [e]
  | e :: r => (e ++ ",")%string :: body_lines r
  end.

Definition header_lines (now : Z) : list string :=
  [ "{"%string;
    ("  " ++ quoted "preheat_export_version" ++ ": " ++ quoted "1.0" ++ ",")%string;
    ("  " ++ quoted "exported_at" ++ ": " ++ Scan.show_long now ++ ",")%string;
    ("  " ++ quoted "apps" ++ ": [")%string ].

Definition footer_lines : list string := ["  ]"%string; "}"%string].

(** ** preheat-ctl: the daemon and its signals (tools/ctl_daemon.c,
    tools/ctl_cmd_basic.c) *)

Definition EACCES : Z := 13.

(** What the system answers to the calls of the tool. Every answer
    depends on the time, the number of the calls made so far; a call may
    leave any value in [errno], whether it fails or not. *)
Record ctl_env := {
  (** the content of the PID file; [None]: [fopen] fails *)
  fopen_pidfile : nat -> option string;
  (** [access ("/proc/<pid>", F_OK) == 0] *)
  access_proc : nat -> Z -> bool;
  (** what [readlink] puts into the buffer for [/proc/<pid>/exe];
      [None]: it fails *)
  readlink_exe : nat -> Z -> option string;
  (** what [pgrep] writes; [None]: [popen] fails *)
  pgrep_out : nat -> option string;
  (** [kill (pid, sig) < 0] *)
  kill_fails : nat -> Z -> signal -> bool;
  errno_after : nat -> Z }.

Inductive ctl_event := EvKill (pid : Z) (sig : signal).

Record ctl_state := {
  ctl_errno : Z;
  ctl_clock : nat;
  ctl_trace : list ctl_event }.

Section Ctl.
Context (env : ctl_env).

(** A call of the system: the clock moves on, [errno] is what the call
    leaves. *)
Definition ctl_tick (st : ctl_state) : ctl_state :=
  {| ctl_errno := errno_after env (ctl_clock st); ctl_clock := S (ctl_clock st);
     ctl_trace := ctl_trace st |}.

Definition read_pid_file (st : ctl_state) : Z * ctl_state :=
  let t := ctl_clock st in
  let st := ctl_tick st in
  match fopen_pidfile env t with
  | None => (-1, st)
  | Some content =>
      match Scan.conv_d content with
      | Some (pid, _) => (pid, st)
      | None => (-1, st)
      end
  end.

Fixpoint string_take (n : nat) (s : string) : string :=
  match n, s with
  | S n', String c r => String c (string_take n' r)
  | _, _ => EmptyString
  end.

Definition check_running (pid : Z) (st : ctl_state) : Z * ctl_state :=
  let t := ctl_clock st in
  let st := ctl_tick st in
  if negb (access_proc env t pid) then (0, st)
  else
    let t := ctl_clock st in
    let st := ctl_tick st in
    let found :=
      match readlink_exe env t pid with
      | Some target =>
          let exe_buffer := c_str (string_take 255 target) in
          (0 <? Z.of_nat (String.length (string_take 255 target)))
          && strstr exe_buffer "preheat"
      | None => false
      end in
    if found then (1, st)
    else if ctl_errno st =? EACCES then (1, st)
    else (0, st).

(** [atoi]: the number [strtol] reads, as an [int]; 0 without digits. *)
Definition atoi (s : string) : Z :=
  match Scan.conv_d (c_str s) with Some (z, _) => z | None => 0 end.

Definition find_running_daemon (st : ctl_state) : Z * ctl_state :=
  let t := ctl_clock st in
  let st := ctl_tick st in
  match pgrep_out env t with
  | Some (String c r) => (atoi (fgets 31 (String c r)).1, st)
  | _ => (-1, st)                       (* no pipe, or [fgets] at its end *)
  end.

Definition get_daemon_pid (verbose : bool) (st : ctl_state) : Z * ctl_state :=
  let '(pid, st1) := read_pid_file st in
  let '(valid, st2) :=
    if 0 <? pid then
      let '(r, st') := check_running pid st1 in (negb (r =? 0), st')
    else (false, st1) in
  if valid then (pid, st2)
  else
    let '(pid', st3) := find_running_daemon st2 in
    if 0 <? pid' then (pid', st3) else (-1, st3).

Definition read_pid (st : ctl_state) : Z * ctl_state := get_daemon_pid true st.

Definition send_signal (pid : Z) (sig : signal) (st : ctl_state) : Z * ctl_state :=
  let t := ctl_clock st in
  let st := ctl_tick st in
  let st := {| ctl_errno := ctl_errno st; ctl_clock := ctl_clock st;
               ctl_trace := ctl_trace st ++ [EvKill pid sig] |} in
  if kill_fails env t pid sig then (1, st) else (0, st).

Definition cmd_reload (st : ctl_state) : Z * ctl_state :=
  let '(pid, st1) := read_pid st in
  if pid <? 0 then (1, st1)
  else
    let '(r, st2) := check_running pid st1 in
    if r =? 0 then (1, st2) else send_signal pid SIGHUP st2.

Definition cmd_dump (st : ctl_state) : Z * ctl_state :=
  let '(pid, st1) := read_pid st in
  if pid <? 0 then (1, st1)
  else
    let '(r, st2) := check_running pid st1 in
    if r =? 0 then (1, st2) else send_signal pid SIGUSR1 st2.

Definition cmd_save (st : ctl_state) : Z * ctl_state :=
  let '(pid, st1) := read_pid st in
  if pid <? 0 then (1, st1)
  else
    let '(r, st2) := check_running pid st1 in
    if r =? 0 then (1, st2) else send_signal pid SIGUSR2 st2.

(** The loop of [cmd_stop]: [n] turns are left; each begins with [usleep]. *)
Fixpoint wait_stopped (n : nat) (pid : Z) (st : ctl_state) : Z * ctl_state :=
  match n with
  | O => (1, st)
  | S n' =>
      let '(r, st1) := check_running pid (ctl_tick st) in
      if r =? 0 then (0, st1) else wait_stopped n' pid st1
  end.

Definition cmd_stop (st : ctl_state) : Z * ctl_state :=
  let '(pid, st1) := read_pid st in
  if pid <? 0 then (1, st1)
  else
    let '(r, st2) := check_running pid st1 in
    if r =? 0 then (1, st2)
    else
      let '(ret, st3) := send_signal pid SIGTERM st2 in
      if ret =? 0 then wait_stopped 50 pid st3 else (ret, st3).

End Ctl.

(** The commands that signal the daemon, with their signals. *)
Definition signal_commands : list ((ctl_env -> ctl_state -> Z * ctl_state) * signal) :=
  [(cmd_reload, SIGHUP); (cmd_dump, SIGUSR1); (cmd_save, SIGUSR2); (cmd_stop, SIGTERM)].

Definition ctl_start : ctl_state := {| ctl_errno := 0; ctl_clock := 0; ctl_trace := [] |}.

(** A system where the PID file holds [0] and [pgrep] finds the daemon. *)
Definition sample_ctl_env : ctl_env :=
  {| fopen_pidfile := fun _ => Some ("0" ++ newline)%string;
     access_proc := fun _ _ => true;
     readlink_exe := fun _ _ => Some "/usr/local/sbin/preheat"%string;
     pgrep_out := fun _ => Some ("4711" ++ newline)%string;
     kill_fails := fun _ _ _ => false;
     errno_after := fun _ => 0 |}.

(** What a command that signals the daemon does with [kill]: nothing, and
    it answers 1; or one signal to a positive pid. *)
Definition signals_once (sig : signal) (st : ctl_state) (r : Z * ctl_state) : Prop :=
  (ctl_trace r.2 = ctl_trace st /\ r.1 = 1)
  \/ exists pid, 0 < pid /\ in_int pid
                 /\ ctl_trace r.2 = ctl_trace st ++ [EvKill pid sig].

(** A [MARKOV] record between the exe of the index [i] and itself. *)
Definition self_markov_line (i tm : Z) (rest : string) : string :=
  (TAG_MARKOV ++ tab ++ Scan.show_long i ++ tab ++ Scan.show_long i ++ tab
   ++ Scan.show_long tm ++ rest)%string.

(** A state file whose markov joins an exe with itself. *)
Definition self_markov_file : list string :=
  [ record ["PRELOAD"; "0.6.4"; "10"];
    record ["EXE"; "1"; "5"; "3"; "-1"; "file:///bin/sh"];
    self_markov_line 1 0 (tab ++ record ["0"; "0"; "0"; "0"]) ].

(** ** Writing the exemaps (state.c) *)

(** The line that [write_exemap] writes, when the channel takes it;
    [show_g] is the text that [printf] gives a double under [%lg]. [None]:
    the map of the exemap is not there. *)
Definition write_exemap (show_g : float -> string) (exemap : kp_exemap_t) (exe : kp_exe_t)
    (w : world) : option string :=
  match map_heap w !! em_map exemap with
  | Some map =>
      Some (TAG_EXEMAP ++ tab ++ Scan.show_long (e_seq exe) ++ tab
            ++ Scan.show_long (m_seq map) ++ tab ++ show_g (em_prob exemap) ++ newline)%string
  | None => None
  end.

(** A world with the map of the index 3 and the exe of the index 1 of a
    state file, as the reader has them before the exemaps. *)
Definition linked_world : world :=
  {| kp_state := kp_state world_init;
     map_heap := {[ 0%nat := set_refcount 1 sample_map ]};
     exe_heap := {[ 1%nat := sample_exe ]};
     markov_heap := ∅; next_addr := 2 |}.
Definition linked_rc : read_context_t :=
  {| rc_line := EmptyString; rc_errmsg := None; rc_err := None;
     rc_maps := {[ 3 := 0%nat ]}; rc_exes := {[ 1 := 1%nat ]};
     rc_filebuf := EmptyString |}.
Definition sample_exemap : kp_exemap_t := {| em_map := 0%nat; em_prob := fone |}.
Definition sample_g (f : float) : string := "1".

(** ** preheat-ctl: status (tools/ctl_cmd_basic.c) *)

Definition PACKAGE : string := "preheat".

(** [%] on [int]. *)
Definition int_rem (a b : Z) : Z := int_wrap (Z.rem a b).

(** [cmd_status]: [now] is the time, [pause_file] the content of the pause
    file ([None]: it cannot be opened). The answer is the exit status and
    the line on the standard output; the messages on the standard error
    are left out. *)
Definition cmd_status (env : ctl_env) (now : Z) (pause_file : option string)
    (st : ctl_state) : Z * string * ctl_state :=
  let '(pid, st1) := read_pid env st in
  if pid <? 0 then (1, EmptyString, st1)
  else
    let '(status, st2) := check_running env pid st1 in
    if status =? 1 then
      let running := (PACKAGE ++ " is running (PID " ++ Scan.show_long pid ++ ")")%string in
      let plain := (running ++ newline)%string in
      let out :=
        match pause_file with
        | Some content =>
            match Scan.conv_ld content with
            | Some (expiry, _) =>
                if expiry =? 0 then
                  (running ++ " - PAUSED (until reboot)" ++ newline)%string
                else if now <? expiry then
                  let remaining := int_wrap (long_wrap (expiry - now)) in
                  let hours := int_div remaining 3600 in
                  let mins := int_div (int_rem remaining 3600) 60 in
                  (running ++ " - PAUSED (" ++ Scan.show_long hours ++ "h "
                   ++ Scan.show_long mins ++ "m remaining)" ++ newline)%string
                else plain
            | None => plain
            end
        | None => plain
        end in
      (0, out, st2)
    else (1, EmptyString, st2).

(** ** The change timestamps of the markovs that were read *)

(** No markov of the world has had its change timestamp assigned: it is
    what [g_slice_new] left there. *)
Definition unstamped (E : platform) (w : world) : Prop :=
  map_Forall (fun _ m => mk_change_timestamp m = uninit_int E) (markov_heap w).

(** Every markov of [w'] is one of [w], with the change timestamp it had. *)
Definition stamps_kept (w w' : world) : Prop :=
  forall mk m', markov_heap w' !! mk = Some m' ->
    exists m, markov_heap w !! mk = Some m
              /\ mk_change_timestamp m' = mk_change_timestamp m.

(** What [read_state] makes of the state file with a markov. *)
Definition loaded_markov_world : world :=
  match read_state sample_platform inconsistent_state_file world_init with
  | Some (_, w) => w
  | None => world_init
  end.

(** ** The fields of an EXE line *)

(** What follows the tag on an [EXE] line of nine fields (the index, the
    update time, the time, the expansion, the pool, the weighted launches
    as the text [wl], the raw launches, the total duration and the URI),
    on one of six fields and on one of five; [rest] is what the line holds
    after the URI. *)
Definition exe_fields9 (i ut tm ex pool : Z) (wl : string) (raw dur : Z)
    (uri rest : string) : string :=
  (tab ++ Scan.show_long i ++ tab ++ Scan.show_long ut ++ tab ++ Scan.show_long tm ++ tab
   ++ Scan.show_long ex ++ tab ++ Scan.show_long pool ++ tab ++ wl ++ tab
   ++ show_ulong raw ++ tab ++ show_ulong dur ++ tab ++ uri ++ rest)%string.
Definition exe_fields6 (i ut tm ex pool : Z) (uri rest : string) : string :=
  (tab ++ Scan.show_long i ++ tab ++ Scan.show_long ut ++ tab ++ Scan.show_long tm ++ tab
   ++ Scan.show_long ex ++ tab ++ Scan.show_long pool ++ tab ++ uri ++ rest)%string.
Definition exe_fields5 (i ut tm ex : Z) (uri rest : string) : string :=
  (tab ++ Scan.show_long i ++ tab ++ Scan.show_long ut ++ tab ++ Scan.show_long tm ++ tab
   ++ Scan.show_long ex ++ tab ++ uri ++ rest)%string.
(** A line that ends after four numbers. *)
Definition exe_fields4 (i ut tm ex : Z) : string :=
  (tab ++ Scan.show_long i ++ tab ++ Scan.show_long ut ++ tab ++ Scan.show_long tm ++ tab
   ++ Scan.show_long ex ++ newline)%string.

(** What can follow a field: white space, the newline that ends the line
    or more columns. *)
Definition after_field (rest : string) : Prop :=
  exists c r, rest = String c r /\ Scan.isspace c = true.

(** The exe that [read_exe] registers in the world [w]. *)
Definition exe_read (path : string) (tm ut pool : Z) (wl : float) (raw dur : Z) (w : world)
  : kp_exe_t :=
  {| e_path := path; e_seq := int_add (st_exe_seq (kp_state w)) 1; e_size := 0;
     e_time := tm; e_update_time := ut; e_change_timestamp := -1;
     e_running_timestamp := -1; e_pool := pool; e_weighted_launches := wl;
     e_raw_launches := raw; e_total_duration_sec := dur; e_running_pids := [];
     e_exemaps := []; e_markovs := [] |}.

(** An [EXE] line of seven columns after its tag, in a state file. *)
Definition seven_column_file : list string :=
  [ record ["PRELOAD"; "0.6.4"; "10"];
    record ["EXE"; "1"; "-1"; "5"; "-1"; "0"; "file:///bin/a"; "extra"] ].

(* ================================================================== *)
(** * Part II: properties                                              *)
(* ================================================================== *)

(** ** Arithmetic and arrays *)

Lemma int_wrap_id z : in_int z -> int_wrap z = z.
Proof.
  unfold in_int, int_wrap, INT_MIN, INT_MAX. intros H.
  rewrite Z.mod_small by lia. lia.
Qed.

Lemma zlookup_zinsert {A} (l : list A) (i j : Z) (x : A) :
  0 <= i -> 0 <= j -> (Z.to_nat i < length l)%nat ->
  zlookup (zinsert i x l) j = if i =? j then Some x else zlookup l j.
Proof.
  intros Hi Hj Hlen. unfold zlookup, zinsert.
  destruct (Z.ltb_spec i 0); [lia|]. destruct (Z.ltb_spec j 0); [lia|].
  destruct (Z.eqb_spec i j) as [->|Hne].
  - by rewrite list_lookup_insert_eq.
  - rewrite list_lookup_insert_ne; [done|]. lia.
Qed.

Lemma zinsert_length {A} (l : list A) i x : length (zinsert i x l) = length l.
Proof. unfold zinsert. destruct (i <? 0); [done|]. apply length_insert. Qed.

Lemma zlookup_is_Some {A} (l : list A) i :
  0 <= i < Z.of_nat (length l) -> is_Some (zlookup l i).
Proof.
  intros H. unfold zlookup. destruct (Z.ltb_spec i 0); [lia|].
  apply lookup_lt_is_Some. lia.
Qed.

Lemma weight_wf_row wt i row : weight_wf wt -> zlookup wt i = Some row -> length row = 4%nat.
Proof.
  intros [_ Hall] Hl. unfold zlookup in Hl. destruct (i <? 0); [done|].
  eapply Forall_lookup_1 in Hall; eauto.
Qed.

Lemma weight_get_set wt i j v i' j' :
  weight_wf wt -> 0 <= i < 4 -> 0 <= j < 4 -> 0 <= i' < 4 -> 0 <= j' < 4 ->
  weight_get (weight_set i j v wt) i' j'
  = if (i =? i') && (j =? j') then v else weight_get wt i' j'.
Proof.
  intros Hwf Hi Hj Hi' Hj'. unfold weight_get, weight_set.
  pose proof Hwf as [Hl4 _].
  destruct (zlookup_is_Some wt i) as [row Hrow]; [lia|].
  rewrite Hrow. pose proof (weight_wf_row _ _ _ Hwf Hrow) as Hlen.
  rewrite zlookup_zinsert by lia.
  destruct (Z.eqb_spec i i') as [->|Hne]; simpl.
  - rewrite zlookup_zinsert by lia. rewrite Hrow.
    destruct (Z.eqb_spec j j'); done.
  - done.
Qed.

Lemma weight_set_wf wt i j v : weight_wf wt -> weight_wf (weight_set i j v wt).
Proof.
  intros Hwf. unfold weight_set. destruct (zlookup wt i) as [row|] eqn:Hrow; [|done].
  pose proof (weight_wf_row _ _ _ Hwf Hrow) as Hlen.
  destruct Hwf as [Hl Hall]. split; [by rewrite zinsert_length|].
  unfold zinsert at 1. destruct (i <? 0); [done|].
  apply Forall_insert; [done|]. by rewrite zinsert_length.
Qed.


(** ** Markov transitions *)



Lemma markov_state_changed_stamp now s m :
  markov_state_changed now s m = m
  \/ mk_change_timestamp (markov_state_changed now s m) = now.
Proof.
  unfold markov_state_changed.
  destruct (mk_change_timestamp m =? now); [by left|].
  destruct (mk_state m =? s); [by left|]. by right.
Qed.

(** C10. At the logical time of its change timestamp the state-changed
    operation leaves a markov as it is, weights, dwell times, state and
    timestamp; hence calls repeated at one logical time, whatever states
    they announce, amount to at most one of them. *)
Theorem markov_state_changed_same_time :
  (forall (m : kp_markov_t) (s' : Z),
      markov_state_changed (mk_change_timestamp m) s' m = m)
  /\ (forall (m : kp_markov_t) (now : Z) (ss : list Z),
        let m' := foldl (fun m0 s => markov_state_changed now s m0) m ss in
        m' = m \/ exists s, In s ss /\ m' = markov_state_changed now s m).
Proof.
  assert (Hid : forall m s', markov_state_changed (mk_change_timestamp m) s' m = m).
  { intros m s'. unfold markov_state_changed. by rewrite Z.eqb_refl. }
  split; [exact Hid|].
  intros m now ss. revert m. induction ss as [|s ss IH]; intros m; simpl; [by left|].
  destruct (markov_state_changed_stamp now s m) as [Heq|Hst].
  - rewrite Heq. destruct (IH m) as [H|(s0 & Hin & H)]; [by left|].
    right. exists s0. auto.
  - right. exists s. split; [by left|].
    assert (Hfix : forall l m1, mk_change_timestamp m1 = now ->
              foldl (fun m0 s0 => markov_state_changed now s0 m0) m1 l = m1).
    { induction l as [|x l IHl]; intros m1 H1; simpl; [done|].
      rewrite <- H1 at 1. rewrite Hid. by apply IHl. }
    by apply Hfix.
Qed.

(** ** Correlation *)

(** The correlation is 0 as soon as one of the exes has run for no time or
    for all of the time. *)
Lemma correlation_zero t a b ab :
  a = 0 \/ a = t \/ b = 0 \/ b = t -> correlation t a b ab = fzero.
Proof.
  intros H. unfold correlation.
  destruct (Z.eqb_spec a 0), (Z.eqb_spec a t), (Z.eqb_spec b 0), (Z.eqb_spec b t);
    simpl; try reflexivity. lia.
Qed.

(** C5 (the code fails the claim). [read_state] accepts the sample file;
    the markov it builds has a correlation of 39, and
    [kp_markov_correlation] aborts on its assertion. *)
Theorem correlation_assertion_violated :
  exists w mk m,
    read_state sample_platform inconsistent_state_file world_init = Some (None, w)
    /\ markov_heap w !! mk = Some m
    /\ correlation (st_time (kp_state w)) 5 5 (mk_time m) = Z2F 39
    /\ kp_markov_correlation mk w = None.
Proof.
  eexists _, 2%nat, _. split; [vm_compute; reflexivity|].
  split; [vm_compute; reflexivity|]. split; vm_compute; reflexivity.
Qed.

(** ** Saving *)

(** C1 (as the code has it). The save verb reaches the state file only
    when the state is dirty and a state file is named. It then opens the
    temporary file and clears the dirty flag, and it replaces the state
    file by the current state exactly when the open, the write and the
    rename succeed. When the state is not dirty, or no state file is
    named, it issues no system call and only empties the bad exes. In
    both cases nothing else of the daemon changes. *)
Theorem save_signal_when_dirty {X} (statefile : option string) (io : save_io)
    (d : @daemon X) :
  let d' := sig_handler_sync SIGUSR2 statefile io d in
  let w := d_world d in
  d_calls d' = d_calls d /\ d_timers d' = d_timers d /\ d_pause d' = d_pause d
  /\ (forall sf, statefile = Some sf -> sf <> EmptyString ->
        st_dirty (kp_state w) = true ->
        d_world d' = with_state (set_st_bad_exes ∅) (with_state (set_st_dirty false) w)
        /\ exists ev,
             d_syscalls d'
             = d_syscalls d ++ SysOpen (sf ++ ".tmp") (sio_open_ok io) :: ev
             /\ (replaces_state_file sf w (SysOpen (sf ++ ".tmp") (sio_open_ok io) :: ev)
                 <-> sio_open_ok io = true /\ sio_write_error io = None
                     /\ sio_rename_ok io = true))
  /\ (st_dirty (kp_state w) = false \/ statefile = None
      \/ statefile = Some EmptyString ->
      d_world d' = with_state (set_st_bad_exes ∅) w /\ d_syscalls d' = d_syscalls d).
Proof.
  intros d' w. subst d' w. unfold sig_handler_sync.
  destruct (kp_state_save statefile io (d_world d)) as [w' ev] eqn:Hs. cbn.
  split; [done|]. split; [done|]. split; [done|]. split.
  - intros sf -> Hne Hd. revert Hs. unfold kp_state_save. rewrite Hd.
    destruct (String.eqb_spec sf EmptyString) as [->|_]; [done|]. cbn [andb negb].
    intros [= <- <-]. split; [done|].
    destruct (sio_open_ok io) eqn:Ho; cbn [negb].
    + destruct (sio_write_error io) as [msg|] eqn:Hw.
      * eexists. split; [reflexivity|]. split; [intros [fs [=]]|intros (_ & [=] & _)].
      * destruct (sio_rename_ok io) eqn:Hr.
        -- eexists. split; [reflexivity|]. split; [done|]. intros _.
           exists (sio_fsync_ok io). reflexivity.
        -- eexists. split; [reflexivity|]. split; [intros [fs [=]]|intros (_ & _ & [=])].
    + exists []. split; [reflexivity|]. split; [intros [fs [=]]|intros ([=] & _)].
  - intros Hc. revert Hs. unfold kp_state_save.
    destruct statefile as [sf|]; [|intros [= <- <-]; by rewrite app_nil_r].
    destruct (st_dirty (kp_state (d_world d))) eqn:Hd.
    + destruct Hc as [Hc|[Hc|Hc]]; [done|done|]. injection Hc as ->. cbn.
      intros [= <- <-]. by rewrite app_nil_r.
    + cbn. intros [= <- <-]. by rewrite app_nil_r.
Qed.

Lemma save_signal_when_dirty_witness :
  exists ev,
    d_syscalls (sig_handler_sync SIGUSR2 (Some sample_statefile) io_ok
                  (sample_daemon dirty_world (paused_until 0)))
    = [] ++ SysOpen (sample_statefile ++ ".tmp") true :: ev
    /\ replaces_state_file sample_statefile dirty_world
         (SysOpen (sample_statefile ++ ".tmp") true :: ev).
Proof.
  destruct (save_signal_when_dirty (Some sample_statefile) io_ok
              (sample_daemon dirty_world (paused_until 0))) as (_ & _ & _ & H & _).
  destruct (H sample_statefile eq_refl ltac:(discriminate) eq_refl) as (_ & ev & Hev & Hrep).
  exists ev. split; [exact Hev|]. apply Hrep. by repeat split.
Defined.

(** C1 (the claim fails). A save requested while the state is not dirty
    does not touch the state file. *)
Lemma save_signal_not_forced :
  ~ writes_state_file sample_statefile
      (d_syscalls (sig_handler_sync SIGUSR2 (Some sample_statefile) io_ok
                     (sample_daemon world_init (paused_until 0)))).
Proof. intros [[]|[]]. Qed.

(** C3 (as the code has it). A save that fails for want of a resource
    leaves the world as it was but for two fields: the dirty flag is
    cleared and the bad exes are emptied, as after a save that succeeds.
    The state file is not replaced, and a temporary file that was opened
    is removed. *)
Theorem save_failure (sf : string) (io : save_io) (w : world) :
  st_dirty (kp_state w) = true -> sf <> EmptyString -> save_fails io ->
  let r := kp_state_save (Some sf) io w in
  r.1 = with_state (set_st_bad_exes ∅) (with_state (set_st_dirty false) w)
  /\ (forall src, ~ In (SysRename src sf true) r.2)
  /\ (sio_open_ok io = true -> In (SysUnlink (sf ++ ".tmp")) r.2).
Proof.
  intros Hd Hne Hf r. subst r. unfold kp_state_save. rewrite Hd.
  destruct (String.eqb_spec sf EmptyString) as [->|_]; [done|]. simpl.
  split; [done|].
  destruct (sio_open_ok io) eqn:Ho; simpl.
  - destruct (sio_write_error io) as [msg|] eqn:Hw; simpl.
    + split; [|intros _; auto]. intros src [H|[H|[H|[H|[]]]]]; discriminate.
    + destruct Hf as [Hf|[[? Hf]|Hf]]; try congruence. rewrite Hf. simpl.
      split; [|intros _; auto 10].
      intros src [H|[H|[H|[H|[H|[H|[]]]]]]]; discriminate.
  - split; [|done]. intros src [H|[]]; discriminate.
Qed.

Lemma save_failure_witness :
  (kp_state_save (Some sample_statefile) io_open_fails dirty_world).1
  = with_state (set_st_bad_exes ∅) (with_state (set_st_dirty false) dirty_world).
Proof.
  apply (save_failure sample_statefile io_open_fails dirty_world).
  - reflexivity.
  - discriminate.
  - left. reflexivity.
Defined.

(** C3 (the claim fails). The temporary file cannot be opened: the state
    was dirty before the save and is no longer dirty after it. *)
Lemma save_failure_clears_dirty :
  st_dirty (kp_state dirty_world) = true
  /\ save_fails io_open_fails
  /\ st_dirty (kp_state (kp_state_save (Some sample_statefile) io_open_fails
                           dirty_world).1) = false.
Proof. split; [reflexivity|]. split; [by left|reflexivity]. Qed.

(** ** The tick *)

Section TickProps.
Context {X : Type}.
Context (kp_spy_scan kp_spy_update_model kp_prophet_predict : X * world -> X * world).
Context (kp_session_check : X -> X) (kp_session_in_boot_window : X -> bool).
Context (kp_session_preload_top_apps : Z -> X * world -> X * world).

Abbreviation tick := (kp_state_tick kp_spy_scan kp_prophet_predict kp_session_check
                    kp_session_in_boot_window kp_session_preload_top_apps).
Abbreviation tick2 := (kp_state_tick2 kp_spy_update_model).

Lemma extern_conf c f (d : @daemon X) : d_conf (extern c f d) = d_conf d.
Proof. unfold extern. by destruct (f _). Qed.
Lemma extern_pause c f (d : @daemon X) : d_pause (extern c f d) = d_pause d.
Proof. unfold extern. by destruct (f _). Qed.
Lemma extern_calls c f (d : @daemon X) : d_calls (extern c f d) = d_calls d ++ [c].
Proof. unfold extern. by destruct (f _). Qed.
Lemma extern_time c f (d : @daemon X) :
  keeps_time f ->
  st_time (kp_state (d_world (extern c f d))) = st_time (kp_state (d_world d)).
Proof. intros H. unfold extern. specialize (H (d_ext d, d_world d)). by destruct (f _). Qed.

Ltac tick_cases :=
  repeat (simpl; rewrite ?extern_conf, ?extern_pause;
          match goal with
          | |- context [kp_pause_is_active ?n ?p] =>
              destruct (kp_pause_is_active n p) as [[] ?] eqn:?
          | |- context [if ?b then _ else _] => destruct b eqn:?
          end).

Lemma tick2_conf d : d_conf (tick2 d) = d_conf d.
Proof.
  unfold kp_state_tick2. simpl. destruct (st_model_dirty _); simpl; [apply extern_conf|done].
Qed.
Lemma tick2_pause d : d_pause (tick2 d) = d_pause d.
Proof.
  unfold kp_state_tick2. simpl. destruct (st_model_dirty _); simpl; [apply extern_pause|done].
Qed.
Lemma tick_conf now d : d_conf (tick now d) = d_conf d.
Proof. unfold kp_state_tick. tick_cases; simpl; by rewrite ?extern_conf. Qed.

Lemma tick2_time d :
  keeps_time kp_spy_update_model ->
  st_time (kp_state (d_world (tick2 d)))
  = int_add (st_time (kp_state (d_world d))) (int_div (int_add (cycle (d_conf d)) 1) 2).
Proof.
  intros H. unfold kp_state_tick2. simpl.
  destruct (st_model_dirty _); simpl; [|done].
  rewrite extern_conf. by rewrite extern_time.
Qed.

Lemma tick_time now d :
  keeps_time kp_spy_scan -> keeps_time kp_prophet_predict ->
  keeps_time (kp_session_preload_top_apps 5) ->
  st_time (kp_state (d_world (tick now d)))
  = int_add (st_time (kp_state (d_world d))) (int_div (cycle (d_conf d)) 2).
Proof.
  intros H1 H2 H3. unfold kp_state_tick.
  assert (Hc : keeps_time (fun xw : X * world => (kp_session_check xw.1, xw.2))) by done.
  tick_cases; simpl; rewrite ?extern_conf, ?extern_time; simpl; rewrite ?extern_time; done.
Qed.

(** C6. For a cycle [c >= 0] the first phase of a tick advances the
    logical time by [c / 2] and the second by [(c + 1) / 2], rounded down,
    so that a tick followed by its second phase advances it by [c]
    exactly. The other components leave the time alone, and the sums stay
    below [INT_MAX]. *)
Theorem tick_cycle_time (d : @daemon X) (now : Z) :
  let c := cycle (d_conf d) in
  let t := st_time (kp_state (d_world d)) in
  keeps_time kp_spy_scan -> keeps_time kp_prophet_predict ->
  keeps_time (kp_session_preload_top_apps 5) -> keeps_time kp_spy_update_model ->
  0 <= c < INT_MAX -> in_int t -> in_int (t + c) ->
  st_time (kp_state (d_world (tick now d))) = t + c / 2
  /\ st_time (kp_state (d_world (tick2 d))) = t + (c + 1) / 2
  /\ st_time (kp_state (d_world (tick2 (tick now d)))) = t + c.
Proof.
  intros c t H1 H2 H3 H4 Hc Ht Htc.
  assert (Hq1 : int_div c 2 = c / 2).
  { unfold int_div. rewrite Z.quot_div_nonneg by lia. apply int_wrap_id.
    unfold in_int, INT_MIN, INT_MAX in *. pose proof (Z.div_pos c 2).
    assert (c / 2 <= c) by (apply Z.div_le_upper_bound; lia). lia. }
  assert (Hq2 : int_div (int_add c 1) 2 = (c + 1) / 2).
  { unfold int_div, int_add. rewrite (int_wrap_id (c + 1))
      by (unfold in_int, INT_MIN, INT_MAX in *; lia).
    rewrite Z.quot_div_nonneg by lia. apply int_wrap_id.
    unfold in_int, INT_MIN, INT_MAX in *. pose proof (Z.div_pos (c + 1) 2).
    assert ((c + 1) / 2 <= c + 1) by (apply Z.div_le_upper_bound; lia). lia. }
  assert (Hh1 : 0 <= c / 2 <= c).
  { split; [apply Z.div_pos; lia|apply Z.div_le_upper_bound; lia]. }
  assert (Hsum : c / 2 + (c + 1) / 2 = c).
  { pose proof (Z.div_mod c 2). pose proof (Z.div_mod (c + 1) 2).
    pose proof (Z.mod_pos_bound c 2). pose proof (Z.mod_pos_bound (c + 1) 2).
    assert ((c + 1) mod 2 = (c mod 2 + 1) mod 2) by (rewrite Zplus_mod_idemp_l; done).
    destruct (Z.eq_dec (c mod 2) 0) as [E0|E0].
    - rewrite E0 in *. simpl in *. change (1 mod 2) with 1 in *. lia.
    - assert (c mod 2 = 1) by lia. replace (c mod 2 + 1) with 2 in * by lia.
      change (2 mod 2) with 0 in *. lia. }
  assert (Hh2 : 0 <= (c + 1) / 2 <= c) by lia.
  split_and!.
  - rewrite tick_time by done. fold c t. rewrite Hq1. unfold int_add.
    apply int_wrap_id. unfold in_int, INT_MIN, INT_MAX in *. lia.
  - rewrite tick2_time by done. fold c t. rewrite Hq2. unfold int_add.
    apply int_wrap_id. unfold in_int, INT_MIN, INT_MAX in *. lia.
  - rewrite tick2_time by done. rewrite tick_conf, tick_time by done. fold c t.
    rewrite Hq1, Hq2. unfold int_add.
    rewrite (int_wrap_id (t + c / 2)) by (unfold in_int, INT_MIN, INT_MAX in *; lia).
    rewrite int_wrap_id by (unfold in_int, INT_MIN, INT_MAX in *; lia). lia.
Qed.

Lemma pause_unexpired_active now p :
  pause_unexpired now p -> exists p', kp_pause_is_active now p = (true, p').
Proof.
  intros [(Hi & Ha & He)|(Hi & content & e & r & Hf & Hc & He)];
    unfold kp_pause_is_active.
  - rewrite Hi, Ha. simpl. destruct He as [He|He].
    + rewrite He. eauto.
    + destruct (Z.eqb_spec (expiry p.1) 0); [eauto|].
      destruct (Z.leb_spec (expiry p.1) now); [lia|eauto].
  - rewrite Hi. unfold kp_pause_init, load_pause_file. simpl. rewrite Hf, Hc.
    destruct (Z.eqb_spec e 0) as [->|Hne]; simpl; [eauto|].
    destruct He as [He|He]; [done|].
    destruct (Z.ltb_spec now e); [|lia]. simpl.
    destruct (Z.eqb_spec e 0); [done|]. destruct (Z.leb_spec e now); [lia|eauto].
Qed.

Lemma tick_calls_paused now d p' :
  kp_pause_is_active now (d_pause d) = (true, p') ->
  d_calls (tick now d) = d_calls d ++ (if doscan (d_conf d) then [CallSpyScan] else []).
Proof.
  intros Hp. unfold kp_state_tick.
  destruct (doscan (d_conf d)); simpl; rewrite ?extern_conf, ?extern_pause;
    destruct (dopredict (d_conf d)); simpl; rewrite ?extern_calls, ?app_nil_r; try done;
    rewrite Hp; simpl; by rewrite ?extern_calls, ?app_nil_r.
Qed.

Lemma tick_calls_unpaused now d p' :
  kp_pause_is_active now (d_pause d) = (false, p') -> dopredict (d_conf d) = true ->
  d_pause (tick now d) = p' /\ last (d_calls (tick now d)) = Some CallProphetPredict.
Proof.
  intros Hp Hd. unfold kp_state_tick.
  destruct (doscan (d_conf d)); simpl; rewrite ?extern_conf, ?extern_pause, Hd, Hp; simpl;
    (destruct (kp_session_in_boot_window _)); simpl;
    rewrite ?extern_pause; simpl; rewrite extern_calls, last_snoc; done.
Qed.

(** The pause state that the daemon holds. In a tick during which it is
    active and not expired (an expiry of 0, or one in the future), nothing
    but the scanner is called: neither the predictor nor the session
    preload. In a tick at or after the expiry the pause is cleared and the
    predictor runs, as it does in the ticks that follow. *)
Lemma pause_gates_prediction (d : @daemon X) (now : Z) :
  (pause_unexpired now (d_pause d) ->
   d_calls (tick now d) = d_calls d ++ (if doscan (d_conf d) then [CallSpyScan] else []))
  /\ (initialized (d_pause d).1 = true -> active (d_pause d).1 = true ->
      expiry (d_pause d).1 <> 0 -> expiry (d_pause d).1 <= now ->
      dopredict (d_conf d) = true ->
      let d' := tick now d in
      active (d_pause d').1 = false
      /\ last (d_calls d') = Some CallProphetPredict
      /\ forall now', last (d_calls (tick now' (tick2 d'))) = Some CallProphetPredict).
Proof.
  split.
  - intros Hp. destruct (pause_unexpired_active _ _ Hp) as [p' Hp'].
    by eapply tick_calls_paused.
  - intros Hi Ha He Hle Hd d'.
    assert (Hp : kp_pause_is_active now (d_pause d) = (false, kp_pause_clear (d_pause d))).
    { unfold kp_pause_is_active. rewrite Hi, Ha. simpl.
      destruct (Z.eqb_spec (expiry (d_pause d).1) 0); [done|].
      destruct (Z.leb_spec (expiry (d_pause d).1) now); [done|lia]. }
    destruct (tick_calls_unpaused _ _ _ Hp Hd) as [Hp' Hl]. fold d' in Hp', Hl.
    split_and!; try done.
    + by rewrite Hp'.
    + intros now'. eapply tick_calls_unpaused.
      * rewrite tick2_pause, Hp'. unfold kp_pause_is_active, kp_pause_clear. simpl.
        rewrite Hi. simpl. reflexivity.
      * rewrite tick2_conf. unfold d'. by rewrite tick_conf.
Qed.
End TickProps.

Lemma tick_cycle_time_witness :
  st_time (kp_state (d_world (sample_tick 0 (sample_daemon dirty_world (paused_until 0))))) = 50
  /\ st_time (kp_state (d_world (sample_tick2 (sample_daemon dirty_world (paused_until 0))))) = 51
  /\ st_time (kp_state (d_world
        (sample_tick2 (sample_tick 0 (sample_daemon dirty_world (paused_until 0)))))) = 61.
Proof.
  apply (tick_cycle_time no_op no_op no_op (fun x => x) (fun _ => false) (fun _ => no_op)
           (sample_daemon dirty_world (paused_until 0)) 0);
    try (intros xw; reflexivity); unfold in_int, INT_MIN, INT_MAX; simpl; lia.
Defined.

Lemma pause_gates_prediction_witness :
  d_calls (sample_tick 20 (sample_daemon world_init (paused_until 60))) = [CallSpyScan]
  /\ last (d_calls (sample_tick 70 (sample_daemon world_init (paused_until 60))))
     = Some CallProphetPredict.
Proof.
  split.
  - apply (proj1 (pause_gates_prediction no_op no_op no_op (fun x => x) (fun _ => false)
                    (fun _ => no_op) (sample_daemon world_init (paused_until 60)) 20)).
    left. simpl. split; [reflexivity|]. split; [reflexivity|]. right. lia.
  - destruct (proj2 (pause_gates_prediction no_op no_op no_op (fun x => x) (fun _ => false)
                       (fun _ => no_op) (sample_daemon world_init (paused_until 60)) 70))
      as (_ & H & _).
    + reflexivity.
    + reflexivity.
    + discriminate.
    + cbn. lia.
    + reflexivity.
    + exact H.
Defined.

(** C7 (the code fails the claim). A daemon has run a cycle without a
    pause file, so that its pause state is initialised. Then [cmd_pause]
    writes the pause file, with the expiry 0 (until reboot) or with an
    expiry in the future. In the next tick, before that expiry, the
    daemon does not look at the file: it calls the predictor. *)
Theorem pause_file_ignored_by_running_daemon :
  let d1 := sample_tick2 (sample_tick 100 (sample_daemon world_init not_initialised)) in
  let until_reboot := (cmd_pause 130 0 true (d_pause d1).2).2 in
  let one_hour := (cmd_pause 130 3600 true (d_pause d1).2).2 in
  initialized (d_pause d1).1 = true
  /\ until_reboot = Some ("0" ++ newline)%string
  /\ one_hour = Some ("3730" ++ newline)%string
  /\ d_calls (sample_tick 140 (with_pause_file until_reboot d1))
     = d_calls d1 ++ [CallSpyScan; CallSessionCheck; CallProphetPredict]
  /\ d_calls (sample_tick 140 (with_pause_file one_hour d1))
     = d_calls d1 ++ [CallSpyScan; CallSessionCheck; CallProphetPredict].
Proof. split_and!; vm_compute; reflexivity. Qed.

(** ** Loading *)

Section LoadProps.
Context (E : platform).





Lemma read_state_ok_inv lines w1 :
  read_state E lines world_init = Some (None, w1) ->
  exists b n rc w, read_lines E lines 0 rc_init world_init = Some (b, n, rc, w)
                   /\ rc_failed rc = false.
Proof.
  unfold read_state. destruct (read_lines E lines 0 rc_init world_init)
    as [[[[b n] rc] w]|]; [|done].
  intros H. exists b, n, rc, w. split; [done|]. unfold rc_failed.
  destruct (rc_err rc); [done|]. destruct (rc_errmsg rc); done.
Qed.







End LoadProps.



(** The records read before the line in error stay in memory while the
    file is renamed aside. *)
Lemma load_keeps_records_before_error :
  exists w ev, kp_state_load sample_platform (Some sample_statefile)
                 (load_of truncated_markov_file) = Some (w, ev)
               /\ quarantined sample_statefile (load_of truncated_markov_file) ev
               /\ size (st_exes (kp_state w)) = 2%nat.
Proof.
  eexists _, _. split; [vm_compute; reflexivity|]. split; [by left|].
  vm_compute. reflexivity.
Qed.

(** ** Registering an exe *)

Section RegisterNew.
Context (E : platform).

Lemma kp_markov_new_state a b init w :
  kp_state (kp_markov_new E a b init w).2 = kp_state w.
Proof.
  unfold kp_markov_new. destruct (Nat.eqb a b); [done|].
  destruct (exe_heap w !! a); [|done]. destruct (exe_heap w !! b); [|done].
  cbn [snd]. destruct init; [|done]. cbn.
  match goal with |- context [let '(ct, st) := ?p in _] => destruct p as [ct st] end.
  unfold kp_markov_state_changed. cbn. rewrite lookup_insert_eq. done.
Qed.

Lemma register_exe_markovs_state ea e create w :
  kp_state (register_exe_markovs E ea e create w)
  = set_st_exe_seq (int_add (st_exe_seq (kp_state w)) 1) (kp_state w).
Proof.
  unfold register_exe_markovs. destruct create; [|done].
  generalize (map_to_list (st_exes (kp_state w))). intros l.
  set (w1 := with_exes _ _).
  assert (H1 : kp_state w1 = set_st_exe_seq (int_add (st_exe_seq (kp_state w)) 1) (kp_state w))
    by done.
  revert H1. generalize w1. clear w1.
  induction l as [|kv l IH]; intros w0 H0; [done|]. cbn [foldl]. apply IH.
  destruct (Nat.eqb kv.2 ea); [done|]. by rewrite kp_markov_new_state.
Qed.

(** Registering an exe whose path is not tracked: the entry is added and
    nothing is freed. *)
Lemma kp_state_register_exe_new ea e create w :
  exe_heap w !! ea = Some e -> st_exes (kp_state w) !! e_path e = None ->
  kp_state_register_exe E ea create w
  = Some (with_state (fun s => set_st_exes (<[e_path e := ea]> (st_exes s)) s)
            (register_exe_markovs E ea e create w)).
Proof.
  intros He Hp. unfold kp_state_register_exe, exes_insert. rewrite He.
  rewrite register_exe_markovs_state. unfold set_st_exe_seq, state_with.
  cbn [st_exes]. by rewrite Hp.
Qed.

End RegisterNew.

(** ** The widths of an EXE line *)

Lemma skip_ws_head s c r : Scan.skip_ws s = String c r -> Scan.isspace c = false.
Proof.
  induction s as [|c0 s IH]; simpl; [done|].
  destruct (Scan.isspace c0) eqn:Hc; [exact IH|]. by intros [= <- <-].
Qed.

Lemma skip_ws_idem s : Scan.skip_ws (Scan.skip_ws s) = Scan.skip_ws s.
Proof.
  induction s as [|c s IH]; simpl; [done|].
  destruct (Scan.isspace c) eqn:Hc; [exact IH|]. simpl. by rewrite Hc.
Qed.

Lemma conv_s_head w s t r :
  Scan.conv_s w s = Some (t, r) ->
  exists c t' r0, t = String c t' /\ Scan.skip_ws s = String c r0.
Proof.
  unfold Scan.conv_s. destruct w as [|w]; simpl.
  - destruct (Scan.skip_ws s); done.
  - destruct (Scan.skip_ws s) as [|c r0]; simpl; [done|].
    destruct (negb (Scan.isspace c)); [|done].
    destruct (Scan.take_while _ w r0) as [t' r']. intros [= <- <-]. eauto.
Qed.

Lemma lower_f c : Scan.lower c = "f"%char -> c = "f"%char \/ c = "F"%char.
Proof.
  destruct c as [[] [] [] [] [] [] [] []]; vm_compute; intros H;
    try discriminate H; auto.
Qed.

Lemma file_scheme_head t :
  is_Some (Scan.strip_case_prefix "file:/" t) ->
  exists c t', t = String c t' /\ (c = "f"%char \/ c = "F"%char).
Proof.
  intros [r H]. destruct t as [|c t']; simpl in H; [done|].
  destruct (Ascii.eqb_spec (Scan.lower c) "f"); [|done].
  exists c, t'. split; [done|]. by apply lower_f.
Qed.

Lemma conv_d_letter s c r :
  Scan.skip_ws s = String c r -> c = "f"%char \/ c = "F"%char -> Scan.conv_d s = None.
Proof.
  intros Hs Hc. unfold Scan.conv_d, Scan.conv_ld, Scan.scan_decimal. rewrite Hs.
  destruct Hc as [-> | ->]; reflexivity.
Qed.

Lemma conv_lf_letter s c r :
  Scan.skip_ws s = String c r -> c = "f"%char \/ c = "F"%char -> Scan.conv_lf s = None.
Proof.
  intros Hs Hc. unfold Scan.conv_lf. rewrite Hs.
  destruct Hc as [-> | ->]; reflexivity.
Qed.

Lemma rc_failed_errmsg m rc : rc_failed (set_rc_errmsg m rc) = true.
Proof. unfold rc_failed. simpl. apply orb_true_r. Qed.
Lemma rc_failed_err m rc : rc_failed (set_rc_err m rc) = true.
Proof. reflexivity. Qed.

Section ExeLine.
Context (E : platform).

Lemma sscanf_d fmt s :
  Scan.sscanf (Scan.Conv_d :: Scan.Ws :: fmt) s
  = match Scan.conv_d s with
    | Some (z, r) => let '(vs, r') := Scan.sscanf fmt (Scan.skip_ws r) in (Scan.VInt z :: vs, r')
    | None => ([], s)
    end.
Proof. reflexivity. Qed.

Lemma exe6_counters line old :
  let vs6 := (Scan.sscanf (fmt_exe6 E) line).1 in
  (6 <= length vs6)%nat ->
  is_Some (Scan.strip_case_prefix "file:/" (Scan.store_str vs6 5 old)) ->
  (Scan.sscanf (fmt_exe9 E) line).1 = take 5 vs6.
Proof.
  unfold fmt_exe6, fmt_exe9. rewrite !sscanf_d.
  destruct (Scan.conv_d line) as [[z1 r1]|]; [|simpl; lia].
  rewrite !sscanf_d.
  destruct (Scan.conv_d (Scan.skip_ws r1)) as [[z2 r2]|]; [|simpl; lia].
  rewrite !sscanf_d.
  destruct (Scan.conv_d (Scan.skip_ws r2)) as [[z3 r3]|]; [|simpl; lia].
  rewrite !sscanf_d.
  destruct (Scan.conv_d (Scan.skip_ws r3)) as [[z4 r4]|]; [|simpl; lia].
  rewrite !sscanf_d.
  destruct (Scan.conv_d (Scan.skip_ws r4)) as [[z5 r5]|]; [|simpl; lia].
  cbn [Scan.sscanf].
  destruct (Scan.conv_s (FILELENSTR E) (Scan.skip_ws r5)) as [[t r6]|] eqn:Hs; [|simpl; lia].
  intros _ Hp. change (is_Some (Scan.strip_case_prefix "file:/" t)) in Hp.
  destruct (conv_s_head _ _ _ _ Hs) as (c & t' & r0 & -> & Hr0).
  destruct (file_scheme_head _ Hp) as (c' & t'' & [= <- <-] & Hc).
  by rewrite (conv_lf_letter _ _ _ Hr0 Hc).
Qed.

Lemma exe5_counters line old :
  let vs5 := (Scan.sscanf (fmt_exe5 E) line).1 in
  (5 <= length vs5)%nat ->
  is_Some (Scan.strip_case_prefix "file:/" (Scan.store_str vs5 4 old)) ->
  (Scan.sscanf (fmt_exe9 E) line).1 = take 4 vs5
  /\ (Scan.sscanf (fmt_exe6 E) line).1 = take 4 vs5.
Proof.
  unfold fmt_exe6, fmt_exe9, fmt_exe5. rewrite !sscanf_d.
  destruct (Scan.conv_d line) as [[z1 r1]|]; [|simpl; lia].
  rewrite !sscanf_d.
  destruct (Scan.conv_d (Scan.skip_ws r1)) as [[z2 r2]|]; [|simpl; lia].
  rewrite !sscanf_d.
  destruct (Scan.conv_d (Scan.skip_ws r2)) as [[z3 r3]|]; [|simpl; lia].
  rewrite !sscanf_d.
  destruct (Scan.conv_d (Scan.skip_ws r3)) as [[z4 r4]|]; [|simpl; lia].
  cbn [Scan.sscanf].
  destruct (Scan.conv_s (FILELENSTR E) (Scan.skip_ws r4)) as [[t r5]|] eqn:Hs; [|simpl; lia].
  intros _ Hp. change (is_Some (Scan.strip_case_prefix "file:/" t)) in Hp.
  destruct (conv_s_head _ _ _ _ Hs) as (c & t' & r0 & -> & Hr0).
  destruct (file_scheme_head _ Hp) as (c' & t'' & [= <- <-] & Hc).
  by rewrite (conv_d_letter _ _ _ Hr0 Hc).
Qed.

Lemma store_take_int vs k old : Scan.store_int (take k vs) k old = old.
Proof.
  unfold Scan.store_int. rewrite lookup_ge_None_2; [done|]. rewrite length_take. lia.
Qed.
Lemma store_take_double vs k j old : (k <= j)%nat -> Scan.store_double (take k vs) j old = old.
Proof.
  intros H. unfold Scan.store_double. rewrite lookup_ge_None_2; [done|].
  rewrite length_take. lia.
Qed.
Lemma store_take_int_ge vs k j old : (k <= j)%nat -> Scan.store_int (take k vs) j old = old.
Proof.
  intros H. unfold Scan.store_int. rewrite lookup_ge_None_2; [done|].
  rewrite length_take. lia.
Qed.

(** With a file URI in the buffer, the narrower formats leave the counters
    of the wide one as they were declared. *)
Lemma scan_exe_defaults line x0 f x :
  scan_exe E line x0 = (Some f, x) ->
  is_Some (Scan.strip_case_prefix "file:/" (v_filebuf x)) ->
  f <> Form9 ->
  v_weighted_launches x = v_weighted_launches x0
  /\ v_raw_launches x = v_raw_launches x0
  /\ v_total_duration x = v_total_duration x0
  /\ (f = Form5 -> v_pool x = POOL_OBSERVATION E).
Proof.
  unfold scan_exe. cbv zeta.
  pose proof (exe6_counters line (v_filebuf (assign_exe9
                (Scan.sscanf (fmt_exe9 E) line).1 x0))) as L6.
  pose proof (exe5_counters line (v_filebuf (assign_exe6
                (Scan.sscanf (fmt_exe6 E) line).1 (assign_exe9
                (Scan.sscanf (fmt_exe9 E) line).1 x0)))) as L5.
  cbv zeta in L6, L5.
  remember ((Scan.sscanf (fmt_exe9 E) line).1) as vs9 eqn:E9.
  remember ((Scan.sscanf (fmt_exe6 E) line).1) as vs6 eqn:E6.
  remember ((Scan.sscanf (fmt_exe5 E) line).1) as vs5 eqn:E5.
  clear E9 E6 E5.
  destruct (9 <=? length vs9)%nat; [by intros [= <- <-]|].
  destruct (6 <=? length vs6)%nat eqn:H6.
  - intros [= <- <-] Hp _. apply Nat.leb_le in H6.
    rewrite (L6 H6 Hp). cbn.
    rewrite !store_take_double, !store_take_int_ge by lia. done.
  - destruct (length vs5 <? 5)%nat eqn:H5; [done|].
    intros [= <- <-] Hp _. apply Nat.ltb_ge in H5.
    destruct (L5 H5 Hp) as [-> ->]. cbn.
    rewrite !store_take_double, !store_take_int_ge by lia. done.
Qed.

End ExeLine.

Lemma strip_case_prefix_app p q s r :
  Scan.strip_case_prefix (p ++ q) s = Some r -> is_Some (Scan.strip_case_prefix p s).
Proof.
  revert s. induction p as [|a p IH]; intros s; simpl; [eauto|].
  destruct s as [|c s]; [done|]. destruct (Ascii.eqb (Scan.lower c) a); [apply IH|done].
Qed.

Lemma sample_uri_scheme : uri_scheme sample_platform.
Proof.
  intros s p. simpl. unfold sample_uri.
  destruct (Scan.strip_case_prefix "file://" s) as [r|] eqn:H; [|done].
  intros _. by apply (strip_case_prefix_app "file:/" "/" s r).
Qed.

(** ** The reference counts of the maps *)

Lemma maps_ok_ext c c' w : (forall a, c a = c' a) -> maps_ok c w -> maps_ok c' w.
Proof.
  intros Hc [H1 H2 H3 H4 H5]. split; intros.
  - rewrite <- Hc. eauto.
  - eauto.
  - eauto.
  - apply H4. by rewrite Hc.
  - rewrite <- Hc. eauto.
Qed.

Lemma maps_ok_frame c w w' :
  map_heap w' = map_heap w -> st_maps (kp_state w') = st_maps (kp_state w) ->
  maps_ok c w -> maps_ok c w'.
Proof.
  intros Hh Ht [H1 H2 H3 H4 H5]. split; rewrite ?Hh, ?Ht; eauto.
Qed.

Section MapProps.
Context (E : platform).

Lemma kp_map_ref_ok c w a m :
  maps_ok c w -> map_heap w !! a = Some m ->
  (m_refcount m = 0 -> st_maps (kp_state w) !! map_key m = None) ->
  m_refcount m < INT_MAX ->
  maps_ok (incr a c) (kp_map_ref a w).
Proof.
  intros [H1 H2 H3 H4 H5] Ha Hc Hlt. unfold kp_map_ref. rewrite Ha.
  pose proof (H1 _ _ Ha) as Hrc.
  assert (Hadd : int_add (m_refcount m) 1 = Z.of_nat (S (c a))).
  { unfold int_add. rewrite int_wrap_id; unfold in_int, INT_MIN; lia. }
  destruct (Z.eqb_spec (m_refcount m) 0) as [H0|H0].
  - (* first reference: the map is registered *)
    specialize (Hc H0). unfold kp_state_register_map. rewrite Ha, Hc.
    split; cbn.
    + intros b mb. rewrite lookup_alter. unfold incr.
      destruct (decide (a = b)) as [<-|Hne].
      * rewrite lookup_insert_eq. intros [= <-]. cbn. rewrite decide_True by done. exact Hadd.
      * rewrite lookup_insert_ne by done. rewrite decide_False by done. apply H1.
    + intros b mb. rewrite lookup_alter.
      destruct (decide (a = b)) as [<-|Hne].
      * rewrite lookup_insert_eq. intros [= <-]. cbn.
        change (map_key (set_refcount _ (set_map_seq _ m))) with (map_key m).
        rewrite lookup_insert_eq. rewrite Hadd. split; [lia|done].
      * rewrite lookup_insert_ne by done. intros Hb.
        destruct (decide (map_key m = map_key mb)) as [Hk|Hk].
        -- rewrite <- Hk, lookup_insert_eq. split; [by intros [= ->]|].
           intros Hpos. apply (H2 _ _ Hb) in Hpos. rewrite <- Hk, Hc in Hpos. done.
        -- rewrite lookup_insert_ne by done. by apply H2.
    + intros k b. destruct (decide (map_key m = k)) as [<-|Hk].
      * rewrite lookup_insert_eq. intros [= <-]. rewrite lookup_alter_eq, lookup_insert_eq.
        cbn. eauto.
      * rewrite lookup_insert_ne by done. intros Hb.
        destruct (H3 _ _ Hb) as (mb & Hmb & Hkb).
        rewrite lookup_alter. destruct (decide (a = b)) as [<-|Hne].
        -- rewrite lookup_insert_eq. cbn. eexists. split; [done|].
           rewrite Ha in Hmb. by injection Hmb as <-.
        -- rewrite lookup_insert_ne by done. eauto.
    + intros b. unfold incr. rewrite lookup_alter.
      destruct (decide (a = b)) as [<-|Hne].
      * rewrite lookup_insert_eq. cbn. eauto.
      * rewrite lookup_insert_ne by done. rewrite decide_False by done. apply H4.
    + intros b. unfold incr. destruct (decide (b = a)) as [->|]; [lia|apply H5].
  - (* the map is registered already *)
    assert (Hreg : st_maps (kp_state w) !! map_key m = Some a).
    { apply (H2 _ _ Ha). pose proof (Nat2Z.is_nonneg (c a)). lia. }
    split; cbn.
    + intros b mb. rewrite lookup_alter. unfold incr.
      destruct (decide (a = b)) as [<-|Hne].
      * rewrite Ha. intros [= <-]. cbn. rewrite decide_True by done. exact Hadd.
      * rewrite decide_False by done. apply H1.
    + intros b mb. rewrite lookup_alter.
      destruct (decide (a = b)) as [<-|Hne].
      * rewrite Ha. intros [= <-]. cbn.
        change (map_key (set_refcount _ m)) with (map_key m).
        rewrite Hadd. split; [lia|done].
      * apply H2.
    + intros k b Hb. destruct (H3 _ _ Hb) as (mb & Hmb & Hkb).
      rewrite lookup_alter. destruct (decide (a = b)) as [<-|Hne]; [|eauto].
      rewrite Hmb. cbn. eauto.
    + intros b. unfold incr. rewrite lookup_alter.
      destruct (decide (a = b)) as [<-|Hne].
      * rewrite Ha. cbn. eauto.
      * rewrite decide_False by done. apply H4.
    + intros b. unfold incr. destruct (decide (b = a)) as [->|]; [lia|apply H5].
Qed.

Lemma kp_map_unref_ok c w a :
  maps_ok c w -> (0 < c a)%nat -> maps_ok (decr a c) (kp_map_unref a w).
Proof.
  intros [H1 H2 H3 H4 H5] Hpos. destruct (H4 _ Hpos) as [m Ha].
  unfold kp_map_unref. rewrite Ha.
  pose proof (H1 _ _ Ha) as Hrc. pose proof (H5 a) as Hmax.
  destruct (Z.ltb_spec 0 (m_refcount m)); [|lia].
  assert (Hsub : int_sub (m_refcount m) 1 = Z.of_nat (pred (c a))).
  { unfold int_sub. rewrite int_wrap_id; unfold in_int, INT_MIN; lia. }
  assert (Hreg : st_maps (kp_state w) !! map_key m = Some a) by (by apply (H2 _ _ Ha)).
  rewrite Hsub.
  destruct (Z.eqb_spec (Z.of_nat (pred (c a))) 0) as [H0|H0].
  - (* the last reference: unregistered and freed *)
    unfold kp_state_unregister_map. cbn. rewrite lookup_alter_eq, Ha. cbn.
    change (map_key (set_refcount _ m)) with (map_key m). rewrite Hreg.
    unfold kp_map_free. cbn. rewrite lookup_alter_eq, Ha. cbn. rewrite H0. cbn.
    split; cbn.
    + intros b mb. unfold decr. destruct (decide (b = a)) as [->|Hne].
      * by rewrite lookup_delete_eq.
      * rewrite lookup_delete_ne, lookup_alter_ne by done. apply H1.
    + intros b mb. destruct (decide (b = a)) as [->|Hne]; [by rewrite lookup_delete_eq|].
      rewrite lookup_delete_ne, lookup_alter_ne by done. intros Hb.
      destruct (decide (map_key m = map_key mb)) as [Hk|Hk].
      * rewrite <- Hk, lookup_delete_eq. split; [done|]. intros Hp.
        apply (H2 _ _ Hb) in Hp. rewrite <- Hk, Hreg in Hp. by injection Hp as ->.
      * rewrite lookup_delete_ne by done. by apply H2.
    + intros k b. destruct (decide (map_key m = k)) as [<-|Hk];
        [by rewrite lookup_delete_eq|].
      rewrite lookup_delete_ne by done. intros Hb.
      destruct (H3 _ _ Hb) as (mb & Hmb & Hkb).
      destruct (decide (b = a)) as [->|Hne].
      * rewrite Ha in Hmb. injection Hmb as <-. done.
      * rewrite lookup_delete_ne, lookup_alter_ne by done. eauto.
    + intros b. unfold decr. destruct (decide (b = a)) as [->|Hne]; [lia|].
      rewrite lookup_delete_ne, lookup_alter_ne by done. apply H4.
    + intros b. unfold decr. destruct (decide (b = a)) as [->|]; [lia|apply H5].
  - split; cbn.
    + intros b mb. rewrite lookup_alter. unfold decr.
      destruct (decide (a = b)) as [<-|Hne].
      * rewrite Ha. intros [= <-]. cbn. by rewrite decide_True.
      * rewrite decide_False by done. apply H1.
    + intros b mb. rewrite lookup_alter.
      destruct (decide (a = b)) as [<-|Hne].
      * rewrite Ha. intros [= <-]. cbn.
        change (map_key (set_refcount _ m)) with (map_key m).
        split; [lia|done].
      * apply H2.
    + intros k b Hb. destruct (H3 _ _ Hb) as (mb & Hmb & Hkb).
      rewrite lookup_alter. destruct (decide (a = b)) as [<-|Hne]; [|eauto].
      rewrite Hmb. cbn. eauto.
    + intros b. unfold decr. rewrite lookup_alter.
      destruct (decide (a = b)) as [<-|Hne].
      * rewrite Ha. cbn. eauto.
      * rewrite decide_False by done. apply H4.
    + intros b. unfold decr. destruct (decide (b = a)) as [->|]; [lia|apply H5].
Qed.
End MapProps.

(** ** Counting references *)

Lemma occ_nil a : occ [] a = 0%nat.
Proof. reflexivity. Qed.
Lemma occ_cons b l a : occ (b :: l) a = ((if decide (b = a) then 1 else 0) + occ l a)%nat.
Proof. unfold occ. rewrite filter_cons. by destruct (decide (b = a)). Qed.
Lemma occ_app l1 l2 a : occ (l1 ++ l2) a = (occ l1 a + occ l2 a)%nat.
Proof. unfold occ. by rewrite filter_app, length_app. Qed.
Lemma occ_perm l1 l2 a : l1 ≡ₚ l2 -> occ l1 a = occ l2 a.
Proof. intros H. unfold occ. by rewrite H. Qed.

Lemma refs_in_comm a (z1 z2 : list kp_exemap_t) (y : nat) :
  (occ (em_map <$> z1) a + (occ (em_map <$> z2) a + y))%nat
  = (occ (em_map <$> z2) a + (occ (em_map <$> z1) a + y))%nat.
Proof. lia. Qed.

Lemma refs_in_empty a : refs_in ∅ a = 0%nat.
Proof. unfold refs_in. by rewrite map_fold_empty. Qed.

Lemma refs_in_insert h i xs a :
  h !! i = None -> refs_in (<[i:=xs]> h) a = (occ (em_map <$> xs) a + refs_in h a)%nat.
Proof.
  intros Hi. unfold refs_in. rewrite map_fold_insert_L.
  - done.
  - intros. apply refs_in_comm.
  - done.
Qed.

Lemma refs_in_delete h i xs a :
  h !! i = Some xs -> refs_in h a = (occ (em_map <$> xs) a + refs_in (delete i h) a)%nat.
Proof.
  intros Hi. unfold refs_in. rewrite (map_fold_delete_L _ _ i xs h).
  - done.
  - intros. apply refs_in_comm.
  - done.
Qed.

Lemma refs_in_replace h i xs xs' a :
  h !! i = Some xs ->
  (refs_in (<[i:=xs']> h) a + occ (em_map <$> xs) a
   = refs_in h a + occ (em_map <$> xs') a)%nat.
Proof.
  intros Hi. rewrite <- insert_delete_eq, refs_in_insert by apply lookup_delete_eq.
  rewrite (refs_in_delete h i xs a Hi). lia.
Qed.

Lemma refs_in_positive h a :
  (0 < refs_in h a)%nat ->
  exists i xs x, h !! i = Some xs /\ x ∈ xs /\ em_map x = a.
Proof.
  unfold refs_in. apply (map_fold_weak_ind (fun n h => (0 < n)%nat ->
    exists i xs x, h !! i = Some xs /\ x ∈ xs /\ em_map x = a)); [lia|].
  intros i xs h0 n Hi IH Hpos.
  destruct (decide (0 < occ (em_map <$> xs) a)%nat) as [Hx|Hx].
  - unfold occ in Hx. destruct (filter _ _) as [|b l] eqn:Hf; [simpl in Hx; lia|].
    assert (Hb : b ∈ filter (fun b => b = a) (em_map <$> xs)) by (rewrite Hf; left).
    apply list_elem_of_filter in Hb as [-> Hb]. apply list_elem_of_fmap in Hb as (x & -> & Hx').
    exists i, xs, x. by rewrite lookup_insert_eq.
  - destruct IH as (j & ys & y & Hj & Hy & Hya); [lia|].
    exists j, ys, y. rewrite lookup_insert_ne; [done|]. intros ->. congruence.
Qed.

Lemma quiet_refl w : quiet w w.
Proof. by split. Qed.
Lemma quiet_trans w1 w2 w3 : quiet w1 w2 -> quiet w2 w3 -> quiet w1 w3.
Proof.
  intros [A1 A2 A3 A4] [B1 B2 B3 B4]. split; try congruence. auto.
Qed.

Lemma quiet_pinned pins w w' : quiet w w' -> pinned_ok pins w -> pinned_ok pins w'.
Proof.
  intros [A1 A2 A3 A4] [Hm Hf]. split; [|auto].
  apply (maps_ok_frame _ w); [done|done|].
  eapply maps_ok_ext; [|exact Hm]. intros a. unfold map_refs. by rewrite A3.
Qed.

Lemma quiet_live w w' a :
  quiet w w' -> is_Some (exe_heap w !! a) -> is_Some (exe_heap w' !! a).
Proof.
  intros [_ _ A3 _] [e He].
  assert (H : (e_exemaps <$> exe_heap w') !! a = Some (e_exemaps e))
    by (by rewrite A3, lookup_fmap, He).
  rewrite lookup_fmap in H. destruct (exe_heap w' !! a); [eauto|done].
Qed.

Lemma fmap_alter_same (f : kp_exe_t -> kp_exe_t) (h : gmap addr kp_exe_t) i :
  (forall e, e_exemaps (f e) = e_exemaps e) ->
  e_exemaps <$> alter f i h = e_exemaps <$> h.
Proof.
  intros Hf. apply map_eq. intros j. rewrite !lookup_fmap, lookup_alter.
  destruct (decide (i = j)) as [<-|]; [|done].
  destruct (h !! i); [|done]. cbn. by rewrite Hf.
Qed.

Lemma quiet_state f w :
  (forall s, st_maps (f s) = st_maps s) -> quiet w (with_state f w).
Proof. intros Hf. split; cbn; auto. Qed.

Lemma quiet_alter_exe f i w :
  (forall e, e_exemaps (f e) = e_exemaps e) -> quiet w (with_exes (alter f i) w).
Proof.
  intros Hf. split; cbn; [done|done|by apply fmap_alter_same|].
  intros H a Ha. destruct (H a Ha) as (H1 & H2 & H3). split_and!; try done.
  cbn. rewrite lookup_alter. case_decide; [subst|done]. by rewrite H2.
Qed.

Lemma quiet_alter_markov f i w : quiet w (with_markovs (alter f i) w).
Proof.
  split; cbn; [done|done|done|].
  intros H a Ha. destruct (H a Ha) as (H1 & H2 & H3). split_and!; try done.
  cbn. rewrite lookup_alter. case_decide; [subst|done]. by rewrite H3.
Qed.

Lemma quiet_delete_markov i w : quiet w (with_markovs (delete i) w).
Proof.
  split; cbn; [done|done|done|].
  intros H a Ha. destruct (H a Ha) as (H1 & H2 & H3). split_and!; try done.
  cbn. rewrite lookup_delete. by case_decide.
Qed.

(** The allocation of a markov. *)
Lemma quiet_new_markov m w :
  quiet w (bump (with_markovs (insert (next_addr w) m) w)).
Proof.
  split; cbn; [done|done|done|].
  intros H a Ha. cbn in Ha. destruct (H a ltac:(lia)) as (H1 & H2 & H3).
  split_and!; try done. cbn. rewrite lookup_insert_ne; [done|lia].
Qed.

Lemma quiet_set_markov i m w :
  is_Some (markov_heap w !! i) -> quiet w (with_markovs (insert i m) w).
Proof.
  intros Hi. split; cbn; [done|done|done|].
  intros H a Ha. destruct (H a Ha) as (H1 & H2 & H3). split_and!; try done.
  cbn. rewrite lookup_insert_ne; [done|]. intros ?; subst.
  destruct Hi as [? Hi]. by pose proof (eq_trans (eq_sym Hi) H3).
Qed.

Section Ops.
Context (E : platform).

Lemma fresh_live_map w a m : fresh_ok w -> map_heap w !! a = Some m -> (a < next_addr w)%nat.
Proof.
  intros H Ha. destruct (decide (a < next_addr w)%nat); [done|].
  destruct (H a ltac:(lia)) as (H1 & _). congruence.
Qed.
Lemma fresh_live_exe w a e : fresh_ok w -> exe_heap w !! a = Some e -> (a < next_addr w)%nat.
Proof.
  intros H Ha. destruct (decide (a < next_addr w)%nat); [done|].
  destruct (H a ltac:(lia)) as (_ & H1 & _). congruence.
Qed.

Lemma pinned_count_zero pins w a :
  pinned_ok pins w -> map_heap w !! a = None -> (map_refs w a + occ pins a = 0)%nat.
Proof.
  intros [Hm _] Ha. destruct (decide (0 < map_refs w a + occ pins a)%nat) as [Hp|]; [|lia].
  destruct (ok_live _ _ Hm a Hp) as [m Hm']. congruence.
Qed.

Lemma kp_map_new_ok pins p o l w :
  pinned_ok pins w -> pinned_ok pins (kp_map_new E p o l w).2.
Proof.
  intros Hok. pose proof Hok as [[H1 H2 H3 H4 H5] Hf]. unfold kp_map_new. cbn.
  destruct (Hf (next_addr w) ltac:(lia)) as (Hn & _ & _).
  pose proof (pinned_count_zero _ _ _ Hok Hn) as Hz.
  split.
  - split; cbn.
    + intros b mb. destruct (decide (next_addr w = b)) as [<-|Hne].
      * rewrite lookup_insert_eq. intros [= <-]. cbn. unfold map_refs in *. cbn. lia.
      * rewrite lookup_insert_ne by done. apply H1.
    + intros b mb. destruct (decide (next_addr w = b)) as [<-|Hne].
      * rewrite lookup_insert_eq. intros [= <-]. cbn. split; [|lia].
        intros Hk. destruct (H3 _ _ Hk) as (m' & Hm' & _). congruence.
      * rewrite lookup_insert_ne by done. apply H2.
    + intros k b Hb. destruct (H3 _ _ Hb) as (mb & Hmb & Hk).
      exists mb. split; [|done]. rewrite lookup_insert_ne; [done|]. intros <-. congruence.
    + intros b Hb. destruct (H4 b Hb) as [mb Hmb]. exists mb.
      rewrite lookup_insert_ne; [done|]. intros <-. congruence.
    + apply H5.
  - intros a Ha. cbn in Ha. destruct (Hf a ltac:(lia)) as (A1 & A2 & A3).
    split_and!; try done. cbn. rewrite lookup_insert_ne; [done|lia].
Qed.

Lemma kp_map_free_ok pins a w :
  pinned_ok pins w -> pinned_ok pins (kp_map_free a w).
Proof.
  intros Hok. pose proof Hok as [[H1 H2 H3 H4 H5] Hf]. unfold kp_map_free.
  destruct (map_heap w !! a) as [m|] eqn:Ha; [|done].
  destruct (Z.eqb_spec (m_refcount m) 0) as [H0|]; [|done].
  assert (Hz : (map_refs w a + occ pins a = 0)%nat).
  { pose proof (H1 _ _ Ha). lia. }
  split.
  - split; cbn.
    + intros b mb. destruct (decide (a = b)) as [<-|Hne]; [by rewrite lookup_delete_eq|].
      rewrite lookup_delete_ne by done. apply H1.
    + intros b mb. destruct (decide (a = b)) as [<-|Hne]; [by rewrite lookup_delete_eq|].
      rewrite lookup_delete_ne by done. apply H2.
    + intros k b Hb. destruct (H3 _ _ Hb) as (mb & Hmb & Hk).
      exists mb. split; [|done]. rewrite lookup_delete_ne; [done|]. intros <-.
      assert (mb = m) as -> by congruence.
      rewrite <- Hk in Hb. apply (H2 _ _ Ha) in Hb. lia.
    + intros b Hb. destruct (H4 b Hb) as [mb Hmb]. exists mb.
      rewrite lookup_delete_ne; [done|]. intros <-. unfold map_refs in *. cbn in *. lia.
    + apply H5.
  - intros b Hb. destruct (Hf b Hb) as (A1 & A2 & A3). split_and!; try done.
    cbn. rewrite lookup_delete. by case_decide.
Qed.

Lemma pinned_alter_map pins f a w :
  (forall m, m_refcount (f m) = m_refcount m /\ map_key (f m) = map_key m) ->
  pinned_ok pins w -> pinned_ok pins (with_maps (alter f a) w).
Proof.
  intros Hfm [[H1 H2 H3 H4 H5] Hf]. split.
  - split; cbn.
    + intros b mb. rewrite lookup_alter. case_decide; [subst|apply H1].
      destruct (map_heap w !! b) as [m|] eqn:Hb; [|done]. intros [= <-].
      destruct (Hfm m) as [-> _]. by apply H1.
    + intros b mb. rewrite lookup_alter. case_decide; [subst|apply H2].
      destruct (map_heap w !! b) as [m|] eqn:Hb; [|done]. intros [= <-].
      destruct (Hfm m) as [-> ->]. by apply H2.
    + intros k b Hb. destruct (H3 _ _ Hb) as (mb & Hmb & Hk).
      rewrite lookup_alter. case_decide; [subst|eauto].
      rewrite Hmb. cbn. exists (f mb). split; [done|]. by destruct (Hfm mb) as [_ ->].
    + intros b Hb. destruct (H4 b Hb) as [mb Hmb].
      rewrite lookup_alter. case_decide; [subst|eauto]. rewrite Hmb. cbn. eauto.
    + apply H5.
  - intros b Hb. destruct (Hf b Hb) as (A1 & A2 & A3). split_and!; try done.
    cbn. rewrite lookup_alter. case_decide; [subst|done]. by rewrite A1.
Qed.

Lemma maps_only_refl w : maps_only w w.
Proof. by split_and!. Qed.
Lemma maps_only_trans w1 w2 w3 : maps_only w1 w2 -> maps_only w2 w3 -> maps_only w1 w3.
Proof.
  intros (A1 & A2 & A3 & A4) (B1 & B2 & B3 & B4). split_and!; try congruence. auto.
Qed.

Lemma maps_only_alter f a w : maps_only w (with_maps (alter f a) w).
Proof.
  split_and!; try done. intros b Hb. cbn. rewrite lookup_alter.
  case_decide; subst; [by rewrite Hb|done].
Qed.
Lemma maps_only_free a w : maps_only w (kp_map_free a w).
Proof.
  unfold kp_map_free. destruct (map_heap w !! a); [|apply maps_only_refl].
  destruct (_ =? 0); [|apply maps_only_refl].
  split_and!; try done. intros b Hb. cbn. rewrite lookup_delete. by case_decide.
Qed.
Lemma maps_only_unregister a w : maps_only w (kp_state_unregister_map a w).
Proof.
  unfold kp_state_unregister_map. destruct (map_heap w !! a); [|apply maps_only_refl].
  destruct (st_maps _ !! _); [|apply maps_only_refl]. by split_and!.
Qed.
Lemma maps_only_register a w : maps_only w (kp_state_register_map a w).
Proof.
  unfold kp_state_register_map.
  destruct (map_heap w !! a) eqn:Ha; [|apply maps_only_refl].
  destruct (st_maps _ !! _); [apply maps_only_refl|].
  split_and!; try done. intros b Hb. cbn. rewrite lookup_insert_ne; [done|congruence].
Qed.

Lemma kp_map_ref_frame a w : maps_only w (kp_map_ref a w).
Proof.
  unfold kp_map_ref. destruct (map_heap w !! a); [|apply maps_only_refl].
  eapply maps_only_trans; [|apply maps_only_alter].
  destruct (_ =? 0); [apply maps_only_register|apply maps_only_refl].
Qed.

Lemma kp_map_unref_frame a w : maps_only w (kp_map_unref a w).
Proof.
  unfold kp_map_unref. destruct (map_heap w !! a); [|apply maps_only_refl].
  destruct (0 <? _); [|apply maps_only_refl].
  destruct (_ =? 0); [|apply maps_only_alter].
  eapply maps_only_trans; [apply maps_only_alter|].
  eapply maps_only_trans; [apply maps_only_unregister|apply maps_only_free].
Qed.

Lemma fresh_shrink w w' :
  exe_heap w' = exe_heap w -> markov_heap w' = markov_heap w ->
  next_addr w' = next_addr w ->
  (forall b, map_heap w !! b = None -> map_heap w' !! b = None) ->
  fresh_ok w -> fresh_ok w'.
Proof.
  intros He Hm Hn Hs Hf a Ha. rewrite Hn in Ha. destruct (Hf a Ha) as (A1 & A2 & A3).
  rewrite He, Hm. auto.
Qed.

Lemma kp_exemap_free_ok pins x w :
  pinned_ok (em_map x :: pins) w -> pinned_ok pins (kp_exemap_free x w).
Proof.
  intros [Hm Hf]. unfold kp_exemap_free.
  destruct (kp_map_unref_frame (em_map x) w) as (F1 & F2 & F3 & F4).
  split; [|by eapply fresh_shrink].
  eapply maps_ok_ext; [|apply (kp_map_unref_ok _ _ (em_map x) Hm)].
  - intros a. unfold decr, map_refs. rewrite F1, occ_cons.
    repeat case_decide; subst; try done; lia.
  - rewrite occ_cons, decide_True by done. lia.
Qed.

Lemma exe_add_sizes_exemaps w (xs : list kp_exemap_t) e :
  e_exemaps (foldl (fun e' x => exe_add_map_size w x e') e xs) = e_exemaps e.
Proof. revert e. induction xs as [|x xs IH]; intros e; simpl; [done|]. by rewrite IH. Qed.

Lemma kp_exe_new_ok pins path running xs w :
  pinned_ok (pins ++ (em_map <$> xs)) w ->
  pinned_ok pins (kp_exe_new E path running xs w).2.
Proof.
  intros [Hm Hf]. unfold kp_exe_new. cbn.
  destruct (Hf (next_addr w) ltac:(lia)) as (_ & Hn & _).
  split.
  - apply (maps_ok_frame _ w); [done|done|].
    eapply maps_ok_ext; [|exact Hm]. intros a. unfold map_refs. cbn.
    rewrite fmap_insert, refs_in_insert by (by rewrite lookup_fmap, Hn).
    rewrite exe_add_sizes_exemaps. cbn. rewrite occ_app. lia.
  - intros a Ha. cbn in Ha. destruct (Hf a ltac:(lia)) as (A1 & A2 & A3).
    split_and!; try done. cbn. rewrite lookup_insert_ne; [done|lia].
Qed.

Lemma kp_exe_map_new_ok pins ea a e m w :
  pinned_ok pins w -> exe_heap w !! ea = Some e -> map_heap w !! a = Some m ->
  (m_refcount m = 0 -> st_maps (kp_state w) !! map_key m = None) ->
  m_refcount m < INT_MAX ->
  pinned_ok pins (kp_exe_map_new ea a w).
Proof.
  intros [Hm Hf] He Ha Hc Hlt. unfold kp_exe_map_new, kp_exemap_new.
  destruct (kp_map_ref_frame a w) as (F1 & F2 & F3 & F4).
  pose proof (kp_map_ref_ok _ _ _ _ Hm Ha Hc Hlt) as Hm'.
  assert (Hf' : fresh_ok (kp_map_ref a w)) by (by eapply fresh_shrink).
  split.
  - apply (maps_ok_frame _ (kp_map_ref a w)); [done|done|].
    eapply maps_ok_ext; [|exact Hm']. intros b. unfold incr, map_refs. cbn.
    rewrite F1.
    assert (Halt : alter (fun e0 => exe_add_map_size (kp_map_ref a w)
                     {| em_map := a; em_prob := fone |}
                     (set_exe_exemaps (e_exemaps e0 ++ [{| em_map := a; em_prob := fone |}]) e0))
                     ea (exe_heap w)
                   = <[ea := exe_add_map_size (kp_map_ref a w)
                     {| em_map := a; em_prob := fone |}
                     (set_exe_exemaps (e_exemaps e ++ [{| em_map := a; em_prob := fone |}]) e)]>
                     (exe_heap w)).
    { apply map_eq. intros j. rewrite lookup_alter, lookup_insert.
      case_decide; subst; [by rewrite He|done]. }
    rewrite Halt, fmap_insert.
    pose proof (refs_in_replace (e_exemaps <$> exe_heap w) ea (e_exemaps e)
                  (e_exemaps e ++ [{| em_map := a; em_prob := fone |}]) b
                  ltac:(by rewrite lookup_fmap, He)) as Hr.
    cbn. rewrite fmap_app, occ_app in Hr. cbn in Hr. rewrite occ_cons, occ_nil in Hr.
    repeat case_decide; subst; try done; lia.
  - intros b Hb. cbn in Hb. destruct (Hf' b Hb) as (A1 & A2 & A3).
    split_and!; try done. cbn. rewrite lookup_alter. case_decide; subst; [|done].
    by rewrite A2.
Qed.

(** Taking an exemap out of the set of its exe. *)
Lemma detach_ok pins ea e l1 x l2 w :
  pinned_ok pins w -> exe_heap w !! ea = Some e -> e_exemaps e = l1 ++ x :: l2 ->
  pinned_ok (em_map x :: pins)
    (with_exes (insert ea (set_exe_exemaps (l1 ++ l2) e)) w).
Proof.
  intros [Hm Hf] He Hx. split.
  - apply (maps_ok_frame _ w); [done|done|].
    eapply maps_ok_ext; [|exact Hm]. intros b. unfold map_refs. cbn.
    rewrite fmap_insert.
    pose proof (refs_in_replace (e_exemaps <$> exe_heap w) ea (e_exemaps e)
                  (l1 ++ l2) b ltac:(by rewrite lookup_fmap, He)) as Hr.
    cbn. rewrite Hx in Hr. rewrite !fmap_app, !occ_app in Hr. rewrite fmap_cons, occ_cons in Hr.
    rewrite occ_cons. lia.
  - intros b Hb. cbn in Hb. destruct (Hf b Hb) as (A1 & A2 & A3).
    split_and!; try done. cbn. rewrite lookup_insert_ne; [done|]. intros <-. congruence.
Qed.

(** Freeing the exemaps of a set, one after the other. *)
Lemma free_exemaps_ok c (xs : list kp_exemap_t) w :
  maps_ok (fun a => (c a + occ (em_map <$> xs) a)%nat) w ->
  maps_ok c (foldl (fun w' x => kp_exemap_free x w') w xs)
  /\ maps_only w (foldl (fun w' x => kp_exemap_free x w') w xs).
Proof.
  revert w. induction xs as [|x xs IH]; intros w Hm; simpl.
  - split; [|apply maps_only_refl]. eapply maps_ok_ext; [|exact Hm].
    intros a. rewrite fmap_nil, occ_nil. lia.
  - assert (Hm1 : maps_ok (fun a => (c a + occ (em_map <$> xs) a)%nat)
                    (kp_exemap_free x w)).
    { eapply maps_ok_ext; [|apply (kp_map_unref_ok _ _ (em_map x) Hm)].
      - intros a. unfold decr. rewrite fmap_cons, occ_cons.
        repeat case_decide; subst; try done; lia.
      - rewrite fmap_cons, occ_cons, decide_True by done. lia. }
    destruct (IH _ Hm1) as [IH1 IH2]. split; [done|].
    eapply maps_only_trans; [apply kp_map_unref_frame|exact IH2].
Qed.

Lemma quiet_markov_free mk from w w' :
  kp_markov_free mk from w = Some w' -> quiet w w'.
Proof.
  unfold kp_markov_free. destruct (markov_heap w !! mk) as [m|]; [|done].
  destruct from as [f|].
  - destruct (_ || _); [|done]. intros [= <-].
    eapply quiet_trans; [by apply (quiet_alter_exe (remove_markov mk))|].
    apply quiet_delete_markov.
  - intros [= <-].
    eapply quiet_trans; [by apply (quiet_alter_exe (remove_markov mk))|].
    eapply quiet_trans; [by apply (quiet_alter_exe (remove_markov mk))|].
    apply quiet_delete_markov.
Qed.

Lemma quiet_markovs_free from (mks : list addr) w w' :
  fold_opt (fun w0 mk => kp_markov_free mk from w0) mks w = Some w' -> quiet w w'.
Proof.
  revert w. induction mks as [|mk mks IH]; intros w; simpl.
  - intros [= <-]. apply quiet_refl.
  - destruct (kp_markov_free mk from w) as [w1|] eqn:H1; [|done]. intros H.
    eapply quiet_trans; [by eapply quiet_markov_free|by apply IH].
Qed.

Lemma kp_exe_free_ok pins ea w w' :
  pinned_ok pins w -> kp_exe_free ea w = Some w' -> pinned_ok pins w'.
Proof.
  intros [Hm Hf]. unfold kp_exe_free.
  destruct (exe_heap w !! ea) as [e|] eqn:He; [|done].
  set (w1 := foldl (fun w0 x => kp_exemap_free x w0) w (e_exemaps e)).
  set (w2 := with_exes (alter (set_exe_exemaps []) ea) w1).
  destruct (fold_opt _ _ w2) as [w3|] eqn:H3; [|done]. intros [= <-].
  pose proof (quiet_markovs_free _ _ _ _ H3) as Hq.
  (* the exemaps of the exe are freed while the exe still holds them *)
  destruct (free_exemaps_ok
              (fun a => (refs_in (delete ea (e_exemaps <$> exe_heap w)) a + occ pins a)%nat)
              (e_exemaps e) w) as [Hm1 (F1 & F2 & F3 & F4)].
  { eapply maps_ok_ext; [|exact Hm]. intros a. unfold map_refs.
    rewrite (refs_in_delete _ ea (e_exemaps e)) by (by rewrite lookup_fmap, He). lia. }
  fold w1 in Hm1, F1, F2, F3, F4.
  assert (Hf1 : fresh_ok w1) by (by eapply fresh_shrink).
  assert (He1 : exe_heap w1 !! ea = Some e) by (by rewrite F1).
  assert (Hx2 : e_exemaps <$> exe_heap w2 = <[ea := []]> (e_exemaps <$> exe_heap w)).
  { unfold w2. cbn. rewrite F1. apply map_eq. intros j.
    rewrite lookup_fmap, lookup_alter, lookup_insert, lookup_fmap.
    case_decide; subst; [by rewrite He|done]. }
  assert (Hok2 : pinned_ok pins w2).
  { split.
    - apply (maps_ok_frame _ w1); [done|done|].
      eapply maps_ok_ext; [|exact Hm1]. intros a. unfold map_refs. rewrite Hx2.
      rewrite <- insert_delete_eq, refs_in_insert by apply lookup_delete_eq.
      rewrite fmap_nil, occ_nil. lia.
    - unfold w2. intros b Hb. cbn in Hb. destruct (Hf1 b Hb) as (A1 & A2 & A3).
      split_and!; try done. cbn. rewrite lookup_alter. case_decide; subst; [|done].
      by rewrite A2. }
  pose proof (quiet_pinned _ _ _ Hq Hok2) as [Hm3 Hf3].
  assert (Hx3 : (e_exemaps <$> exe_heap w3) !! ea = Some []).
  { rewrite (q_exemaps _ _ Hq), Hx2. apply lookup_insert_eq. }
  split.
  - apply (maps_ok_frame _ w3); [done|done|].
    eapply maps_ok_ext; [|exact Hm3]. intros a. unfold map_refs. cbn.
    rewrite fmap_delete.
    rewrite (refs_in_delete (e_exemaps <$> exe_heap w3) ea [] a Hx3).
    rewrite fmap_nil, occ_nil. lia.
  - intros b Hb. cbn in Hb. destruct (Hf3 b Hb) as (A1 & A2 & A3).
    split_and!; try done. cbn. rewrite lookup_delete. by case_decide.
Qed.
End Ops.

Section Ops2.
Context (E : platform).

Lemma quiet_set_exe i e e' w :
  exe_heap w !! i = Some e -> e_exemaps e' = e_exemaps e ->
  quiet w (with_exes (insert i e') w).
Proof.
  intros He Hx. split; cbn; [done|done| |].
  - rewrite fmap_insert, Hx. apply insert_id. by rewrite lookup_fmap, He.
  - intros H a Ha. destruct (H a Ha) as (H1 & H2 & H3). split_and!; try done.
    cbn. rewrite lookup_insert_ne; [done|]. intros <-. congruence.
Qed.

Lemma quiet_state_changed mk w : quiet w (kp_markov_state_changed E mk w).
Proof.
  unfold kp_markov_state_changed. destruct (markov_heap w !! mk) eqn:H; [|apply quiet_refl].
  apply quiet_set_markov. by rewrite H.
Qed.

Lemma quiet_markov_new a b init w : quiet w (kp_markov_new E a b init w).2.
Proof.
  unfold kp_markov_new. destruct (Nat.eqb a b); [apply quiet_refl|].
  destruct (exe_heap w !! a) as [ea|]; [|apply quiet_refl].
  destruct (exe_heap w !! b) as [eb|]; [|apply quiet_refl]. cbn [snd].
  eapply quiet_trans; [|by apply (quiet_alter_exe (add_markov (next_addr w)))].
  eapply quiet_trans; [|by apply (quiet_alter_exe (add_markov (next_addr w)))].
  destruct init; [|apply quiet_new_markov].
  eapply quiet_trans; [apply quiet_new_markov|].
  match goal with |- context [let '(ct, st) := ?p in _] => destruct p as [ct st] end.
  eapply quiet_trans; [|apply quiet_state_changed].
  apply quiet_set_markov. cbn. rewrite lookup_insert_eq. eauto.
Qed.

Lemma quiet_register_exe_markovs ea e create w :
  exe_heap w !! ea = Some e -> quiet w (register_exe_markovs E ea e create w).
Proof.
  intros He. unfold register_exe_markovs.
  set (seq := int_add (st_exe_seq (kp_state w)) 1).
  set (w1 := with_exes (insert ea (set_exe_seq seq e)) (with_state (set_st_exe_seq seq) w)).
  assert (H1 : quiet w w1).
  { eapply quiet_trans; [by apply (quiet_state (set_st_exe_seq seq))|].
    by apply (quiet_set_exe ea e). }
  apply (quiet_trans _ w1); [done|].
  destruct create; [|apply quiet_refl].
  generalize (map_to_list (st_exes (kp_state w))). intros l.
  clear H1. generalize w1. clear w1.
  induction l as [|kv l IH]; intros w0; simpl; [apply quiet_refl|].
  eapply quiet_trans; [|apply IH].
  destruct (Nat.eqb kv.2 ea); [apply quiet_refl|apply quiet_markov_new].
Qed.

Lemma quiet_register_exe_entry ea e create w :
  exe_heap w !! ea = Some e ->
  quiet w (with_state (fun s => set_st_exes (<[e_path e := ea]> (st_exes s)) s)
             (register_exe_markovs E ea e create w)).
Proof.
  intros He. eapply quiet_trans; [by apply quiet_register_exe_markovs|].
  by apply quiet_state.
Qed.

Lemma kp_map_pin_ok pins a m w :
  pinned_ok pins w -> map_heap w !! a = Some m ->
  (m_refcount m = 0 -> st_maps (kp_state w) !! map_key m = None) ->
  m_refcount m < INT_MAX ->
  pinned_ok (a :: pins) (kp_map_ref a w).
Proof.
  intros [Hm Hf] Ha Hc Hlt. destruct (kp_map_ref_frame a w) as (F1 & F2 & F3 & F4).
  split; [|by eapply fresh_shrink].
  eapply maps_ok_ext; [|exact (kp_map_ref_ok _ _ _ _ Hm Ha Hc Hlt)].
  intros b. unfold incr, map_refs. rewrite F1, occ_cons.
  repeat case_decide; subst; try done; lia.
Qed.

Lemma kp_map_unpin_ok pins a w :
  pinned_ok (a :: pins) w -> pinned_ok pins (kp_map_unref a w).
Proof. apply (kp_exemap_free_ok pins {| em_map := a; em_prob := fone |}). Qed.

Lemma pinned_perm pins pins' w : pins ≡ₚ pins' -> pinned_ok pins w -> pinned_ok pins' w.
Proof.
  intros Hp [Hm Hf]. split; [|done]. eapply maps_ok_ext; [|exact Hm].
  intros a. cbn. by rewrite (occ_perm _ _ a Hp).
Qed.

Lemma set_last_prob_maps p (xs : list kp_exemap_t) :
  em_map <$> set_last_prob p xs = em_map <$> xs.
Proof.
  unfold set_last_prob. destruct xs as [|x xs]; [done|].
  rewrite list_fmap_insert. apply list_insert_id.
  rewrite list_lookup_fmap, last_lookup. cbn [length pred].
  destruct ((x :: xs) !! length xs) as [y|] eqn:Hy; [done|].
  apply lookup_ge_None in Hy. simpl in Hy. lia.
Qed.

Lemma set_prob_ok pins p ea w :
  pinned_ok pins w ->
  pinned_ok pins (with_exes (alter (fun e =>
      set_exe_exemaps (set_last_prob p (e_exemaps e)) e) ea) w).
Proof.
  intros [Hm Hf]. split.
  - apply (maps_ok_frame _ w); [done|done|].
    eapply maps_ok_ext; [|exact Hm]. intros a. unfold map_refs. cbn.
    destruct (exe_heap w !! ea) as [e|] eqn:He.
    + assert (Halt : e_exemaps <$> alter (fun e0 =>
                 set_exe_exemaps (set_last_prob p (e_exemaps e0)) e0) ea (exe_heap w)
               = <[ea := set_last_prob p (e_exemaps e)]> (e_exemaps <$> exe_heap w)).
      { apply map_eq. intros j. rewrite lookup_fmap, lookup_alter, lookup_insert, lookup_fmap.
        case_decide; subst; [by rewrite He|done]. }
      rewrite Halt.
      pose proof (refs_in_replace (e_exemaps <$> exe_heap w) ea (e_exemaps e)
                    (set_last_prob p (e_exemaps e)) a
                    ltac:(by rewrite lookup_fmap, He)) as Hr.
      rewrite set_last_prob_maps in Hr. lia.
    + assert (Halt : alter (fun e0 =>
                 set_exe_exemaps (set_last_prob p (e_exemaps e0)) e0) ea (exe_heap w)
               = exe_heap w).
      { apply map_eq. intros j. rewrite lookup_alter. case_decide; subst; [by rewrite He|done]. }
      by rewrite Halt.
  - intros b Hb. cbn in Hb. destruct (Hf b Hb) as (A1 & A2 & A3).
    split_and!; try done. cbn. rewrite lookup_alter. case_decide; subst; [|done].
    by rewrite A2.
Qed.

Lemma kp_exe_free_live ea w w' b :
  kp_exe_free ea w = Some w' -> b <> ea ->
  is_Some (exe_heap w !! b) -> is_Some (exe_heap w' !! b).
Proof.
  unfold kp_exe_free. destruct (exe_heap w !! ea) as [e|] eqn:He; [|done].
  set (w1 := foldl (fun w0 x => kp_exemap_free x w0) w (e_exemaps e)).
  set (w2 := with_exes (alter (set_exe_exemaps []) ea) w1).
  destruct (fold_opt _ _ w2) as [w3|] eqn:H3; [|done]. intros [= <-] Hne Hb.
  cbn. rewrite lookup_delete_ne by done.
  apply (quiet_live w2); [by eapply quiet_markovs_free|].
  unfold w2. cbn. rewrite lookup_alter_ne by done.
  assert (Hm : maps_only w w1).
  { unfold w1. generalize (e_exemaps e). intros xs. clear. revert w.
    induction xs as [|x xs IH]; intros w; simpl; [apply maps_only_refl|].
    eapply maps_only_trans; [apply kp_map_unref_frame|apply IH]. }
  destruct Hm as (F1 & _). by rewrite F1.
Qed.
End Ops2.

Section Loader.
Context (E : platform).

Lemma loading_rc k rc rc' w :
  rc_maps rc' = rc_maps rc -> rc_exes rc' = rc_exes rc ->
  loading_ok k rc w -> loading_ok k rc' w.
Proof.
  intros Hm He [H1 H2 H3]. unfold rc_pins in *.
  split; unfold rc_pins; rewrite ?Hm, ?He; done.
Qed.

Lemma loading_mono k k' rc w : (k <= k')%nat -> loading_ok k rc w -> loading_ok k' rc w.
Proof. intros Hk [H1 H2 H3]. split; [done|done|]. intros a. specialize (H3 a). lia. Qed.

Lemma loading_quiet k rc w w' : quiet w w' -> loading_ok k rc w -> loading_ok k rc w'.
Proof.
  intros Hq [H1 H2 H3]. split.
  - by eapply quiet_pinned.
  - intros i ea Hi. eapply quiet_live; eauto.
  - intros a. unfold map_refs. rewrite (q_exemaps _ _ Hq). apply H3.
Qed.

Lemma loading_maps k rc w w' :
  pinned_ok (rc_pins rc) w' -> exe_heap w' = exe_heap w ->
  loading_ok k rc w -> loading_ok k rc w'.
Proof.
  intros Hp He [H1 H2 H3]. split; [done| |].
  - rewrite He. done.
  - intros a. unfold map_refs. rewrite He. apply H3.
Qed.

Lemma kp_map_free_exes a w : exe_heap (kp_map_free a w) = exe_heap w.
Proof. unfold kp_map_free. destruct (map_heap w !! a); [|done]. by destruct (_ =? 0). Qed.

Lemma rc_pins_insert i a rc :
  rc_maps rc !! i = None -> rc_pins (set_rc_maps (<[i := a]> (rc_maps rc)) rc) ≡ₚ a :: rc_pins rc.
Proof. intros Hi. unfold rc_pins. cbn. by rewrite map_to_list_insert. Qed.

Lemma read_map_ok k rc w rc' w' :
  loading_ok k rc w -> read_map E rc w = (rc', w') -> loading_ok (S k) rc' w'.
Proof.
  intros Hl. apply (loading_mono k (S k)) in Hl; [|lia]. revert Hl.
  unfold read_map.
  set (vs := (Scan.sscanf (fmt_map E) (rc_line rc)).1).
  set (rc1 := set_rc_filebuf _ rc). intros Hl.
  assert (Hl1 : loading_ok (S k) rc1 w) by (by apply (loading_rc _ rc)).
  destruct (length vs <? 6)%nat.
  { intros [= <- <-]. by apply (loading_rc _ rc1). }
  destruct (g_filename_from_uri E (rc_filebuf rc1)) as [path|].
  2:{ intros [= <- <-]. by apply (loading_rc _ rc1). }
  set (i := Scan.store_int vs 0 _). set (ut := Scan.store_int vs 1 _).
  set (o := Scan.store_int vs 2 _). set (l := Scan.store_int vs 3 _).
  pose proof (kp_map_new_ok E (rc_pins rc1) path o l w (lo_pinned _ _ _ Hl1)) as Hn.
  unfold kp_map_new in *. cbn [snd] in Hn.
  set (m0 := {| m_path := path; m_offset := o; m_length := l; m_refcount := 0;
                m_update_time := st_time (kp_state w); m_block := -1;
                m_seq := uninit_int E |}) in *.
  set (w1 := bump (with_maps (insert (next_addr w) m0) w)) in *.
  case_bool_decide as Hi.
  { intros [= <- <-]. apply (loading_rc _ rc1); [done|done|].
    apply (loading_maps _ _ w); [by apply kp_map_free_ok|by rewrite kp_map_free_exes|done]. }
  case_bool_decide as Hd.
  { intros [= <- <-]. apply (loading_rc _ rc1); [done|done|].
    apply (loading_maps _ _ w); [by apply kp_map_free_ok|by rewrite kp_map_free_exes|done]. }
  intros [= <- <-].
  set (w2 := with_maps (alter (set_map_update_time ut) (next_addr w)) w1).
  assert (H2 : pinned_ok (rc_pins rc1) w2).
  { by apply pinned_alter_map. }
  assert (Hi' : rc_maps rc1 !! i = None) by (by apply eq_None_not_Some).
  destruct (kp_map_ref_frame (next_addr w) w2) as (F1 & F2 & F3 & F4).
  assert (H3 : pinned_ok (next_addr w :: rc_pins rc1) (kp_map_ref (next_addr w) w2)).
  { apply (kp_map_pin_ok _ _ (set_map_update_time ut m0)); [done| | |].
    - cbn. by rewrite lookup_alter_eq, lookup_insert_eq.
    - intros _. cbn. by apply eq_None_not_Some.
    - cbn. unfold INT_MAX. lia. }
  split.
  - eapply pinned_perm; [|exact H3]. symmetry. exact (rc_pins_insert i (next_addr w) rc1 Hi').
  - intros j ea Hj. rewrite F1. exact (lo_exes _ _ _ Hl1 j ea Hj).
  - intros a.
    change (rc_pins _) with (rc_pins (set_rc_maps (<[i:=next_addr w]> (rc_maps rc1)) rc1)).
    rewrite (occ_perm _ _ a (rc_pins_insert i (next_addr w) rc1 Hi')).
    unfold map_refs. rewrite F1. cbn. rewrite occ_cons.
    pose proof (lo_bound _ _ _ Hl a) as Hb. unfold map_refs in Hb.
    change (rc_pins rc1) with (rc_pins rc).
    case_decide; [|lia]. subst a.
    pose proof (pinned_count_zero (rc_pins rc) w (next_addr w) (lo_pinned _ _ _ Hl)) as Hz.
    unfold map_refs in Hz. cbn. cbn in Hz.
    assert (Hz' : map_heap w !! next_addr w = None); [|specialize (Hz Hz'); lia].
    destruct (lo_pinned _ _ _ Hl) as [_ Hf]. by destruct (Hf (next_addr w) ltac:(lia)).
Qed.

Lemma occ_elem l a : a ∈ l -> (0 < occ l a)%nat.
Proof.
  induction l as [|b l IH]; [by intros ?%elem_of_nil|].
  rewrite occ_cons. intros [->|H]%elem_of_cons; [rewrite decide_True by done; lia|].
  specialize (IH H). lia.
Qed.

Lemma rc_pins_elem rc i a : rc_maps rc !! i = Some a -> a ∈ rc_pins rc.
Proof.
  intros Hi. unfold rc_pins. apply (list_elem_of_fmap_2' snd _ (i, a)); [|done].
  by apply elem_of_map_to_list.
Qed.

Lemma kp_exe_free_exemaps ea w w' :
  kp_exe_free ea w = Some w' ->
  e_exemaps <$> exe_heap w' = delete ea (e_exemaps <$> exe_heap w).
Proof.
  unfold kp_exe_free. destruct (exe_heap w !! ea) as [e|] eqn:He; [|done].
  set (w1 := foldl (fun w0 x => kp_exemap_free x w0) w (e_exemaps e)).
  set (w2 := with_exes (alter (set_exe_exemaps []) ea) w1).
  destruct (fold_opt _ _ w2) as [w3|] eqn:H3; [|done]. intros [= <-].
  pose proof (quiet_markovs_free _ _ _ _ H3) as Hq.
  assert (F1 : exe_heap w1 = exe_heap w).
  { unfold w1. generalize (e_exemaps e). intros xs. clear. revert w.
    induction xs as [|x xs IH]; intros w; simpl; [done|].
    rewrite IH. apply kp_map_unref_frame. }
  cbn. rewrite fmap_delete, (q_exemaps _ _ Hq). unfold w2. cbn. rewrite F1.
  apply map_eq. intros j. destruct (decide (j = ea)) as [->|Hne].
  - by rewrite !lookup_delete_eq.
  - by rewrite !lookup_delete_ne, lookup_fmap, lookup_alter_ne, lookup_fmap by done.
Qed.

Lemma kp_exe_free_refs ea w w' a :
  kp_exe_free ea w = Some w' -> (map_refs w' a <= map_refs w a)%nat.
Proof.
  intros H. unfold map_refs. rewrite (kp_exe_free_exemaps _ _ _ H).
  unfold kp_exe_free in H. destruct (exe_heap w !! ea) as [e|] eqn:He; [|done].
  rewrite (refs_in_delete (e_exemaps <$> exe_heap w) ea (e_exemaps e) a); [lia|].
  by rewrite lookup_fmap, He.
Qed.

Lemma read_exe_ok k rc w rc' w' :
  loading_ok k rc w -> read_exe E rc w = Some (rc', w') -> loading_ok k rc' w'.
Proof.
  intros Hl. unfold read_exe.
  destruct (scan_exe E (rc_line rc) (exe_vars_init E rc)) as [form x].
  set (rc1 := set_rc_filebuf (v_filebuf x) rc).
  assert (Hl1 : loading_ok k rc1 w) by (by apply (loading_rc _ rc)).
  destruct form as [form|].
  2:{ intros [= <- <-]. by apply (loading_rc _ rc1). }
  destruct (g_filename_from_uri E (rc_filebuf rc1)) as [path|].
  2:{ intros [= <- <-]. by apply (loading_rc _ rc1). }
  pose proof (kp_exe_new_ok E (rc_pins rc1) path false [] w) as Hn.
  rewrite app_nil_r in Hn. specialize (Hn (lo_pinned _ _ _ Hl1)).
  unfold kp_exe_new in *. cbn [snd foldl] in Hn. cbn [foldl].
  set (e0 := {| e_path := path; e_seq := uninit_int E; e_size := 0; e_time := 0;
                e_update_time := -1; e_change_timestamp := st_time (kp_state w);
                e_running_timestamp := -1; e_pool := uninit_int E;
                e_weighted_launches := fzero; e_raw_launches := 0;
                e_total_duration_sec := 0; e_running_pids := [];
                e_exemaps := []; e_markovs := [] |}) in *.
  set (ea := next_addr w) in *.
  set (w1 := bump (with_exes (insert ea e0) w)) in *.
  assert (Hfresh : exe_heap w !! ea = None).
  { destruct (lo_pinned _ _ _ Hl) as [_ Hf]. by destruct (Hf ea ltac:(unfold ea; lia)) as (_ & ? & _). }
  assert (Hl2 : loading_ok k rc1 w1).
  { split; [done| |].
    - intros i b Hb. cbn. rewrite lookup_insert_is_Some. right. split.
      + intros <-. destruct (lo_exes _ _ _ Hl1 i _ Hb). congruence.
      + by apply (lo_exes _ _ _ Hl1 i).
    - intros a. unfold map_refs. cbn. rewrite fmap_insert, refs_in_insert.
      + cbn. rewrite occ_nil. apply (lo_bound _ _ _ Hl1).
      + by rewrite lookup_fmap, Hfresh. }
  set (w2 := with_exes (alter _ ea) w1).
  assert (Hl3 : loading_ok k rc1 w2).
  { apply (loading_quiet _ _ w1); [|done]. by apply quiet_alter_exe. }
  assert (Hfree : forall w3, kp_exe_free ea w2 = Some w3 -> loading_ok k rc1 w3).
  { intros w3 H3. split.
    - eapply kp_exe_free_ok; [apply (lo_pinned _ _ _ Hl3)|done].
    - intros i b Hb. eapply kp_exe_free_live; [done| |by apply (lo_exes _ _ _ Hl3 i)].
      intros ->. destruct (lo_exes _ _ _ Hl1 i _ Hb). congruence.
    - intros a. pose proof (kp_exe_free_refs _ _ _ a H3). pose proof (lo_bound _ _ _ Hl3 a). lia. }
  case_bool_decide as Hi.
  { destruct (kp_exe_free ea w2) as [w3|] eqn:H3; [|done]. intros [= <- <-].
    apply (loading_rc _ rc1); auto. }
  case_bool_decide as Hd.
  { destruct (kp_exe_free ea w2) as [w3|] eqn:H3; [|done]. intros [= <- <-].
    apply (loading_rc _ rc1); auto. }
  set (w3 := with_exes (alter _ ea) w2).
  assert (He3 : exists e3, exe_heap w3 !! ea = Some e3 /\ e_path e3 = path).
  { unfold w3, w2, w1. cbn. rewrite !lookup_alter_eq, lookup_insert_eq. cbn. eauto. }
  destruct He3 as (e3 & He3 & Hp3).
  assert (Hnone : st_exes (kp_state w3) !! e_path e3 = None).
  { rewrite Hp3. apply eq_None_not_Some. exact Hd. }
  rewrite (kp_state_register_exe_new E ea e3 false w3 He3 Hnone).
  intros [= <- <-].
  assert (Hl4 : loading_ok k rc1
                  (with_state (fun s => set_st_exes (<[e_path e3 := ea]> (st_exes s)) s)
                     (register_exe_markovs E ea e3 false w3))).
  { apply (loading_quiet _ _ w3); [by apply quiet_register_exe_entry|].
    apply (loading_quiet _ _ w2); [|done]. by apply quiet_alter_exe. }
  destruct Hl4 as [A1 A2 A3]. split; [done| |done].
  intros i b. cbn [rc_exes set_rc_exes]. rewrite lookup_insert. case_decide; [|apply A2].
  intros [= <-]. apply (quiet_live w1).
  - apply (quiet_trans _ w3); [|exact (quiet_register_exe_entry E ea e3 false w3 He3)].
    eapply quiet_trans; by apply quiet_alter_exe.
  - cbn. by rewrite lookup_insert_eq.
Qed.

Lemma refs_alter (f : kp_exe_t -> kp_exe_t) (g : list addr) ea (h : gmap addr kp_exe_t) a :
  (forall e, em_map <$> e_exemaps (f e) = (em_map <$> e_exemaps e) ++ g) ->
  is_Some (h !! ea) ->
  refs_in (e_exemaps <$> alter f ea h) a = (refs_in (e_exemaps <$> h) a + occ g a)%nat.
Proof.
  intros Hf [e He].
  assert (Halt : alter f ea h = <[ea := f e]> h).
  { apply map_eq. intros j. rewrite lookup_alter, lookup_insert.
    case_decide; subst; [by rewrite He|done]. }
  rewrite Halt, fmap_insert.
  pose proof (refs_in_replace (e_exemaps <$> h) ea (e_exemaps e) (e_exemaps (f e)) a
                ltac:(by rewrite lookup_fmap, He)) as Hr.
  rewrite Hf, occ_app in Hr. lia.
Qed.

Lemma read_exemap_ok k rc w rc' w' :
  loading_ok k rc w -> Z.of_nat k < INT_MAX ->
  read_exemap E rc w = (rc', w') -> loading_ok (S k) rc' w'.
Proof.
  intros Hl Hk. pose proof (loading_mono k (S k) _ _ ltac:(lia) Hl) as HlS.
  unfold read_exemap.
  set (vs := (Scan.sscanf _ (rc_line rc)).1).
  destruct (length vs <? 3)%nat.
  { intros [= <- <-]. by apply (loading_rc _ rc). }
  set (iexe := Scan.store_int vs 0 _). set (imap := Scan.store_int vs 1 _).
  set (prob := Scan.store_double vs 2 _).
  destruct (rc_exes rc !! iexe) as [ea|] eqn:Hea.
  2:{ intros [= <- <-]. by apply (loading_rc _ rc). }
  destruct (rc_maps rc !! imap) as [a|] eqn:Ha.
  2:{ intros [= <- <-]. by apply (loading_rc _ rc). }
  intros [= <- <-].
  destruct (lo_exes _ _ _ Hl _ _ Hea) as [e He].
  pose proof (occ_elem _ _ (rc_pins_elem _ _ _ Ha)) as Hocc.
  destruct (lo_pinned _ _ _ Hl) as [Hm Hf].
  destruct (ok_live _ _ Hm a) as [m Hma]; [cbv beta; lia|].
  pose proof (ok_refcount _ _ Hm a m Hma) as Hrc. cbv beta in Hrc.
  pose proof (lo_bound _ _ _ Hl a) as Hb.
  assert (H1 : pinned_ok (rc_pins rc) (kp_exe_map_new ea a w)).
  { apply (kp_exe_map_new_ok _ _ _ e m); [apply Hl|done|done|intros ?; exfalso; lia|lia]. }
  destruct (kp_map_ref_frame a w) as (F1 & F2 & F3 & F4).
  split.
  - by apply set_prob_ok.
  - intros i b Hi. cbn. rewrite lookup_alter_is_Some.
    unfold kp_exe_map_new, kp_exemap_new. cbn. rewrite lookup_alter_is_Some, F1.
    by apply (lo_exes _ _ _ Hl i).
  - intros b. unfold map_refs. cbn.
    rewrite (refs_alter _ []).
    + unfold kp_exe_map_new, kp_exemap_new. cbn.
      rewrite (refs_alter _ [a]).
      * rewrite F1, occ_nil, occ_cons, occ_nil.
        pose proof (lo_bound _ _ _ Hl b) as Hb'. unfold map_refs in Hb'.
        case_decide; lia.
      * intros e0. unfold exe_add_map_size. cbn. by rewrite fmap_app.
      * rewrite F1. eauto.
    + intros e0. cbn. by rewrite set_last_prob_maps, app_nil_r.
    + unfold kp_exe_map_new, kp_exemap_new. cbn. rewrite lookup_alter_is_Some, F1. eauto.
Qed.

Lemma read_markov_ok k rc w rc' w' :
  loading_ok k rc w -> read_markov E rc w = Some (rc', w') -> loading_ok k rc' w'.
Proof.
  intros Hl. unfold read_markov.
  destruct (Scan.sscanf _ (rc_line rc)) as [vs rest].
  destruct (length vs <? 3)%nat.
  { intros [= <- <-]. by apply (loading_rc _ rc). }
  set (rc1 := set_rc_line rest rc).
  assert (Hl1 : loading_ok k rc1 w) by (by apply (loading_rc _ rc)).
  destruct (rc_exes rc1 !! _) as [a|].
  2:{ intros [= <- <-]. by apply (loading_rc _ rc). }
  destruct (rc_exes rc1 !! _) as [b|].
  2:{ intros [= <- <-]. by apply (loading_rc _ rc). }
  pose proof (quiet_markov_new E a b false w) as Hq.
  destruct (kp_markov_new E a b false w) as [[mk|] w1]; [|done]. cbn [snd] in Hq.
  set (w2 := with_markovs (alter _ mk) w1).
  assert (Hq2 : quiet w w2).
  { eapply quiet_trans; [exact Hq|apply quiet_alter_markov]. }
  destruct (scan_doubles 4 (rc_line rc1)) as [ds r1].
  destruct (length ds <? 4)%nat.
  { destruct (kp_markov_free mk None w2) as [w3|] eqn:H3; [|done]. intros [= <- <-].
    apply (loading_rc _ rc); [done|done|].
    apply (loading_quiet _ _ w); [|done].
    eapply quiet_trans; [exact Hq2|by eapply quiet_markov_free]. }
  set (w3 := with_markovs (alter _ mk) w2).
  assert (Hq3 : quiet w w3).
  { eapply quiet_trans; [exact Hq2|apply quiet_alter_markov]. }
  destruct (scan_ints 16 r1) as [ws r2].
  destruct (length ws <? 16)%nat.
  { destruct (kp_markov_free mk None w3) as [w4|] eqn:H4; [|done]. intros [= <- <-].
    apply (loading_rc _ rc); [done|done|].
    apply (loading_quiet _ _ w); [|done].
    eapply quiet_trans; [exact Hq3|by eapply quiet_markov_free]. }
  intros [= <- <-]. apply (loading_rc _ rc); [done|done|].
  apply (loading_quiet _ _ w); [|done].
  eapply quiet_trans; [exact Hq3|apply quiet_alter_markov].
Qed.

Lemma quiet_family_add f p w : quiet w (kp_family_add_member f p w).2.
Proof.
  unfold kp_family_add_member. destruct (existsb _ _); [apply quiet_refl|].
  by apply quiet_state.
Qed.

Lemma read_family_ok k rc w rc' w' :
  loading_ok k rc w -> read_family E rc w = (rc', w') -> loading_ok k rc' w'.
Proof.
  intros Hl. unfold read_family.
  set (vs := (Scan.sscanf _ (rc_line rc)).1).
  destruct (length vs <? 3)%nat.
  { intros [= <- <-]. by apply (loading_rc _ rc). }
  match goal with |- context [foldl ?f ?i ?l] =>
    assert (Hq : quiet w (foldl f i l).2); [|destruct (foldl f i l) as [fam w1]] end.
  { generalize (kp_family_new (Scan.store_str vs 0 "") (Scan.store_int vs 1 (uninit_int E))).
    generalize (strtok_all ";" (Scan.store_str vs 2 "") []). intros l.
    assert (Hg : forall fw, quiet w fw.2 ->
      quiet w (foldl (fun (fw : kp_app_family_t * world) tok =>
               match skip_spaces tok with
               | EmptyString => fw
               | _ => kp_family_add_member fw.1 (skip_spaces tok) fw.2
               end) fw l).2).
    { induction l as [|tok l IH]; intros fw Hfw; simpl; [done|]. apply IH.
      destruct (skip_spaces tok); [done|].
      eapply quiet_trans; [exact Hfw|apply quiet_family_add]. }
    intros f0. apply (Hg (f0, w)). apply quiet_refl. }
  intros [= <- <-]. cbn [snd] in Hq.
  apply (loading_quiet _ _ w); [|done].
  eapply quiet_trans; [exact Hq|by apply quiet_state].
Qed.

Lemma read_record_ok k lineno first tag rc w b rc' w' :
  loading_ok k rc w -> Z.of_nat k < INT_MAX ->
  read_record E lineno first tag rc w = Some (b, rc', w') -> loading_ok (S k) rc' w'.
Proof.
  intros Hl Hk. pose proof (loading_mono k (S k) _ _ ltac:(lia) Hl) as HlS.
  unfold read_record.
  destruct (_ && _); [by intros [= <- <- <-]|].
  destruct (String.eqb tag TAG_PRELOAD).
  { destruct (_ || _); [intros [= <- <- <-]; by apply (loading_rc _ rc)|].
    destruct (_ <? _); [by intros [= <- <- <-]|].
    destruct (_ <? _); [by intros [= <- <- <-]|].
    intros [= <- <- <-]. apply (loading_quiet _ _ w); [by apply quiet_state|done]. }
  destruct (String.eqb tag TAG_MAP).
  { destruct (read_map E rc w) as [rc1 w1] eqn:Hr. intros [= <- <- <-].
    by eapply read_map_ok. }
  destruct (String.eqb tag TAG_BADEXE); [by intros [= <- <- <-]|].
  destruct (String.eqb tag TAG_EXE).
  { destruct (read_exe E rc w) as [[rc1 w1]|] eqn:Hr; [|done]. intros [= <- <- <-].
    by eapply read_exe_ok. }
  destruct (String.eqb tag TAG_EXEMAP).
  { destruct (read_exemap E rc w) as [rc1 w1] eqn:Hr. intros [= <- <- <-].
    by eapply read_exemap_ok. }
  destruct (String.eqb tag TAG_MARKOV).
  { destruct (read_markov E rc w) as [[rc1 w1]|] eqn:Hr; [|done]. intros [= <- <- <-].
    by eapply read_markov_ok. }
  destruct (String.eqb tag TAG_FAMILY).
  { destruct (read_family E rc w) as [rc1 w1] eqn:Hr. intros [= <- <- <-].
    by eapply read_family_ok. }
  destruct (String.eqb tag TAG_CRC32); [by intros [= <- <- <-]|].
  destruct first as [c|]; [|by intros [= <- <- <-]].
  destruct (negb _); intros [= <- <- <-]; [by apply (loading_rc _ rc)|done].
Qed.

Lemma read_lines_ok lines : forall k lineno rc w b lineno' rc' w',
  loading_ok k rc w -> Z.of_nat (k + length lines) <= INT_MAX ->
  read_lines E lines lineno rc w = Some (b, lineno', rc', w') ->
  exists k', loading_ok k' rc' w'.
Proof.
  induction lines as [|l rest IH]; intros k lineno rc w b lineno' rc' w' Hl Hk.
  - intros [= <- <- <- <-]. eauto.
  - cbn [read_lines]. cbn [length] in Hk.
    destruct (rc_failed rc); [intros [= <- <- <- <-]; eauto|].
    destruct (Scan.sscanf [Scan.Conv_s 31] l) as [vs r].
    assert (Hrc : forall rc0, rc_maps rc0 = rc_maps rc -> rc_exes rc0 = rc_exes rc ->
              Some (true, int_add lineno 1, rc0, w) = Some (b, lineno', rc', w') ->
              exists k', loading_ok k' rc' w').
    { intros rc0 H1 H2 [= <- <- <- <-]. exists k. by apply (loading_rc _ rc). }
    destruct vs as [|[| | |tag] [|]]; try (by apply Hrc).
    match goal with |- context [read_record E ?n ?f ?t ?c ?v] =>
      destruct (read_record E n f t c v) as [[[[] rc1] w1]|] eqn:Hr end; [| |done].
    + intros [= <- <- <- <-]. exists (S k).
      eapply read_record_ok; [|lia|exact Hr]. by apply (loading_rc _ rc).
    + intros H.
      assert (Hl' : loading_ok (S k) rc1 w1).
      { eapply read_record_ok; [|lia|exact Hr]. by apply (loading_rc _ rc). }
      eapply (IH (S k)); [exact Hl'| |exact H].
      rewrite Nat2Z.inj_add in *. rewrite Nat2Z.inj_succ in *. lia.
Qed.

Lemma unpin_all (l : list (Z * addr)) : forall pins w,
  pinned_ok (l.*2 ++ pins) w ->
  pinned_ok pins (foldl (fun w' (kv : Z * addr) => kp_map_unref kv.2 w') w l).
Proof.
  induction l as [|kv l IH]; intros pins w H; simpl; [done|].
  apply IH. by apply kp_map_unpin_ok.
Qed.

Lemma map_refs_init a : map_refs world_init a = 0%nat.
Proof. unfold map_refs. cbn. by rewrite fmap_empty, refs_in_empty. Qed.

Lemma pinned_init : pinned_ok [] world_init.
Proof.
  split; [|by intros a _].
  split; try done; intros a; rewrite map_refs_init, occ_nil; unfold INT_MAX; lia.
Qed.

Lemma quiet_running_callback p tm w : quiet w (set_running_process_callback p tm w).
Proof.
  unfold set_running_process_callback. destruct (_ !! p); [|apply quiet_refl].
  eapply quiet_trans; [by apply (quiet_alter_exe (set_exe_running_timestamp tm))|].
  by apply quiet_state.
Qed.

Lemma quiet_markov_state_callback mk w : quiet w (set_markov_state_callback E mk w).
Proof.
  unfold set_markov_state_callback. destruct (markov_heap w !! mk) eqn:H; [|apply quiet_refl].
  apply quiet_set_markov. by rewrite H.
Qed.

Lemma quiet_foldl {A} (f : world -> A -> world) (l : list A) :
  (forall w x, quiet w (f w x)) -> forall w, quiet w (foldl f w l).
Proof.
  intros Hf. induction l as [|x l IH]; intros w; simpl; [apply quiet_refl|].
  eapply quiet_trans; [apply Hf|apply IH].
Qed.

Lemma quiet_markov_foreach f w :
  (forall mk w0, quiet w0 (f mk w0)) -> quiet w (kp_markov_foreach f w).
Proof.
  intros Hf. unfold kp_markov_foreach. apply quiet_foldl. intros w0 kv.
  destruct (exe_heap w0 !! kv.2); [|apply quiet_refl].
  apply quiet_foldl. intros w1 mk. destruct (markov_heap w1 !! mk); [|apply quiet_refl].
  destruct (Nat.eqb _ _); [apply Hf|apply quiet_refl].
Qed.

Lemma read_state_ok lines err w :
  Z.of_nat (length lines) <= INT_MAX ->
  read_state E lines world_init = Some (err, w) -> pinned_ok [] w.
Proof.
  intros Hlen. unfold read_state.
  destruct (read_lines E lines 0 rc_init world_init) as [[[[b n] rc] w1]|] eqn:Hr; [|done].
  assert (H0 : loading_ok 0 rc_init world_init).
  { split; [apply pinned_init|done|].
    intros a. rewrite map_refs_init. unfold rc_pins, rc_init. cbn [rc_maps].
    rewrite map_to_list_empty. cbn. rewrite occ_nil. lia. }
  assert (Hb : Z.of_nat (0 + length lines) <= INT_MAX) by (cbn; lia).
  destruct (read_lines_ok _ _ _ _ _ _ _ _ _ H0 Hb Hr) as [k' [H1 _ _]].
  set (w2 := foldl _ w1 _).
  assert (H2 : pinned_ok [] w2).
  { apply unpin_all. by rewrite app_nil_r. }
  assert (H3 : pinned_ok [] (kp_markov_foreach (set_markov_state_callback E)
             (with_state (set_st_last_running_timestamp (st_time (kp_state w2)))
                (foldl (fun w' (p : Z * string) =>
                   set_running_process_callback p.2 (st_time (kp_state w2)) w') w2
                   (proc_list E))))).
  { eapply quiet_pinned; [|exact H2].
    eapply quiet_trans; [|apply quiet_markov_foreach, quiet_markov_state_callback].
    eapply quiet_trans; [|by apply quiet_state].
    apply quiet_foldl. intros w0 p. apply quiet_running_callback. }
  destruct (rc_err rc); [by intros [= <- <-]|].
  destruct (rc_errmsg rc); by intros [= <- <-].
Qed.
End Loader.

Section ReachProps.
Context (E : platform).

(** Registering an exe keeps the counts: what it does before the
    insertion touches no map and no exemap, and the exe that the insertion
    replaces is freed as [kp_exe_free] frees any exe. *)
Lemma register_exe_pinned pins ea create w w' :
  kp_state_register_exe E ea create w = Some w' -> pinned_ok pins w -> pinned_ok pins w'.
Proof.
  unfold kp_state_register_exe, exes_insert.
  destruct (exe_heap w !! ea) as [e|] eqn:He; [|done]. intros Hr Hok.
  assert (Hq : pinned_ok pins
                 (with_state (fun s => set_st_exes (<[e_path e := ea]> (st_exes s)) s)
                    (register_exe_markovs E ea e create w))).
  { eapply quiet_pinned; [by apply quiet_register_exe_entry|done]. }
  destruct (st_exes (kp_state (register_exe_markovs E ea e create w)) !! e_path e)
    as [old|]; [|by injection Hr as <-].
  by eapply kp_exe_free_ok.
Qed.

Lemma step_ok w w' : step E w w' -> pinned_ok [] w -> pinned_ok [] w'.
Proof.
  intros Hs Hok. destruct Hs.
  - by apply kp_map_new_ok.
  - by apply kp_map_free_ok.
  - apply kp_exe_new_ok. by rewrite app_nil_r.
  - by eapply register_exe_pinned.
  - by eapply kp_exe_map_new_ok.
  - apply kp_exemap_free_ok. by eapply detach_ok.
  - by eapply kp_exe_free_ok.
  - eapply quiet_pinned; [apply quiet_markov_new|done].
  - eapply quiet_pinned; [by eapply quiet_markov_free|done].
  - eapply quiet_pinned; [apply quiet_state_changed|done].
Qed.

Lemma reachable_ok w : reachable E w -> pinned_ok [] w.
Proof.
  induction 1 as [|lines err w Hlen Hr|w w' _ IH Hs].
  - apply pinned_init.
  - by eapply read_state_ok.
  - by eapply step_ok.
Qed.

Lemma kp_map_ref_spec a m w :
  map_heap w !! a = Some m -> 0 <= m_refcount m < INT_MAX ->
  (m_refcount m = 0 -> st_maps (kp_state w) !! map_key m = None) ->
  (0 < m_refcount m -> st_maps (kp_state w) !! map_key m = Some a) ->
  exists m', map_heap (kp_map_ref a w) !! a = Some m'
    /\ map_key m' = map_key m
    /\ m_refcount m' = m_refcount m + 1
    /\ st_maps (kp_state (kp_map_ref a w)) !! map_key m = Some a.
Proof.
  intros Ha Hr H0 H1. unfold kp_map_ref. rewrite Ha.
  assert (Hw : int_add (m_refcount m) 1 = m_refcount m + 1).
  { apply int_wrap_id. unfold in_int, INT_MIN, INT_MAX in *. lia. }
  destruct (m_refcount m =? 0) eqn:Hz.
  - apply Z.eqb_eq in Hz. unfold kp_state_register_map. rewrite Ha, (H0 Hz). cbn.
    rewrite lookup_alter_eq, lookup_insert_eq. cbn. eexists. split; [done|].
    cbn. split_and!; [done|done|]. by rewrite lookup_insert_eq.
  - apply Z.eqb_neq in Hz. cbn. rewrite lookup_alter_eq, Ha. cbn. eexists. split; [done|].
    cbn. split_and!; [done|done|]. apply H1. lia.
Qed.

Lemma kp_map_unref_spec a m w :
  map_heap w !! a = Some m -> 0 < m_refcount m <= INT_MAX ->
  st_maps (kp_state w) !! map_key m = Some a ->
  if m_refcount m =? 1 then
    map_heap (kp_map_unref a w) !! a = None
    /\ st_maps (kp_state (kp_map_unref a w)) !! map_key m = None
  else
    exists m', map_heap (kp_map_unref a w) !! a = Some m'
      /\ map_key m' = map_key m
      /\ m_refcount m' = m_refcount m - 1
      /\ st_maps (kp_state (kp_map_unref a w)) !! map_key m = Some a.
Proof.
  intros Ha Hr Hreg. unfold kp_map_unref. rewrite Ha.
  assert (Hw : int_sub (m_refcount m) 1 = m_refcount m - 1).
  { apply int_wrap_id. unfold in_int, INT_MIN, INT_MAX in *. lia. }
  rewrite Hw. destruct (0 <? m_refcount m) eqn:Hp; [|apply Z.ltb_ge in Hp; lia].
  destruct (m_refcount m =? 1) eqn:H1.
  - apply Z.eqb_eq in H1. rewrite H1. change (1 - 1 =? 0) with true. cbv iota.
    unfold kp_state_unregister_map. cbn. rewrite lookup_alter_eq, Ha. cbn.
    change (map_key (set_refcount (1 - 1) m)) with (map_key m). rewrite Hreg.
    unfold kp_map_free. cbn. rewrite lookup_alter_eq, Ha. cbn.
    split; [apply lookup_delete_eq|]. apply lookup_delete_eq.
  - apply Z.eqb_neq in H1.
    destruct (m_refcount m - 1 =? 0) eqn:Hz; [apply Z.eqb_eq in Hz; lia|].
    cbn. rewrite lookup_alter_eq, Ha. cbn. eexists. split; [done|]. by split_and!.
Qed.

(** Outside the contract: while a twin with the same key is registered,
    the guard of [kp_state_register_map] turns the registration down, and
    the first reference leaves the map out of the registered set. *)
Lemma kp_map_ref_twin a b m w :
  map_heap w !! a = Some m -> m_refcount m = 0 ->
  st_maps (kp_state w) !! map_key m = Some b ->
  st_maps (kp_state (kp_map_ref a w)) !! map_key m = Some b
  /\ exists m', map_heap (kp_map_ref a w) !! a = Some m' /\ m_refcount m' = 1.
Proof.
  intros Ha H0 Hb. unfold kp_map_ref. rewrite Ha, H0. cbn.
  unfold kp_state_register_map. rewrite Ha, Hb. cbn. split; [done|].
  rewrite lookup_alter_eq, Ha. cbn. rewrite H0. eauto.
Qed.

(** C9 (as the code has it). After every complete operation on the state
    (a state file read in, an exe registered, an exemap attached, an
    exemap or an exe freed), as long as the maps are attached as the
    guard of [kp_state_register_map] asks (a map that no exemap refers to
    yet is attached only when no registered map has its path, offset and
    length), every map of the registered set has a refcount equal to the
    number of exemaps that refer to it, and a map is registered exactly
    while its refcount is positive: [kp_map_ref] registers such a map
    exactly when the refcount goes from 0 to 1, [kp_map_unref]
    unregisters and destroys it exactly when the refcount returns to 0. *)
Theorem map_refcount_invariant w :
  reachable E w ->
  refcounts_exact w /\ registered_while_referenced w
  /\ ref_registers w /\ unref_destroys w.
Proof.
  intros Hr. destruct (reachable_ok w Hr) as [[H1 H2 H3 H4 H5] Hf].
  assert (Hc : forall a m, map_heap w !! a = Some m ->
            m_refcount m = Z.of_nat (map_refs w a)).
  { intros a m Ha. rewrite (H1 a m Ha), occ_nil. f_equal. lia. }
  assert (Hrange : forall a m, map_heap w !! a = Some m -> 0 <= m_refcount m <= INT_MAX).
  { intros a m Ha. rewrite (H1 a m Ha). split; [lia|apply H5]. }
  split_and!.
  - intros k a Hk. destruct (H3 k a Hk) as (m & Ha & Hkey). exists m. split_and!; auto.
  - exact H2.
  - intros a m Ha Hlt H0. pose proof (Hrange a m Ha) as Hrg. split.
    + split.
      * intros Hn. destruct (decide (0 < m_refcount m)) as [Hp|]; [|lia].
        apply (H2 a m Ha) in Hp. congruence.
      * auto.
    + apply kp_map_ref_spec; [done|lia|done|]. intros Hp. by apply (H2 a m Ha).
  - intros a m Ha Hp. pose proof (Hrange a m Ha) as Hrg.
    apply kp_map_unref_spec; [done|lia|]. by apply (H2 a m Ha).
Qed.
End ReachProps.

Lemma map_refcount_invariant_witness :
  exists w, read_state sample_platform shared_map_file world_init = Some (None, w)
    /\ refcounts_exact w /\ registered_while_referenced w
    /\ ref_registers w /\ unref_destroys w.
Proof.
  eexists. split; [vm_compute; reflexivity|].
  apply (map_refcount_invariant sample_platform).
  apply (reach_load sample_platform shared_map_file None); [vm_compute; discriminate|].
  vm_compute. reflexivity.
Defined.

(** C9 (the claim fails). In the state read from a file with a map that
    two exes share, a second map object with the path, offset and length
    of that map is attached to one of the exes: its refcount goes from 0
    to 1 and one exemap refers to it, but the guard of
    [kp_state_register_map] has turned the registration down, and the
    registered set still holds the other map under this key. *)
Lemma attach_twin_map_unregistered :
  exists w ea,
    read_state sample_platform shared_map_file world_init = Some (None, w)
    /\ st_exes (kp_state w) !! "/bin/a"%string = Some ea
    /\ let '(a, w1) := kp_map_new sample_platform "/lib/libc.so" 0 4096 w in
       let w2 := kp_exe_map_new ea a w1 in
       (m_refcount <$> map_heap w1 !! a) = Some 0
       /\ (m_refcount <$> map_heap w2 !! a) = Some 1
       /\ map_refs w2 a = 1%nat
       /\ (exists b, st_maps (kp_state w2) !! ("/lib/libc.so"%string, 0, 4096) = Some b
                     /\ b <> a)
       /\ ~ registered_while_referenced w2.
Proof.
  eexists _, _. split; [vm_compute; reflexivity|]. split; [vm_compute; reflexivity|].
  match goal with |- context [kp_map_new ?E ?p ?o ?l ?w] =>
    set (r := kp_map_new E p o l w);
    assert (Ha : r.1 = 4%nat) by (vm_compute; reflexivity);
    destruct r as [a w1] eqn:Hr
  end.
  cbn [fst] in Ha. subst a. cbv zeta.
  assert (Hw1 : w1 = (kp_map_new sample_platform "/lib/libc.so" 0 4096
                        (default world_init
                           (snd <$> read_state sample_platform shared_map_file world_init))).2).
  { vm_compute in Hr. injection Hr as <-. vm_compute. reflexivity. }
  subst w1. clear Hr.
  split; [vm_compute; reflexivity|]. split; [vm_compute; reflexivity|].
  split; [vm_compute; reflexivity|].
  split; [exists 0%nat; split; [vm_compute; reflexivity|lia]|].
  intros H.
  match goal with H : registered_while_referenced ?w2 |- _ =>
    assert (Hm : exists m, map_heap w2 !! 4%nat = Some m
                           /\ map_key m = ("/lib/libc.so"%string, 0, 4096)
                           /\ m_refcount m = 1)
      by (eexists; split; [vm_compute; reflexivity|]; split; reflexivity);
    destruct Hm as (m & Hm & Hk & Hc);
    assert (Hreg : st_maps (kp_state w2) !! map_key m = Some 4%nat)
      by (apply (H 4%nat m Hm); lia)
  end.
  rewrite Hk in Hreg. vm_compute in Hreg. discriminate.
Qed.

(** ** Decimal numerals *)

Lemma uint_acc_pos d p : uint_acc d (Z.pos p) = Z.pos (Pos.of_uint_acc d p).
Proof.
  revert p. induction d; intros p; simpl; try done;
    rewrite <- IHd; f_equal; lia.
Qed.

Lemma uint_acc_zero d : uint_acc d 0 = Z.of_N (N.of_uint d).
Proof.
  induction d; simpl; try done; apply uint_acc_pos.
Qed.

Lemma scan_digits_uint d rest acc n :
  no_digit_head rest ->
  Scan.scan_digits (NilEmpty.string_of_uint d ++ rest) acc n
  = (uint_acc d acc, (n + Decimal.nb_digits d)%nat, rest).
Proof.
  intros Hr. revert acc n. induction d; intros acc n; simpl;
    try (rewrite IHd; do 2 f_equal; lia).
  rewrite Nat.add_0_r. destruct rest as [|c r]; simpl; [done|].
  simpl in Hr. by rewrite Hr.
Qed.

Lemma string_of_uint_length d :
  String.length (NilEmpty.string_of_uint d) = Decimal.nb_digits d.
Proof. induction d; simpl; congruence. Qed.

Lemma string_of_uint_digits d :
  Forall (fun c => is_digit c = true) (list_ascii_of_string (NilEmpty.string_of_uint d)).
Proof. induction d; simpl; constructor; done. Qed.

Lemma scan_decimal_uint d rest :
  d <> Decimal.Nil -> no_digit_head rest ->
  Scan.scan_decimal (NilEmpty.string_of_uint d ++ rest) = Some (false, uint_acc d 0, rest).
Proof.
  intros Hd Hr. unfold Scan.scan_decimal.
  assert (Hs : Scan.scan_sign (Scan.skip_ws (NilEmpty.string_of_uint d ++ rest))
               = (false, (NilEmpty.string_of_uint d ++ rest)%string)).
  { destruct d; done. }
  rewrite Hs, (scan_digits_uint d rest 0 0 Hr). destruct d; done.
Qed.

Lemma show_ulong_eq n :
  show_ulong n = NilEmpty.string_of_uint (N.to_uint (Z.to_N n)).
Proof.
  unfold show_ulong, NilZero.string_of_uint.
  destruct (N.to_uint (Z.to_N n)) eqn:H; try done.
  destruct (Z.to_N n); [done|]. by apply DecimalPos.Unsigned.to_uint_nonnil in H.
Qed.

Lemma uint_acc_to_uint n : uint_acc (N.to_uint n) 0 = Z.of_N n.
Proof. by rewrite uint_acc_zero, DecimalN.Unsigned.of_to. Qed.

Lemma to_uint_nonnil n : N.to_uint n <> Decimal.Nil.
Proof. destruct n; [done|apply DecimalPos.Unsigned.to_uint_nonnil]. Qed.

(** Reading back what [%ld] has printed. *)
Lemma conv_ld_show_long z rest :
  LONG_MIN <= z <= LONG_MAX -> no_digit_head rest ->
  Scan.conv_ld (Scan.show_long z ++ rest) = Some (z, rest).
Proof.
  intros Hz Hr. unfold Scan.conv_ld, Scan.show_long.
  assert (Hc : forall v, LONG_MIN <= v <= LONG_MAX -> Scan.clamp_long v = v).
  { intros v Hv. unfold Scan.clamp_long. lia. }
  destruct z as [|p|p]; simpl Z.to_int; cbn [NilZero.string_of_int].
  - change (NilZero.string_of_uint _) with (show_ulong 0).
    rewrite show_ulong_eq, scan_decimal_uint by (done || apply to_uint_nonnil).
    rewrite uint_acc_to_uint. cbn. by rewrite Hc.
  - change (NilZero.string_of_uint (Pos.to_uint p)) with (show_ulong (Z.pos p)).
    rewrite show_ulong_eq, scan_decimal_uint by (done || apply to_uint_nonnil).
    rewrite uint_acc_to_uint. cbn. by rewrite Hc.
  - change (NilZero.string_of_uint (Pos.to_uint p)) with (show_ulong (Z.pos p)).
    rewrite show_ulong_eq.
    change (String "-" ?a +:+ ?b)%string with (String "-" (a +:+ b)).
    change (Scan.scan_decimal (String "-" ?s)) with
      (match Scan.scan_digits s 0 0 with
       | (_, O, _) => None
       | (v, _, r') => Some (true, v, r')
       end).
    rewrite (scan_digits_uint _ rest 0 0 Hr), uint_acc_to_uint.
    pose proof (to_uint_nonnil (Z.to_N (Z.pos p))) as Hn.
    destruct (N.to_uint (Z.to_N (Z.pos p))); try done; cbn; by rewrite Hc by lia.
Qed.

(** ** format_number *)

Lemma digit_not_comma c : is_digit c = true -> is_comma c = false.
Proof.
  unfold is_digit, is_comma. intros H. destruct (Ascii.eqb_spec c ","); [|done].
  subst. done.
Qed.

Lemma format_from_strip temp i len :
  Forall (fun c => is_digit c = true) temp ->
  filter (fun c => is_comma c = false) (format_number_from temp i len) = temp.
Proof.
  intros H. revert i. induction H as [|c r Hc Hr IH]; intros i; simpl; [done|].
  rewrite filter_app, filter_cons_True by (by apply digit_not_comma).
  rewrite IH. destruct (_ && _); done.
Qed.

Lemma format_from_shape temp : forall i len,
  Forall (fun c => is_digit c = true) temp ->
  (0 < i)%nat -> (i + length temp = len)%nat ->
  let out := format_number_from temp i len in
  length out = (length temp + length temp / 3)%nat
  /\ forall k c, rev out !! k = Some c -> (is_comma c = true <-> (k mod 4 = 3)%nat).
Proof.
  induction temp as [|c r IH]; intros i len Hd Hi Hlen out; subst out.
  - split; [done|]. intros k c. cbn. by rewrite lookup_nil.
  - apply Forall_cons in Hd as [Hc Hr]. simpl in Hlen.
    destruct (IH (S i) len Hr ltac:(lia) ltac:(lia)) as [IH1 IH2].
    assert (Hi' : (0 <? i)%nat = true) by (apply Nat.ltb_lt; lia).
    cbn [format_number_from]. rewrite Hi'. cbn [andb].
    replace (len - i)%nat with (S (length r)) by lia.
    pose proof (digit_not_comma c Hc) as Hnc.
    destruct (S (length r) mod 3 =? 0)%nat eqn:Hm.
    + apply Nat.eqb_eq in Hm. cbn [app length]. split.
      { cbn [length]. rewrite IH1.
        pose proof (Nat.div_mod_eq (S (length r)) 3).
        pose proof (Nat.div_mod_eq (length r) 3).
        pose proof (Nat.mod_upper_bound (length r) 3). lia. }
      intros k c0. cbn [rev]. rewrite <- !app_assoc. cbn [app].
      destruct (decide (k < length (rev (format_number_from r (S i) len)))%nat) as [Hk|Hk].
      * rewrite lookup_app_l by done. apply IH2.
      * rewrite lookup_app_r by lia. rewrite length_rev, IH1.
        pose proof (Nat.div_mod_eq (S (length r)) 3).
        pose proof (Nat.div_mod_eq (length r) 3).
        pose proof (Nat.mod_upper_bound (length r) 3 ltac:(lia)).
        pose proof (Nat.div_mod_eq k 4).
        pose proof (Nat.mod_upper_bound k 4 ltac:(lia)).
        rewrite length_rev, IH1 in Hk.
        set (km := (k mod 4)%nat) in *. clearbody km.
        destruct (k - (length r + length r / 3))%nat as [|[|j]] eqn:Hj; cbn.
        -- intros [= <-]. rewrite Hnc. split; [done|intros ?; exfalso; lia].
        -- intros [= <-]. split; [intros _|done]. lia.
        -- done.
    + apply Nat.eqb_neq in Hm. cbn [app length]. split.
      { cbn [length]. rewrite IH1.
        pose proof (Nat.div_mod_eq (S (length r)) 3).
        pose proof (Nat.div_mod_eq (length r) 3).
        pose proof (Nat.mod_upper_bound (length r) 3).
        pose proof (Nat.mod_upper_bound (S (length r)) 3). lia. }
      intros k c0. cbn [rev].
      destruct (decide (k < length (rev (format_number_from r (S i) len)))%nat) as [Hk|Hk].
      * rewrite lookup_app_l by done. apply IH2.
      * rewrite lookup_app_r by lia. rewrite length_rev, IH1.
        pose proof (Nat.div_mod_eq (S (length r)) 3).
        pose proof (Nat.div_mod_eq (length r) 3).
        pose proof (Nat.mod_upper_bound (length r) 3 ltac:(lia)).
        pose proof (Nat.mod_upper_bound (S (length r)) 3 ltac:(lia)).
        pose proof (Nat.div_mod_eq k 4).
        pose proof (Nat.mod_upper_bound k 4 ltac:(lia)).
        rewrite length_rev, IH1 in Hk.
        set (km := (k mod 4)%nat) in *. clearbody km.
        destruct (k - (length r + length r / 3))%nat as [|j] eqn:Hj; cbn; [|done].
        intros [= <-]. rewrite Hnc. split; [done|intros ?; exfalso; lia].
Qed.

Lemma show_ulong_digits n :
  Forall (fun c => is_digit c = true) (list_ascii_of_string (show_ulong n)).
Proof. rewrite show_ulong_eq. apply string_of_uint_digits. Qed.

Lemma length_list_ascii s : length (list_ascii_of_string s) = String.length s.
Proof. induction s; simpl; congruence. Qed.

Lemma show_ulong_length n :
  String.length (show_ulong n) = Decimal.nb_digits (N.to_uint (Z.to_N n)).
Proof. rewrite show_ulong_eq. apply string_of_uint_length. Qed.

Lemma nb_digits_pos d : d <> Decimal.Nil -> (0 < Decimal.nb_digits d)%nat.
Proof. destruct d; simpl; (done || lia). Qed.

(** X1. [format_number] writes the decimal digits of the number, with a
    comma before every group of three digits counted from the right:
    without its commas the text is what [%lu] prints, and counted from its
    end the commas sit at the places 3, 7, 11, ... and nowhere else. *)
Theorem format_number_grouping (num : Z) :
  let out := list_ascii_of_string (format_number num) in
  filter (fun c => is_comma c = false) out = list_ascii_of_string (show_ulong num)
  /\ forall k c, rev out !! k = Some c -> (c = ","%char <-> (k mod 4 = 3)%nat).
Proof.
  intros out. subst out. unfold format_number.
  rewrite list_ascii_of_string_of_list_ascii.
  pose proof (show_ulong_digits num) as Hd.
  split; [by apply format_from_strip|].
  destruct (list_ascii_of_string (show_ulong num)) as [|c r] eqn:Ht.
  { intros k c. cbn. by rewrite lookup_nil. }
  apply Forall_cons in Hd as [Hc Hr].
  destruct (format_from_shape r 1 (length (c :: r)) Hr ltac:(lia) eq_refl) as [H1 H2].
  intros k c0. cbn [format_number_from Nat.ltb Nat.leb andb app rev].
  assert (Heq : forall x, x = ","%char <-> is_comma x = true).
  { intros x. unfold is_comma. by destruct (Ascii.eqb_spec x ","). }
  rewrite Heq.
  destruct (decide (k < length (rev (format_number_from r 1 (length (c :: r)))))%nat)
    as [Hk|Hk].
  - rewrite lookup_app_l by done. apply H2.
  - rewrite lookup_app_r by lia. rewrite length_rev, H1. rewrite length_rev, H1 in Hk.
    pose proof (Nat.div_mod_eq (length r) 3).
    pose proof (Nat.mod_upper_bound (length r) 3 ltac:(lia)).
    pose proof (Nat.div_mod_eq k 4).
    pose proof (Nat.mod_upper_bound k 4 ltac:(lia)).
    set (km := (k mod 4)%nat) in *. clearbody km.
    destruct (k - (length r + length r / 3))%nat as [|j] eqn:Hj; cbn; [|done].
    intros [= <-]. rewrite (digit_not_comma c Hc). split; [done|intros ?; exfalso; lia].
Qed.

Lemma uint_acc_lower d : forall acc, 0 <= acc ->
  acc * 10 ^ Z.of_nat (Decimal.nb_digits d) <= uint_acc d acc.
Proof.
  induction d; intros acc Ha; cbn [uint_acc Decimal.nb_digits];
    try (rewrite Nat2Z.inj_succ, Z.pow_succ_r by lia;
         match goal with |- _ <= uint_acc _ ?a =>
           pose proof (IHd a ltac:(lia));
           pose proof (Z.pow_nonneg 10 (Z.of_nat (Decimal.nb_digits d)) ltac:(lia)); nia
         end).
  cbn. lia.
Qed.

Lemma to_uint_head n l : N.to_uint n = Decimal.D0 l -> l = Decimal.Nil.
Proof.
  intros H. pose proof (DecimalN.Unsigned.to_of (N.to_uint n)) as Hn.
  rewrite DecimalN.Unsigned.of_to, H, DecimalFacts.unorm_D0 in Hn.
  destruct l as [|l'|l'|l'|l'|l'|l'|l'|l'|l'|l'] eqn:El; [done|..];
  match type of Hn with _ = Decimal.unorm ?x =>
    pose proof (DecimalFacts.nb_digits_unorm x ltac:(done)) as Hb end;
  rewrite <- Hn in Hb; simpl in Hb; lia.
Qed.

Lemma nb_digits_value n :
  (0 < n)%N -> 10 ^ (Z.of_nat (Decimal.nb_digits (N.to_uint n)) - 1) <= Z.of_N n.
Proof.
  intros Hn. rewrite <- (uint_acc_to_uint n).
  pose proof (to_uint_head n) as Hh.
  destruct (N.to_uint n) as [|l|l|l|l|l|l|l|l|l|l] eqn:Hd;
    cbn [uint_acc Decimal.nb_digits];
    try (rewrite Nat2Z.inj_succ; replace (Z.succ (Z.of_nat (Decimal.nb_digits l)) - 1)
           with (Z.of_nat (Decimal.nb_digits l)) by lia;
         etransitivity; [|apply uint_acc_lower; lia]; lia).
  - by apply to_uint_nonnil in Hd.
  - rewrite (Hh l eq_refl) in Hd. destruct n; [lia|].
    by apply DecimalPos.Unsigned.to_uint_nonzero in Hd.
Qed.

(** X2. For every [unsigned long] the text of [format_number] has at most
    26 characters: a buffer of 27 bytes holds it with its terminator. *)
Theorem format_number_length (num : Z) :
  0 <= num <= ULONG_MAX -> (String.length (format_number num) <= 26)%nat.
Proof.
  intros Hn. unfold format_number.
  rewrite <- length_list_ascii, list_ascii_of_string_of_list_ascii.
  pose proof (show_ulong_digits num) as Hd.
  pose proof (show_ulong_length num) as Hl. rewrite <- length_list_ascii in Hl.
  assert (Hb : (Decimal.nb_digits (N.to_uint (Z.to_N num)) <= 20)%nat).
  { destruct (decide (num = 0)) as [->|Hz]; [cbn; lia|].
    pose proof (nb_digits_value (Z.to_N num) ltac:(lia)) as Hv.
    rewrite Z2N.id in Hv by lia.
    destruct (decide (Decimal.nb_digits (N.to_uint (Z.to_N num)) <= 20)%nat); [done|].
    assert (10 ^ 20 <= 10 ^ (Z.of_nat (Decimal.nb_digits (N.to_uint (Z.to_N num))) - 1)).
    { apply Z.pow_le_mono_r; lia. }
    unfold ULONG_MAX in Hn. lia. }
  destruct (list_ascii_of_string (show_ulong num)) as [|c r] eqn:Ht; [cbn; lia|].
  apply Forall_cons in Hd as [Hc Hr].
  destruct (format_from_shape r 1 (S (length r)) Hr ltac:(lia) eq_refl) as [H1 _].
  cbn [format_number_from Nat.ltb Nat.leb andb app length]. rewrite H1.
  cbn [length] in Hl.
  pose proof (Nat.div_mod_eq (length r) 3). lia.
Qed.

Lemma format_number_length_witness : (String.length (format_number ULONG_MAX) <= 26)%nat.
Proof. apply format_number_length. unfold ULONG_MAX. lia. Defined.

(** ** kp_path_in_directories *)

Lemma starts_with_spec p s : starts_with p s = true <-> exists r, s = (p ++ r)%string.
Proof.
  revert s. induction p as [|a p IH]; intros s; simpl.
  - split; [eauto|done].
  - destruct s as [|c s]; [split; [done|by intros [r Hr]]|].
    rewrite andb_true_iff, IH. split.
    + intros [Ha [r ->]]. apply Ascii.eqb_eq in Ha as ->. eauto.
    + intros [r [= -> ->]]. split; [apply Ascii.eqb_refl|eauto].
Qed.

Lemma char_at_app p r :
  char_at (p ++ r) (String.length p)
  = match r with String c _ => c | EmptyString => "000"%char end.
Proof.
  unfold char_at. induction p as [|a p IH]; simpl; [by destruct r|done].
Qed.

Lemma c_string_app p r : c_string (p ++ r) -> c_string r.
Proof.
  unfold c_string. intros H Hr. apply H. clear H.
  induction p as [|a p IH]; simpl; auto.
Qed.

Lemma string_app_nil_r s : (s ++ "")%string = s.
Proof. induction s as [|a s IH]; [done|]. change (String a (s ++ "") = String a s). by rewrite IH. Qed.

Lemma string_app_assoc s t u : ((s ++ t) ++ u)%string = (s ++ t ++ u)%string.
Proof.
  induction s as [|a s IH]; [done|].
  change (String a ((s ++ t) ++ u) = String a (s ++ t ++ u)). by rewrite IH.
Qed.

(** One turn of the loop: the test on the prefix [p]. *)
Lemma prefix_test p path :
  c_string path ->
  starts_with p path
  && (Ascii.eqb (char_at path (String.length p)) "000"
      || Ascii.eqb (char_at path (String.length p)) "/") = true
  <-> path = p \/ exists rest, path = (p ++ "/" ++ rest)%string.
Proof.
  intros Hc. rewrite andb_true_iff, starts_with_spec. split.
  - intros [[r ->] Hn]. rewrite char_at_app in Hn. apply c_string_app in Hc.
    destruct r as [|c r].
    + left. apply string_app_nil_r.
    + apply orb_true_iff in Hn as [Hn|Hn]; apply Ascii.eqb_eq in Hn; subst.
      * exfalso. apply Hc. by left.
      * right. by exists r.
  - intros [->|[rest ->]].
    + split; [exists EmptyString; by rewrite string_app_nil_r|].
      rewrite <- (string_app_nil_r p) at 1. by rewrite char_at_app.
    + split; [eauto|]. by rewrite char_at_app.
Qed.

Lemma path_in_directories_from_spec path prefixes : forall n i,
  c_string path -> (i + n <= length prefixes)%nat ->
  exists b, path_in_directories_from path prefixes i n = Some b
    /\ (b = true <-> exists j p, (i <= j < i + n)%nat /\ prefixes !! j = Some (Some p)
                      /\ (path = p \/ exists rest, path = (p ++ "/" ++ rest)%string)).
Proof.
  induction n as [|n IH]; intros i Hc Hlen; simpl.
  - exists false. split; [done|]. split; [done|]. intros (j & p & Hj & _). lia.
  - destruct (prefixes !! i) as [[p|]|] eqn:Hi.
    + destruct (_ && _) eqn:Ht.
      * exists true. split; [done|]. split; [intros _|done].
        exists i, p. split; [lia|]. split; [done|]. by apply prefix_test.
      * destruct (IH (S i) Hc ltac:(lia)) as (b & Hb & Hiff). exists b. split; [done|].
        rewrite Hiff. split; intros (j & q & Hj & Hq & Hm).
        -- exists j, q. split; [lia|done].
        -- destruct (decide (j = i)) as [->|Hne].
           ++ rewrite Hi in Hq. injection Hq as <-.
              apply (prefix_test p path Hc) in Hm. congruence.
           ++ exists j, q. split; [lia|done].
    + destruct (IH (S i) Hc ltac:(lia)) as (b & Hb & Hiff). exists b. split; [done|].
      rewrite Hiff. split; intros (j & q & Hj & Hq & Hm).
      * exists j, q. split; [lia|done].
      * destruct (decide (j = i)) as [->|Hne]; [congruence|].
        exists j, q. split; [lia|done].
    + apply lookup_ge_None in Hi. lia.
Qed.

(** X3. [kp_path_in_directories] answers [TRUE] exactly when one of the
    first [count] prefixes is the whole path or is followed in the path by
    a slash; [NULL] entries are passed over. *)
Theorem kp_path_in_directories_spec path prefixes count :
  c_string path -> count <= Z.of_nat (length prefixes) ->
  exists b, kp_path_in_directories (Some path) (Some prefixes) count = Some b
    /\ (b = true <-> exists i p, Z.of_nat i < count /\ prefixes !! i = Some (Some p)
                      /\ (path = p \/ exists rest, path = (p ++ "/" ++ rest)%string)).
Proof.
  intros Hc Hlen. unfold kp_path_in_directories.
  destruct (path_in_directories_from_spec path prefixes (Z.to_nat count) 0 Hc
              ltac:(lia)) as (b & Hb & Hiff).
  exists b. split; [done|]. rewrite Hiff.
  split; intros (j & p & Hj & Hp); exists j, p; (split; [lia|done]).
Qed.

Lemma kp_path_in_directories_spec_witness :
  exists b, kp_path_in_directories (Some "/opt/app/bin") (Some [None; Some "/opt"]) 2 = Some b
    /\ (b = true <-> exists i p, Z.of_nat i < 2 /\ [None; Some "/opt"%string] !! i = Some (Some p)
                      /\ ("/opt/app/bin"%string = p
                          \/ exists rest, "/opt/app/bin"%string = (p ++ "/" ++ rest)%string)).
Proof.
  apply (kp_path_in_directories_spec "/opt/app/bin" [None; Some "/opt"%string] 2).
  - unfold c_string. cbn. intros H. repeat (destruct H as [H|H]; [discriminate H|]). done.
  - cbn. lia.
Defined.

(** X4. A directory given with its trailing slash matches none of the
    files below it: the character after the prefix is then the first of
    the file name, not a slash. *)
Theorem kp_path_in_directories_trailing_slash dir c name :
  c <> "/"%char -> c <> "000"%char ->
  kp_path_in_directories (Some (dir ++ "/" ++ String c name)%string)
    (Some [Some (dir ++ "/")%string]) 1 = Some false.
Proof.
  intros Hc Hn. unfold kp_path_in_directories. change (Z.to_nat 1) with 1%nat.
  cbn [path_in_directories_from].
  change ([Some (dir ++ "/")%string] !! 0%nat) with (Some (Some (dir ++ "/")%string)).
  cbv iota beta zeta.
  rewrite <- (string_app_assoc dir "/" (String c name)), char_at_app.
  destruct (Ascii.eqb_spec c "000"); [done|]. destruct (Ascii.eqb_spec c "/"); [done|].
  by rewrite andb_false_r.
Qed.

Lemma kp_path_in_directories_trailing_slash_witness :
  kp_path_in_directories (Some "/opt/app"%string) (Some [Some "/opt/"%string]) 1 = Some false.
Proof.
  apply (kp_path_in_directories_trailing_slash "/opt" "a" "pp"); discriminate.
Defined.

(** ** The pause state and the pause file *)

Lemma long_wrap_id z : LONG_MIN <= z <= LONG_MAX -> long_wrap z = z.
Proof.
  unfold long_wrap, LONG_MIN, LONG_MAX. intros H. rewrite Z.mod_small by lia. lia.
Qed.

Lemma no_digit_newline : no_digit_head newline.
Proof. reflexivity. Qed.

(** Reading the pause file that holds the expiry [e]. *)
Lemma load_pause_file_written now e st :
  LONG_MIN <= e <= LONG_MAX ->
  load_pause_file now (st, Some (Scan.show_long e ++ newline)%string)
  = if e =? 0 then (set_pause true 0 (st, None), Some (Scan.show_long e ++ newline)%string)
    else if now <? e
         then (set_pause true e (st, None), Some (Scan.show_long e ++ newline)%string)
         else (set_pause false (-1) (st, None), None).
Proof.
  intros He. unfold load_pause_file. cbn [snd].
  rewrite (conv_ld_show_long e newline He no_digit_newline).
  destruct (e =? 0); [done|]. by destruct (now <? e).
Qed.

Lemma kp_pause_set_state now d fopen_ok p :
  let e := if d =? 0 then 0 else long_wrap (now + d) in
  (kp_pause_set now d fopen_ok p).1
  = {| active := true; expiry := e; initialized := true |}
  /\ (kp_pause_set now d true p).2 = Some (Scan.show_long e ++ newline)%string
  /\ (kp_pause_set now d false p).2
     = (if initialized p.1 then p else kp_pause_init now p).2.
Proof.
  intros e. unfold kp_pause_set. split; [|done]. cbn [fst]. unfold set_pause. cbn [fst].
  f_equal. destruct (initialized p.1) eqn:Hi; [done|].
  unfold kp_pause_init, load_pause_file. cbn [snd fst].
  destruct p.2 as [content|]; [|done].
  destruct (Scan.conv_ld content) as [[e0 r]|]; [|done].
  destruct (e0 =? 0); [done|]. by destruct (now <? e0).
Qed.

(** X5. After [kp_pause_set] with a duration [d >= 0] at the time [now],
    [kp_pause_is_active] answers [TRUE] at the time [now'] exactly when
    [d] is 0 (until reboot) or [now'] is before [now + d], whether or not
    the pause file could be written. *)
Theorem kp_pause_set_window now d fopen_ok p now' :
  0 < now -> 0 <= d -> now + d <= LONG_MAX ->
  (kp_pause_is_active now' (kp_pause_set now d fopen_ok p)).1 = true
  <-> d = 0 \/ now' < now + d.
Proof.
  intros Hn Hd Hmax. destruct (kp_pause_set_state now d fopen_ok p) as [Hs _].
  cbv zeta in Hs. unfold kp_pause_is_active.
  destruct (kp_pause_set now d fopen_ok p) as [st f]. cbn [fst] in *. subst st.
  cbn [initialized active expiry negb fst].
  destruct (Z.eqb_spec d 0) as [->|Hne]; [cbn; tauto|].
  rewrite long_wrap_id by (unfold LONG_MIN; lia).
  destruct (Z.eqb_spec (now + d) 0); [lia|].
  destruct (Z.leb_spec (now + d) now'); cbn [fst].
  - split; [done|]. intros [?|?]; [done|lia].
  - split; [|done]. intros _. by right.
Qed.

Lemma kp_pause_set_window_witness :
  (kp_pause_is_active 1500 (kp_pause_set 1000 600 false (paused_until 0))).1 = true
  <-> 600 = 0 \/ 1500 < 1000 + 600.
Proof. apply kp_pause_set_window; unfold LONG_MAX; lia. Defined.

(** X6. [cmd_pause] fills the pause file within the long range that
    [kp_pause_init] reads back: a daemon that has not looked at its pause
    state yet takes the pause up at its first question, with the window
    the command asked for. *)
Theorem cmd_pause_first_query now seconds st file now' :
  initialized st = false -> 0 < now -> 0 <= seconds -> now + seconds <= LONG_MAX ->
  (cmd_pause now seconds true file).1 = 0
  /\ ((kp_pause_is_active now' (st, (cmd_pause now seconds true file).2)).1 = true
      <-> seconds = 0 \/ now' < now + seconds).
Proof.
  intros Hi Hn Hs Hmax. unfold cmd_pause.
  destruct (Z.ltb_spec seconds 0); [lia|]. cbn [negb fst snd]. split; [done|].
  unfold kp_pause_is_active. cbn [fst]. rewrite Hi. unfold kp_pause_init. cbn [fst snd].
  destruct (Z.eqb_spec seconds 0) as [->|Hne].
  - rewrite load_pause_file_written by (unfold LONG_MIN, LONG_MAX; lia). cbn. tauto.
  - rewrite long_wrap_id by (unfold LONG_MIN; lia).
    rewrite load_pause_file_written by (unfold LONG_MIN; lia).
    destruct (Z.eqb_spec (now + seconds) 0); [lia|].
    destruct (Z.ltb_spec now' (now + seconds)); cbn.
    + destruct (Z.eqb_spec (now + seconds) 0); [lia|].
      destruct (Z.leb_spec (now + seconds) now'); [lia|]. cbn. split; [intros _; by right|done].
    + split; [done|]. intros [?|?]; [done|lia].
Qed.

Lemma cmd_pause_first_query_witness :
  (cmd_pause 1000 1800 true None).1 = 0
  /\ ((kp_pause_is_active 2000
         ({| active := false; expiry := 0; initialized := false |},
          (cmd_pause 1000 1800 true None).2)).1 = true
      <-> 1800 = 0 \/ 2000 < 1000 + 1800).
Proof. apply cmd_pause_first_query; (done || unfold LONG_MAX; lia). Defined.

(** X8. The pause survives a restart of the daemon when
    [save_pause_file] could write the file: after [kp_pause_set] and
    [kp_pause_free], the next [kp_pause_is_active] reads the file and
    answers as the daemon that set the pause would have. When the file
    could not be opened, the pause is held in memory only: the restarted
    daemon finds the file as it was before and answers from that, so that
    without a file it is not paused. *)
Theorem kp_pause_restart now d p now' :
  0 < now -> 0 <= d -> now + d <= LONG_MAX ->
  (kp_pause_is_active now' (kp_pause_free (kp_pause_set now d true p))).1
  = (kp_pause_is_active now' (kp_pause_set now d true p)).1
  /\ kp_pause_is_active now' (kp_pause_free (kp_pause_set now d false p))
     = kp_pause_is_active now'
         (kp_pause_free (if initialized p.1 then p else kp_pause_init now p))
  /\ (p.2 = None ->
      (kp_pause_is_active now' (kp_pause_free (kp_pause_set now d false p))).1 = false).
Proof.
  intros Hn Hd Hmax.
  assert (Hfail : (kp_pause_set now d false p).2
                  = (if initialized p.1 then p else kp_pause_init now p).2).
  { by destruct (kp_pause_set_state now d false p) as (_ & _ & Hf). }
  split; [|split; [unfold kp_pause_free; by rewrite Hfail|]].
  2:{ intros Hnone. unfold kp_pause_free. rewrite Hfail.
      assert (Hp1 : (if initialized p.1 then p else kp_pause_init now p).2 = None).
      { destruct (initialized p.1); [done|].
        unfold kp_pause_init, load_pause_file. cbn [fst snd]. by rewrite Hnone. }
      rewrite Hp1. unfold kp_pause_is_active, kp_pause_init, load_pause_file. done. }
  destruct (kp_pause_set_state now d true p) as (Hs & Hf & _).
  cbv zeta in Hs, Hf. unfold kp_pause_free, kp_pause_is_active.
  destruct (kp_pause_set now d true p) as [st f]. cbn [fst snd] in *. subst st f.
  cbn [initialized active expiry negb fst]. unfold kp_pause_init. cbn [fst snd].
  destruct (Z.eqb_spec d 0) as [->|Hne].
  - rewrite load_pause_file_written by (unfold LONG_MIN, LONG_MAX; lia). done.
  - rewrite long_wrap_id by (unfold LONG_MIN; lia).
    rewrite load_pause_file_written by (unfold LONG_MIN; lia).
    destruct (Z.eqb_spec (now + d) 0); [lia|].
    destruct (Z.ltb_spec now' (now + d)); cbn.
    + destruct (Z.eqb_spec (now + d) 0); [lia|].
      destruct (Z.leb_spec (now + d) now'); [lia|]. done.
    + destruct (Z.leb_spec (now + d) now'); [done|lia].
Qed.

Lemma kp_pause_restart_witness :
  (kp_pause_is_active 1500 (kp_pause_free (kp_pause_set 1000 600 true (paused_until 0)))).1
  = (kp_pause_is_active 1500 (kp_pause_set 1000 600 true (paused_until 0))).1
  /\ (kp_pause_is_active 1500 (kp_pause_free (kp_pause_set 1000 600 false unpaused))).1
     = false.
Proof.
  split.
  - apply (kp_pause_restart 1000 600 (paused_until 0) 1500); unfold LONG_MAX; lia.
  - apply (kp_pause_restart 1000 600 unpaused 1500); (reflexivity || (unfold LONG_MAX; lia)).
Defined.

Section PauseCommands.
Context {X : Type}.
Context (kp_spy_scan kp_prophet_predict : X * world -> X * world).
Context (kp_session_check : X -> X) (kp_session_in_boot_window : X -> bool).
Context (kp_session_preload_top_apps : Z -> X * world -> X * world).

(** X7. The daemon reads the pause file only when its pause state is
    initialised. Once it is, [cmd_pause] does not reach it: a daemon that
    is not paused goes on predicting in the ticks after the command. *)
Theorem cmd_pause_after_init (d : @daemon X) now seconds fopen_ok now' :
  initialized (d_pause d).1 = true -> active (d_pause d).1 = false ->
  dopredict (d_conf d) = true ->
  last (d_calls (kp_state_tick kp_spy_scan kp_prophet_predict kp_session_check
           kp_session_in_boot_window kp_session_preload_top_apps now'
           (with_pause_file (cmd_pause now seconds fopen_ok (d_pause d).2).2 d)))
  = Some CallProphetPredict.
Proof.
  intros Hi Ha Hd.
  eapply (tick_calls_unpaused kp_spy_scan kp_prophet_predict kp_session_check
            kp_session_in_boot_window kp_session_preload_top_apps now'
            (with_pause_file _ d)); [|done].
  unfold kp_pause_is_active, with_pause_file. cbn [d_pause fst]. rewrite Hi.
  cbn [fst]. rewrite Ha. done.
Qed.

(** X9. Nor does [cmd_resume] reach a daemon whose pause state is
    initialised: while the pause it holds has not expired, the ticks after
    the command still call nothing but the scanner. *)
Theorem cmd_resume_after_init (d : @daemon X) may_unlink now' :
  initialized (d_pause d).1 = true -> active (d_pause d).1 = true ->
  (expiry (d_pause d).1 = 0 \/ now' < expiry (d_pause d).1) ->
  d_calls (kp_state_tick kp_spy_scan kp_prophet_predict kp_session_check
        kp_session_in_boot_window kp_session_preload_top_apps now'
        (with_pause_file (cmd_resume may_unlink (d_pause d).2).2 d))
  = d_calls d ++ (if doscan (d_conf d) then [CallSpyScan] else []).
Proof.
  intros Hi Ha He.
  assert (Hp : pause_unexpired now'
                 (d_pause (with_pause_file (cmd_resume may_unlink (d_pause d).2).2 d))).
  { left. unfold with_pause_file. cbn [d_pause fst]. done. }
  destruct (pause_unexpired_active _ _ Hp) as [p' Hp'].
  by rewrite (tick_calls_paused kp_spy_scan kp_prophet_predict kp_session_check
            kp_session_in_boot_window kp_session_preload_top_apps now' _ p' Hp').
Qed.
End PauseCommands.

Lemma cmd_pause_after_init_witness :
  last (d_calls (sample_tick 20
           (with_pause_file (cmd_pause 10 600 true None).2
              (sample_daemon world_init unpaused))))
  = Some CallProphetPredict.
Proof.
  apply (cmd_pause_after_init no_op no_op (fun x => x) (fun _ => false)
           (fun _ => no_op) (sample_daemon world_init unpaused) 10 600 true 20);
    reflexivity.
Defined.

Lemma cmd_resume_after_init_witness :
  d_calls (sample_tick 20
        (with_pause_file (cmd_resume true (Some (Scan.show_long 60 ++ newline)%string)).2
           (sample_daemon world_init (paused_until 60))))
  = [CallSpyScan].
Proof.
  apply (cmd_resume_after_init no_op no_op (fun x => x) (fun _ => false)
           (fun _ => no_op) (sample_daemon world_init (paused_until 60)) true 20);
    [reflexivity|reflexivity|right; reflexivity].
Defined.

(** X10. For a daemon whose pause state is initialised, and a pause that
    ends within [INT_MAX] seconds, [kp_pause_remaining] agrees with
    [kp_pause_is_active]: 0 exactly when the daemon is not paused, -1 for
    a pause until reboot, the seconds that are left otherwise. *)
Theorem kp_pause_remaining_spec now p :
  initialized p.1 = true -> LONG_MIN <= now -> LONG_MIN <= expiry p.1 <= LONG_MAX ->
  expiry p.1 - now <= INT_MAX ->
  kp_pause_remaining now p
  = if (kp_pause_is_active now p).1
    then (if expiry p.1 =? 0 then -1 else expiry p.1 - now)
    else 0.
Proof.
  intros Hi Hn He Hr. unfold kp_pause_remaining, kp_pause_is_active. rewrite Hi.
  destruct (active p.1); cbn [negb fst]; [|done].
  destruct (Z.eqb_spec (expiry p.1) 0); [done|].
  destruct (Z.leb_spec (expiry p.1) now); cbn [fst]; [done|].
  rewrite long_wrap_id by (unfold LONG_MIN, LONG_MAX, INT_MAX in *; lia).
  apply int_wrap_id. unfold in_int, INT_MIN, INT_MAX in *. lia.
Qed.

Lemma kp_pause_remaining_spec_witness :
  kp_pause_remaining 20 (paused_until 60)
  = if (kp_pause_is_active 20 (paused_until 60)).1
    then (if expiry (paused_until 60).1 =? 0 then -1 else expiry (paused_until 60).1 - 20)
    else 0.
Proof.
  apply kp_pause_remaining_spec; cbn; unfold LONG_MIN, LONG_MAX, INT_MAX; (done || lia).
Defined.

(** ** The blacklist *)

Lemma string_forallb_app f s t :
  string_forallb f (s ++ t) = string_forallb f s && string_forallb f t.
Proof.
  induction s as [|c s IH]; [done|].
  change (f c && string_forallb f (s ++ t) = f c && string_forallb f s && string_forallb f t).
  rewrite IH. by rewrite andb_assoc.
Qed.

Lemma string_rev_onto_app s acc : string_rev_onto s acc = (string_rev s ++ acc)%string.
Proof.
  unfold string_rev. revert acc. induction s as [|c s IH]; intros acc; [done|].
  cbn [string_rev_onto]. rewrite (IH (String c EmptyString)), IH.
  clear. induction (string_rev_onto s "") as [|a r IHr]; [done|].
  change (String a (r ++ String c acc) = String a ((r ++ String c "") ++ acc)).
  by rewrite IHr.
Qed.

Lemma string_rev_cons c s : string_rev (String c s) = (string_rev s ++ String c "")%string.
Proof. unfold string_rev at 1. cbn. apply string_rev_onto_app. Qed.

Lemma string_length_app s t :
  String.length (s ++ t) = (String.length s + String.length t)%nat.
Proof.
  induction s as [|c s IH]; [done|].
  change (S (String.length (s ++ t)) = S (String.length s + String.length t)). by rewrite IH.
Qed.

Lemma string_rev_length s : String.length (string_rev s) = String.length s.
Proof.
  induction s as [|c s IH]; [done|].
  rewrite string_rev_cons, string_length_app, IH. cbn. lia.
Qed.

Lemma string_forallb_rev f s : string_forallb f (string_rev s) = string_forallb f s.
Proof.
  induction s as [|c s IH]; [done|].
  rewrite string_rev_cons, string_forallb_app, IH. cbn. rewrite andb_true_r. apply andb_comm.
Qed.

Lemma skip_gspace_head s c r : skip_gspace s = String c r -> g_ascii_isspace c = false.
Proof.
  induction s as [|a s IH]; [done|]. cbn [skip_gspace].
  destruct (g_ascii_isspace a) eqn:Ha; [exact IH|]. by intros [= <- <-].
Qed.
Lemma skip_gspace_length s : (String.length (skip_gspace s) <= String.length s)%nat.
Proof. induction s as [|c s IH]; [done|]. cbn. destruct (g_ascii_isspace c); cbn; lia. Qed.

Lemma skip_gspace_forallb f s :
  string_forallb f s = true -> string_forallb f (skip_gspace s) = true.
Proof.
  induction s as [|c s IH]; [done|]. cbn. intros [Hc Hs]%andb_true_iff.
  destruct (g_ascii_isspace c); [auto|]. cbn. by rewrite Hc, Hs.
Qed.

Lemma strip_end_forallb f p :
  string_forallb f p = true -> string_forallb f (strip_end p) = true.
Proof.
  destruct p as [|c r]; [done|]. cbn. intros [Hc Hr]%andb_true_iff. rewrite Hc. cbn.
  rewrite string_forallb_rev. apply skip_gspace_forallb. by rewrite string_forallb_rev.
Qed.

(** What a line can add to the table. *)
Lemma blacklist_line_entry line name :
  blacklist_line line = LineEntry name ->
  entry_name name /\ (String.length name < BLACKLIST_LINE_MAX - 1)%nat.
Proof.
  unfold blacklist_line. destruct (skip_gspace (c_str line)) as [|c r]; [done|].
  destruct (_ || _); [done|].
  destruct (Nat.leb_spec (BLACKLIST_LINE_MAX - 1) (String.length (strip_end (String c r))));
    [done|].
  destruct (string_forallb valid_entry_char (strip_end (String c r))) eqn:Hv; [|done].
  cbn [negb]. intros [= <-]. split; [|done]. split; [done|exact Hv].
Qed.

Lemma load_blacklist_file_ok filepath f b : entries_ok (load_blacklist_file filepath f b).
Proof.
  unfold entries_ok, load_blacklist_file. destruct f as [|mtime|mtime content].
  - cbn. intros es e [= <-]. by intros ?%elem_of_empty.
  - cbn. intros es e [= <-]. by intros ?%elem_of_empty.
  - match goal with |- context [foldl ?g ?i ?l] =>
      assert (Hf : forall e, e ∈ (foldl g i l).1 ->
                entry_name e /\ (String.length e < BLACKLIST_LINE_MAX - 1)%nat);
      [|destruct (foldl g i l) as [entries loaded]] end.
    { generalize (fgets_all (String.length content) (BLACKLIST_LINE_MAX - 1) content).
      intros l. assert (Hg : forall (acc : gset string * Z),
        (forall e, e ∈ acc.1 ->
           entry_name e /\ (String.length e < BLACKLIST_LINE_MAX - 1)%nat) ->
        forall e, e ∈ (foldl (fun (acc : gset string * Z) line =>
                 match blacklist_line line with
                 | LineEntry name => ({[ name ]} ∪ acc.1, int_add acc.2 1)
                 | _ => acc
                 end) acc l).1 ->
          entry_name e /\ (String.length e < BLACKLIST_LINE_MAX - 1)%nat).
      { induction l as [|line l IH]; intros acc Hacc; [done|]. cbn [foldl]. apply IH.
        destruct (blacklist_line line) as [| |name] eqn:Hl; try done.
        cbn [fst]. intros e [->%elem_of_singleton|He]%elem_of_union; [|auto].
        by apply (blacklist_line_entry line). }
      apply Hg. cbn. intros e. by intros ?%elem_of_empty. }
    cbn. intros es e [= <-]. apply Hf.
Qed.

Lemma blacklist_reachable_ok b : blacklist_reachable b -> entries_ok b.
Proof.
  induction 1 as [f|f b Hb IH].
  - apply load_blacklist_file_ok.
  - unfold kp_blacklist_reload. destruct (bl_filepath b).
    + destruct (match f with BlNoStat => _ | _ => _ end); [done|].
      apply load_blacklist_file_ok.
    + apply load_blacklist_file_ok.
Qed.

Lemma entry_name_no_slash e : entry_name e -> string_contains "/" e = false.
Proof.
  intros [_ Hv]. induction e as [|c e IH]; [done|].
  cbn in Hv. apply andb_true_iff in Hv as [Hc Hv]. cbn. rewrite (IH Hv), orb_false_r.
  destruct (Ascii.eqb_spec c "/") as [->|]; [done|done].
Qed.

(** X11. Whatever the blacklist file holds, every entry of the table is a
    name: not empty, shorter than 255 characters, and made of letters,
    digits, [_], [-] and [.] only. *)
Theorem blacklist_entries_are_names b es e :
  blacklist_reachable b -> bl_entries b = Some es -> e ∈ es ->
  entry_name e /\ (String.length e < 255)%nat.
Proof. intros Hb. by apply blacklist_reachable_ok. Qed.

Lemma blacklist_entries_are_names_witness :
  entry_name "nmap" /\ (String.length "nmap" < 255)%nat.
Proof.
  apply (blacklist_entries_are_names sample_blacklist {[ "nmap"%string ]} "nmap").
  - apply bl_reach_init.
  - vm_compute. reflexivity.
  - by apply elem_of_singleton.
Defined.

(** X12. A name with a slash in it that does not begin with one is looked
    up as it is, so [kp_blacklist_contains] never finds it: only plain
    names and absolute paths can be blacklisted. *)
Theorem blacklist_relative_path basename b c name :
  blacklist_reachable b -> c <> "/"%char -> string_contains "/" name = true ->
  kp_blacklist_contains basename b (Some (String c name)) = false.
Proof.
  intros Hb Hc Hs. unfold kp_blacklist_contains.
  destruct (bl_entries b) as [es|] eqn:He; [|done].
  destruct (Ascii.eqb_spec c "/"); [done|].
  apply bool_decide_eq_false. intros Hin.
  destruct (blacklist_reachable_ok b Hb es _ He Hin) as [Hn _].
  apply entry_name_no_slash in Hn. cbn in Hn. rewrite Hs, orb_true_r in Hn. done.
Qed.

Lemma blacklist_relative_path_witness :
  kp_blacklist_contains (fun s => s) sample_blacklist (Some "bin/nmap"%string) = false.
Proof.
  apply (blacklist_relative_path (fun s => s) sample_blacklist "b" "in/nmap").
  - apply bl_reach_init.
  - discriminate.
  - reflexivity.
Defined.

(** ** Text files *)

Lemma text_line_cons c l :
  text_line (String c l) <-> c <> "010"%char /\ c <> "000"%char /\ text_line l.
Proof.
  unfold text_line. cbn [string_forallb]. rewrite !andb_true_iff, !negb_true_iff.
  destruct (Ascii.eqb_spec c "010"), (Ascii.eqb_spec c "000"); split;
    try (intros [[? ?] ?]; done); try (intros (? & ? & ?); done).
Qed.

Lemma fgets_line n l rest :
  text_line l -> (String.length l < n)%nat ->
  fgets n (l ++ newline ++ rest) = ((l ++ newline)%string, rest).
Proof.
  revert n. induction l as [|c l IH]; intros n Ht Hn.
  - destruct n; [cbn in Hn; lia|]. done.
  - apply text_line_cons in Ht as (Hc & _ & Ht). destruct n; [cbn in Hn; lia|].
    change (fgets (S n) (String c (l ++ newline ++ rest))
            = (String c (l ++ newline), rest)).
    cbn [fgets]. destruct (Ascii.eqb_spec c "010"); [done|].
    rewrite IH by (done || cbn in Hn; lia). done.
Qed.

Lemma file_of_lines_length lines :
  (length lines <= String.length (file_of_lines lines))%nat.
Proof.
  induction lines as [|l r IH]; [done|]. cbn [file_of_lines length].
  rewrite !string_length_app. cbn. lia.
Qed.

Lemma fgets_all_lines n lines : forall fuel,
  Forall (fun l => text_line l /\ (String.length l < n)%nat) lines ->
  (length lines <= fuel)%nat ->
  fgets_all fuel n (file_of_lines lines) = map (fun l => (l ++ newline)%string) lines.
Proof.
  induction lines as [|l r IH]; intros fuel Hl Hf.
  - by destruct fuel.
  - apply Forall_cons in Hl as [[Ht Hn] Hr]. destruct fuel; [cbn in Hf; lia|].
    cbn [file_of_lines map].
    assert (Hne : exists c s, (l ++ newline ++ file_of_lines r)%string = String c s).
    { destruct l; cbn; eauto. }
    destruct Hne as (c & s & Hcs). cbn [fgets_all]. rewrite Hcs, <- Hcs.
    rewrite fgets_line by done. rewrite IH by (done || cbn in Hf; lia). done.
Qed.

Lemma c_str_text l : text_line l -> c_str (l ++ newline) = (l ++ newline)%string.
Proof.
  induction l as [|c l IH]; [done|]. intros (_ & Hc & Ht)%text_line_cons.
  change (c_str (String c (l ++ newline)) = String c (l ++ newline)). cbn [c_str].
  destruct (Ascii.eqb_spec c "000"); [done|]. by rewrite IH.
Qed.

Lemma string_rev_app s t : string_rev (s ++ t) = (string_rev t ++ string_rev s)%string.
Proof.
  induction s as [|c s IH].
  - cbn. by rewrite string_app_nil_r.
  - change (string_rev (String c (s ++ t)) = (string_rev t ++ string_rev (String c s))%string).
    rewrite !string_rev_cons, IH. apply string_app_assoc.
Qed.

Lemma skip_gspace_app_newline l :
  skip_gspace (l ++ newline)
  = match skip_gspace l with
    | EmptyString => EmptyString
    | p => (p ++ newline)%string
    end.
Proof.
  induction l as [|c l IH]; [done|].
  change (skip_gspace (String c (l ++ newline)) = match skip_gspace (String c l) with
    | EmptyString => EmptyString | p => (p ++ newline)%string end).
  cbn [skip_gspace]. destruct (g_ascii_isspace c); [exact IH|done].
Qed.

Lemma skip_gspace_snoc s c :
  g_ascii_isspace c = false ->
  skip_gspace (s ++ String c "") = (skip_gspace s ++ String c "")%string.
Proof.
  intros Hc. induction s as [|a s IH].
  { change (skip_gspace (String c "") = String c ""). cbn [skip_gspace]. by rewrite Hc. }
  change (skip_gspace (String a (s ++ String c "")) = (skip_gspace (String a s) ++ String c "")%string).
  cbn [skip_gspace]. destruct (g_ascii_isspace a); [exact IH|done].
Qed.

(** A line of a text file that fits into the buffer is taken as a whole,
    and gives the entry that its text stands for. *)
Lemma blacklist_line_text l :
  text_line l -> (String.length l < BLACKLIST_LINE_MAX - 1)%nat ->
  match blacklist_line (l ++ newline) with
  | LineEntry e => line_entry l = Some e
  | _ => line_entry l = None
  end.
Proof.
  intros Ht Hn. unfold blacklist_line, line_entry, trim.
  rewrite c_str_text, skip_gspace_app_newline by done.
  pose proof (skip_gspace_length l) as Hlen.
  destruct (skip_gspace l) as [|c r] eqn:Hs; [reflexivity|].
  pose proof (skip_gspace_head _ _ _ Hs) as Hc.
  change (String c r ++ newline)%string with (String c (r ++ newline)).
  rewrite string_rev_cons, skip_gspace_snoc, string_rev_app by done.
  change (string_rev (String c "") ++ ?x)%string with (String c x).
  assert (Hnl : Ascii.eqb c "010" = false).
  { destruct (Ascii.eqb_spec c "010") as [->|]; [done|done]. }
  rewrite Hnl, orb_false_r. destruct (Ascii.eqb c "#"); [reflexivity|].
  cbn [strip_end]. rewrite string_rev_app.
  change (string_rev newline ++ ?x)%string with (String "010" x).
  change (skip_gspace (String "010" ?x)) with (skip_gspace x).
  set (t := String c (string_rev (skip_gspace (string_rev r)))).
  assert (Ht' : (String.length t <= String.length l)%nat).
  { unfold t. cbn [String.length]. rewrite string_rev_length.
    pose proof (skip_gspace_length (string_rev r)). rewrite string_rev_length in *.
    cbn in Hlen. lia. }
  destruct (Nat.leb_spec (BLACKLIST_LINE_MAX - 1) (String.length t)); [lia|].
  by destruct (string_forallb valid_entry_char t).
Qed.

Lemma omap_length_le {A B} (f : A -> option B) (l : list A) :
  (length (omap f l) <= length l)%nat.
Proof. induction l as [|x l IH]; [done|]. cbn. destruct (f x); cbn; lia. Qed.

Lemma omap_cons_eq {A B} (f : A -> option B) (x : A) (l : list A) :
  omap f (x :: l) = match f x with Some y => y :: omap f l | None => omap f l end.
Proof. done. Qed.

Lemma blacklist_fold_text (lines : list string) : forall (acc : gset string * Z),
  Forall (fun l => text_line l /\ (String.length l < BLACKLIST_LINE_MAX - 1)%nat) lines ->
  0 <= acc.2 -> acc.2 + Z.of_nat (length lines) <= INT_MAX ->
  foldl (fun (acc : gset string * Z) line =>
           match blacklist_line line with
           | LineEntry name => ({[ name ]} ∪ acc.1, int_add acc.2 1)
           | _ => acc
           end) acc (map (fun l => (l ++ newline)%string) lines)
  = (list_to_set (omap line_entry lines) ∪ acc.1,
     acc.2 + Z.of_nat (length (omap line_entry lines))).
Proof.
  induction lines as [|l r IH]; intros [es n] Hl H0 Hmax.
  - cbn. f_equal; [|lia]. by rewrite (left_id_L ∅ (∪)).
  - apply Forall_cons in Hl as [[Ht Hn] Hr]. cbn [map foldl omap fst snd] in *.
    pose proof (blacklist_line_text l Ht Hn) as Hb.
    assert (Hlen : (length (omap line_entry r) <= length r)%nat) by apply omap_length_le.
    cbn [length] in Hmax. rewrite Nat2Z.inj_succ in Hmax.
    rewrite omap_cons_eq.
    destruct (blacklist_line (l ++ newline)) as [| |e]; rewrite Hb.
    + by rewrite IH by (done || cbn; lia).
    + by rewrite IH by (done || cbn; lia).
    + rewrite IH.
      * cbn [fst snd list_to_set length]. f_equal.
        -- rewrite (assoc_L (∪)). f_equal. apply (comm_L (∪)).
        -- unfold int_add. rewrite int_wrap_id by (unfold in_int, INT_MIN, INT_MAX in *; lia).
           lia.
      * done.
      * cbn. unfold int_add. rewrite int_wrap_id by (unfold in_int, INT_MIN, INT_MAX in *; lia).
        lia.
      * cbn. unfold int_add. rewrite int_wrap_id by (unfold in_int, INT_MIN, INT_MAX in *; lia).
        lia.
Qed.

(** X13. For a text file whose lines are shorter than 255 characters, the
    table holds exactly the entries its lines stand for (the line without
    the white space at its ends, unless it is empty, begins with [#] or has
    a character that no name has), and [kp_blacklist_count] is the number
    of the lines that gave an entry: a name listed twice counts twice. *)
Theorem load_blacklist_text_file filepath mtime lines b :
  Forall (fun l => text_line l /\ (String.length l < 255)%nat) lines ->
  Z.of_nat (length lines) <= INT_MAX ->
  let b' := load_blacklist_file filepath (BlFile mtime (file_of_lines lines)) b in
  bl_entries b' = Some (list_to_set (omap line_entry lines))
  /\ kp_blacklist_count b' = Z.of_nat (length (omap line_entry lines)).
Proof.
  intros Hl Hmax b'. subst b'. unfold load_blacklist_file, kp_blacklist_count.
  rewrite (fgets_all_lines (BLACKLIST_LINE_MAX - 1) lines _ Hl (file_of_lines_length lines)).
  rewrite (blacklist_fold_text lines (∅, 0) Hl) by (cbn; lia).
  cbn. split; [|done]. by rewrite (right_id_L ∅ (∪)).
Qed.

Lemma load_blacklist_text_file_witness :
  let b' := load_blacklist_file BLACKLIST_FILE (BlFile 1 (file_of_lines padded_blacklist))
              blacklist_zero in
  bl_entries b' = Some (list_to_set (omap line_entry padded_blacklist))
  /\ kp_blacklist_count b' = Z.of_nat (length (omap line_entry padded_blacklist)).
Proof.
  apply (load_blacklist_text_file BLACKLIST_FILE 1 padded_blacklist blacklist_zero).
  - repeat constructor; cbn; lia.
  - cbn. unfold INT_MAX. lia.
Defined.

Lemma valid_entry_char_plain c :
  valid_entry_char c = true ->
  g_ascii_isspace c = false /\ Ascii.eqb c "010" = false /\ Ascii.eqb c "000" = false
  /\ Ascii.eqb c "#" = false.
Proof. destruct c as [[] [] [] [] [] [] [] []]; vm_compute; intros H; done. Qed.

Lemma valid_entry_text s : string_forallb valid_entry_char s = true -> text_line s.
Proof.
  unfold text_line. induction s as [|c s IH]; [done|]. cbn.
  intros [Hc Hs]%andb_true_iff. destruct (valid_entry_char_plain c Hc) as (_ & -> & -> & _).
  cbn. auto.
Qed.

Lemma skip_gspace_plain s :
  string_forallb valid_entry_char s = true -> skip_gspace s = s.
Proof.
  destruct s as [|c s]; [done|]. cbn. intros [Hc _]%andb_true_iff.
  by destruct (valid_entry_char_plain c Hc) as (-> & _).
Qed.

Lemma string_rev_involutive s : string_rev (string_rev s) = s.
Proof.
  induction s as [|c s IH]; [done|]. rewrite string_rev_cons, string_rev_app, IH. done.
Qed.

Lemma c_str_plain s : string_forallb valid_entry_char s = true -> c_str s = s.
Proof.
  induction s as [|c s IH]; [done|]. cbn. intros [Hc Hs]%andb_true_iff.
  destruct (valid_entry_char_plain c Hc) as (_ & _ & -> & _). by rewrite IH.
Qed.

Lemma strip_end_plain s : string_forallb valid_entry_char s = true -> strip_end s = s.
Proof.
  destruct s as [|c s]; [done|]. cbn. intros [_ Hs]%andb_true_iff.
  rewrite skip_gspace_plain by (by rewrite string_forallb_rev).
  by rewrite string_rev_involutive.
Qed.

Lemma line_entry_name e : entry_name e -> line_entry e = Some e.
Proof.
  intros [Hne Hv]. unfold line_entry, trim.
  rewrite (skip_gspace_plain e Hv), skip_gspace_plain by (by rewrite string_forallb_rev).
  rewrite string_rev_involutive. destruct e as [|c r]; [done|].
  pose proof Hv as Hv'. cbn in Hv'. apply andb_true_iff in Hv' as [Hc _].
  destruct (valid_entry_char_plain c Hc) as (_ & _ & _ & ->). by rewrite Hv.
Qed.

Lemma fgets_full a rest :
  text_line a -> fgets (String.length a) (a ++ rest) = (a, rest).
Proof.
  induction a as [|c a IH]; intros Ht.
  - cbn. by destruct rest.
  - apply text_line_cons in Ht as (Hc & _ & Ht).
    change (fgets (S (String.length a)) (String c (a ++ rest)) = (String c a, rest)).
    cbn [fgets]. destruct (Ascii.eqb_spec c "010"); [done|]. by rewrite IH.
Qed.

(** X14. A line of more than 254 characters is not only turned down: the
    buffer takes its first 255 characters, and what follows them is read
    as a line of its own. After a name of 255 characters, the rest of the
    line becomes an entry of the table. *)
Theorem blacklist_long_line filepath mtime a e b :
  String.length a = 255%nat -> string_forallb valid_entry_char a = true ->
  entry_name e -> (String.length e < 255)%nat ->
  let b' := load_blacklist_file filepath (BlFile mtime (a ++ e ++ newline)) b in
  bl_entries b' = Some {[ e ]} /\ kp_blacklist_count b' = 1.
Proof.
  intros Ha Hv He Hlen b'. subst b'. unfold load_blacklist_file, kp_blacklist_count.
  pose proof (valid_entry_text a Hv) as Hta.
  pose proof (valid_entry_text e (proj2 He)) as Hte.
  assert (Hchunks : fgets_all (String.length (a ++ e ++ newline)) (BLACKLIST_LINE_MAX - 1)
                      (a ++ e ++ newline) = [a; (e ++ newline)%string]).
  { rewrite !string_length_app, Ha. cbn [String.length newline].
    replace (255 + (String.length e + 1))%nat with (S (S (254 + String.length e))) by lia.
    destruct a as [|c a']; [done|].
    change (String c a' ++ e ++ newline)%string with (String c (a' ++ e ++ newline)).
    cbn [fgets_all]. change (String c (a' ++ e ++ newline)) with (String c a' ++ e ++ newline)%string.
    change (BLACKLIST_LINE_MAX - 1)%nat with 255%nat. rewrite <- Ha at 1.
    rewrite fgets_full by done.
    destruct e as [|c0 e']; [by destruct He|].
    change (String c0 e' ++ newline)%string with (String c0 (e' ++ newline)).
    cbn [fgets_all]. change (String c0 (e' ++ newline)) with (String c0 e' ++ newline ++ "")%string.
    rewrite fgets_line by done. by destruct (254 + String.length (String c0 e'))%nat. }
  rewrite Hchunks. cbn [foldl].
  assert (Hla : blacklist_line a = LineSkipped).
  { unfold blacklist_line. rewrite c_str_plain, skip_gspace_plain by done.
    destruct a as [|c a'] eqn:Ea; [done|]. rewrite <- Ea in *.
    assert (Hc : valid_entry_char c = true).
    { rewrite Ea in Hv. cbn in Hv. by apply andb_true_iff in Hv as [? _]. }
    destruct (valid_entry_char_plain c Hc) as (_ & -> & _ & ->). cbn [orb].
    rewrite strip_end_plain, Ha by done. done. }
  pose proof (blacklist_line_text e Hte Hlen) as Hle.
  rewrite (line_entry_name e He) in Hle.
  rewrite Hla. cbn [fst snd]. destruct (blacklist_line (e ++ newline)) as [| |e0]; try done.
  injection Hle as ->. cbn. split; [|done]. by rewrite (right_id_L ∅ (∪)).
Qed.

Lemma blacklist_long_line_witness :
  let b' := load_blacklist_file BLACKLIST_FILE
              (BlFile 1 (string_of_list_ascii (replicate 255 "a"%char) ++ "nmap" ++ newline))
              blacklist_zero in
  bl_entries b' = Some {[ "nmap"%string ]} /\ kp_blacklist_count b' = 1.
Proof.
  apply (blacklist_long_line BLACKLIST_FILE 1 (string_of_list_ascii (replicate 255 "a"%char))
           "nmap" blacklist_zero).
  - vm_compute. reflexivity.
  - vm_compute. reflexivity.
  - split; [discriminate|reflexivity].
  - cbn. lia.
Defined.

(** ** Families *)

Section FamilyProps.
Context (E : platform).

Lemma kp_family_add_member_members f p w :
  member_paths (kp_family_add_member f p w).1
  = if bool_decide (p ∈ member_paths f) then member_paths f else member_paths f ++ [p].
Proof.
  unfold kp_family_add_member.
  assert (Hex : existsb (String.eqb p) (member_paths f) = bool_decide (p ∈ member_paths f)).
  { induction (member_paths f) as [|q l IH]; [done|]. cbn [existsb]. rewrite IH.
    destruct (String.eqb_spec p q) as [->|Hne].
    - cbn. symmetry. apply bool_decide_eq_true. left.
    - cbn. apply bool_decide_ext. rewrite elem_of_cons. split; [by right|by intros [?|?]]. }
  rewrite Hex. by destruct (bool_decide _).
Qed.

(** X15. [kp_family_add_member] leaves the family as it is when the path
    is a member already, and otherwise adds the path at the end of the
    member list, the members before it kept in their order: the list stays
    free of duplicates and no other field of the family changes. A path
    that is new to the family is mapped to the family by
    [kp_family_lookup_by_exe], whatever family it was mapped to before;
    the mappings of the other paths stay, nothing changes in the state
    when the path was a member, and a second call with the same path
    changes nothing. *)
Theorem kp_family_add_member_spec f p w :
  NoDup (member_paths f) ->
  let '(f1, w1) := kp_family_add_member f p w in
  member_paths f1
  = (if bool_decide (p ∈ member_paths f) then member_paths f else member_paths f ++ [p])
  /\ NoDup (member_paths f1)
  /\ family_id f1 = family_id f /\ method f1 = method f
  /\ total_weighted_launches f1 = total_weighted_launches f
  /\ total_raw_launches f1 = total_raw_launches f /\ last_used f1 = last_used f
  /\ (p ∈ member_paths f -> f1 = f /\ w1 = w)
  /\ (p ∉ member_paths f -> kp_family_lookup_by_exe p w1 = Some (family_id f))
  /\ (forall q, q <> p -> kp_family_lookup_by_exe q w1 = kp_family_lookup_by_exe q w)
  /\ kp_family_add_member f1 p w1 = (f1, w1).
Proof.
  intros Hnd. pose proof (kp_family_add_member_members f p w) as Hm.
  destruct (kp_family_add_member f p w) as [f1 w1] eqn:Ha. cbn [fst] in Hm.
  assert (Hin : p ∈ member_paths f1).
  { rewrite Hm. case_bool_decide; [done|]. apply elem_of_app. right. by left. }
  assert (Hex : existsb (String.eqb p) (member_paths f) = bool_decide (p ∈ member_paths f)).
  { destruct (existsb (String.eqb p) (member_paths f)) eqn:Hx; symmetry.
    - apply bool_decide_eq_true. apply existsb_exists in Hx as (q & Hq & Heq).
      apply String.eqb_eq in Heq as <-. by apply list_elem_of_In.
    - apply bool_decide_eq_false. intros Hp. apply not_true_iff_false in Hx. apply Hx.
      apply existsb_exists. exists p. split; [by apply list_elem_of_In|apply String.eqb_refl]. }
  unfold kp_family_add_member in Ha. rewrite Hex in Ha.
  split; [exact Hm|]. split.
  { rewrite Hm. case_bool_decide; [done|]. apply NoDup_app.
    split_and!; [done| |apply NoDup_singleton].
    intros x Hx ->%list_elem_of_singleton. done. }
  case_bool_decide as Hp; injection Ha as <- <-; cbn.
  - split_and!; try done.
    unfold kp_family_add_member.
    assert (Hx : existsb (String.eqb p) (member_paths f) = true).
    { apply existsb_exists. exists p. split; [by apply list_elem_of_In|apply String.eqb_refl]. }
    by rewrite Hx.
  - split_and!; try done.
    + intros _. unfold kp_family_lookup_by_exe. cbn. apply lookup_insert_eq.
    + intros q Hq. unfold kp_family_lookup_by_exe. cbn. by apply lookup_insert_ne.
    + unfold kp_family_add_member. cbn [member_paths].
      assert (Hx : existsb (String.eqb p) (member_paths f ++ [p]) = true).
      { apply existsb_exists. exists p. split; [|apply String.eqb_refl].
        apply in_or_app. right. by left. }
      by rewrite Hx.
Qed.

Lemma kp_family_add_member_spec_witness :
  let '(f1, w1) := kp_family_add_member (kp_family_new "web" 0) "/usr/bin/firefox" world_init in
  member_paths f1 = ["/usr/bin/firefox"%string]
  /\ kp_family_lookup_by_exe "/usr/bin/firefox" w1 = Some "web"%string.
Proof.
  pose proof (kp_family_add_member_spec (kp_family_new "web" 0) "/usr/bin/firefox" world_init
                (NoDup_nil_2 : NoDup (member_paths (kp_family_new "web" 0)))) as H.
  destruct (kp_family_add_member (kp_family_new "web" 0) "/usr/bin/firefox" world_init)
    as [f1 w1].
  destruct H as (Hm & _ & _ & _ & _ & _ & _ & _ & Hl & _).
  split; [exact Hm|]. apply Hl. cbn. apply not_elem_of_nil.
Defined.
(** *** Reading a line back *)

Lemma take_while_all keep t : forall w c r,
  string_forallb keep t = true -> keep c = false -> (String.length t <= w)%nat ->
  Scan.take_while keep w (t ++ String c r) = (t, String c r).
Proof.
  induction t as [|a t IH]; intros w c r Ht Hc Hw.
  - change (Scan.take_while keep w (String c r) = (EmptyString, String c r)).
    destruct w; cbn; [done|by rewrite Hc].
  - cbn in Ht. apply andb_true_iff in Ht as [Ha Ht]. destruct w; [cbn in Hw; lia|].
    change (Scan.take_while keep (S w) (String a (t ++ String c r)) = (String a t, String c r)).
    cbn [Scan.take_while]. rewrite Ha, IH by (done || cbn in Hw; lia). done.
Qed.

Lemma word_head t : word t -> exists c r, t = String c r /\ Scan.isspace c = false.
Proof.
  intros [Hne Hw]. destruct t as [|c r]; [done|]. exists c, r. split; [done|].
  cbn in Hw. apply andb_true_iff in Hw as [Hc _]. apply andb_true_iff in Hc as [Hc _].
  by apply negb_true_iff in Hc.
Qed.

Lemma word_nonspace t :
  word t -> string_forallb (fun c => negb (Scan.isspace c)) t = true.
Proof.
  intros [_ Hw]. induction t as [|c t IH]; [done|]. cbn in *.
  apply andb_true_iff in Hw as [Hc Hw]. apply andb_true_iff in Hc as [Hc _].
  by rewrite Hc, IH.
Qed.

Lemma conv_s_word w t r :
  word t -> (String.length t <= w)%nat ->
  Scan.conv_s w (tab ++ t ++ tab ++ r) = Some (t, (tab ++ r)%string).
Proof.
  intros Hw Hlen. destruct (word_head t Hw) as (c & t' & -> & Hc). unfold Scan.conv_s.
  change (Scan.skip_ws (tab ++ String c t' ++ tab ++ r))
    with (Scan.skip_ws (String c (t' ++ tab ++ r))).
  cbn [Scan.skip_ws]. rewrite Hc.
  change (String c (t' ++ tab ++ r)) with (String c t' ++ String "009" r)%string.
  rewrite take_while_all; [done|by apply word_nonspace|done|done].
Qed.

Lemma show_long_head z :
  exists c r, Scan.show_long z = String c r /\ Scan.isspace c = false.
Proof.
  unfold Scan.show_long.
  assert (Hu : forall d, d <> Decimal.Nil ->
            exists c r, NilEmpty.string_of_uint d = String c r /\ Scan.isspace c = false).
  { intros d Hd. destruct d; try done; cbn; eauto. }
  assert (Hz : forall p, exists c r, NilZero.string_of_uint (Pos.to_uint p) = String c r
                                     /\ Scan.isspace c = false).
  { intros p. pose proof (DecimalPos.Unsigned.to_uint_nonnil p) as Hn.
    unfold NilZero.string_of_uint. destruct (Pos.to_uint p) eqn:Hp; try done; cbn; eauto. }
  destruct z as [|p|p]; cbn.
  - eauto.
  - apply Hz.
  - eauto.
Qed.

Lemma conv_d_show_long z rest :
  in_int z -> no_digit_head rest ->
  Scan.conv_d (Scan.show_long z ++ rest) = Some (z, rest).
Proof.
  intros Hz Hr. unfold Scan.conv_d.
  rewrite conv_ld_show_long by (done || unfold in_int, INT_MIN, INT_MAX, LONG_MIN, LONG_MAX in *; lia).
  by rewrite int_wrap_id.
Qed.

Lemma skip_ws_tab_show z rest :
  Scan.skip_ws (tab ++ Scan.show_long z ++ rest) = (Scan.show_long z ++ rest)%string.
Proof.
  destruct (show_long_head z) as (c & r & Hs & Hc). rewrite Hs.
  change (Scan.skip_ws (String c (r ++ rest)) = String c (r ++ rest)).
  cbn [Scan.skip_ws]. by rewrite Hc.
Qed.

(** The first two fields of a [FAMILY] line that [write_family] wrote. *)
Lemma sscanf_family_head id m rest :
  word id -> (String.length id <= 255)%nat -> in_int m ->
  Scan.sscanf [Scan.Conv_s 255; Scan.Ws; Scan.Conv_d; Scan.Ws; Scan.Conv_set_not "010" 4095]
    (tab ++ id ++ tab ++ Scan.show_long m ++ tab ++ rest)
  = match Scan.conv_set_not "010" 4095 (Scan.skip_ws rest) with
    | Some (t, r) => ([Scan.VStr id; Scan.VInt m; Scan.VStr t], r)
    | None => ([Scan.VStr id; Scan.VInt m], Scan.skip_ws (tab ++ rest))
    end.
Proof.
  intros Hw Hlen Hm. cbn [Scan.sscanf].
  rewrite conv_s_word by done. rewrite skip_ws_tab_show.
  rewrite conv_d_show_long by done.
  change (Scan.skip_ws (tab ++ rest)) with (Scan.skip_ws rest).
  by destruct (Scan.conv_set_not "010" 4095 (Scan.skip_ws rest)) as [[t r]|].
Qed.

Lemma rc_after_tag_family f rc :
  rc_line (rc_after_tag TAG_FAMILY (write_family f) rc)
  = (tab ++ family_id f ++ tab ++ Scan.show_long (int_wrap (method f)) ++ tab
     ++ String.concat ";" (member_paths f) ++ newline)%string.
Proof. reflexivity. Qed.

Lemma int_wrap_in_int z : in_int (int_wrap z).
Proof.
  unfold in_int, int_wrap, INT_MIN, INT_MAX.
  pose proof (Z.mod_pos_bound (z + 2 ^ 31) (2 ^ 32) ltac:(lia)). lia.
Qed.

Lemma read_lines_family f lineno rc w :
  rc_failed rc = false -> int_add lineno 1 <> 1 ->
  read_lines E [write_family f] lineno rc w
  = let '(rc', w') := read_family E (rc_after_tag TAG_FAMILY (write_family f) rc) w in
    Some (false, int_add lineno 1, rc', w').
Proof.
  intros Hrc Hl. cbn [read_lines]. rewrite Hrc.
  change (Scan.sscanf [Scan.Conv_s 31] (write_family f))
    with ([Scan.VStr TAG_FAMILY],
          (tab ++ family_id f ++ tab ++ Scan.show_long (int_wrap (method f)) ++ tab
            ++ String.concat ";" (member_paths f) ++ newline)%string).
  cbv beta iota. unfold read_record.
  apply Z.eqb_neq in Hl. rewrite Hl.
  change (String.eqb TAG_FAMILY TAG_PRELOAD) with false.
  change (String.eqb TAG_FAMILY TAG_MAP) with false.
  change (String.eqb TAG_FAMILY TAG_BADEXE) with false.
  change (String.eqb TAG_FAMILY TAG_EXE) with false.
  change (String.eqb TAG_FAMILY TAG_EXEMAP) with false.
  change (String.eqb TAG_FAMILY TAG_MARKOV) with false.
  change (String.eqb TAG_FAMILY TAG_FAMILY) with true.
  cbn [andb negb]. cbv iota.
  fold (rc_after_tag TAG_FAMILY (write_family f) rc).
  by destruct (read_family E (rc_after_tag TAG_FAMILY (write_family f) rc) w) as [rc' w'].
Qed.

(** X16. A family without members does not survive a save: the line that
    [write_family] writes for it has an empty member field, and the reader
    turns the line down as a syntax error, the state untouched (and
    [read_state] then gives up the file). *)
Theorem write_family_without_members f lineno rc w :
  rc_failed rc = false -> int_add lineno 1 <> 1 ->
  word (family_id f) -> (String.length (family_id f) <= 255)%nat ->
  member_paths f = [] ->
  exists rc',
    read_lines E [write_family f] lineno rc w = Some (false, int_add lineno 1, rc', w)
    /\ rc_errmsg rc' = Some READ_SYNTAX_ERROR.
Proof.
  intros Hrc Hl Hw Hlen Hm. rewrite read_lines_family by done.
  unfold read_family. rewrite rc_after_tag_family, Hm.
  rewrite sscanf_family_head by (done || apply int_wrap_in_int). cbn. eauto.
Qed.

(** *** The member field *)


Lemma string_forallb_impl (p q : ascii -> bool) s :
  (forall c, p c = true -> q c = true) -> string_forallb p s = true -> string_forallb q s = true.
Proof.
  intros Hpq. induction s as [|c s IH]; [done|]. cbn. intros H.
  apply andb_true_iff in H as [Hc Hs]. by rewrite (Hpq _ Hc), IH.
Qed.

Lemma member_path_no_semicolon m : member_path m -> string_forallb not_semicolon m = true.
Proof.
  intros [H _]. revert H. apply string_forallb_impl. intros c Hc.
  apply andb_true_iff in Hc as [Hc _]. by apply andb_true_iff in Hc as [Hc _].
Qed.

Lemma member_path_no_newline m : member_path m -> string_forallb not_newline m = true.
Proof.
  intros [H _]. revert H. apply string_forallb_impl. intros c Hc.
  apply andb_true_iff in Hc as [Hc _]. by apply andb_true_iff in Hc as [_ Hc].
Qed.

Lemma concat_cons_cons (d : string) m m' ms :
  String.concat d (m :: m' :: ms) = (m ++ d ++ String.concat d (m' :: ms))%string.
Proof. reflexivity. Qed.

Lemma concat_no_newline ms :
  Forall member_path ms -> string_forallb not_newline (String.concat ";" ms) = true.
Proof.
  induction ms as [|m ms IH]; [done|]. intros H. apply Forall_cons in H as [Hm Hms].
  destruct ms as [|m' ms]; [by apply member_path_no_newline|].
  rewrite concat_cons_cons, !string_forallb_app, member_path_no_newline, IH by done. done.
Qed.

Lemma concat_head m ms :
  member_path m -> exists c r, String.concat ";" (m :: ms) = String c r /\ Scan.isspace c = false.
Proof.
  intros (_ & c & r & -> & Hc). destruct ms as [|m' ms].
  - exists c, r. done.
  - rewrite concat_cons_cons. exists c, (r ++ ";" ++ String.concat ";" (m' :: ms))%string. done.
Qed.

Lemma conv_members m ms :
  Forall member_path (m :: ms) ->
  (String.length (String.concat ";" (m :: ms)) <= 4095)%nat ->
  Scan.conv_set_not "010" 4095 (Scan.skip_ws (String.concat ";" (m :: ms) ++ newline))
  = Some (String.concat ";" (m :: ms), newline).
Proof.
  intros Hms Hlen. pose proof (concat_no_newline _ Hms) as Hnl.
  apply Forall_cons in Hms as [Hm _]. destruct (concat_head m ms Hm) as (c & r & Hc & Hsp).
  rewrite Hc in *.
  change (Scan.skip_ws (String c r ++ newline)) with (Scan.skip_ws (String c (r ++ newline))).
  cbn [Scan.skip_ws]. rewrite Hsp. unfold Scan.conv_set_not.
  change (String c (r ++ newline)) with (String c r ++ String "010" EmptyString)%string.
  rewrite take_while_all; [done|exact Hnl|done|done].
Qed.

Lemma strtok_all_word d t : forall rest cur,
  string_forallb (fun c => negb (Ascii.eqb c d)) t = true ->
  strtok_all d (t ++ rest) cur = strtok_all d rest (rev (list_ascii_of_string t) ++ cur).
Proof.
  induction t as [|c t IH]; intros rest cur Ht; [done|].
  cbn in Ht. apply andb_true_iff in Ht as [Hc Ht]. apply negb_true_iff in Hc.
  change (String c t ++ rest)%string with (String c (t ++ rest)).
  cbn [strtok_all]. rewrite Hc, IH by done. cbn [list_ascii_of_string rev].
  by rewrite <- app_assoc.
Qed.

Lemma rev_string_nonempty c r cur :
  rev (list_ascii_of_string (String c r)) ++ cur <> [].
Proof.
  cbn. intros H. apply (f_equal length) in H. rewrite !length_app in H. cbn in H. lia.
Qed.

Lemma strtok_all_concat ms :
  Forall member_path ms -> strtok_all ";" (String.concat ";" ms) [] = ms.
Proof.
  induction ms as [|m ms IH]; [done|]. intros H. apply Forall_cons in H as [Hm Hms].
  pose proof (member_path_no_semicolon m Hm) as Hsc.
  destruct Hm as (_ & c & r & -> & _).
  assert (Hflush : string_of_list_ascii
            (rev (rev (list_ascii_of_string (String c r)) ++ [])) = String c r).
  { by rewrite app_nil_r, rev_involutive, string_of_list_ascii_of_string. }
  destruct ms as [|m' ms].
  - change (String.concat ";" [String c r]) with (String c r).
    rewrite <- (string_app_nil_r (String c r)) at 1.
    rewrite strtok_all_word by exact Hsc. cbn [strtok_all].
    destruct (rev (list_ascii_of_string (String c r)) ++ []) eqn:Hrev.
    + by apply rev_string_nonempty in Hrev.
    + by rewrite Hflush.
  - rewrite concat_cons_cons, strtok_all_word by exact Hsc.
    change (";" ++ String.concat ";" (m' :: ms))%string
      with (String ";" (String.concat ";" (m' :: ms))).
    cbn [strtok_all]. change (Ascii.eqb ";" ";") with true. cbv iota.
    rewrite IH by done.
    destruct (rev (list_ascii_of_string (String c r)) ++ []) eqn:Hrev.
    + by apply rev_string_nonempty in Hrev.
    + by rewrite Hflush.
Qed.


Lemma skip_spaces_member m : member_path m -> skip_spaces m = m /\ m <> EmptyString.
Proof.
  intros (_ & c & r & -> & Hc). split; [|done]. cbn.
  destruct (Ascii.eqb_spec c " ") as [->|]; [done|done].
Qed.

Lemma add_members_spec ms : forall f w,
  Forall member_path ms -> NoDup (member_paths f ++ ms) ->
  let '(f1, w1) := add_members (f, w) ms in
  family_id f1 = family_id f /\ method f1 = method f
  /\ member_paths f1 = member_paths f ++ ms
  /\ total_weighted_launches f1 = total_weighted_launches f
  /\ total_raw_launches f1 = total_raw_launches f /\ last_used f1 = last_used f
  /\ st_app_families (kp_state w1) = st_app_families (kp_state w)
  /\ (forall p, p ∈ ms -> st_exe_to_family (kp_state w1) !! p = Some (family_id f))
  /\ (forall p, p ∉ ms ->
        st_exe_to_family (kp_state w1) !! p = st_exe_to_family (kp_state w) !! p).
Proof.
  induction ms as [|m ms IH]; intros f w Hms Hnd.
  - cbn. rewrite app_nil_r. repeat split; try done. intros p Hp. by apply elem_of_nil in Hp.
  - apply Forall_cons in Hms as [Hm Hms].
    destruct (skip_spaces_member m Hm) as [Hsk Hne].
    unfold add_members. cbn [foldl]. rewrite Hsk.
    assert (Hin : m ∉ member_paths f).
    { apply NoDup_app in Hnd as (_ & Hd & _). intros Hi. apply (Hd m Hi). left. }
    assert (Hadd : kp_family_add_member f m w =
      ({| family_id := family_id f; member_paths := member_paths f ++ [m];
          method := method f; total_weighted_launches := total_weighted_launches f;
          total_raw_launches := total_raw_launches f; last_used := last_used f |},
       with_state (fun s =>
         set_st_families (st_app_families s)
           (<[m := family_id f]> (st_exe_to_family s)) s) w)).
    { unfold kp_family_add_member.
      destruct (existsb (String.eqb m) (member_paths f)) eqn:Hex; [|done].
      apply existsb_exists in Hex as (x & Hx & Heq). apply String.eqb_eq in Heq. subst x.
      exfalso. apply Hin. by apply list_elem_of_In. }
    destruct m as [|c r]; [done|]. cbn [fst snd]. rewrite Hadd.
    set (f' := {| family_id := family_id f |}). set (w' := with_state _ w).
    specialize (IH f' w' Hms). fold (add_members (f', w') ms).
    destruct (add_members (f', w') ms) as [f1 w1].
    assert (Hnd' : NoDup (member_paths f' ++ ms)).
    { subst f'. cbn. by rewrite <- app_assoc. }
    destruct (IH Hnd') as (H1 & H2 & H3 & H4 & H5 & H6 & H7 & H8 & H9).
    repeat split; try done.
    + rewrite H3. subst f'. cbn. by rewrite <- app_assoc.
    + intros p Hp. apply elem_of_cons in Hp as [->|Hp]; [|by apply H8].
      rewrite H9.
      * subst w'. cbn. by rewrite lookup_insert_eq.
      * apply NoDup_app in Hnd as (_ & _ & Hd). by apply NoDup_cons in Hd as [Hd _].
    + intros p Hp. apply not_elem_of_cons in Hp as [Hpm Hp]. rewrite H9 by done.
      subst w'. cbn. by rewrite lookup_insert_ne.
Qed.

(** X17. A family with members comes back from its line of the state file:
    [write_family] and then the reader give a family with the same id,
    method and members, in their order, registered under its id, and every
    member leads to it; its statistics start again at zero. The id has to
    be a word of at most 255 characters; the members have no [;] and no
    newline, no white space at their head, are distinct and, joined, at
    most 4095 characters long. *)
Theorem write_family_read_back f lineno rc w :
  rc_failed rc = false -> int_add lineno 1 <> 1 ->
  word (family_id f) -> (String.length (family_id f) <= 255)%nat ->
  member_paths f <> [] -> Forall member_path (member_paths f) -> NoDup (member_paths f) ->
  (String.length (String.concat ";" (member_paths f)) <= 4095)%nat ->
  exists rc' w',
    read_lines E [write_family f] lineno rc w = Some (false, int_add lineno 1, rc', w')
    /\ rc_failed rc' = false
    /\ kp_family_lookup (family_id f) w'
       = Some {| family_id := family_id f; member_paths := member_paths f;
                 method := int_wrap (method f); total_weighted_launches := fzero;
                 total_raw_launches := 0; last_used := 0 |}
    /\ (forall p, p ∈ member_paths f ->
          kp_family_lookup_by_exe p w' = Some (family_id f)).
Proof.
  intros Hrc Hl Hw Hlen Hne Hms Hnd Hcl. rewrite read_lines_family by done.
  unfold read_family. rewrite rc_after_tag_family.
  rewrite sscanf_family_head by (done || apply int_wrap_in_int).
  destruct (member_paths f) as [|m ms] eqn:Hmp; [done|].
  rewrite conv_members by done. cbn [fst length Nat.ltb Nat.leb].
  unfold Scan.store_str, Scan.store_int. cbn [lookup list_lookup].
  rewrite strtok_all_concat by done.
  set (f0 := kp_family_new _ _).
  pose proof (add_members_spec (m :: ms) f0 w Hms) as Hspec.
  unfold add_members in Hspec.
  destruct (foldl _ (f0, w) (m :: ms)) as [f1 w1].
  destruct (Hspec Hnd) as (H1 & H2 & H3 & H4 & H5 & H6 & H7 & H8 & H9).
  eexists _, _. split; [reflexivity|]. split; [|split].
  - unfold rc_failed, rc_after_tag in *. exact Hrc.
  - unfold kp_family_lookup. cbn. rewrite lookup_insert_eq. f_equal.
    destruct f1. cbn in *. by subst.
  - intros p Hp. unfold kp_family_lookup_by_exe. cbn. by apply H8.
Qed.

End FamilyProps.

Lemma write_family_without_members_witness :
  exists rc',
    read_lines sample_platform [write_family (kp_family_new "web" 0)] 1 rc_init world_init
    = Some (false, int_add 1 1, rc', world_init)
    /\ rc_errmsg rc' = Some READ_SYNTAX_ERROR.
Proof.
  apply (write_family_without_members sample_platform (kp_family_new "web" 0) 1 rc_init world_init).
  - reflexivity.
  - vm_compute. discriminate.
  - split; [discriminate|reflexivity].
  - cbn. lia.
  - reflexivity.
Defined.


Lemma write_family_read_back_witness :
  exists rc' w',
    read_lines sample_platform [write_family sample_family] 1 rc_init world_init
    = Some (false, int_add 1 1, rc', w')
    /\ rc_failed rc' = false
    /\ kp_family_lookup "web" w'
       = Some {| family_id := "web";
                 member_paths := ["/usr/bin/firefox"; "/usr/bin/firefox-esr"];
                 method := int_wrap 1; total_weighted_launches := fzero;
                 total_raw_launches := 0; last_used := 0 |}
    /\ (forall p, p ∈ ["/usr/bin/firefox"; "/usr/bin/firefox-esr"] ->
          kp_family_lookup_by_exe p w' = Some "web").
Proof.
  apply (write_family_read_back sample_platform sample_family 1 rc_init world_init).
  - reflexivity.
  - vm_compute. discriminate.
  - split; [discriminate|reflexivity].
  - cbn. lia.
  - discriminate.
  - repeat constructor; cbn; eauto.
  - apply NoDup_cons. split; [|apply NoDup_singleton].
    intros H. apply list_elem_of_singleton in H. discriminate.
  - apply Nat.leb_le. vm_compute. reflexivity.
Defined.

(** ** Manual apps *)

Section ManualAppsProps.
Context (E : platform).

Lemma register_manual_app_new w r p :
  st_exes (kp_state w) !! p = None -> fresh_ok w ->
  exists w1, register_manual_app E (w, r) p = Some (w1, int_add r 1)
  /\ st_exes (kp_state w1) = <[p := next_addr w]> (st_exes (kp_state w))
  /\ (exists e, exe_heap w1 = <[next_addr w := e]> (exe_heap w) /\ manual_exe E p e)
  /\ next_addr w1 = S (next_addr w)
  /\ map_heap w1 = map_heap w /\ markov_heap w1 = markov_heap w
  /\ st_maps (kp_state w1) = st_maps (kp_state w)
  /\ st_dirty (kp_state w1) = st_dirty (kp_state w)
  /\ fresh_ok w1.
Proof.
  intros Hp Hf. unfold register_manual_app. cbn [fst snd]. rewrite Hp.
  unfold kp_exe_new. cbn [foldl].
  erewrite kp_state_register_exe_new;
    [|cbn; apply lookup_insert_eq|cbn; exact Hp].
  eexists. split; [reflexivity|]. cbn.
  split_and!; try done.
  - eexists. split; [by rewrite insert_insert_eq|]. by repeat split.
  - intros a Ha. cbn in *. destruct (Hf a ltac:(lia)) as (H1 & H2 & H3).
    split_and!; try done. rewrite insert_insert_eq, lookup_insert_ne by lia. done.
Qed.

Lemma manual_loop_spec apps : forall w r,
  fresh_ok w -> 0 <= r -> r + Z.of_nat (length apps) <= INT_MAX ->
  exists w1 r1, fold_opt (register_manual_app E) apps (w, r) = Some (w1, r1)
  /\ (forall p, p ∈ apps -> tracked w1 p)
  /\ (forall p, p ∉ apps -> st_exes (kp_state w1) !! p = st_exes (kp_state w) !! p)
  /\ (forall p a, st_exes (kp_state w) !! p = Some a -> st_exes (kp_state w1) !! p = Some a)
  /\ (forall a, (a < next_addr w)%nat -> exe_heap w1 !! a = exe_heap w !! a)
  /\ (forall p, p ∈ apps -> st_exes (kp_state w) !! p = None ->
        exists a e, st_exes (kp_state w1) !! p = Some a /\ exe_heap w1 !! a = Some e
                    /\ manual_exe E p e /\ (next_addr w <= a)%nat)
  /\ map_heap w1 = map_heap w /\ markov_heap w1 = markov_heap w
  /\ st_maps (kp_state w1) = st_maps (kp_state w)
  /\ st_dirty (kp_state w1) = st_dirty (kp_state w)
  /\ fresh_ok w1 /\ (next_addr w <= next_addr w1)%nat
  /\ r <= r1 <= r + Z.of_nat (length apps)
  /\ (r < r1 <-> exists p, p ∈ apps /\ st_exes (kp_state w) !! p = None).
Proof.
  induction apps as [|p apps IH]; intros w r Hf Hr Hmax.
  - exists w, r. split; [done|]. cbn. split_and!; try done; try lia;
      try (intros q Hq; by apply elem_of_nil in Hq).
    split; [lia|]. intros (q & Hq & _). by apply elem_of_nil in Hq.
  - cbn [fold_opt]. cbn [length] in Hmax. rewrite Nat2Z.inj_succ in Hmax.
    destruct (st_exes (kp_state w) !! p) as [a0|] eqn:Hp.
    + (* already tracked *)
      assert (Hstep : register_manual_app E (w, r) p = Some (w, r)).
      { unfold register_manual_app. cbn [fst]. by rewrite Hp. }
      rewrite Hstep. specialize (IH w r Hf Hr ltac:(lia)).
      destruct IH as (w1 & r1 & Hfold & I1 & I2 & I3 & I4 & I5 & I6 & I7 & I8 & I9 & I10
                      & I11 & I12 & I13).
      exists w1, r1. split; [exact Hfold|].
      cbn [length]. rewrite Nat2Z.inj_succ.
      split_and!; try done; try lia.
      * intros q Hq. apply elem_of_cons in Hq as [->|Hq]; [|by apply I1].
        unfold tracked. by rewrite (I3 _ _ Hp).
      * intros q Hq. apply not_elem_of_cons in Hq as [_ Hq]. by apply I2.
      * intros q Hq Hn. apply elem_of_cons in Hq as [->|Hq]; [congruence|by apply I5].
      * split.
        { intros Hlt. apply I13 in Hlt as (q & Hq & Hn). exists q. split; [by right|done]. }
        intros (q & Hq & Hn). apply I13. apply elem_of_cons in Hq as [->|Hq]; [congruence|].
        by exists q.
    + (* a new exe *)
      destruct (register_manual_app_new w r p Hp Hf)
        as (w0 & -> & N2 & (e & N3 & Nm) & N4 & N5 & N6 & N7 & N8 & N9).
      assert (Hadd : int_add r 1 = r + 1).
      { unfold int_add. apply int_wrap_id. unfold in_int, INT_MIN, INT_MAX in *. lia. }
      rewrite Hadd. specialize (IH w0 (r + 1) N9 ltac:(lia) ltac:(lia)).
      destruct IH as (w1 & r1 & Hfold & I1 & I2 & I3 & I4 & I5 & I6 & I7 & I8 & I9 & I10
                      & I11 & I12 & I13).
      exists w1, r1. split; [exact Hfold|].
      assert (Hp0 : st_exes (kp_state w0) !! p = Some (next_addr w)).
      { by rewrite N2, lookup_insert_eq. }
      assert (He0 : exe_heap w1 !! next_addr w = Some e).
      { rewrite I4 by lia. by rewrite N3, lookup_insert_eq. }
      cbn [length]. rewrite Nat2Z.inj_succ.
      split_and!; try congruence; try lia.
      * intros q Hq. apply elem_of_cons in Hq as [->|Hq]; [|by apply I1].
        unfold tracked. by rewrite (I3 _ _ Hp0).
      * intros q Hq. apply not_elem_of_cons in Hq as [Hqp Hq].
        rewrite I2 by done. by rewrite N2, lookup_insert_ne.
      * intros q a Hq. apply I3. rewrite N2, lookup_insert_ne; [done|]. intros ->. congruence.
      * intros a Ha. rewrite I4 by lia. rewrite N3, lookup_insert_ne by lia. done.
      * intros q Hq Hn. destruct (decide (q = p)) as [->|Hne].
        { exists (next_addr w), e. by rewrite (I3 _ _ Hp0). }
        apply elem_of_cons in Hq as [->|Hq]; [done|].
        destruct (I5 q Hq) as (a & e' & Ha & He' & Hm & Hle).
        { by rewrite N2, lookup_insert_ne. }
        exists a, e'. split_and!; [done|done|done|lia].
      * exact I10.
      * split; [|intros _; lia]. intros _. exists p. split; [left|done].
Qed.

Lemma manual_loop_tracked apps : forall w r,
  (forall p, p ∈ apps -> tracked w p) ->
  fold_opt (register_manual_app E) apps (w, r) = Some (w, r).
Proof.
  induction apps as [|p apps IH]; intros w r Ht; [done|].
  cbn [fold_opt]. destruct (Ht p) as [a Ha]; [left|].
  assert (Hstep : register_manual_app E (w, r) p = Some (w, r)).
  { unfold register_manual_app. cbn [fst]. by rewrite Ha. }
  rewrite Hstep. apply IH. intros q Hq. apply Ht. by right.
Qed.

(** X18. [kp_state_register_manual_apps] tracks every configured path:
    after it each of them has an exe in [kp_state->exes]. The exes that
    were tracked before keep their entries and stay as they are; a path
    that was not tracked gets an exe without maps and markovs that has
    never run, and whose pool nobody assigns; no other path gets an entry.
    The maps and the markovs are left alone, and the state is marked dirty
    exactly when some configured path was not tracked, so a second call
    changes nothing. *)
Theorem kp_state_register_manual_apps_spec apps count w :
  fresh_ok w -> count <> 0 -> Z.of_nat (length apps) <= INT_MAX ->
  exists w', kp_state_register_manual_apps E (Some apps) count w = Some w' /\
  (forall p, p ∈ apps -> tracked w' p)
  /\ (forall p, p ∉ apps -> st_exes (kp_state w') !! p = st_exes (kp_state w) !! p)
  /\ (forall p a, st_exes (kp_state w) !! p = Some a ->
        st_exes (kp_state w') !! p = Some a
        /\ ((a < next_addr w)%nat -> exe_heap w' !! a = exe_heap w !! a))
  /\ (forall p, p ∈ apps -> ~ tracked w p ->
        exists a e, st_exes (kp_state w') !! p = Some a /\ exe_heap w' !! a = Some e
                    /\ manual_exe E p e)
  /\ map_heap w' = map_heap w /\ markov_heap w' = markov_heap w
  /\ st_maps (kp_state w') = st_maps (kp_state w)
  /\ (st_dirty (kp_state w') = true
      <-> st_dirty (kp_state w) = true \/ exists p, p ∈ apps /\ ~ tracked w p)
  /\ kp_state_register_manual_apps E (Some apps) count w' = Some w'.
Proof.
  intros Hf Hc Hmax. unfold kp_state_register_manual_apps.
  apply Z.eqb_neq in Hc. rewrite Hc.
  destruct (manual_loop_spec apps w 0 Hf ltac:(lia) ltac:(lia))
    as (w1 & r1 & Hfold & I1 & I2 & I3 & I4 & I5 & I6 & I7 & I8 & I9 & I10 & I11 & I12 & I13).
  rewrite Hfold.
  assert (Hnone : forall p, ~ tracked w p <-> st_exes (kp_state w) !! p = None).
  { intros p. unfold tracked. by rewrite eq_None_not_Some. }
  set (w' := if 0 <? r1 then with_state (set_st_dirty true) w1 else w1).
  assert (Hex : st_exes (kp_state w') = st_exes (kp_state w1)).
  { subst w'. by destruct (0 <? r1). }
  assert (Hheap : exe_heap w' = exe_heap w1 /\ map_heap w' = map_heap w1
                  /\ markov_heap w' = markov_heap w1
                  /\ st_maps (kp_state w') = st_maps (kp_state w1)).
  { subst w'. by destruct (0 <? r1). }
  destruct Hheap as (H1 & H2 & H3 & H4).
  assert (Htr : forall p, p ∈ apps -> tracked w' p).
  { intros p Hp. unfold tracked. rewrite Hex. by apply I1. }
  exists w'. split; [done|]. split_and!.
  - exact Htr.
  - intros p Hp. rewrite Hex. by apply I2.
  - intros p a Ha. rewrite Hex, H1. split; [by apply I3|]. intros Hlt. by apply I4.
  - intros p Hp Hn. apply Hnone in Hn. destruct (I5 p Hp Hn) as (a & e & Ha & He & Hm & _).
    exists a, e. by rewrite Hex, H1.
  - congruence.
  - congruence.
  - congruence.
  - subst w'. destruct (0 <? r1) eqn:Hr.
    + apply Z.ltb_lt in Hr. apply I13 in Hr as (p & Hp & Hn). cbn. split; [|done].
      intros _. right. exists p. split; [done|]. by apply Hnone.
    + apply Z.ltb_ge in Hr. rewrite I9. split; [by left|]. intros [Hd|(p & Hp & Hn)]; [done|].
      exfalso. apply Hnone in Hn. assert (0 < r1); [|lia]. apply I13. by exists p.
  - rewrite (manual_loop_tracked apps w' 0 Htr). cbn. done.
Qed.

End ManualAppsProps.

Lemma kp_state_register_manual_apps_spec_witness :
  exists w', kp_state_register_manual_apps sample_platform (Some sample_apps) 3 world_init
             = Some w' /\
  (forall p, p ∈ sample_apps -> tracked w' p)
  /\ (forall p, p ∉ sample_apps ->
        st_exes (kp_state w') !! p = st_exes (kp_state world_init) !! p)
  /\ (forall p a, st_exes (kp_state world_init) !! p = Some a ->
        st_exes (kp_state w') !! p = Some a
        /\ ((a < next_addr world_init)%nat -> exe_heap w' !! a = exe_heap world_init !! a))
  /\ (forall p, p ∈ sample_apps -> ~ tracked world_init p ->
        exists a e, st_exes (kp_state w') !! p = Some a /\ exe_heap w' !! a = Some e
                    /\ manual_exe sample_platform p e)
  /\ map_heap w' = map_heap world_init /\ markov_heap w' = markov_heap world_init
  /\ st_maps (kp_state w') = st_maps (kp_state world_init)
  /\ (st_dirty (kp_state w') = true
      <-> st_dirty (kp_state world_init) = true
          \/ exists p, p ∈ sample_apps /\ ~ tracked world_init p)
  /\ kp_state_register_manual_apps sample_platform (Some sample_apps) 3 w' = Some w'.
Proof.
  apply (kp_state_register_manual_apps_spec sample_platform sample_apps 3 world_init).
  - intros a _. done.
  - discriminate.
  - unfold INT_MAX. cbn. lia.
Defined.

(** ** Writing and reading a map *)

Section MapRoundTrip.
Context (E : platform).

Lemma conv_s_word_end w t :
  word t -> (String.length t <= w)%nat ->
  Scan.conv_s w (t ++ newline) = Some (t, newline).
Proof.
  intros Hw Hlen. destruct (word_head t Hw) as (c & t' & -> & Hc). unfold Scan.conv_s.
  change (Scan.skip_ws (String c t' ++ newline)) with (Scan.skip_ws (String c (t' ++ newline))).
  cbn [Scan.skip_ws]. rewrite Hc.
  change (String c (t' ++ newline)) with (String c t' ++ String "010" EmptyString)%string.
  rewrite take_while_all; [done|by apply word_nonspace|done|done].
Qed.

Lemma show_ulong_head n :
  exists c r, show_ulong n = String c r /\ Scan.isspace c = false.
Proof.
  unfold show_ulong, NilZero.string_of_uint.
  pose proof (to_uint_nonnil (Z.to_N n)) as Hn.
  destruct (N.to_uint (Z.to_N n)); try done; cbn; eauto.
Qed.

Lemma conv_lu_show_ulong n rest :
  in_ulong n -> no_digit_head rest ->
  Scan.conv_lu (show_ulong n ++ rest) = Some (n, rest).
Proof.
  intros [Hn Hmax] Hr. unfold Scan.conv_lu. rewrite show_ulong_eq.
  rewrite scan_decimal_uint by (done || apply to_uint_nonnil).
  rewrite uint_acc_to_uint, Z2N.id by done.
  destruct (ULONG_MAX <? n) eqn:Hlt; [apply Z.ltb_lt in Hlt; lia|done].
Qed.

Lemma skip_ws_show_long z rest :
  Scan.skip_ws (Scan.show_long z ++ rest) = (Scan.show_long z ++ rest)%string.
Proof.
  destruct (show_long_head z) as (c & r & Hs & Hc). rewrite Hs.
  change (Scan.skip_ws (String c (r ++ rest)) = String c (r ++ rest)).
  cbn [Scan.skip_ws]. by rewrite Hc.
Qed.

Lemma skip_ws_show_ulong n rest :
  Scan.skip_ws (show_ulong n ++ rest) = (show_ulong n ++ rest)%string.
Proof.
  destruct (show_ulong_head n) as (c & r & Hs & Hc). rewrite Hs.
  change (Scan.skip_ws (String c (r ++ rest)) = String c (r ++ rest)).
  cbn [Scan.skip_ws]. by rewrite Hc.
Qed.

Lemma sscanf_d_field fmt z r :
  in_int z ->
  Scan.sscanf (Scan.Conv_d :: Scan.Ws :: fmt) (Scan.show_long z ++ tab ++ r)
  = let '(vs, r') := Scan.sscanf fmt (Scan.skip_ws r) in (Scan.VInt z :: vs, r').
Proof. intros Hz. rewrite sscanf_d, conv_d_show_long by done. done. Qed.

Lemma sscanf_lu_field fmt n r :
  in_ulong n ->
  Scan.sscanf (Scan.Conv_lu :: Scan.Ws :: fmt) (show_ulong n ++ tab ++ r)
  = let '(vs, r') := Scan.sscanf fmt (Scan.skip_ws r) in (Scan.VULong n :: vs, r').
Proof. intros Hn. cbn [Scan.sscanf]. rewrite conv_lu_show_ulong by done. done. Qed.

Lemma sscanf_d_tab fmt s :
  Scan.sscanf (Scan.Conv_d :: fmt) (tab ++ s) = 
  match Scan.conv_d s with
  | Some (z, r) => let '(vs, r') := Scan.sscanf fmt r in (Scan.VInt z :: vs, r')
  | None => ([], (tab ++ s)%string)
  end.
Proof. reflexivity. Qed.

(** The fields of a [MAP] line that [write_map] wrote. *)
Lemma sscanf_map_line i ut off len uri :
  in_int i -> in_int ut -> in_ulong off -> in_ulong len ->
  word uri -> (String.length uri <= FILELENSTR E)%nat ->
  (Scan.sscanf (fmt_map E)
     (tab ++ Scan.show_long i ++ tab ++ Scan.show_long ut ++ tab
      ++ show_ulong off ++ tab ++ show_ulong len ++ tab
      ++ Scan.show_long (-1) ++ tab ++ uri ++ newline)).1
  = [Scan.VInt i; Scan.VInt ut; Scan.VULong off; Scan.VULong len; Scan.VInt (-1);
     Scan.VStr uri].
Proof.
  intros Hi Hut Hoff Hlen Hw Hl. unfold fmt_map.
  rewrite sscanf_d_tab, conv_d_show_long by done.
  cbn [Scan.sscanf]. rewrite skip_ws_tab_show.
  rewrite conv_d_show_long by done.
  change (Scan.skip_ws (tab ++ ?x)) with (Scan.skip_ws x).
  rewrite skip_ws_show_ulong, conv_lu_show_ulong by done.
  change (Scan.skip_ws (tab ++ show_ulong len ++ ?x)) with (Scan.skip_ws (show_ulong len ++ x)).
  rewrite skip_ws_show_ulong, conv_lu_show_ulong by done.
  rewrite skip_ws_tab_show, conv_d_show_long by done.
  destruct (word_head uri Hw) as (c & u' & Hu & Hc).
  assert (Hsk : Scan.skip_ws (tab ++ uri ++ newline) = (uri ++ newline)%string).
  { rewrite Hu. change (Scan.skip_ws (String c (u' ++ newline)) = String c (u' ++ newline)).
    cbn [Scan.skip_ws]. by rewrite Hc. }
  rewrite Hsk, conv_s_word_end by done. done.
Qed.

Lemma read_lines_map body lineno rc w :
  rc_failed rc = false -> int_add lineno 1 <> 1 ->
  read_lines E [(TAG_MAP ++ tab ++ body)%string] lineno rc w
  = let '(rc', w') := read_map E (rc_after_tag TAG_MAP (TAG_MAP ++ tab ++ body) rc) w in
    Some (false, int_add lineno 1, rc', w').
Proof.
  intros Hrc Hl. cbn [read_lines]. rewrite Hrc.
  change (Scan.sscanf [Scan.Conv_s 31] (TAG_MAP ++ tab ++ body))
    with ([Scan.VStr TAG_MAP], (tab ++ body)%string).
  cbv beta iota. unfold read_record.
  apply Z.eqb_neq in Hl. rewrite Hl.
  change (String.eqb TAG_MAP TAG_PRELOAD) with false.
  change (String.eqb TAG_MAP TAG_MAP) with true.
  cbn [andb negb]. cbv iota.
  fold (rc_after_tag TAG_MAP (TAG_MAP ++ tab ++ body) rc).
  by destruct (read_map E (rc_after_tag TAG_MAP (TAG_MAP ++ tab ++ body) rc) w) as [rc' w'].
Qed.

(** X19. A map comes back from the line [write_map] writes for it. When
    the URI of its path is a word that fits the buffer and names the path
    again, the index of the line is free and no map with the same path,
    offset and length is registered, the reader creates and registers a
    map with the same path, offset, length and update time. Its sequence
    number is not the one of the line but the next one of the state, and
    it has one reference, the one of the reader's table, where it stands
    under the index of the line. *)
Theorem write_map_read_back to_uri m uri line lineno rc w :
  write_map to_uri m = Some line ->
  to_uri (m_path m) = Some uri -> g_filename_from_uri E uri = Some (m_path m) ->
  word uri -> (String.length uri <= FILELENSTR E)%nat ->
  in_int (m_seq m) -> in_int (m_update_time m) ->
  in_ulong (m_offset m) -> in_ulong (m_length m) ->
  rc_failed rc = false -> int_add lineno 1 <> 1 ->
  rc_maps rc !! m_seq m = None -> st_maps (kp_state w) !! map_key m = None ->
  exists rc' w' a,
    read_lines E [line] lineno rc w = Some (false, int_add lineno 1, rc', w')
    /\ rc_failed rc' = false
    /\ rc_maps rc' = <[m_seq m := a]> (rc_maps rc)
    /\ st_maps (kp_state w') = <[map_key m := a]> (st_maps (kp_state w))
    /\ map_heap w' !! a
       = Some {| m_path := m_path m; m_offset := m_offset m; m_length := m_length m;
                 m_refcount := 1; m_update_time := m_update_time m; m_block := -1;
                 m_seq := int_add (st_map_seq (kp_state w)) 1 |}.
Proof.
  intros Hline Huri Hback Hw Hlen Hseq Hut Hoff Hln Hrc Hl Hidx Hkey.
  unfold write_map in Hline. rewrite Huri in Hline. injection Hline as <-.
  assert (Hwrap : forall z, in_ulong z -> ulong_wrap (long_wrap z) = z).
  { intros z [Hz Hmax]. unfold ulong_wrap, long_wrap, ULONG_MAX in *.
    rewrite Zminus_mod_idemp_l. replace (z + 2 ^ 63 - 2 ^ 63) with z by lia.
    apply Z.mod_small. lia. }
  rewrite !Hwrap by done. rewrite read_lines_map by done.
  unfold read_map.
  assert (Hln' : rc_line (rc_after_tag TAG_MAP
            (TAG_MAP ++ tab ++ Scan.show_long (m_seq m) ++ tab
             ++ Scan.show_long (m_update_time m) ++ tab ++ show_ulong (m_offset m) ++ tab
             ++ show_ulong (m_length m) ++ tab ++ Scan.show_long (-1) ++ tab ++ uri
             ++ newline) rc)
          = (tab ++ Scan.show_long (m_seq m) ++ tab
             ++ Scan.show_long (m_update_time m) ++ tab ++ show_ulong (m_offset m) ++ tab
             ++ show_ulong (m_length m) ++ tab ++ Scan.show_long (-1) ++ tab ++ uri
             ++ newline)%string) by reflexivity.
  rewrite Hln', sscanf_map_line by done. clear Hln'.
  cbn [length Nat.ltb Nat.leb]. unfold Scan.store_str, Scan.store_int. cbn [lookup list_lookup].
  cbn [rc_filebuf set_rc_filebuf]. rewrite Hback.
  set (rc1 := set_rc_filebuf uri _).
  assert (Hrc1 : rc_maps rc1 = rc_maps rc /\ rc_failed rc1 = false) by done.
  destruct Hrc1 as [Hm1 Hf1]. clearbody rc1.
  unfold kp_map_new. rewrite Hm1. cbn [bool_decide].
  rewrite (bool_decide_eq_false_2 (is_Some (rc_maps rc !! m_seq m)))
    by (rewrite Hidx; by intros [? ?]).
  unfold map_key in Hkey. cbn [kp_state bump with_maps].
  rewrite (bool_decide_eq_false_2 (is_Some (st_maps (kp_state w) !! _)))
    by (rewrite Hkey; by intros [? ?]).
  unfold kp_map_ref. cbn [map_heap with_maps bump].
  rewrite lookup_alter_eq, lookup_insert_eq. cbn [fmap option_fmap option_map].
  cbn [m_refcount set_map_update_time]. change (0 =? 0) with true. cbv iota.
  unfold kp_state_register_map. cbn [map_heap with_maps bump].
  rewrite lookup_alter_eq, lookup_insert_eq. cbn [fmap option_fmap option_map].
  unfold map_key. cbn. rewrite Hkey. cbn.
  eexists _, _, (next_addr w). split; [reflexivity|]. cbn.
  split_and!; try done.
  rewrite lookup_alter_eq, lookup_insert_eq. done.
Qed.

End MapRoundTrip.

Lemma write_map_read_back_witness :
  exists rc' w' a,
    read_lines sample_platform [sample_map_line] 1 rc_init world_init
    = Some (false, int_add 1 1, rc', w')
    /\ rc_failed rc' = false
    /\ rc_maps rc' = <[m_seq sample_map := a]> (rc_maps rc_init)
    /\ st_maps (kp_state w') = <[map_key sample_map := a]> (st_maps (kp_state world_init))
    /\ map_heap w' !! a
       = Some {| m_path := m_path sample_map; m_offset := m_offset sample_map;
                 m_length := m_length sample_map;
                 m_refcount := 1; m_update_time := m_update_time sample_map; m_block := -1;
                 m_seq := int_add (st_map_seq (kp_state world_init)) 1 |}.
Proof.
  apply (write_map_read_back sample_platform sample_to_uri sample_map
           "file:///lib/libc.so" sample_map_line 1 rc_init world_init).
  - reflexivity.
  - reflexivity.
  - reflexivity.
  - split; [discriminate|reflexivity].
  - cbn. lia.
  - unfold in_int, INT_MIN, INT_MAX. cbn. lia.
  - unfold in_int, INT_MIN, INT_MAX. cbn. lia.
  - unfold in_ulong, ULONG_MAX. cbn. lia.
  - unfold in_ulong, ULONG_MAX. cbn. lia.
  - reflexivity.
  - vm_compute. discriminate.
  - reflexivity.
  - reflexivity.
Defined.

(** ** preheat-ctl: export *)

Lemma is_digit_plain c :
  is_digit c = true -> Scan.isspace c = false /\ c <> "000"%char.
Proof.
  unfold is_digit. intros H. apply bool_decide_eq_true in H as [d Hd].
  unfold Scan.digit_val in Hd.
  destruct ((48 <=? Z.of_nat (nat_of_ascii c)) && (Z.of_nat (nat_of_ascii c) <=? 57)) eqn:Hr;
    [|done].
  apply andb_true_iff in Hr as [H1 H2]. apply Z.leb_le in H1, H2.
  split.
  - unfold Scan.isspace. cbv zeta. apply orb_false_iff. split.
    + apply Nat.eqb_neq. lia.
    + apply andb_false_iff. right. apply Nat.leb_gt. lia.
  - intros ->. change (nat_of_ascii "000") with 0%nat in H1. lia.
Qed.

Lemma digits_word s :
  s <> EmptyString ->
  Forall (fun c => is_digit c = true) (list_ascii_of_string s) -> word s.
Proof.
  intros Hne Hd. split; [done|]. clear Hne.
  induction s as [|c s IH]; [done|]. cbn in Hd. apply Forall_cons in Hd as [Hc Hs].
  cbn. destruct (is_digit_plain c Hc) as [H1 H2]. rewrite H1, IH by done.
  by destruct (Ascii.eqb_spec c "000").
Qed.

Lemma show_ulong_word n : word (show_ulong n).
Proof.
  apply digits_word; [|apply show_ulong_digits].
  destruct (show_ulong_head n) as (c & r & -> & _). done.
Qed.

Lemma show_long_word z : word (Scan.show_long z).
Proof.
  unfold Scan.show_long. destruct z as [|p|p]; cbn [Z.to_int NilZero.string_of_int].
  - apply (show_ulong_word 0).
  - apply (show_ulong_word (Z.pos p)).
  - pose proof (show_ulong_word (Z.pos p)) as [Hne Hw]. split; [done|].
    change (NilZero.string_of_uint (Pos.to_uint p)) with (show_ulong (Z.pos p)).
    cbn. exact Hw.
Qed.

Lemma show_ulong_short n : 0 <= n <= ULONG_MAX -> (String.length (show_ulong n) <= 20)%nat.
Proof.
  intros [H0 Hmax]. rewrite show_ulong_length.
  destruct (Z.to_N n) as [|p] eqn:Hn; [cbn; lia|].
  pose proof (nb_digits_value (N.pos p) ltac:(lia)) as Hv.
  rewrite <- Hn, Z2N.id in Hv by done. rewrite <- Hn.
  set (k := Decimal.nb_digits (N.to_uint (Z.to_N n))) in *.
  destruct (decide (k <= 20)%nat) as [|Hk]; [done|]. exfalso.
  assert (10 ^ 20 <= 10 ^ (Z.of_nat k - 1)) by (apply Z.pow_le_mono_r; lia).
  unfold ULONG_MAX in Hmax. lia.
Qed.

Lemma show_long_short z : in_int z -> (String.length (Scan.show_long z) <= 21)%nat.
Proof.
  intros Hz. unfold in_int, INT_MIN, INT_MAX in Hz. unfold Scan.show_long.
  destruct z as [|p|p]; cbn [Z.to_int NilZero.string_of_int].
  - apply (Nat.le_trans _ 20); [apply (show_ulong_short 0); unfold ULONG_MAX; lia|lia].
  - apply (Nat.le_trans _ 20); [apply (show_ulong_short (Z.pos p)); unfold ULONG_MAX; lia|lia].
  - change (NilZero.string_of_uint (Pos.to_uint p)) with (show_ulong (Z.pos p)).
    cbn [String.length]. pose proof (show_ulong_short (Z.pos p)). unfold ULONG_MAX in *. lia.
Qed.


Lemma join_entries_concat entries :
  join_entries true entries = String.concat ("," ++ newline) entries.
Proof.
  assert (H : forall r, join_entries false r
            = match r with
              | [] => EmptyString
              | _ => ("," ++ newline ++ String.concat ("," ++ newline) r)%string
              end).
  { induction r as [|e r IH]; [done|]. cbn [join_entries]. rewrite IH.
    destruct r as [|e' r]; [by rewrite string_app_nil_r|]. 
    rewrite concat_cons_cons. by rewrite !string_app_assoc. }
  destruct entries as [|e r]; [done|]. cbn [join_entries]. rewrite H.
  destruct r as [|e' r].
  - change (String.concat ("," ++ newline) [e]) with e. by rewrite string_app_nil_r.
  - rewrite concat_cons_cons. done.
Qed.

Lemma starts_with_snoc p c : forall l,
  starts_with p l = false -> string_contains c p = false ->
  starts_with p (l ++ String c EmptyString) = false.
Proof.
  induction p as [|a p IH]; intros l Hl Hc; [done|].
  cbn in Hc. apply orb_false_iff in Hc as [Hac Hc].
  destruct l as [|x l].
  - change (Ascii.eqb a c && starts_with p EmptyString = false). by rewrite Hac.
  - change (Ascii.eqb a x && starts_with p (l ++ String c EmptyString) = false).
    cbn in Hl. destruct (Ascii.eqb a x); [|done]. by apply IH.
Qed.

Lemma other_record_line l st : other_record l -> export_line st (l ++ newline) = st.
Proof.
  unfold other_record, export_line. intros H.
  pose proof (starts_with_snoc (TAG_EXE ++ tab) "010" l H eq_refl) as Hs.
  fold newline in Hs. by rewrite Hs.
Qed.

Lemma sscanf_export_prefix rest :
  Scan.sscanf fmt_export (TAG_EXE ++ tab ++ rest)
  = Scan.sscanf [Scan.Conv_d; Scan.Ws; Scan.Conv_d; Scan.Ws; Scan.Conv_d; Scan.Ws;
                 Scan.Conv_d; Scan.Ws; Scan.Conv_s 511] (Scan.skip_ws rest).
Proof. reflexivity. Qed.

Lemma conv_s_word_tab w t r :
  word t -> (String.length t <= w)%nat ->
  Scan.conv_s w (t ++ tab ++ r) = Some (t, (tab ++ r)%string).
Proof. intros Hw Hl. by rewrite <- (conv_s_word w t r). Qed.

(** The fields that [cmd_export] takes from an [EXE] line of [write_exe]:
    the fifth is the pool. *)
Lemma sscanf_export_exe i ut tm pool rest :
  in_int i -> in_int ut -> in_int tm -> in_int pool ->
  (Scan.sscanf fmt_export
     (TAG_EXE ++ tab ++ Scan.show_long i ++ tab ++ Scan.show_long ut ++ tab
      ++ Scan.show_long tm ++ tab ++ Scan.show_long (-1) ++ tab
      ++ Scan.show_long pool ++ tab ++ rest)).1
  = [Scan.VInt i; Scan.VInt ut; Scan.VInt tm; Scan.VInt (-1); Scan.VStr (Scan.show_long pool)].
Proof.
  intros Hi Hut Htm Hp. rewrite sscanf_export_prefix.
  rewrite skip_ws_show_long, sscanf_d_field by done.
  rewrite skip_ws_show_long, sscanf_d_field by done.
  rewrite skip_ws_show_long, sscanf_d_field by done.
  rewrite skip_ws_show_long, sscanf_d_field by done.
  rewrite skip_ws_show_long. cbn [Scan.sscanf].
  rewrite conv_s_word_tab; [done|apply show_long_word|].
  pose proof (show_long_short pool Hp). lia.
Qed.

Lemma export_line_exe to_uri show_f6 e l st :
  write_exe to_uri show_f6 e = Some (l ++ newline)%string -> text_line l ->
  in_int (e_seq e) -> in_int (e_update_time e) -> in_int (e_time e) ->
  export_line st (l ++ newline)
  = {| ex_text := (ex_text st ++ (if ex_first st then "" else "," ++ newline)
                   ++ export_entry (Scan.show_long (int_wrap (e_pool e))) (e_time e))%string;
       ex_first := false; ex_apps := int_add (ex_apps st) 1 |}.
Proof.
  intros Hw Ht Hi Hut Htm. unfold write_exe in Hw.
  destruct (to_uri (e_path e)) as [uri|]; [|done]. injection Hw as Hw.
  unfold export_line. rewrite c_str_text by done. rewrite <- Hw.
  change (starts_with (TAG_EXE ++ tab) (TAG_EXE ++ tab ++ ?x)) with true. cbv iota.
  rewrite sscanf_export_exe by (done || apply int_wrap_in_int). done.
Qed.

Lemma export_other_lines ls st :
  Forall other_record ls ->
  foldl export_line st (map (fun l => (l ++ newline)%string) ls) = st.
Proof.
  induction 1 as [|l ls Hl _ IH]; [done|]. cbn [map foldl]. by rewrite other_record_line.
Qed.

Lemma export_exe_lines to_uri show_f6 es : forall ls st,
  Forall2 (fun e l => write_exe to_uri show_f6 e = Some (l ++ newline)%string) es ls ->
  Forall text_line ls ->
  Forall (fun e => in_int (e_seq e) /\ in_int (e_update_time e) /\ in_int (e_time e)) es ->
  0 <= ex_apps st -> ex_apps st + Z.of_nat (length es) <= INT_MAX ->
  foldl export_line st (map (fun l => (l ++ newline)%string) ls)
  = {| ex_text := (ex_text st
                   ++ join_entries (ex_first st)
                        (map (fun e => export_entry (Scan.show_long (int_wrap (e_pool e)))
                                         (e_time e)) es))%string;
       ex_first := ex_first st && bool_decide (es = []);
       ex_apps := ex_apps st + Z.of_nat (length es) |}.
Proof.
  induction es as [|e es IH]; intros ls st H2 Ht Hi H0 Hmax.
  - apply Forall2_nil_inv_l in H2 as ->. cbn. rewrite string_app_nil_r, andb_true_r, Z.add_0_r.
    by destruct st.
  - apply Forall2_cons_inv_l in H2 as (l & ls' & Hw & H2 & ->).
    apply Forall_cons in Ht as [Hl Ht]. apply Forall_cons in Hi as [(Hs & Hu & Htm) Hi].
    cbn [map foldl]. rewrite (export_line_exe to_uri show_f6 e l st) by done.
    cbn [length] in Hmax. rewrite Nat2Z.inj_succ in Hmax.
    assert (Hadd : int_add (ex_apps st) 1 = ex_apps st + 1).
    { unfold int_add. apply int_wrap_id. unfold in_int, INT_MIN, INT_MAX in *. lia. }
    rewrite (IH ls') by (done || cbn; lia). cbn [ex_text ex_first ex_apps join_entries length].
    rewrite Hadd, Nat2Z.inj_succ, andb_false_r. f_equal; [|lia].
    by rewrite !string_app_assoc.
Qed.

(** X20. The export does not name the applications. In an [EXE] line of
    [write_exe] the fifth field is the pool and the path comes last, while
    [cmd_export] reads the fifth field as the path: for a state file with
    the lines of the exes [es] (between records of other kinds), the
    export file holds one entry for each exe, in their order, whose
    [path] is the number of the pool of the exe and whose [run_time] is
    its time, and the command answers 0. *)
Theorem cmd_export_path_is_pool filepath now to_uri show_f6 pre es ls post :
  Forall2 (fun e l => write_exe to_uri show_f6 e = Some (l ++ newline)%string) es ls ->
  Forall (fun l => text_line l /\ (String.length l < 1023)%nat) (pre ++ ls ++ post) ->
  Forall other_record (pre ++ post) ->
  Forall (fun e => in_int (e_seq e) /\ in_int (e_update_time e) /\ in_int (e_time e)) es ->
  Z.of_nat (length es) <= INT_MAX ->
  cmd_export filepath now (Some (file_of_lines (pre ++ ls ++ post))) true
  = (0,
     Some (default DEFAULT_EXPORT filepath,
           (export_header now
            ++ String.concat ("," ++ newline)
                 (map (fun e => export_entry (Scan.show_long (int_wrap (e_pool e))) (e_time e))
                      es)
            ++ export_footer)%string),
     ("Exported " ++ Scan.show_long (Z.of_nat (length es)) ++ " apps to "
      ++ default DEFAULT_EXPORT filepath ++ newline)%string).
Proof.
  intros H2 Hl Ho Hi Hmax. unfold cmd_export.
  rewrite fgets_all_lines by (done || apply file_of_lines_length).
  apply Forall_app in Ho as [Hpre Hpost].
  apply Forall_app in Hl as [_ Hl]. apply Forall_app in Hl as [Hl _].
  rewrite !map_app, !foldl_app. rewrite (export_other_lines pre) by done.
  assert (Ht : Forall text_line ls).
  { eapply Forall_impl; [exact Hl|]. by intros l [? _]. }
  rewrite (export_exe_lines to_uri show_f6 es ls) by (done || (cbn [ex_apps]; lia)).
  rewrite export_other_lines by done. cbn [ex_text ex_first ex_apps].
  rewrite join_entries_concat, Z.add_0_l. by rewrite !string_app_assoc.
Qed.

Lemma cmd_export_path_is_pool_witness :
  cmd_export None 1000
    (Some (file_of_lines ([String.concat tab ["PRELOAD"; "0.6.4"; "10"]] ++ [sample_exe_line]
                          ++ [String.concat tab ["CRC32"; "00000000"]]))) true
  = (0,
     Some (default DEFAULT_EXPORT None,
           (export_header 1000
            ++ String.concat ("," ++ newline)
                 (map (fun e => export_entry (Scan.show_long (int_wrap (e_pool e))) (e_time e))
                      [sample_exe])
            ++ export_footer)%string),
     ("Exported " ++ Scan.show_long (Z.of_nat (length [sample_exe])) ++ " apps to "
      ++ default DEFAULT_EXPORT None ++ newline)%string).
Proof.
  apply (cmd_export_path_is_pool None 1000 sample_to_uri sample_f6
           [String.concat tab ["PRELOAD"; "0.6.4"; "10"]] [sample_exe] [sample_exe_line]
           [String.concat tab ["CRC32"; "00000000"]]).
  - repeat constructor.
  - repeat constructor; cbn; lia.
  - repeat constructor.
  - repeat constructor; unfold in_int, INT_MIN, INT_MAX; cbn; lia.
  - unfold INT_MAX. cbn. lia.
Defined.

(** ** The blacklist after a failed [stat] *)

Lemma blacklist_reachable_filepath b :
  blacklist_reachable b -> is_Some (bl_filepath b).
Proof.
  induction 1 as [f|f b Hb IH].
  - unfold kp_blacklist_init, load_blacklist_file. destruct f; cbn; eauto.
    by destruct (foldl _ _ _).
  - destruct IH as [fp Hfp]. unfold kp_blacklist_reload. rewrite Hfp.
    destruct (match f with BlNoStat => false | _ => _ end); [by rewrite Hfp|].
    unfold load_blacklist_file. destruct f; cbn; eauto. by destruct (foldl _ _ _).
Qed.

(** X21. A reload that finds no file empties the table but keeps the
    modification time of the last load. When the file is back with that
    modification time, [kp_blacklist_reload] takes it for unchanged and
    does not read it: the table stays empty, whatever the file lists. *)
Theorem blacklist_lost_after_failed_stat basename b mtime content name :
  blacklist_reachable b -> bl_last_modified b = mtime ->
  let b' := kp_blacklist_reload (BlFile mtime content) (kp_blacklist_reload BlNoStat b) in
  bl_entries b' = Some ∅ /\ kp_blacklist_count b' = 0
  /\ kp_blacklist_contains basename b' name = false.
Proof.
  intros Hb Hm b'. subst b' mtime.
  destruct (blacklist_reachable_filepath b Hb) as [fp Hfp].
  assert (H1 : kp_blacklist_reload BlNoStat b
               = {| bl_entries := Some ∅; bl_filepath := Some fp;
                    bl_last_modified := bl_last_modified b; bl_count := 0 |}).
  { unfold kp_blacklist_reload. rewrite Hfp. cbn. by rewrite Hfp. }
  rewrite H1. unfold kp_blacklist_reload. cbn [bl_filepath bl_last_modified].
  rewrite Z.eqb_refl.
  cbn. split_and!; [done|done|]. destruct name as [name|]; [|done].
  destruct name as [|c s].
  - apply bool_decide_eq_false, not_elem_of_empty.
  - destruct (Ascii.eqb c "/"); apply bool_decide_eq_false, not_elem_of_empty.
Qed.

Lemma blacklist_lost_after_failed_stat_witness :
  let b' := kp_blacklist_reload (BlFile 1 ("nmap" ++ newline))
              (kp_blacklist_reload BlNoStat sample_blacklist) in
  bl_entries b' = Some ∅ /\ kp_blacklist_count b' = 0
  /\ kp_blacklist_contains (fun s => s) b' (Some "nmap"%string) = false.
Proof.
  apply (blacklist_lost_after_failed_stat (fun s => s) sample_blacklist 1
           ("nmap" ++ newline) (Some "nmap"%string)).
  - apply bl_reach_init.
  - reflexivity.
Defined.

(** ** The counters of a markov *)

Lemma markov_state_changed_weight m now new_state i j :
  markov_wf m -> 0 <= mk_state m < 4 -> 0 <= new_state < 4 ->
  0 <= i < 4 -> 0 <= j < 4 ->
  mk_change_timestamp m <> now -> mk_state m <> new_state ->
  in_int (weight_get (mk_weight m) (mk_state m) (mk_state m) + 1) ->
  in_int (weight_get (mk_weight m) (mk_state m) new_state + 1) ->
  weight_get (mk_weight (markov_state_changed now new_state m)) i j
  = weight_get (mk_weight m) i j
    + (if (i =? mk_state m) && ((j =? mk_state m) || (j =? new_state)) then 1 else 0).
Proof.
  intros [_ Hwf] Hs Hn Hi Hj Hts Hne Ho1 Ho2. unfold markov_state_changed.
  apply Z.eqb_neq in Hts, Hne. rewrite Hts, Hne. cbn [mk_weight].
  rewrite !weight_get_set by (done || by apply weight_set_wf).
  apply Z.eqb_neq in Hne.
  rewrite !Z.eqb_refl. cbn [andb]. replace (mk_state m =? new_state) with false
    by (symmetry; by apply Z.eqb_neq).
  unfold int_add. rewrite !int_wrap_id by done.
  destruct (Z.eqb_spec (mk_state m) i) as [<-|Hi'].
  - rewrite Z.eqb_refl. cbn [andb].
    destruct (Z.eqb_spec new_state j) as [<-|Hj'].
    + rewrite Z.eqb_refl, orb_true_r. done.
    + replace (j =? new_state) with false by (symmetry; apply Z.eqb_neq; lia).
      rewrite orb_false_r. destruct (Z.eqb_spec (mk_state m) j) as [<-|Hj2].
      * by rewrite Z.eqb_refl.
      * replace (j =? mk_state m) with false by (symmetry; apply Z.eqb_neq; lia). lia.
  - replace (i =? mk_state m) with false by (symmetry; apply Z.eqb_neq; lia).
    cbn [andb]. lia.
Qed.

Lemma departures_unfold wt s :
  departures wt s
  = (if 0 =? s then 0 else weight_get wt s 0) + (if 1 =? s then 0 else weight_get wt s 1)
    + (if 2 =? s then 0 else weight_get wt s 2) + (if 3 =? s then 0 else weight_get wt s 3).
Proof.
  unfold departures. cbn [foldr].
  destruct (0 =? s), (1 =? s), (2 =? s), (3 =? s); lia.
Qed.

Lemma counters_row_bound m s t :
  counters_ok m -> 0 <= s < 4 -> 0 <= t < 4 -> t <> s ->
  weight_get (mk_weight m) s t <= weight_get (mk_weight m) s s.
Proof.
  intros (_ & _ & Hpos & Hbal) Hs Ht Hne. rewrite (Hbal s Hs), departures_unfold.
  pose proof (Hpos s 0 Hs ltac:(lia)). pose proof (Hpos s 1 Hs ltac:(lia)).
  pose proof (Hpos s 2 Hs ltac:(lia)). pose proof (Hpos s 3 Hs ltac:(lia)).
  destruct (Z.eqb_spec 0 s), (Z.eqb_spec 1 s), (Z.eqb_spec 2 s), (Z.eqb_spec 3 s);
    try lia;
    (assert (Ht' : t = 0 \/ t = 1 \/ t = 2 \/ t = 3) by lia;
     destruct Ht' as [->|[->|[->| ->]]]; lia).
Qed.

Lemma markov_state_changed_wf m now new_state :
  markov_wf m -> markov_wf (markov_state_changed now new_state m).
Proof.
  intros [Hl Hw]. unfold markov_state_changed.
  destruct (mk_change_timestamp m =? now); [done|].
  destruct (mk_state m =? new_state); [done|].
  split; cbn.
  - by rewrite zinsert_length.
  - by do 2 apply weight_set_wf.
Qed.

(** X22. [kp_markov_state_changed] keeps the counters of a markov
    consistent: when no counter is negative and every [weight[s][s]] is
    the sum of the other counters of its row (the number of the
    transitions from [s], as in a markov that [kp_markov_new] has just
    initialised), the same holds after the call, and the state of the
    markov is the new one; the counters are taken below [INT_MAX]. *)
Theorem markov_counters_kept m now new_state :
  counters_ok m -> 0 <= new_state < 4 ->
  weight_get (mk_weight m) (mk_state m) (mk_state m) < INT_MAX ->
  counters_ok (markov_state_changed now new_state m).
Proof.
  intros Hok Hn Hmax. pose proof Hok as (Hwf & Hs & Hpos & Hbal).
  destruct (Z.eqb_spec (mk_change_timestamp m) now) as [Hts|Hts].
  { unfold markov_state_changed. rewrite (proj2 (Z.eqb_eq _ _) Hts). exact Hok. }
  destruct (Z.eqb_spec (mk_state m) new_state) as [Hst|Hst].
  { unfold markov_state_changed. rewrite (proj2 (Z.eqb_eq _ _) Hst).
    destruct (mk_change_timestamp m =? now); exact Hok. }
  pose proof (Hpos _ _ Hs Hs) as H0.
  pose proof (Hpos _ _ Hs Hn) as H1.
  pose proof (counters_row_bound m (mk_state m) new_state Hok Hs Hn ltac:(lia)) as Hle.
  assert (Ho1 : in_int (weight_get (mk_weight m) (mk_state m) (mk_state m) + 1)).
  { unfold in_int, INT_MIN, INT_MAX in *. lia. }
  assert (Ho2 : in_int (weight_get (mk_weight m) (mk_state m) new_state + 1)).
  { unfold in_int, INT_MIN, INT_MAX in *. lia. }
  assert (Hget : forall i j, 0 <= i < 4 -> 0 <= j < 4 ->
    weight_get (mk_weight (markov_state_changed now new_state m)) i j
    = weight_get (mk_weight m) i j
      + (if (i =? mk_state m) && ((j =? mk_state m) || (j =? new_state)) then 1 else 0)).
  { intros i j Hi Hj. by apply markov_state_changed_weight. }
  split; [|split; [|split]].
  - by apply markov_state_changed_wf.
  - unfold markov_state_changed. apply Z.eqb_neq in Hts, Hst. rewrite Hts, Hst. cbn. lia.
  - intros s t Hs' Ht'. rewrite Hget by done. pose proof (Hpos s t Hs' Ht').
    destruct (_ && _); lia.
  - intros s Hs'. rewrite departures_unfold, !Hget by lia.
    pose proof (Hbal s Hs') as Hb. rewrite departures_unfold in Hb.
    assert (Hs4 : s = 0 \/ s = 1 \/ s = 2 \/ s = 3) by lia.
    assert (Ho4 : mk_state m = 0 \/ mk_state m = 1 \/ mk_state m = 2 \/ mk_state m = 3) by lia.
    assert (Hn4 : new_state = 0 \/ new_state = 1 \/ new_state = 2 \/ new_state = 3) by lia.
    destruct Hs4 as [->|[->|[->| ->]]];
      destruct Ho4 as [Ho|[Ho|[Ho|Ho]]]; rewrite Ho in *;
      destruct Hn4 as [->|[->|[->| ->]]]; cbn in Hb |- *; lia.
Qed.

Lemma markov_counters_kept_witness :
  counters_ok (markov_state_changed 20 3 counted_markov).
Proof.
  apply (markov_counters_kept counted_markov 20 3).
  - split; [|split; [|split]].
    + split; [reflexivity|]. split; [reflexivity|]. repeat constructor.
    + cbn. lia.
    + intros s t Hs Ht.
      assert (Hs4 : s = 0 \/ s = 1 \/ s = 2 \/ s = 3) by lia.
      assert (Ht4 : t = 0 \/ t = 1 \/ t = 2 \/ t = 3) by lia.
      destruct Hs4 as [->|[->|[->| ->]]]; destruct Ht4 as [->|[->|[->| ->]]];
        apply Z.leb_le; reflexivity.
    + intros s Hs.
      assert (Hs4 : s = 0 \/ s = 1 \/ s = 2 \/ s = 3) by lia.
      destruct Hs4 as [->|[->|[->| ->]]]; reflexivity.
  - lia.
  - apply Z.ltb_lt. reflexivity.
Defined.

(** ** Writing and reading an exe *)

Section ExeRoundTrip.
Context (E : platform).

Lemma read_lines_exe body lineno rc w :
  rc_failed rc = false -> int_add lineno 1 <> 1 ->
  read_lines E [(TAG_EXE ++ tab ++ body)%string] lineno rc w
  = match read_exe E (rc_after_tag TAG_EXE (TAG_EXE ++ tab ++ body) rc) w with
    | Some (rc', w') => Some (false, int_add lineno 1, rc', w')
    | None => None
    end.
Proof.
  intros Hrc Hl. cbn [read_lines]. rewrite Hrc.
  change (Scan.sscanf [Scan.Conv_s 31] (TAG_EXE ++ tab ++ body))
    with ([Scan.VStr TAG_EXE], (tab ++ body)%string).
  cbv beta iota. unfold read_record.
  apply Z.eqb_neq in Hl. rewrite Hl.
  change (String.eqb TAG_EXE TAG_PRELOAD) with false.
  change (String.eqb TAG_EXE TAG_MAP) with false.
  change (String.eqb TAG_EXE TAG_BADEXE) with false.
  change (String.eqb TAG_EXE TAG_EXE) with true.
  cbn [andb negb]. cbv iota.
  fold (rc_after_tag TAG_EXE (TAG_EXE ++ tab ++ body) rc).
  by destruct (read_exe E (rc_after_tag TAG_EXE (TAG_EXE ++ tab ++ body) rc) w)
    as [[rc' w']|].
Qed.

Lemma conv_lf_skip_ws s : Scan.conv_lf (Scan.skip_ws s) = Scan.conv_lf s.
Proof. unfold Scan.conv_lf. by rewrite skip_ws_idem. Qed.

(** The nine fields of an [EXE] line that [write_exe] wrote. *)
Lemma sscanf_exe_line i ut tm pool wl f raw dur uri :
  in_int i -> in_int ut -> in_int tm -> in_int pool -> reads_as wl f ->
  in_ulong raw -> in_ulong dur ->
  word uri -> (String.length uri <= FILELENSTR E)%nat ->
  (Scan.sscanf (fmt_exe9 E)
     (tab ++ Scan.show_long i ++ tab ++ Scan.show_long ut ++ tab
      ++ Scan.show_long tm ++ tab ++ Scan.show_long (-1) ++ tab
      ++ Scan.show_long pool ++ tab ++ wl ++ tab
      ++ show_ulong raw ++ tab ++ show_ulong dur ++ tab ++ uri ++ newline)).1
  = [Scan.VInt i; Scan.VInt ut; Scan.VInt tm; Scan.VInt (-1); Scan.VInt pool;
     Scan.VDouble f; Scan.VULong raw; Scan.VULong dur; Scan.VStr uri].
Proof.
  intros Hi Hut Htm Hp Hf Hraw Hdur Hw Hl. unfold fmt_exe9.
  rewrite sscanf_d_tab, conv_d_show_long by done.
  cbn [Scan.sscanf]. rewrite skip_ws_tab_show, conv_d_show_long by done.
  rewrite skip_ws_tab_show, conv_d_show_long by done.
  rewrite skip_ws_tab_show, conv_d_show_long by done.
  rewrite skip_ws_tab_show, conv_d_show_long by done.
  rewrite conv_lf_skip_ws.
  change (Scan.conv_lf (tab ++ ?x)) with (Scan.conv_lf x). rewrite Hf.
  change (Scan.skip_ws (tab ++ ?x)) with (Scan.skip_ws x).
  rewrite skip_ws_show_ulong, conv_lu_show_ulong by done.
  change (Scan.skip_ws (tab ++ show_ulong dur ++ ?x)) with (Scan.skip_ws (show_ulong dur ++ x)).
  rewrite skip_ws_show_ulong, conv_lu_show_ulong by done.
  destruct (word_head uri Hw) as (c & u' & Hu & Hc).
  assert (Hsk : Scan.skip_ws (tab ++ uri ++ newline) = (uri ++ newline)%string).
  { rewrite Hu. change (Scan.skip_ws (String c (u' ++ newline)) = String c (u' ++ newline)).
    cbn [Scan.skip_ws]. by rewrite Hc. }
  rewrite Hsk, conv_s_word_end by done. done.
Qed.

(** X23. An exe comes back from the [EXE] line [write_exe] writes for
    it. When the URI of its path is a word that fits the buffer and names
    the path again, the index of the line is free and the path is not
    tracked, the reader registers an exe with the same path, time, update
    time, pool and launch counters; the weighted launches are what [%lf]
    reads from the six decimals that were printed. The sequence number is
    the next one of the state, the change timestamp and the running
    timestamp are -1, and the exe has no size, maps and markovs yet. *)
Theorem write_exe_read_back to_uri show_f6 e uri line f lineno rc w :
  write_exe to_uri show_f6 e = Some line ->
  to_uri (e_path e) = Some uri -> g_filename_from_uri E uri = Some (e_path e) ->
  word uri -> (String.length uri <= FILELENSTR E)%nat ->
  in_int (e_seq e) -> in_int (e_update_time e) -> in_int (e_time e) ->
  in_int (e_pool e) -> reads_as (show_f6 (e_weighted_launches e)) f ->
  in_ulong (e_raw_launches e) -> in_ulong (e_total_duration_sec e) ->
  rc_failed rc = false -> int_add lineno 1 <> 1 ->
  rc_exes rc !! e_seq e = None -> st_exes (kp_state w) !! e_path e = None ->
  exists rc' w' ea,
    read_lines E [line] lineno rc w = Some (false, int_add lineno 1, rc', w')
    /\ rc_failed rc' = false
    /\ rc_exes rc' = <[e_seq e := ea]> (rc_exes rc)
    /\ st_exes (kp_state w') = <[e_path e := ea]> (st_exes (kp_state w))
    /\ exe_heap w' !! ea
       = Some {| e_path := e_path e; e_seq := int_add (st_exe_seq (kp_state w)) 1;
                 e_size := 0; e_time := e_time e; e_update_time := e_update_time e;
                 e_change_timestamp := -1; e_running_timestamp := -1;
                 e_pool := e_pool e; e_weighted_launches := f;
                 e_raw_launches := e_raw_launches e;
                 e_total_duration_sec := e_total_duration_sec e;
                 e_running_pids := []; e_exemaps := []; e_markovs := [] |}.
Proof.
  intros Hline Huri Hback Hw Hlen Hseq Hut Htm Hpool Hf Hraw Hdur Hrc Hl Hidx Hkey.
  unfold write_exe in Hline. rewrite Huri in Hline. injection Hline as <-.
  unfold ulong_wrap. rewrite !(Z.mod_small _ (2 ^ 64)) by (unfold in_ulong, ULONG_MAX in *; lia).
  rewrite (int_wrap_id (e_pool e)) by done.
  rewrite read_lines_exe by done.
  unfold read_exe, scan_exe.
  match goal with |- context [rc_line (rc_after_tag TAG_EXE ?l rc)] =>
    change (rc_line (rc_after_tag TAG_EXE l rc))
      with (tab ++ Scan.show_long (e_seq e) ++ tab ++ Scan.show_long (e_update_time e) ++ tab
            ++ Scan.show_long (e_time e) ++ tab ++ Scan.show_long (-1) ++ tab
            ++ Scan.show_long (e_pool e) ++ tab ++ show_f6 (e_weighted_launches e) ++ tab
            ++ show_ulong (e_raw_launches e) ++ tab
            ++ show_ulong (e_total_duration_sec e) ++ tab ++ uri ++ newline)%string;
    set (rc0 := rc_after_tag TAG_EXE l rc)
  end.
  rewrite (sscanf_exe_line _ _ _ _ _ f) by done.
  cbn [length Nat.leb]. unfold assign_exe9, Scan.store_str, Scan.store_int, Scan.store_double.
  cbn [lookup list_lookup v_filebuf v_i v_pool v_weighted_launches v_raw_launches
       v_total_duration v_time v_update_time].
  cbn [rc_filebuf set_rc_filebuf]. rewrite Hback.
  set (rc1 := set_rc_filebuf uri rc0).
  assert (Hrc1 : rc_exes rc1 = rc_exes rc /\ rc_failed rc1 = false) by done.
  destruct Hrc1 as [Hx1 Hf1]. clearbody rc1. clear rc0.
  unfold kp_exe_new. cbn [foldl]. rewrite Hx1.
  rewrite (bool_decide_eq_false_2 (is_Some (rc_exes rc !! e_seq e)))
    by (rewrite Hidx; by intros [? ?]).
  cbn [kp_state with_exes bump].
  rewrite (bool_decide_eq_false_2 (is_Some (st_exes (kp_state w) !! e_path e)))
    by (rewrite Hkey; by intros [? ?]).
  erewrite kp_state_register_exe_new;
    [|cbn [exe_heap with_exes bump]; rewrite !lookup_alter_eq, lookup_insert_eq;
      reflexivity|exact Hkey].
  eexists _, _, (next_addr w). split; [reflexivity|]. cbn.
  split_and!; try done.
  rewrite lookup_insert_eq. done.
Qed.


End ExeRoundTrip.

Lemma write_exe_read_back_witness :
  exists rc' w' ea,
    read_lines sample_platform [sample_exe_record] 1 rc_init world_init
    = Some (false, int_add 1 1, rc', w')
    /\ rc_failed rc' = false
    /\ rc_exes rc' = <[e_seq sample_exe := ea]> (rc_exes rc_init)
    /\ st_exes (kp_state w') = <[e_path sample_exe := ea]> (st_exes (kp_state world_init))
    /\ exe_heap w' !! ea
       = Some {| e_path := e_path sample_exe;
                 e_seq := int_add (st_exe_seq (kp_state world_init)) 1;
                 e_size := 0; e_time := e_time sample_exe;
                 e_update_time := e_update_time sample_exe;
                 e_change_timestamp := -1; e_running_timestamp := -1;
                 e_pool := e_pool sample_exe; e_weighted_launches := PrimFloat.zero;
                 e_raw_launches := e_raw_launches sample_exe;
                 e_total_duration_sec := e_total_duration_sec sample_exe;
                 e_running_pids := []; e_exemaps := []; e_markovs := [] |}.
Proof.
  apply (write_exe_read_back sample_platform sample_to_uri sample_f6 sample_exe
           "file:///usr/bin/firefox" sample_exe_record PrimFloat.zero 1 rc_init world_init).
  - reflexivity.
  - reflexivity.
  - reflexivity.
  - split; [discriminate|reflexivity].
  - cbn. lia.
  - unfold in_int, INT_MIN, INT_MAX. cbn. lia.
  - unfold in_int, INT_MIN, INT_MAX. cbn. lia.
  - unfold in_int, INT_MIN, INT_MAX. cbn. lia.
  - unfold in_int, INT_MIN, INT_MAX. cbn. lia.
  - intros r. reflexivity.
  - unfold in_ulong, ULONG_MAX. cbn. lia.
  - unfold in_ulong, ULONG_MAX. cbn. lia.
  - reflexivity.
  - vm_compute. discriminate.
  - reflexivity.
  - reflexivity.
Defined.

Section RegisterExe.
Context (E : platform).

Lemma grows_refl w : fresh_ok w -> grows w w.
Proof. intros Hf. split_and!; try done. intros a x Hx. exists x. done. Qed.

Lemma grows_trans w1 w2 w3 : grows w1 w2 -> grows w2 w3 -> grows w1 w3.
Proof.
  intros (A1 & A2 & A3 & A4 & A5) (B1 & B2 & B3 & B4 & B5). split_and!.
  - intros mk m H. by apply B1, A1.
  - intros a x Hx. destruct (A2 a x Hx) as (x' & Hx' & Hp & Hs & Hm).
    destruct (B2 a x' Hx') as (x'' & Hx'' & Hp' & Hs' & Hm').
    exists x''. split_and!; [done|congruence|congruence|]. intros mk Hmk. by apply Hm', Hm.
  - congruence.
  - congruence.
  - done.
Qed.

Lemma joined_grows a b w w' : joined a b w -> grows w w' -> joined a b w'.
Proof.
  intros (mk & m & x & y & Hm & Ha & Hb & Hx & Hmx & Hy & Hmy) (G1 & G2 & _).
  destruct (G2 a x Hx) as (x' & Hx' & _ & _ & Hin).
  destruct (G2 b y Hy) as (y' & Hy' & _ & _ & Hin').
  exists mk, m, x', y'. split_and!; try done; [by apply G1|by apply Hin|by apply Hin'].
Qed.

Lemma markov_state_changed_ends now s m :
  mk_a (markov_state_changed now s m) = mk_a m
  /\ mk_b (markov_state_changed now s m) = mk_b m.
Proof.
  unfold markov_state_changed.
  destruct (mk_change_timestamp m =? now); [done|]. by destruct (mk_state m =? s).
Qed.

Lemma kp_markov_new_shape a b w x y :
  a <> b -> exe_heap w !! a = Some x -> exe_heap w !! b = Some y ->
  exists m, mk_a m = a /\ mk_b m = b
    /\ (kp_markov_new E a b true w).2
       = {| kp_state := kp_state w; map_heap := map_heap w;
            exe_heap := alter (add_markov (next_addr w)) b
                          (alter (add_markov (next_addr w)) a (exe_heap w));
            markov_heap := <[next_addr w := m]> (markov_heap w);
            next_addr := S (next_addr w) |}.
Proof.
  intros Hab Hx Hy. unfold kp_markov_new.
  apply Nat.eqb_neq in Hab. rewrite Hab, Hx, Hy. cbn [snd].
  destruct ((0 <? e_change_timestamp x) && (0 <? e_change_timestamp y)); cbv zeta iota beta.
  all: unfold kp_markov_state_changed; cbn [markov_heap with_markovs bump];
    rewrite lookup_insert_eq;
    unfold with_exes, with_markovs, bump;
    cbn [markov_heap exe_heap kp_state map_heap next_addr];
    rewrite !insert_insert_eq;
    eexists; split_and!; [| |reflexivity];
    apply markov_state_changed_ends.
Qed.

(** A markov made by [kp_markov_new] joins its two exes, and nothing else
    is lost. *)
Lemma kp_markov_new_joins a b w x y :
  a <> b -> exe_heap w !! a = Some x -> exe_heap w !! b = Some y -> fresh_ok w ->
  let w' := (kp_markov_new E a b true w).2 in
  grows w w' /\ joined a b w'.
Proof.
  intros Hab Hx Hy Hf w'. subst w'.
  destruct (kp_markov_new_shape a b w x y Hab Hx Hy) as (m & Ha & Hb & ->).
  set (mk := next_addr w).
  destruct (Hf mk ltac:(lia)) as (_ & _ & Hnone).
  split.
  - split_and!; cbn.
    + intros mk' m' Hm'. rewrite lookup_insert_ne; [done|]. intros <-. congruence.
    + intros c z Hz. destruct (decide (c = b)) as [->|Hcb].
      * rewrite lookup_alter_eq, lookup_alter_ne, Hz by done. cbn.
        eexists. split_and!; try done. intros k Hk. cbn. apply elem_of_app. by left.
      * rewrite lookup_alter_ne by done. destruct (decide (c = a)) as [->|Hca].
        { rewrite lookup_alter_eq, Hz. cbn. eexists. split_and!; try done.
          intros k Hk. cbn. apply elem_of_app. by left. }
        rewrite lookup_alter_ne, Hz by done. exists z. done.
    + done.
    + done.
    + intros c Hc. cbn in *. destruct (Hf c ltac:(lia)) as (H1 & H2 & H3).
      split_and!; [done| |].
      * rewrite !lookup_alter_None. done.
      * rewrite lookup_insert_ne by (subst mk; lia). done.
  - exists mk, m. eexists _, _. cbn. rewrite lookup_insert_eq.
    rewrite lookup_alter_ne, lookup_alter_eq, Hx by done.
    rewrite lookup_alter_eq, lookup_alter_ne, Hy by done. cbn.
    split_and!; try done; apply elem_of_app; right; apply list_elem_of_singleton; done.
Qed.

Lemma shift_markovs_joins ea l : forall w,
  fresh_ok w -> is_Some (exe_heap w !! ea) ->
  (forall kv, kv ∈ l -> is_Some (exe_heap w !! kv.2)) ->
  let w' := foldl (fun w' (kv : string * addr) =>
                     if Nat.eqb kv.2 ea then w'
                     else (kp_markov_new E kv.2 ea true w').2) w l in
  grows w w' /\ forall kv, kv ∈ l -> kv.2 <> ea -> joined kv.2 ea w'.
Proof.
  induction l as [|kv l IH]; intros w Hf Hea Hl; cbn [foldl].
  - split; [by apply grows_refl|]. intros kv Hkv. by apply elem_of_nil in Hkv.
  - destruct (Nat.eqb_spec kv.2 ea) as [Heq|Hne].
    + destruct (IH w Hf Hea) as [Hg Hj]. { intros kv' Hkv'. apply Hl. by right. }
      split; [done|]. intros kv' Hkv' Hne'.
      apply elem_of_cons in Hkv' as [->|Hkv']; [done|by apply Hj].
    + destruct (Hl kv) as [x Hx]; [left|]. destruct Hea as [y Hy].
      destruct (kp_markov_new_joins kv.2 ea w x y Hne Hx Hy Hf) as [Hg Hj].
      set (w1 := (kp_markov_new E kv.2 ea true w).2) in *.
      pose proof Hg as (_ & G2 & _ & _ & Hf1).
      destruct (IH w1 Hf1) as [Hg' Hj'].
      { destruct (G2 ea y Hy) as (y' & Hy' & _). by rewrite Hy'. }
      { intros kv' Hkv'. destruct (Hl kv') as [z Hz]; [by right|].
        destruct (G2 _ z Hz) as (z' & Hz' & _). by rewrite Hz'. }
      split; [by eapply grows_trans|]. intros kv' Hkv' Hne'.
      apply elem_of_cons in Hkv' as [->|Hkv']; [|by apply Hj'].
      by eapply joined_grows.
Qed.

(** X24. [kp_state_register_exe] with [create_markovs] joins the new exe
    with every exe that is tracked: for each of them there is a markov
    from it to the new exe, in the markov sets of both. The markovs there
    were stay, the new exe gets the next sequence number, and its path
    leads to it in [kp_state->exes]. *)
Theorem kp_state_register_exe_markovs ea e w :
  fresh_ok w -> exe_heap w !! ea = Some e ->
  st_exes (kp_state w) !! e_path e = None ->
  (forall p a, st_exes (kp_state w) !! p = Some a -> is_Some (exe_heap w !! a)) ->
  exists w', kp_state_register_exe E ea true w = Some w' /\
  st_exes (kp_state w') = <[e_path e := ea]> (st_exes (kp_state w))
  /\ (forall p a, st_exes (kp_state w) !! p = Some a -> a <> ea -> joined a ea w')
  /\ (forall mk m, markov_heap w !! mk = Some m -> markov_heap w' !! mk = Some m)
  /\ exists y, exe_heap w' !! ea = Some y /\ e_path y = e_path e
               /\ e_seq y = int_add (st_exe_seq (kp_state w)) 1.
Proof.
  intros Hf He Hp Hlive. rewrite (kp_state_register_exe_new E ea e true w He Hp).
  eexists. split; [reflexivity|]. unfold register_exe_markovs.
  set (seq := int_add (st_exe_seq (kp_state w)) 1).
  set (w1 := with_exes (insert ea (set_exe_seq seq e)) (with_state (set_st_exe_seq seq) w)).
  assert (Hf1 : fresh_ok w1).
  { intros a Ha. destruct (Hf a Ha) as (H1 & H2 & H3). subst w1. cbn.
    split_and!; try done. rewrite lookup_insert_ne; [done|]. intros <-. congruence. }
  assert (Hea1 : exe_heap w1 !! ea = Some (set_exe_seq seq e)).
  { subst w1. cbn. by rewrite lookup_insert_eq. }
  assert (Hl1 : forall kv, kv ∈ map_to_list (st_exes (kp_state w)) ->
                  is_Some (exe_heap w1 !! kv.2)).
  { intros [p a] Hkv. apply elem_of_map_to_list in Hkv. cbn [snd].
    destruct (decide (a = ea)) as [->|Hne]; [by rewrite Hea1|].
    subst w1. cbn. rewrite lookup_insert_ne by done. by eapply Hlive. }
  destruct (shift_markovs_joins ea (map_to_list (st_exes (kp_state w))) w1 Hf1
              ltac:(by rewrite Hea1) Hl1) as [Hg Hj].
  set (w2 := foldl _ w1 _) in *.
  destruct Hg as (G1 & G2 & G3 & G4 & G5).
  split_and!.
  - cbn. rewrite G3. subst w1. done.
  - intros p a Ha Hne.
    destruct (Hj (p, a)) as (mk & m & x & y & H); [by apply elem_of_map_to_list|done|].
    exists mk, m, x, y. exact H.
  - intros mk m Hm. cbn. apply G1. subst w1. done.
  - destruct (G2 ea _ Hea1) as (y & Hy & Hpath & Hseq & _).
    exists y. cbn. split_and!; [done|by rewrite Hpath|by rewrite Hseq].
Qed.

End RegisterExe.

Lemma kp_state_register_exe_markovs_witness :
  exists w', kp_state_register_exe sample_platform 2%nat true three_exes = Some w' /\
  st_exes (kp_state w') = <["/usr/bin/c"%string := 2%nat]> (st_exes (kp_state three_exes))
  /\ (forall p a, st_exes (kp_state three_exes) !! p = Some a -> a <> 2%nat ->
        joined a 2%nat w')
  /\ (forall mk m, markov_heap three_exes !! mk = Some m -> markov_heap w' !! mk = Some m)
  /\ exists y, exe_heap w' !! 2%nat = Some y /\ e_path y = "/usr/bin/c"%string
               /\ e_seq y = int_add (st_exe_seq (kp_state three_exes)) 1.
Proof.
  apply (kp_state_register_exe_markovs sample_platform 2%nat third_exe three_exes).
  - intros a Ha. change (next_addr three_exes) with 3%nat in Ha.
    split_and!; [done| |done].
    change (exe_heap three_exes) with
      (<[2%nat := default sample_exe (exe_heap three_exes !! 2%nat)]>
         (<[1%nat := default sample_exe (exe_heap three_exes !! 1%nat)]>
            (<[0%nat := default sample_exe (exe_heap three_exes !! 0%nat)]> (∅ : gmap addr kp_exe_t)))).
    rewrite !lookup_insert_ne by lia. done.
  - vm_compute. reflexivity.
  - vm_compute. reflexivity.
  - intros p a Hpa.
    destruct (decide (p = "/usr/bin/a"%string)) as [->|Hna].
    { vm_compute in Hpa. injection Hpa as <-. vm_compute. eauto. }
    destruct (decide (p = "/usr/bin/b"%string)) as [->|Hnb].
    { vm_compute in Hpa. injection Hpa as <-. vm_compute. eauto. }
    exfalso.
    change (st_exes (kp_state three_exes)) with
      (<["/usr/bin/b"%string := 1%nat]> (<["/usr/bin/a"%string := 0%nat]> (∅ : gmap string addr)))
      in Hpa.
    rewrite !lookup_insert_ne in Hpa by done. done.
Defined.

(** ** preheat-ctl: import *)

Lemma file_of_lines_app a b :
  file_of_lines (a ++ b) = (file_of_lines a ++ file_of_lines b)%string.
Proof.
  induction a as [|l a IH]; [done|]. cbn [app file_of_lines]. rewrite IH.
  by rewrite !string_app_assoc.
Qed.

Lemma body_lines_text es :
  (String.concat ("," ++ newline) es ++ newline)%string = file_of_lines (body_lines es).
Proof.
  induction es as [|e es IH]; [done|]. destruct es as [|e' es].
  - cbn [body_lines file_of_lines]. change (String.concat ("," ++ newline) [e]) with e.
    by rewrite string_app_nil_r.
  - rewrite concat_cons_cons. change (body_lines (e :: e' :: es))
      with ((e ++ ",")%string :: body_lines (e' :: es)).
    cbn [file_of_lines]. rewrite <- IH. by rewrite !string_app_assoc.
Qed.

Lemma export_text_lines now entries :
  export_text now entries
  = file_of_lines (header_lines now
                   ++ body_lines (map (fun pt => export_entry pt.1 pt.2) entries)
                   ++ footer_lines).
Proof.
  rewrite !file_of_lines_app, <- body_lines_text. unfold export_text, export_header,
    export_footer, header_lines, footer_lines. cbn [file_of_lines].
  rewrite !string_app_assoc. done.
Qed.

Lemma word_text s : word s -> text_line s.
Proof.
  intros [_ H]. unfold text_line. revert H. apply string_forallb_impl. intros c Hc.
  apply andb_true_iff in Hc as [Hs Hn]. rewrite Hn, andb_true_r.
  destruct (Ascii.eqb_spec c "010") as [->|]; done.
Qed.

Lemma text_line_app a b : text_line (a ++ b) <-> text_line a /\ text_line b.
Proof. unfold text_line. rewrite string_forallb_app. apply andb_true_iff. Qed.

Lemma show_long_length z :
  LONG_MIN <= z <= LONG_MAX -> (String.length (Scan.show_long z) <= 21)%nat.
Proof.
  intros Hz. unfold LONG_MIN, LONG_MAX in Hz. unfold Scan.show_long.
  destruct z as [|p|p]; cbn [Z.to_int NilZero.string_of_int].
  - apply (Nat.le_trans _ 20); [apply (show_ulong_short 0); unfold ULONG_MAX; lia|lia].
  - apply (Nat.le_trans _ 20); [apply (show_ulong_short (Z.pos p)); unfold ULONG_MAX; lia|lia].
  - change (NilZero.string_of_uint (Pos.to_uint p)) with (show_ulong (Z.pos p)).
    cbn [String.length]. pose proof (show_ulong_short (Z.pos p)). unfold ULONG_MAX in *. lia.
Qed.

Lemma strstr_skip c n s t :
  string_forallb (fun x => negb (Ascii.eqb c x)) s = true ->
  strstr (s ++ t) (String c n) = strstr t (String c n).
Proof.
  induction s as [|x s IH]; [done|]. cbn [string_forallb]. intros [Hx Hs]%andb_true_iff.
  change (String x s ++ t)%string with (String x (s ++ t)). cbn [strstr starts_with].
  apply negb_true_iff in Hx. rewrite Hx, IH by done. done.
Qed.

Lemma string_forallb_Forall p s :
  Forall (fun c => p c = true) (list_ascii_of_string s) -> string_forallb p s = true.
Proof.
  induction s as [|c s IH]; [done|]. cbn. intros [Hc Hs]%Forall_cons. by rewrite Hc, IH.
Qed.

Lemma show_ulong_no_quote n :
  string_forallb (fun x => negb (Ascii.eqb "034" x)) (show_ulong n) = true.
Proof.
  apply string_forallb_Forall. eapply Forall_impl; [apply show_ulong_digits|].
  intros c Hc. cbv beta in *. destruct (Ascii.eqb_spec "034" c) as [<-|]; done.
Qed.

Lemma show_long_no_quote z :
  string_forallb (fun x => negb (Ascii.eqb "034" x)) (Scan.show_long z) = true.
Proof.
  unfold Scan.show_long. destruct z as [|p|p]; cbn [Z.to_int NilZero.string_of_int].
  - apply (show_ulong_no_quote 0).
  - apply (show_ulong_no_quote (Z.pos p)).
  - change (NilZero.string_of_uint (Pos.to_uint p)) with (show_ulong (Z.pos p)).
    cbn [string_forallb]. by rewrite show_ulong_no_quote.
Qed.

Lemma header_lines_text now :
  LONG_MIN <= now <= LONG_MAX ->
  Forall (fun l => text_line l /\ (String.length l < 2047)%nat) (header_lines now).
Proof.
  intros Hnow. pose proof (show_long_length now Hnow) as Hlen.
  pose proof (word_text _ (show_long_word now)) as Ht.
  unfold header_lines.
  apply Forall_cons; split; [split; [reflexivity|apply Nat.ltb_lt; vm_compute; reflexivity]|].
  apply Forall_cons; split; [split; [reflexivity|apply Nat.ltb_lt; vm_compute; reflexivity]|].
  apply Forall_cons; split; [|apply Forall_cons; split; [split; [reflexivity|apply Nat.ltb_lt; vm_compute; reflexivity]|done]].
  split.
  - rewrite !text_line_app. split_and!; done.
  - unfold quoted, dquote. rewrite !string_length_app. cbn [String.length]. lia.
Qed.

Lemma import_header now :
  LONG_MIN <= now <= LONG_MAX ->
  foldl import_line (false, 0)
    (map (fun l => (l ++ newline)%string) (header_lines now)) = (true, 0).
Proof.
  intros Hnow. pose proof (header_lines_text now Hnow) as Hh.
  unfold header_lines in *. cbn [map foldl].
  apply Forall_cons in Hh as [_ Hh]. apply Forall_cons in Hh as [_ Hh].
  apply Forall_cons in Hh as [[H3 _] _].
  unfold import_line at 4. cbn [fst snd].
  change (strstr (c_str ("{" ++ newline)) "preheat_export_version") with false.
  change (strstr (c_str ("{" ++ newline)) (quoted "path")) with false. cbv iota.
  unfold import_line at 3. cbn [fst snd].
  match goal with |- context [c_str ?l] =>
    change (strstr (c_str l) "preheat_export_version") with true;
    change (strstr (c_str l) (quoted "path")) with false end. cbv iota.
  unfold import_line at 2. cbn [fst snd].
  rewrite (c_str_text _ H3).
  assert (Hp : strstr (("  " ++ quoted "exported_at" ++ ": " ++ Scan.show_long now ++ ",")
                       ++ newline) (quoted "path") = false).
  { rewrite !string_app_assoc.
    change (strstr ("  " ++ quoted "exported_at" ++ ": " ++ ?x) (quoted "path"))
      with (strstr x (quoted "path")).
    assert (Hq : quoted "path" = String "034"%char ("path" ++ dquote)) by reflexivity.
    rewrite Hq, strstr_skip by apply show_long_no_quote. reflexivity. }
  rewrite Hp.
  match goal with |- context [if ?b then true else true] =>
    replace (if b then true else true) with true by (by destruct b) end.
  unfold import_line. cbn [fst snd].
  match goal with |- context [c_str ?l] =>
    change (strstr (c_str l) (quoted "path")) with false end.
  by destruct (strstr _ _).
Qed.

(** An entry of the export file, with what follows it on its line. *)
Lemma entry_line_text p t sfx :
  text_line p -> (String.length p <= 1900)%nat -> in_int t ->
  text_line sfx -> (String.length sfx <= 1)%nat ->
  text_line (export_entry p t ++ sfx)
  /\ (String.length (export_entry p t ++ sfx) < 2047)%nat.
Proof.
  intros Hp Hl Ht Hs Hsl. pose proof (show_long_short t Ht) as Hlen.
  pose proof (word_text _ (show_long_word t)) as Htt.
  unfold export_entry, quoted, dquote. split.
  - rewrite !text_line_app. split_and!; done.
  - rewrite !string_length_app. cbn [String.length]. lia.
Qed.

Lemma import_entry_line p t sfx st :
  text_line (export_entry p t ++ sfx) -> st.1 = true ->
  import_line st ((export_entry p t ++ sfx) ++ newline) = (true, int_add st.2 1).
Proof.
  intros Ht Hv. unfold import_line. rewrite c_str_text by done. rewrite Hv.
  assert (Hq : strstr ((export_entry p t ++ sfx) ++ newline) (quoted "path") = true).
  { unfold export_entry. rewrite !string_app_assoc. reflexivity. }
  rewrite Hq.
  match goal with |- context [if ?b then true else true] => by destruct b end.
Qed.

Lemma import_body es : forall n,
  Forall (fun pt => text_line pt.1 /\ (String.length pt.1 <= 1900)%nat /\ in_int pt.2) es ->
  0 <= n -> n + Z.of_nat (length es) <= INT_MAX ->
  foldl import_line (true, n)
    (map (fun l => (l ++ newline)%string)
         (body_lines (map (fun pt => export_entry pt.1 pt.2) es)))
  = (true, n + Z.of_nat (length es)).
Proof.
  induction es as [|[p t] es IH]; intros n Hes Hn Hmax.
  - cbn. by rewrite Z.add_0_r.
  - apply Forall_cons in Hes as [(Hp & Hl & Ht) Hes]. cbn [fst snd] in *.
    cbn [length] in Hmax. rewrite Nat2Z.inj_succ in Hmax.
    assert (Hadd : int_add n 1 = n + 1).
    { unfold int_add. apply int_wrap_id. unfold in_int, INT_MIN, INT_MAX in *. lia. }
    destruct es as [|pt' es].
    + cbn [map body_lines foldl length fst snd].
      rewrite <- (string_app_nil_r (export_entry p t)).
      rewrite import_entry_line; [|apply entry_line_text; (done || (cbn; lia))|done].
      cbn [snd]. by rewrite Hadd.
    + change (body_lines (map (fun pt => export_entry pt.1 pt.2) ((p, t) :: pt' :: es)))
        with ((export_entry p t ++ ",")%string
              :: body_lines (map (fun pt => export_entry pt.1 pt.2) (pt' :: es))).
      set (tl := body_lines (map _ (pt' :: es))).
      cbn [map foldl fst snd].
      rewrite import_entry_line; [|apply entry_line_text; (done || (cbn; lia))|done].
      cbn [snd]. rewrite Hadd. subst tl. rewrite (IH (n + 1)) by (done || lia).
      f_equal. cbn [length]. lia.
Qed.

Lemma body_lines_ok es :
  Forall (fun pt => text_line pt.1 /\ (String.length pt.1 <= 1900)%nat /\ in_int pt.2) es ->
  Forall (fun l => text_line l /\ (String.length l < 2047)%nat)
         (body_lines (map (fun pt => export_entry pt.1 pt.2) es)).
Proof.
  induction es as [|[p t] es IH]; intros Hes.
  - apply Forall_cons. split; [|done]. split; [reflexivity|cbn; lia].
  - apply Forall_cons in Hes as [(Hp & Hl & Ht) Hes]. cbn [fst snd] in *.
    destruct es as [|pt' es].
    + apply Forall_cons. split; [|done]. cbn [fst snd].
      rewrite <- (string_app_nil_r (export_entry p t)).
      apply entry_line_text; (done || (cbn; lia)).
    + change (body_lines (map (fun pt => export_entry pt.1 pt.2) ((p, t) :: pt' :: es)))
        with ((export_entry p t ++ ",")%string
              :: body_lines (map (fun pt => export_entry pt.1 pt.2) (pt' :: es))).
      apply Forall_cons. split; [apply entry_line_text; (done || (cbn; lia))|by apply IH].
Qed.

(** X25. [cmd_import] accepts an export file as [cmd_export] lays it
    out, and finds as many apps as the file has entries: the answer is 0
    and the count is the number of the entries, whatever their paths are
    (as long as a path has no newline and its line fits the buffer of
    2048 bytes). *)
Theorem cmd_import_of_export filepath now entries :
  LONG_MIN <= now <= LONG_MAX ->
  Forall (fun pt => text_line pt.1 /\ (String.length pt.1 <= 1900)%nat /\ in_int pt.2)
         entries ->
  Z.of_nat (length entries) <= INT_MAX ->
  cmd_import filepath (Some (export_text now entries))
  = (0, ("Found " ++ Scan.show_long (Z.of_nat (length entries)) ++ " apps in "
         ++ default DEFAULT_EXPORT filepath ++ newline ++ import_note)%string).
Proof.
  intros Hnow Hes Hmax. unfold cmd_import. rewrite export_text_lines.
  rewrite fgets_all_lines.
  - rewrite !map_app, !foldl_app, import_header by done.
    rewrite import_body by (done || lia). rewrite Z.add_0_l.
    reflexivity.
  - apply Forall_app. split; [by apply header_lines_text|].
    apply Forall_app. split; [by apply body_lines_ok|].
    repeat (apply Forall_cons; split; [split; [reflexivity|cbn; lia]|]). done.
  - apply file_of_lines_length.
Qed.

Lemma cmd_import_of_export_witness :
  cmd_import None (Some (export_text 1000 [("/usr/bin/firefox"%string, 120); ("0"%string, 7)]))
  = (0, ("Found "
         ++ Scan.show_long (Z.of_nat (length [("/usr/bin/firefox"%string, 120); ("0"%string, 7)]))
         ++ " apps in " ++ default DEFAULT_EXPORT None ++ newline ++ import_note)%string).
Proof.
  apply (cmd_import_of_export None 1000 [("/usr/bin/firefox"%string, 120); ("0"%string, 7)]).
  - unfold LONG_MIN, LONG_MAX. lia.
  - repeat (apply Forall_cons; split;
            [split_and!; [reflexivity|cbn; lia|unfold in_int, INT_MIN, INT_MAX; cbn; lia]|]).
    done.
  - unfold INT_MAX. cbn. lia.
Defined.

(** ** preheat-ctl: the signals *)

Section CtlProps.
Context (env : ctl_env).

Lemma conv_d_in_int s z r : Scan.conv_d s = Some (z, r) -> in_int z.
Proof.
  unfold Scan.conv_d. destruct (Scan.conv_ld s) as [[v r']|]; [|done].
  intros [= <- <-]. apply int_wrap_in_int.
Qed.

Lemma read_pid_file_spec st :
  let '(pid, st') := read_pid_file env st in
  in_int pid /\ ctl_trace st' = ctl_trace st.
Proof.
  unfold read_pid_file. destruct (fopen_pidfile env (ctl_clock st)) as [content|]; [|done].
  destruct (Scan.conv_d content) as [[pid r]|] eqn:Hc; [|done].
  split; [by eapply conv_d_in_int|done].
Qed.

Lemma check_running_trace pid st :
  ctl_trace (check_running env pid st).2 = ctl_trace st.
Proof.
  unfold check_running. destruct (negb _); [done|].
  destruct (match readlink_exe env _ pid with Some _ => _ | None => _ end); [done|].
  by destruct (_ =? EACCES).
Qed.

Lemma find_running_daemon_spec st :
  let '(pid, st') := find_running_daemon env st in
  in_int pid /\ ctl_trace st' = ctl_trace st.
Proof.
  unfold find_running_daemon. destruct (pgrep_out env (ctl_clock st)) as [[|c r]|]; try done.
  split; [|done]. unfold atoi.
  destruct (Scan.conv_d _) as [[z r']|] eqn:Hc; [by eapply conv_d_in_int|done].
Qed.

(** The pid that [get_daemon_pid] answers is positive, or it is -1. *)
Lemma get_daemon_pid_spec verbose st :
  let '(pid, st') := get_daemon_pid env verbose st in
  (pid = -1 \/ 0 < pid /\ in_int pid) /\ ctl_trace st' = ctl_trace st.
Proof.
  unfold get_daemon_pid. pose proof (read_pid_file_spec st) as H1.
  destruct (read_pid_file env st) as [pid st1]. destruct H1 as [Hp Ht1].
  destruct (0 <? pid) eqn:Hpos.
  - pose proof (check_running_trace pid st1) as Ht2.
    destruct (check_running env pid st1) as [r st2]. cbn [snd] in Ht2.
    destruct (negb (r =? 0)).
    + apply Z.ltb_lt in Hpos. split; [by right|congruence].
    + pose proof (find_running_daemon_spec st2) as H3.
      destruct (find_running_daemon env st2) as [pid' st3]. destruct H3 as [Hp' Ht3].
      destruct (0 <? pid') eqn:Hpos'.
      * apply Z.ltb_lt in Hpos'. split; [by right|congruence].
      * split; [by left|congruence].
  - pose proof (find_running_daemon_spec st1) as H3.
    destruct (find_running_daemon env st1) as [pid' st3]. destruct H3 as [Hp' Ht3].
    destruct (0 <? pid') eqn:Hpos'.
    + apply Z.ltb_lt in Hpos'. split; [by right|congruence].
    + split; [by left|congruence].
Qed.

Lemma wait_stopped_trace n pid : forall st,
  ctl_trace (wait_stopped env n pid st).2 = ctl_trace st.
Proof.
  induction n as [|n IH]; intros st; [done|]. cbn [wait_stopped].
  pose proof (check_running_trace pid (ctl_tick env st)) as Ht.
  destruct (check_running env pid (ctl_tick env st)) as [r st1]. cbn [snd] in Ht.
  destruct (r =? 0); [done|]. by rewrite IH.
Qed.

Lemma send_after_check sig st
    (after : Z -> ctl_state -> Z * ctl_state) :
  (forall pid st0 ret st1, send_signal env pid sig st0 = (ret, st1) ->
     ctl_trace (after pid st0).2 = ctl_trace st1
     /\ (ctl_trace st1 = ctl_trace st0 ++ [EvKill pid sig])) ->
  signals_once sig st
    (let '(pid, st1) := read_pid env st in
     if pid <? 0 then (1, st1)
     else
       let '(r, st2) := check_running env pid st1 in
       if r =? 0 then (1, st2) else after pid st2).
Proof.
  intros Hafter. unfold read_pid. pose proof (get_daemon_pid_spec true st) as H1.
  destruct (get_daemon_pid env true st) as [pid st1]. destruct H1 as [Hp Ht1].
  destruct (pid <? 0) eqn:Hneg; [by left|].
  apply Z.ltb_ge in Hneg. destruct Hp as [->|[Hpos Hint]]; [lia|].
  pose proof (check_running_trace pid st1) as Ht2.
  destruct (check_running env pid st1) as [r st2]. cbn [snd] in Ht2.
  destruct (r =? 0); [left; split; [cbn; congruence|done]|].
  right. exists pid. split; [done|]. split; [done|].
  destruct (send_signal env pid sig st2) as [ret st3] eqn:Hs.
  destruct (Hafter pid st2 ret st3 Hs) as [Ha Hb]. rewrite Ha, Hb. congruence.
Qed.

Lemma send_signal_trace pid sig st :
  ctl_trace (send_signal env pid sig st).2 = ctl_trace st ++ [EvKill pid sig].
Proof. unfold send_signal. by destruct (kill_fails _ _ _ _). Qed.

(** X26. The commands that signal the daemon ([reload], [dump], [save],
    [stop]) never call [kill] with the pid 0, with -1 or with another
    negative pid, whatever the PID file, [pgrep] and the system answer:
    each of them either sends no signal and answers 1, or sends its own
    signal once, to a pid that is positive. *)
Theorem ctl_signals_positive_pid cmd sig st :
  (cmd, sig) ∈ signal_commands -> signals_once sig st (cmd env st).
Proof.
  intros Hin. unfold signal_commands in Hin.
  repeat (apply elem_of_cons in Hin as [[= -> ->]|Hin]); [| | | |by apply elem_of_nil in Hin].
  - apply (send_after_check SIGHUP st (fun pid st0 => send_signal env pid SIGHUP st0)).
    intros pid st0 ret st1 Hs. pose proof (send_signal_trace pid SIGHUP st0) as Ht.
    rewrite Hs in Ht. by rewrite Hs.
  - apply (send_after_check SIGUSR1 st (fun pid st0 => send_signal env pid SIGUSR1 st0)).
    intros pid st0 ret st1 Hs. pose proof (send_signal_trace pid SIGUSR1 st0) as Ht.
    rewrite Hs in Ht. by rewrite Hs.
  - apply (send_after_check SIGUSR2 st (fun pid st0 => send_signal env pid SIGUSR2 st0)).
    intros pid st0 ret st1 Hs. pose proof (send_signal_trace pid SIGUSR2 st0) as Ht.
    rewrite Hs in Ht. by rewrite Hs.
  - apply (send_after_check SIGTERM st
             (fun pid st0 => let '(ret, st3) := send_signal env pid SIGTERM st0 in
                             if ret =? 0 then wait_stopped env 50 pid st3 else (ret, st3))).
    intros pid st0 ret st1 Hs. pose proof (send_signal_trace pid SIGTERM st0) as Ht.
    rewrite Hs in *. cbn [snd] in Ht. split; [|done].
    destruct (ret =? 0); [|done]. apply wait_stopped_trace.
Qed.

End CtlProps.

Lemma ctl_signals_positive_pid_witness :
  signals_once SIGTERM ctl_start (cmd_stop sample_ctl_env ctl_start).
Proof.
  apply (ctl_signals_positive_pid sample_ctl_env cmd_stop SIGTERM ctl_start).
  unfold signal_commands. do 3 right. left.
Defined.

(** ** A markov of an exe with itself *)

Section SelfMarkov.
Context (E : platform).

Lemma read_lines_markov body lineno rc w :
  rc_failed rc = false -> int_add lineno 1 <> 1 ->
  read_lines E [(TAG_MARKOV ++ tab ++ body)%string] lineno rc w
  = match read_markov E (rc_after_tag TAG_MARKOV (TAG_MARKOV ++ tab ++ body) rc) w with
    | Some (rc', w') => Some (false, int_add lineno 1, rc', w')
    | None => None
    end.
Proof.
  intros Hrc Hl. cbn [read_lines]. rewrite Hrc.
  change (Scan.sscanf [Scan.Conv_s 31] (TAG_MARKOV ++ tab ++ body))
    with ([Scan.VStr TAG_MARKOV], (tab ++ body)%string).
  cbv beta iota. unfold read_record.
  apply Z.eqb_neq in Hl. rewrite Hl.
  change (String.eqb TAG_MARKOV TAG_PRELOAD) with false.
  change (String.eqb TAG_MARKOV TAG_MAP) with false.
  change (String.eqb TAG_MARKOV TAG_BADEXE) with false.
  change (String.eqb TAG_MARKOV TAG_EXE) with false.
  change (String.eqb TAG_MARKOV TAG_EXEMAP) with false.
  change (String.eqb TAG_MARKOV TAG_MARKOV) with true.
  cbn [andb negb]. cbv iota.
  fold (rc_after_tag TAG_MARKOV (TAG_MARKOV ++ tab ++ body) rc).
  by destruct (read_markov E (rc_after_tag TAG_MARKOV (TAG_MARKOV ++ tab ++ body) rc) w)
    as [[rc' w']|].
Qed.

(** X27. A [MARKOV] record that names the same exe twice is not turned
    down as an error: [kp_markov_new] refuses the pair and answers
    [NULL], and [read_markov] stores the time through that pointer. The
    load does not come to an end, so the file is not set aside either. *)
Theorem read_markov_self i tm rest a lineno rc w :
  rc_failed rc = false -> int_add lineno 1 <> 1 ->
  in_int i -> in_int tm -> no_digit_head rest ->
  rc_exes rc !! i = Some a ->
  read_lines E [self_markov_line i tm rest] lineno rc w = None.
Proof.
  intros Hrc Hl Hi Htm Hrest Ha. unfold self_markov_line.
  rewrite read_lines_markov by done. unfold read_markov.
  match goal with |- context [rc_line (rc_after_tag TAG_MARKOV ?l rc)] =>
    change (rc_line (rc_after_tag TAG_MARKOV l rc))
      with (tab ++ Scan.show_long i ++ tab ++ Scan.show_long i ++ tab
            ++ Scan.show_long tm ++ rest)%string;
    set (rc0 := rc_after_tag TAG_MARKOV l rc)
  end.
  rewrite sscanf_d_tab, conv_d_show_long by done.
  cbn [Scan.sscanf]. rewrite skip_ws_tab_show, conv_d_show_long by done.
  rewrite skip_ws_tab_show, conv_d_show_long by done.
  cbn [length Nat.ltb Nat.leb]. unfold Scan.store_int. cbn [lookup list_lookup].
  cbn [rc_exes set_rc_line].
  assert (Hx : rc_exes rc0 = rc_exes rc) by done. rewrite Hx, Ha.
  unfold kp_markov_new. by rewrite Nat.eqb_refl.
Qed.

End SelfMarkov.

Lemma read_markov_self_witness :
  read_lines sample_platform [self_markov_line 1 0 (tab ++ record ["0"; "0"; "0"; "0"])] 5
    {| rc_line := EmptyString; rc_errmsg := None; rc_err := None; rc_maps := ∅;
       rc_exes := {[ 1 := 0%nat ]}; rc_filebuf := EmptyString |} world_init = None.
Proof.
  apply (read_markov_self sample_platform 1 0 (tab ++ record ["0"; "0"; "0"; "0"]) 0%nat).
  - reflexivity.
  - vm_compute. discriminate.
  - unfold in_int, INT_MIN, INT_MAX. lia.
  - unfold in_int, INT_MIN, INT_MAX. lia.
  - reflexivity.
  - reflexivity.
Defined.

(** The same on a whole file: the reader of the state file does not
    return. *)
Lemma self_markov_file_aborts :
  read_state sample_platform self_markov_file world_init = None.
Proof. vm_compute. reflexivity. Qed.

(** ** Writing and reading an exemap *)

Section ExemapRoundTrip.
Context (E : platform).

Lemma read_lines_exemap body lineno rc w :
  rc_failed rc = false -> int_add lineno 1 <> 1 ->
  read_lines E [(TAG_EXEMAP ++ tab ++ body)%string] lineno rc w
  = let '(rc', w') := read_exemap E (rc_after_tag TAG_EXEMAP (TAG_EXEMAP ++ tab ++ body) rc) w in
    Some (false, int_add lineno 1, rc', w').
Proof.
  intros Hrc Hl. cbn [read_lines]. rewrite Hrc.
  change (Scan.sscanf [Scan.Conv_s 31] (TAG_EXEMAP ++ tab ++ body))
    with ([Scan.VStr TAG_EXEMAP], (tab ++ body)%string).
  cbv beta iota. unfold read_record.
  apply Z.eqb_neq in Hl. rewrite Hl.
  change (String.eqb TAG_EXEMAP TAG_PRELOAD) with false.
  change (String.eqb TAG_EXEMAP TAG_MAP) with false.
  change (String.eqb TAG_EXEMAP TAG_BADEXE) with false.
  change (String.eqb TAG_EXEMAP TAG_EXE) with false.
  change (String.eqb TAG_EXEMAP TAG_EXEMAP) with true.
  cbn [andb negb]. cbv iota.
  fold (rc_after_tag TAG_EXEMAP (TAG_EXEMAP ++ tab ++ body) rc).
  by destruct (read_exemap E (rc_after_tag TAG_EXEMAP (TAG_EXEMAP ++ tab ++ body) rc) w)
    as [rc' w'].
Qed.

Lemma set_last_prob_snoc p l x :
  set_last_prob p (l ++ [x]) = l ++ [{| em_map := em_map x; em_prob := p |}].
Proof.
  unfold set_last_prob. destruct (l ++ [x]) eqn:Hl; [by destruct l|]. rewrite <- Hl.
  rewrite last_snoc, length_app. cbn [length fmap option_fmap option_map default].
  replace (pred (length l + 1)) with (length l + 0)%nat by lia.
  by rewrite insert_app_r.
Qed.

(** X28. An exemap comes back from the line [write_exemap] writes for
    it, although the reader numbers exes and maps anew: the two indices of
    the line are looked up in the tables of the reader, and the exe that
    was read under the first gets an exemap of the map that was read
    under the second, at the end of its set. The size of the exe grows by
    the length of the map, the map gets one more reference, and the
    probability is what [%lg] reads from the text that was printed. *)
Theorem write_exemap_read_back show_g x e ws m line f r ea a e0 m0 lineno rc w :
  write_exemap show_g x e ws = Some line -> map_heap ws !! em_map x = Some m ->
  in_int (e_seq e) -> in_int (m_seq m) ->
  Scan.conv_lf (show_g (em_prob x) ++ newline) = Some (f, r) ->
  rc_failed rc = false -> int_add lineno 1 <> 1 ->
  rc_exes rc !! e_seq e = Some ea -> rc_maps rc !! m_seq m = Some a ->
  exe_heap w !! ea = Some e0 -> map_heap w !! a = Some m0 ->
  0 < m_refcount m0 < INT_MAX ->
  exists rc' w',
    read_lines E [line] lineno rc w = Some (false, int_add lineno 1, rc', w')
    /\ rc_failed rc' = false
    /\ exe_heap w' !! ea
       = Some (set_exe_exemaps (e_exemaps e0 ++ [{| em_map := a; em_prob := f |}])
                 (set_exe_size (ulong_wrap (e_size e0 + m_length m0)) e0))
    /\ map_heap w' !! a = Some (set_refcount (m_refcount m0 + 1) m0).
Proof.
  intros Hline Hm Hi Hj Hf Hrc Hl Hea Ha He0 Hm0 Href.
  unfold write_exemap in Hline. rewrite Hm in Hline. injection Hline as <-.
  rewrite read_lines_exemap by done. unfold read_exemap.
  match goal with |- context [rc_line (rc_after_tag TAG_EXEMAP ?l rc)] =>
    change (rc_line (rc_after_tag TAG_EXEMAP l rc))
      with (tab ++ Scan.show_long (e_seq e) ++ tab ++ Scan.show_long (m_seq m) ++ tab
            ++ show_g (em_prob x) ++ newline)%string;
    set (rc0 := rc_after_tag TAG_EXEMAP l rc)
  end.
  rewrite sscanf_d_tab, conv_d_show_long by done.
  cbn [Scan.sscanf]. rewrite skip_ws_tab_show, conv_d_show_long by done.
  rewrite conv_lf_skip_ws.
  change (Scan.conv_lf (tab ++ ?y)) with (Scan.conv_lf y). rewrite Hf.
  cbn [length Nat.ltb Nat.leb fst]. unfold Scan.store_int, Scan.store_double.
  cbn [lookup list_lookup].
  assert (Hx : rc_exes rc0 = rc_exes rc /\ rc_maps rc0 = rc_maps rc
               /\ rc_failed rc0 = false) by done.
  destruct Hx as (Hx1 & Hx2 & Hx3). rewrite Hx1, Hx2, Hea, Ha.
  eexists _, _. split; [reflexivity|]. split; [done|].
  unfold kp_exe_map_new, kp_exemap_new, kp_map_ref. rewrite Hm0.
  assert (Hnz : (m_refcount m0 =? 0) = false) by (apply Z.eqb_neq; lia). rewrite Hnz.
  assert (Hadd : int_add (m_refcount m0) 1 = m_refcount m0 + 1).
  { unfold int_add. apply int_wrap_id. unfold in_int, INT_MIN, INT_MAX in *. lia. }
  cbn [exe_heap map_heap with_exes with_maps].
  split.
  - rewrite !lookup_alter_eq, He0. cbn [fmap option_fmap option_map]. f_equal.
    unfold exe_add_map_size, kp_map_get_size.
    cbn [map_heap with_maps em_map]. rewrite lookup_alter_eq, Hm0.
    cbn [fmap option_fmap option_map m_length set_refcount].
    cbn [e_exemaps set_exe_exemaps set_exe_size exe_with e_size].
    rewrite set_last_prob_snoc. done.
  - rewrite lookup_alter_eq, Hm0. cbn [fmap option_fmap option_map]. by rewrite Hadd.
Qed.

End ExemapRoundTrip.

Lemma write_exemap_read_back_witness :
  exists rc' w',
    read_lines sample_platform [record ["EXEMAP"; "1"; "3"; "1"]] 5 linked_rc linked_world
    = Some (false, int_add 5 1, rc', w')
    /\ rc_failed rc' = false
    /\ exe_heap w' !! 1%nat
       = Some (set_exe_exemaps (e_exemaps sample_exe ++ [{| em_map := 0%nat; em_prob := fone |}])
                 (set_exe_size (ulong_wrap (e_size sample_exe
                                            + m_length (set_refcount 1 sample_map)))
                    sample_exe))
    /\ map_heap w' !! 0%nat
       = Some (set_refcount (m_refcount (set_refcount 1 sample_map) + 1)
                 (set_refcount 1 sample_map)).
Proof.
  apply (write_exemap_read_back sample_platform sample_g sample_exemap sample_exe
           linked_world (set_refcount 1 sample_map) (record ["EXEMAP"; "1"; "3"; "1"])
           fone newline 1%nat 0%nat sample_exe (set_refcount 1 sample_map) 5
           linked_rc linked_world).
  - reflexivity.
  - reflexivity.
  - unfold in_int, INT_MIN, INT_MAX. cbn. lia.
  - unfold in_int, INT_MIN, INT_MAX. cbn. lia.
  - vm_compute. reflexivity.
  - reflexivity.
  - vm_compute. discriminate.
  - reflexivity.
  - reflexivity.
  - reflexivity.
  - reflexivity.
  - unfold INT_MAX. cbn. lia.
Defined.

(** ** preheat-ctl: status *)

Section StatusProps.
Context {X : Type}.
Context (kp_spy_scan kp_prophet_predict : X * world -> X * world).
Context (kp_session_check : X -> X) (kp_session_in_boot_window : X -> bool).
Context (kp_session_preload_top_apps : Z -> X * world -> X * world).

(** X29. [cmd_status] tells what the pause file says, not what the daemon
    does. After [cmd_pause] with a duration, and before the expiry,
    [cmd_status] prints that the running daemon is paused, with the hours
    and minutes that are left; a daemon whose pause state was initialised
    before the command is not paused, and its tick still ends with the
    call of the predictor. *)
Theorem cmd_status_after_pause env st pid st1 st2 (d : @daemon X) now seconds now' :
  read_pid env st = (pid, st1) -> 0 <= pid -> check_running env pid st1 = (1, st2) ->
  0 < now -> 0 < seconds <= INT_MAX -> now + seconds <= LONG_MAX ->
  now <= now' < now + seconds ->
  initialized (d_pause d).1 = true -> active (d_pause d).1 = false ->
  dopredict (d_conf d) = true ->
  let file := (cmd_pause now seconds true (d_pause d).2).2 in
  let remaining := now + seconds - now' in
  cmd_status env now' file st
  = (0, (PACKAGE ++ " is running (PID " ++ Scan.show_long pid ++ ") - PAUSED ("
         ++ Scan.show_long (remaining / 3600) ++ "h "
         ++ Scan.show_long (remaining mod 3600 / 60) ++ "m remaining)" ++ newline)%string,
     st2)
  /\ last (d_calls (kp_state_tick kp_spy_scan kp_prophet_predict kp_session_check
             kp_session_in_boot_window kp_session_preload_top_apps now'
             (with_pause_file file d)))
     = Some CallProphetPredict.
Proof.
  intros Hpid Hpos Hrun Hnow Hsec Hmax Hwin Hi Ha Hd file remaining. split.
  - unfold cmd_status. rewrite Hpid.
    destruct (Z.ltb_spec pid 0) as [|_]; [lia|]. rewrite Hrun.
    change (1 =? 1) with true. cbv iota. subst file. unfold cmd_pause.
    destruct (Z.ltb_spec seconds 0) as [|_]; [lia|]. cbn [negb snd].
    destruct (Z.eqb_spec seconds 0) as [|_]; [lia|].
    rewrite long_wrap_id by (unfold LONG_MIN, LONG_MAX in *; lia).
    rewrite conv_ld_show_long
      by (unfold LONG_MIN, LONG_MAX in *; try lia; apply no_digit_newline).
    destruct (Z.eqb_spec (now + seconds) 0) as [|_]; [lia|].
    destruct (Z.ltb_spec now' (now + seconds)) as [_|]; [|lia].
    fold remaining.
    assert (Hr : 0 < remaining <= INT_MAX) by (subst remaining; lia).
    rewrite long_wrap_id by (unfold LONG_MIN, LONG_MAX, INT_MAX in *; lia).
    rewrite (int_wrap_id remaining) by (unfold in_int, INT_MIN, INT_MAX in *; lia).
    unfold int_div, int_rem.
    rewrite (Z.rem_mod_nonneg remaining 3600) by lia.
    pose proof (Z.mod_pos_bound remaining 3600 ltac:(lia)) as Hm.
    rewrite (int_wrap_id (remaining mod 3600)) by (unfold in_int, INT_MIN, INT_MAX; lia).
    rewrite !Z.quot_div_nonneg by lia.
    assert (0 <= remaining / 3600 <= remaining).
    { split; [apply Z.div_pos; lia|]. apply Z.div_le_upper_bound; lia. }
    assert (0 <= remaining mod 3600 / 60 <= 3600).
    { split; [apply Z.div_pos; lia|]. apply Z.div_le_upper_bound; lia. }
    rewrite !int_wrap_id by (unfold in_int, INT_MIN, INT_MAX in *; lia).
    by rewrite !string_app_assoc.
  - eapply (tick_calls_unpaused kp_spy_scan kp_prophet_predict kp_session_check
              kp_session_in_boot_window kp_session_preload_top_apps now'
              (with_pause_file _ d)); [|done].
    unfold kp_pause_is_active, with_pause_file. cbn [d_pause fst]. rewrite Hi.
    cbn [fst]. rewrite Ha. done.
Qed.

End StatusProps.

Lemma cmd_status_after_pause_witness :
  let file := (cmd_pause 1000 5400 true None).2 in
  let remaining := 1000 + 5400 - 1600 in
  cmd_status sample_ctl_env 1600 file ctl_start
  = (0, (PACKAGE ++ " is running (PID " ++ Scan.show_long 4711 ++ ") - PAUSED ("
         ++ Scan.show_long (remaining / 3600) ++ "h "
         ++ Scan.show_long (remaining mod 3600 / 60) ++ "m remaining)" ++ newline)%string,
     {| ctl_errno := 0; ctl_clock := 4; ctl_trace := [] |})
  /\ last (d_calls (sample_tick 1600
             (with_pause_file file (sample_daemon world_init unpaused))))
     = Some CallProphetPredict.
Proof.
  apply (cmd_status_after_pause no_op no_op (fun x => x) (fun _ => false) (fun _ => no_op)
           sample_ctl_env ctl_start 4711 {| ctl_errno := 0; ctl_clock := 2; ctl_trace := [] |}
           {| ctl_errno := 0; ctl_clock := 4; ctl_trace := [] |}
           (sample_daemon world_init unpaused) 1000 5400 1600).
  - vm_compute. reflexivity.
  - lia.
  - vm_compute. reflexivity.
  - lia.
  - unfold INT_MAX. lia.
  - unfold LONG_MAX. lia.
  - lia.
  - reflexivity.
  - reflexivity.
  - reflexivity.
Defined.

Section Unstamped.
Context (E : platform).

Lemma stamps_kept_refl w : stamps_kept w w.
Proof. intros mk m H. eauto. Qed.

Lemma stamps_kept_trans w1 w2 w3 : stamps_kept w1 w2 -> stamps_kept w2 w3 -> stamps_kept w1 w3.
Proof.
  intros H1 H2 mk m3 H3. destruct (H2 mk m3 H3) as (m2 & Hm2 & E2).
  destruct (H1 mk m2 Hm2) as (m1 & Hm1 & E1). exists m1. split; [done|congruence].
Qed.

Lemma stamps_kept_same w w' : markov_heap w' = markov_heap w -> stamps_kept w w'.
Proof. intros H mk m Hm. rewrite H in Hm. eauto. Qed.

Lemma stamps_kept_maps_only w w' : maps_only w w' -> stamps_kept w w'.
Proof. intros (_ & H & _). by apply stamps_kept_same. Qed.

Lemma unstamped_kept w w' : unstamped E w -> stamps_kept w w' -> unstamped E w'.
Proof.
  intros Hu Hk mk m' Hm'. destruct (Hk mk m' Hm') as (m & Hm & ->). by apply (Hu mk).
Qed.

Lemma stamps_kept_foldl {A} (f : world -> A -> world) (l : list A) :
  (forall w x, stamps_kept w (f w x)) -> forall w, stamps_kept w (foldl f w l).
Proof.
  intros Hf. induction l as [|x l IH]; intros w; cbn [foldl]; [apply stamps_kept_refl|].
  eapply stamps_kept_trans; [apply Hf|apply IH].
Qed.

Lemma stamps_kept_markov_free mk from w w' :
  kp_markov_free mk from w = Some w' -> stamps_kept w w'.
Proof.
  unfold kp_markov_free. destruct (markov_heap w !! mk) as [m|]; [|done].
  assert (Hdel : forall w0, markov_heap w0 = markov_heap w ->
            stamps_kept w (with_markovs (delete mk) w0)).
  { intros w0 H0 k m' Hk. cbn in Hk. rewrite H0 in Hk.
    apply lookup_delete_Some in Hk as [_ Hk]. eauto. }
  destruct from as [f|].
  - destruct (_ || _); [|done]. intros [= <-]. by apply Hdel.
  - intros [= <-]. by apply Hdel.
Qed.

Lemma stamps_kept_markovs_free from (mks : list addr) : forall w w',
  fold_opt (fun w0 mk => kp_markov_free mk from w0) mks w = Some w' -> stamps_kept w w'.
Proof.
  induction mks as [|mk mks IH]; intros w w'; cbn [fold_opt].
  - intros [= <-]. apply stamps_kept_refl.
  - destruct (kp_markov_free mk from w) as [w1|] eqn:H1; [|done]. intros H.
    eapply stamps_kept_trans; [by eapply stamps_kept_markov_free|by apply IH].
Qed.

Lemma stamps_kept_exe_free ea w w' : kp_exe_free ea w = Some w' -> stamps_kept w w'.
Proof.
  unfold kp_exe_free. destruct (exe_heap w !! ea) as [e|]; [|done].
  set (w1 := foldl _ w _).
  assert (H1 : stamps_kept w w1).
  { apply stamps_kept_foldl. intros w0 x. apply stamps_kept_maps_only, kp_map_unref_frame. }
  destruct (fold_opt _ _ _) as [w3|] eqn:H3; [|done]. intros [= <-].
  eapply stamps_kept_trans; [exact H1|].
  apply (stamps_kept_trans _ w3); [|by apply stamps_kept_same].
  eapply stamps_kept_trans; [|by eapply stamps_kept_markovs_free].
  by apply stamps_kept_same.
Qed.

Lemma stamps_kept_register_exe ea w w' :
  kp_state_register_exe E ea false w = Some w' -> stamps_kept w w'.
Proof.
  unfold kp_state_register_exe, exes_insert. destruct (exe_heap w !! ea); [|done].
  unfold register_exe_markovs. destruct (st_exes _ !! _) as [old|].
  - intros H. eapply stamps_kept_trans; [|by eapply stamps_kept_exe_free].
    by apply stamps_kept_same.
  - intros [= <-]. by apply stamps_kept_same.
Qed.

Lemma stamps_kept_read_map rc w : stamps_kept w (read_map E rc w).2.
Proof.
  unfold read_map. destruct (_ <? _)%nat; [apply stamps_kept_refl|].
  destruct (g_filename_from_uri E _); [|apply stamps_kept_refl].
  unfold kp_map_new. destruct (bool_decide _); cbn [snd].
  { eapply stamps_kept_trans; [|apply stamps_kept_maps_only, maps_only_free].
    by apply stamps_kept_same. }
  destruct (bool_decide _); cbn [snd].
  { eapply stamps_kept_trans; [|apply stamps_kept_maps_only, maps_only_free].
    by apply stamps_kept_same. }
  eapply stamps_kept_trans; [|apply stamps_kept_maps_only, kp_map_ref_frame].
  by apply stamps_kept_same.
Qed.

Lemma stamps_kept_read_exe rc w rc' w' :
  read_exe E rc w = Some (rc', w') -> stamps_kept w w'.
Proof.
  unfold read_exe. destruct (scan_exe E _ _) as [form x].
  destruct form; [|by intros [= <- <-]; apply stamps_kept_refl].
  destruct (g_filename_from_uri E _); [|by intros [= <- <-]; apply stamps_kept_refl].
  unfold kp_exe_new. cbn [foldl].
  destruct (bool_decide _).
  { destruct (kp_exe_free _ _) as [w3|] eqn:H3; [|done]. intros [= <- <-].
    eapply stamps_kept_trans; [|by eapply stamps_kept_exe_free]. by apply stamps_kept_same. }
  destruct (bool_decide _).
  { destruct (kp_exe_free _ _) as [w3|] eqn:H3; [|done]. intros [= <- <-].
    eapply stamps_kept_trans; [|by eapply stamps_kept_exe_free]. by apply stamps_kept_same. }
  destruct (kp_state_register_exe E _ false _) as [w4|] eqn:H4; [|done].
  intros [= <- <-].
  eapply stamps_kept_trans; [|by eapply stamps_kept_register_exe]. by apply stamps_kept_same.
Qed.

Lemma stamps_kept_read_exemap rc w : stamps_kept w (read_exemap E rc w).2.
Proof.
  unfold read_exemap. destruct (_ <? _)%nat; [apply stamps_kept_refl|].
  destruct (rc_exes rc !! _); [|apply stamps_kept_refl].
  destruct (rc_maps rc !! _); [|apply stamps_kept_refl]. cbn [snd].
  unfold kp_exe_map_new, kp_exemap_new.
  eapply stamps_kept_trans; [apply stamps_kept_maps_only, kp_map_ref_frame|].
  by apply stamps_kept_same.
Qed.

Lemma stamps_kept_read_family rc w : stamps_kept w (read_family E rc w).2.
Proof.
  unfold read_family. destruct (_ <? _)%nat; [apply stamps_kept_refl|].
  match goal with |- context [foldl ?f ?i ?l] =>
    assert (H : stamps_kept w (foldl f i l).2); [|destruct (foldl f i l) as [f1 w1]] end.
  { match goal with |- context [foldl ?f (?f0, w) ?l] => generalize f0; generalize l end.
    intros l. revert w. induction l as [|t l IH]; intros w f0; [apply stamps_kept_refl|].
    cbn [foldl]. destruct (skip_spaces t) eqn:Hs; cbn [fst snd].
    - apply IH.
    - unfold kp_family_add_member. destruct (existsb _ _).
      + apply IH.
      + eapply stamps_kept_trans; [|apply IH]. by apply stamps_kept_same. }
  cbn [snd] in *. eapply stamps_kept_trans; [exact H|]. by apply stamps_kept_same.
Qed.

(** [read_markov] makes a markov whose change timestamp nobody assigns. *)
Lemma unstamped_read_markov rc w rc' w' :
  unstamped E w -> read_markov E rc w = Some (rc', w') -> unstamped E w'.
Proof.
  intros Hu. unfold read_markov. destruct (Scan.sscanf _ _) as [vs rest].
  destruct (_ <? _)%nat; [by intros [= <- <-]|].
  destruct (rc_exes _ !! _) as [a|]; [|by intros [= <- <-]].
  destruct (rc_exes _ !! _) as [b|]; [|by intros [= <- <-]].
  destruct (kp_markov_new E a b false w) as [[mk|] w1] eqn:Hn; [|done].
  assert (Hu1 : unstamped E w1).
  { unfold kp_markov_new in Hn. destruct (Nat.eqb a b); [done|].
    destruct (exe_heap w !! a) as [xa|]; [|done].
    destruct (exe_heap w !! b) as [xb|]; [|done].
    injection Hn as _ <-. intros k0 m0 Hk0. cbn in Hk0.
    destruct (decide (k0 = next_addr w)) as [->|Hne].
    - rewrite lookup_insert_eq in Hk0. by injection Hk0 as <-.
    - rewrite lookup_insert_ne in Hk0 by done. by apply (Hu k0). }
  assert (Halter : forall f w0, (forall m, mk_change_timestamp (f m) = mk_change_timestamp m) ->
            stamps_kept w0 (with_markovs (alter f mk) w0)).
  { intros f w0 Hf k m' Hk. cbn in Hk. destruct (decide (k = mk)) as [->|Hne].
    - rewrite lookup_alter_eq in Hk. destruct (markov_heap w0 !! mk) as [m|]; [|done].
      injection Hk as <-. exists m. by rewrite Hf.
    - rewrite lookup_alter_ne in Hk by done. eauto. }
  set (w2 := with_markovs (alter (set_mk_time _) mk) w1).
  assert (Hu2 : unstamped E w2) by (eapply unstamped_kept; [exact Hu1|by apply Halter]).
  destruct (scan_doubles 4 _) as [ds r1].
  destruct (_ <? _)%nat.
  { destruct (kp_markov_free mk None w2) as [w3|] eqn:H3; [|done]. intros [= <- <-].
    eapply unstamped_kept; [exact Hu2|by eapply stamps_kept_markov_free]. }
  set (w3 := with_markovs (alter (set_mk_time_to_leave ds) mk) w2).
  assert (Hu3 : unstamped E w3) by (eapply unstamped_kept; [exact Hu2|by apply Halter]).
  destruct (scan_ints 16 r1) as [ws r2].
  destruct (_ <? _)%nat.
  { destruct (kp_markov_free mk None w3) as [w4|] eqn:H4; [|done]. intros [= <- <-].
    eapply unstamped_kept; [exact Hu3|by eapply stamps_kept_markov_free]. }
  intros [= <- <-]. eapply unstamped_kept; [exact Hu3|by apply Halter].
Qed.

Lemma unstamped_read_record lineno first tag rc w b rc' w' :
  unstamped E w -> read_record E lineno first tag rc w = Some (b, rc', w') ->
  unstamped E w'.
Proof.
  intros Hu. unfold read_record.
  destruct (_ && _); [by intros [= <- <- <-]|].
  destruct (String.eqb tag TAG_PRELOAD).
  { destruct (_ || _); [by intros [= <- <- <-]|].
    destruct (_ <? _); [by intros [= <- <- <-]|].
    destruct (_ <? _); [by intros [= <- <- <-]|].
    intros [= <- <- <-]. eapply unstamped_kept; [exact Hu|by apply stamps_kept_same]. }
  destruct (String.eqb tag TAG_MAP).
  { pose proof (stamps_kept_read_map rc w) as Hk.
    destruct (read_map E rc w) as [rc1 w1]. intros [= <- <- <-]. by eapply unstamped_kept. }
  destruct (String.eqb tag TAG_BADEXE); [by intros [= <- <- <-]|].
  destruct (String.eqb tag TAG_EXE).
  { destruct (read_exe E rc w) as [[rc1 w1]|] eqn:Hr; [|done]. intros [= <- <- <-].
    eapply unstamped_kept; [exact Hu|by eapply stamps_kept_read_exe]. }
  destruct (String.eqb tag TAG_EXEMAP).
  { pose proof (stamps_kept_read_exemap rc w) as Hk.
    destruct (read_exemap E rc w) as [rc1 w1]. intros [= <- <- <-]. by eapply unstamped_kept. }
  destruct (String.eqb tag TAG_MARKOV).
  { destruct (read_markov E rc w) as [[rc1 w1]|] eqn:Hr; [|done]. intros [= <- <- <-].
    by eapply unstamped_read_markov. }
  destruct (String.eqb tag TAG_FAMILY).
  { pose proof (stamps_kept_read_family rc w) as Hk.
    destruct (read_family E rc w) as [rc1 w1]. intros [= <- <- <-]. by eapply unstamped_kept. }
  destruct (String.eqb tag TAG_CRC32); [by intros [= <- <- <-]|].
  destruct first as [c|]; [|by intros [= <- <- <-]].
  by destruct (negb _); intros [= <- <- <-].
Qed.

Lemma unstamped_read_lines lines : forall lineno rc w b lineno' rc' w',
  unstamped E w -> read_lines E lines lineno rc w = Some (b, lineno', rc', w') ->
  unstamped E w'.
Proof.
  induction lines as [|l rest IH]; intros lineno rc w b lineno' rc' w' Hu.
  - by intros [= <- <- <- <-].
  - cbn [read_lines]. destruct (rc_failed rc); [by intros [= <- <- <- <-]|].
    destruct (Scan.sscanf [Scan.Conv_s 31] l) as [vs r].
    destruct vs as [|[| | |tag] [|]]; try (by intros [= <- <- <- <-]).
    match goal with |- context [read_record E ?n ?f ?t ?c ?v] =>
      destruct (read_record E n f t c v) as [[[[] rc1] w1]|] eqn:Hr end; [| |done].
    + intros [= <- <- <- <-]. by eapply unstamped_read_record.
    + intros H. eapply IH; [|exact H]. by eapply unstamped_read_record.
Qed.

(** X30. The change timestamp of a markov that comes from the state file
    is never assigned: [read_markov] makes the markov without initialising
    it and sets its time, its dwell times and its counters, and the end of
    [read_state] sets its state only. Whatever the file, every markov of
    the world that [read_state] leaves has in this field what the
    allocator left there. *)
Theorem loaded_markovs_unstamped lines r w :
  read_state E lines world_init = Some (r, w) -> unstamped E w.
Proof.
  unfold read_state.
  destruct (read_lines E lines 0 rc_init world_init) as [[[[b lineno] rc] w1]|] eqn:Hr;
    [|done].
  assert (Hu1 : unstamped E w1).
  { eapply unstamped_read_lines; [|exact Hr]. intros mk m Hm. by cbn in Hm. }
  set (w2 := foldl _ w1 _).
  assert (Hu2 : unstamped E w2).
  { eapply unstamped_kept; [exact Hu1|]. apply stamps_kept_foldl. intros w0 kv.
    apply stamps_kept_maps_only, kp_map_unref_frame. }
  assert (Herr : forall e, Some (e, w2) = Some (r, w) -> unstamped E w).
  { by intros e [= _ <-]. }
  destruct (rc_err rc); [by apply Herr|]. destruct (rc_errmsg rc); [by apply Herr|].
  intros [= _ <-]. eapply unstamped_kept; [exact Hu2|].
  set (w3 := foldl _ w2 (proc_list E)).
  set (w4 := with_state _ w3).
  apply (stamps_kept_trans _ w4).
  { apply (stamps_kept_trans _ w3); [|by apply stamps_kept_same].
    apply stamps_kept_foldl. intros w0 p. unfold set_running_process_callback.
    destruct (st_exes _ !! _); [by apply stamps_kept_same|apply stamps_kept_refl]. }
  unfold kp_markov_foreach. apply stamps_kept_foldl. intros w0 kv.
  destruct (exe_heap w0 !! kv.2) as [xe|]; [|apply stamps_kept_refl].
  apply stamps_kept_foldl. intros w5 mk. destruct (markov_heap w5 !! mk) as [m|] eqn:Hm;
    [|apply stamps_kept_refl].
  destruct (Nat.eqb _ _); [|apply stamps_kept_refl].
  unfold set_markov_state_callback. rewrite Hm. intros k0 m' Hk. cbn in Hk.
  destruct (decide (k0 = mk)) as [->|Hne].
  - rewrite lookup_insert_eq in Hk. injection Hk as <-. eauto.
  - rewrite lookup_insert_ne in Hk by done. eauto.
Qed.

End Unstamped.

Lemma loaded_markovs_unstamped_witness :
  unstamped sample_platform loaded_markov_world.
Proof.
  apply (loaded_markovs_unstamped sample_platform inconsistent_state_file None).
  vm_compute. reflexivity.
Defined.

(** The world of the sample has a markov. *)
Lemma loaded_markov_world_markov :
  exists mk m, markov_heap loaded_markov_world !! mk = Some m /\ mk_time m = 100.
Proof. exists 2%nat. eexists. split; [vm_compute; reflexivity|reflexivity]. Qed.

(** ** The widths of an EXE line, continued *)

Section ExeWidths.
Context (E : platform).

Lemma conv_s_word_rest w t rest :
  word t -> (String.length t <= w)%nat -> after_field rest ->
  Scan.conv_s w (t ++ rest) = Some (t, rest).
Proof.
  intros Hw Hlen (c & r & -> & Hc).
  destruct (word_head t Hw) as (a & t' & Ht & Ha). unfold Scan.conv_s.
  assert (Hsk : Scan.skip_ws (t ++ String c r) = (t ++ String c r)%string).
  { rewrite Ht. change (Scan.skip_ws (String a (t' ++ String c r)) = String a (t' ++ String c r)).
    cbn [Scan.skip_ws]. by rewrite Ha. }
  rewrite Hsk, take_while_all; [|by apply word_nonspace|by rewrite Hc|done].
  by rewrite Ht.
Qed.

Lemma skip_ws_tab_word t rest :
  word t -> Scan.skip_ws (tab ++ t ++ rest) = (t ++ rest)%string.
Proof.
  intros Hw. destruct (word_head t Hw) as (a & t' & -> & Ha).
  change (Scan.skip_ws (String a (t' ++ rest)) = String a (t' ++ rest)).
  cbn [Scan.skip_ws]. by rewrite Ha.
Qed.

Lemma uri_letter uri path :
  uri_scheme E -> g_filename_from_uri E uri = Some path ->
  exists c t, uri = String c t /\ (c = "f"%char \/ c = "F"%char).
Proof. intros Hs Hp. apply file_scheme_head. by eapply Hs. Qed.

(** The four numbers at the head of all three kinds of lines. *)
Lemma sscanf_four fmt i ut tm ex r :
  in_int i -> in_int ut -> in_int tm -> in_int ex -> no_digit_head r ->
  Scan.sscanf (Scan.Conv_d :: Scan.Ws :: Scan.Conv_d :: Scan.Ws :: Scan.Conv_d :: Scan.Ws
               :: Scan.Conv_d :: fmt)
    (tab ++ Scan.show_long i ++ tab ++ Scan.show_long ut ++ tab ++ Scan.show_long tm ++ tab
     ++ Scan.show_long ex ++ r)
  = let '(vs, r') := Scan.sscanf fmt r in
    (Scan.VInt i :: Scan.VInt ut :: Scan.VInt tm :: Scan.VInt ex :: vs, r').
Proof.
  intros Hi Hut Htm Hex Hr.
  rewrite sscanf_d_tab, conv_d_show_long by done.
  cbn [Scan.sscanf]. rewrite skip_ws_tab_show, conv_d_show_long by done.
  rewrite skip_ws_tab_show, conv_d_show_long by done.
  rewrite skip_ws_tab_show, conv_d_show_long by done.
  by destruct (Scan.sscanf fmt r).
Qed.

Lemma skip_ws_letter c t rest :
  c = "f"%char \/ c = "F"%char ->
  Scan.skip_ws (String c t ++ rest) = String c (t ++ rest).
Proof. intros [-> | ->]; reflexivity. Qed.

Ltac four := rewrite sscanf_four by done; cbn [Scan.sscanf].

Lemma sscanf9_fields9 i ut tm ex pool wl f raw dur uri rest :
  in_int i -> in_int ut -> in_int tm -> in_int ex -> in_int pool -> reads_as wl f ->
  in_ulong raw -> in_ulong dur ->
  word uri -> (String.length uri <= FILELENSTR E)%nat -> after_field rest ->
  (Scan.sscanf (fmt_exe9 E) (exe_fields9 i ut tm ex pool wl raw dur uri rest)).1
  = [Scan.VInt i; Scan.VInt ut; Scan.VInt tm; Scan.VInt ex; Scan.VInt pool;
     Scan.VDouble f; Scan.VULong raw; Scan.VULong dur; Scan.VStr uri].
Proof.
  intros Hi Hut Htm Hex Hp Hf Hraw Hdur Hw Hl Hrest. unfold fmt_exe9, exe_fields9.
  four. rewrite skip_ws_tab_show, conv_d_show_long by done.
  rewrite conv_lf_skip_ws.
  change (Scan.conv_lf (tab ++ ?x)) with (Scan.conv_lf x). rewrite Hf.
  change (Scan.skip_ws (tab ++ ?x)) with (Scan.skip_ws x).
  rewrite skip_ws_show_ulong, conv_lu_show_ulong by done.
  change (Scan.skip_ws (tab ++ show_ulong dur ++ ?x)) with (Scan.skip_ws (show_ulong dur ++ x)).
  rewrite skip_ws_show_ulong, conv_lu_show_ulong by done.
  rewrite skip_ws_tab_word, conv_s_word_rest by done. done.
Qed.

Lemma sscanf9_fields6 i ut tm ex pool c t rest :
  in_int i -> in_int ut -> in_int tm -> in_int ex -> in_int pool ->
  c = "f"%char \/ c = "F"%char ->
  (Scan.sscanf (fmt_exe9 E) (exe_fields6 i ut tm ex pool (String c t) rest)).1
  = [Scan.VInt i; Scan.VInt ut; Scan.VInt tm; Scan.VInt ex; Scan.VInt pool].
Proof.
  intros Hi Hut Htm Hex Hp Hc. unfold fmt_exe9, exe_fields6.
  four. rewrite skip_ws_tab_show, conv_d_show_long by done.
  rewrite (conv_lf_letter _ c (t ++ rest)); [done| |done].
  rewrite skip_ws_idem.
  change (Scan.skip_ws (tab ++ ?x)) with (Scan.skip_ws x). by apply skip_ws_letter.
Qed.

Lemma sscanf6_fields6 i ut tm ex pool uri rest :
  in_int i -> in_int ut -> in_int tm -> in_int ex -> in_int pool ->
  word uri -> (String.length uri <= FILELENSTR E)%nat -> after_field rest ->
  (Scan.sscanf (fmt_exe6 E) (exe_fields6 i ut tm ex pool uri rest)).1
  = [Scan.VInt i; Scan.VInt ut; Scan.VInt tm; Scan.VInt ex; Scan.VInt pool; Scan.VStr uri].
Proof.
  intros Hi Hut Htm Hex Hp Hw Hl Hrest. unfold fmt_exe6, exe_fields6.
  four. rewrite skip_ws_tab_show, conv_d_show_long by done.
  rewrite skip_ws_tab_word, conv_s_word_rest by done. done.
Qed.

Lemma sscanf96_fields5 i ut tm ex c t rest :
  in_int i -> in_int ut -> in_int tm -> in_int ex ->
  c = "f"%char \/ c = "F"%char ->
  (Scan.sscanf (fmt_exe9 E) (exe_fields5 i ut tm ex (String c t) rest)).1
  = [Scan.VInt i; Scan.VInt ut; Scan.VInt tm; Scan.VInt ex]
  /\ (Scan.sscanf (fmt_exe6 E) (exe_fields5 i ut tm ex (String c t) rest)).1
     = [Scan.VInt i; Scan.VInt ut; Scan.VInt tm; Scan.VInt ex].
Proof.
  intros Hi Hut Htm Hex Hc. unfold fmt_exe9, fmt_exe6, exe_fields5.
  assert (Hd : Scan.conv_d (Scan.skip_ws (tab ++ String c t ++ rest)) = None).
  { apply (conv_d_letter _ c (t ++ rest)); [|done]. rewrite skip_ws_idem.
    change (Scan.skip_ws (tab ++ ?x)) with (Scan.skip_ws x). by apply skip_ws_letter. }
  split; four; by rewrite Hd.
Qed.

Lemma sscanf5_fields5 i ut tm ex uri rest :
  in_int i -> in_int ut -> in_int tm -> in_int ex ->
  word uri -> (String.length uri <= FILELENSTR E)%nat -> after_field rest ->
  (Scan.sscanf (fmt_exe5 E) (exe_fields5 i ut tm ex uri rest)).1
  = [Scan.VInt i; Scan.VInt ut; Scan.VInt tm; Scan.VInt ex; Scan.VStr uri].
Proof.
  intros Hi Hut Htm Hex Hw Hl Hrest. unfold fmt_exe5, exe_fields5.
  four. rewrite skip_ws_tab_word, conv_s_word_rest by done. done.
Qed.

Lemma sscanf_fields4 i ut tm ex :
  in_int i -> in_int ut -> in_int tm -> in_int ex ->
  let four := [Scan.VInt i; Scan.VInt ut; Scan.VInt tm; Scan.VInt ex] in
  (Scan.sscanf (fmt_exe9 E) (exe_fields4 i ut tm ex)).1 = four
  /\ (Scan.sscanf (fmt_exe6 E) (exe_fields4 i ut tm ex)).1 = four
  /\ (Scan.sscanf (fmt_exe5 E) (exe_fields4 i ut tm ex)).1 = four.
Proof.
  intros Hi Hut Htm Hex. unfold fmt_exe9, fmt_exe6, fmt_exe5, exe_fields4.
  split_and!; four; try done.
  destruct (FILELENSTR E); reflexivity.
Qed.

Lemma scan_exe_fields9 i ut tm ex pool wl f raw dur uri rest x0 :
  in_int i -> in_int ut -> in_int tm -> in_int ex -> in_int pool -> reads_as wl f ->
  in_ulong raw -> in_ulong dur ->
  word uri -> (String.length uri <= FILELENSTR E)%nat -> after_field rest ->
  scan_exe E (exe_fields9 i ut tm ex pool wl raw dur uri rest) x0
  = (Some Form9,
     {| v_i := i; v_update_time := ut; v_time := tm; v_expansion := ex; v_pool := pool;
        v_weighted_launches := f; v_raw_launches := raw; v_total_duration := dur;
        v_filebuf := uri |}).
Proof.
  intros. unfold scan_exe. by rewrite (sscanf9_fields9 _ _ _ _ _ _ f).
Qed.

Lemma scan_exe_fields6 i ut tm ex pool uri path rest x0 :
  uri_scheme E -> g_filename_from_uri E uri = Some path ->
  in_int i -> in_int ut -> in_int tm -> in_int ex -> in_int pool ->
  word uri -> (String.length uri <= FILELENSTR E)%nat -> after_field rest ->
  scan_exe E (exe_fields6 i ut tm ex pool uri rest) x0
  = (Some Form6,
     {| v_i := i; v_update_time := ut; v_time := tm; v_expansion := ex; v_pool := pool;
        v_weighted_launches := v_weighted_launches x0;
        v_raw_launches := v_raw_launches x0; v_total_duration := v_total_duration x0;
        v_filebuf := uri |}).
Proof.
  intros Hs Hp Hi Hut Htm Hex Hpool Hw Hl Hrest.
  destruct (uri_letter uri path Hs Hp) as (c & t & Hu & Hc).
  unfold scan_exe. rewrite sscanf6_fields6 by done. rewrite Hu.
  rewrite sscanf9_fields6 by done. done.
Qed.

Lemma scan_exe_fields5 i ut tm ex uri path rest x0 :
  uri_scheme E -> g_filename_from_uri E uri = Some path ->
  in_int i -> in_int ut -> in_int tm -> in_int ex ->
  word uri -> (String.length uri <= FILELENSTR E)%nat -> after_field rest ->
  scan_exe E (exe_fields5 i ut tm ex uri rest) x0
  = (Some Form5,
     {| v_i := i; v_update_time := ut; v_time := tm; v_expansion := ex;
        v_pool := POOL_OBSERVATION E;
        v_weighted_launches := v_weighted_launches x0;
        v_raw_launches := v_raw_launches x0; v_total_duration := v_total_duration x0;
        v_filebuf := uri |}).
Proof.
  intros Hs Hp Hi Hut Htm Hex Hw Hl Hrest.
  destruct (uri_letter uri path Hs Hp) as (c & t & Hu & Hc).
  unfold scan_exe. rewrite sscanf5_fields5 by done. rewrite Hu.
  destruct (sscanf96_fields5 i ut tm ex c t rest) as [-> ->]; done.
Qed.

Lemma scan_exe_fields4 i ut tm ex x0 :
  in_int i -> in_int ut -> in_int tm -> in_int ex ->
  (scan_exe E (exe_fields4 i ut tm ex) x0).1 = None.
Proof.
  intros Hi Hut Htm Hex. unfold scan_exe.
  destruct (sscanf_fields4 i ut tm ex) as (-> & -> & ->); done.
Qed.

(** A line that matches one of the formats, with a URI that names a path
    which is not tracked and an index that is free, registers an exe. *)
Lemma read_exe_accepts line rc w f x path :
  scan_exe E line (exe_vars_init E rc) = (Some f, x) ->
  g_filename_from_uri E (v_filebuf x) = Some path ->
  rc_exes rc !! v_i x = None -> st_exes (kp_state w) !! path = None ->
  exists rc' w',
    read_exe E (set_rc_line line rc) w = Some (rc', w')
    /\ rc_errmsg rc' = rc_errmsg rc /\ rc_err rc' = rc_err rc
    /\ rc_exes rc' = <[v_i x := next_addr w]> (rc_exes rc)
    /\ st_exes (kp_state w') = <[path := next_addr w]> (st_exes (kp_state w))
    /\ exe_heap w' !! next_addr w
       = Some (exe_read path (v_time x) (v_update_time x) (v_pool x)
                 (v_weighted_launches x) (v_raw_launches x) (v_total_duration x) w)
    /\ (forall a, a <> next_addr w -> exe_heap w' !! a = exe_heap w !! a)
    /\ map_heap w' = map_heap w /\ markov_heap w' = markov_heap w
    /\ st_maps (kp_state w') = st_maps (kp_state w).
Proof.
  intros Hscan Hpath Hidx Hkey. unfold read_exe.
  change (rc_line (set_rc_line line rc)) with line.
  change (exe_vars_init E (set_rc_line line rc)) with (exe_vars_init E rc).
  rewrite Hscan. cbn [rc_filebuf set_rc_filebuf]. rewrite Hpath.
  unfold kp_exe_new. cbn [foldl].
  change (rc_exes (set_rc_filebuf (v_filebuf x) (set_rc_line line rc))) with (rc_exes rc).
  rewrite (bool_decide_eq_false_2 (is_Some (rc_exes rc !! v_i x)))
    by (rewrite Hidx; by intros [? ?]).
  cbn [kp_state with_exes bump].
  rewrite (bool_decide_eq_false_2 (is_Some (st_exes (kp_state w) !! path)))
    by (rewrite Hkey; by intros [? ?]).
  erewrite kp_state_register_exe_new;
    [|cbn [exe_heap with_exes bump]; rewrite !lookup_alter_eq, lookup_insert_eq;
      reflexivity|exact Hkey].
  eexists _, _. split; [reflexivity|]. cbn.
  split_and!; try done.
  - by rewrite lookup_insert_eq.
  - intros a Ha. rewrite lookup_insert_ne by done.
    rewrite !lookup_alter_ne by done. by rewrite lookup_insert_ne.
Qed.

(** C8 (as the code has it). [read_exe] accepts a line whose leading
    fields match one of three formats, tried from the widest: nine fields
    (five numbers, the weighted launches, two counters and the URI), six
    (five numbers and the URI) or five (four numbers and the URI); what
    the line holds after the URI is not looked at, so that a line of more
    columns is accepted as well. For a URI that names a path which is not
    tracked, under an index that is free, it registers an exe with the
    time and the update time of the line; after nine fields the exe has
    the pool and the counters of the line, after six fields the pool of
    the line and weighted launches, raw launches and total duration 0,
    after five fields these and the observation pool. A line that none of
    the formats matches, as one that ends after four numbers, is a syntax
    error and changes nothing. And whatever the line: an exe that comes
    from a line without nine matching fields has the three counters 0,
    and without six matching fields the observation pool as well. *)
Theorem read_exe_widths i ut tm ex pool wl f raw dur uri path rest rc w :
  uri_scheme E ->
  in_int i -> in_int ut -> in_int tm -> in_int ex -> in_int pool ->
  reads_as wl f -> in_ulong raw -> in_ulong dur ->
  word uri -> (String.length uri <= FILELENSTR E)%nat -> after_field rest ->
  g_filename_from_uri E uri = Some path ->
  rc_exes rc !! i = None -> st_exes (kp_state w) !! path = None ->
  let registers (line : string) (e : kp_exe_t) :=
    exists rc' w',
      read_exe E (set_rc_line line rc) w = Some (rc', w')
      /\ rc_errmsg rc' = rc_errmsg rc /\ rc_err rc' = rc_err rc
      /\ rc_exes rc' = <[i := next_addr w]> (rc_exes rc)
      /\ st_exes (kp_state w') = <[path := next_addr w]> (st_exes (kp_state w))
      /\ exe_heap w' !! next_addr w = Some e
      /\ (forall a, a <> next_addr w -> exe_heap w' !! a = exe_heap w !! a)
      /\ map_heap w' = map_heap w /\ markov_heap w' = markov_heap w in
  let syntax_error (line : string) :=
    exists rc', read_exe E (set_rc_line line rc) w = Some (rc', w)
                /\ rc_errmsg rc' = Some READ_SYNTAX_ERROR in
  registers (exe_fields9 i ut tm ex pool wl raw dur uri rest)
    (exe_read path tm ut pool f raw dur w)
  /\ registers (exe_fields6 i ut tm ex pool uri rest)
       (exe_read path tm ut pool fzero 0 0 w)
  /\ registers (exe_fields5 i ut tm ex uri rest)
       (exe_read path tm ut (POOL_OBSERVATION E) fzero 0 0 w)
  /\ syntax_error (exe_fields4 i ut tm ex)
  /\ (forall line,
        (length (Scan.sscanf (fmt_exe9 E) line).1 < 9)%nat ->
        (length (Scan.sscanf (fmt_exe6 E) line).1 < 6)%nat ->
        (length (Scan.sscanf (fmt_exe5 E) line).1 < 5)%nat -> syntax_error line)
  /\ (forall line rc' w',
        read_exe E (set_rc_line line rc) w = Some (rc', w') -> rc_failed rc' = false ->
        (length (Scan.sscanf (fmt_exe9 E) line).1 < 9)%nat ->
        exists e, exe_heap w' !! next_addr w = Some e
          /\ e_weighted_launches e = fzero /\ e_raw_launches e = 0
          /\ e_total_duration_sec e = 0
          /\ ((length (Scan.sscanf (fmt_exe6 E) line).1 < 6)%nat ->
              e_pool e = POOL_OBSERVATION E)).
Proof.
  intros Hs Hi Hut Htm Hex Hpool Hf Hraw Hdur Hw Hl Hrest Hpath Hidx Hkey registers
    syntax_error.
  assert (Hreg : forall line fo x,
            scan_exe E line (exe_vars_init E rc) = (Some fo, x) ->
            v_i x = i -> v_filebuf x = uri ->
            registers line (exe_read path (v_time x) (v_update_time x) (v_pool x)
                              (v_weighted_launches x) (v_raw_launches x)
                              (v_total_duration x) w)).
  { intros line fo x Hscan Hxi Hxu.
    destruct (read_exe_accepts line rc w fo x path Hscan) as (rc' & w' & H);
      [by rewrite Hxu|by rewrite Hxi|done|].
    rewrite Hxi in H. exists rc', w'. tauto. }
  assert (Herr : forall line, (scan_exe E line (exe_vars_init E rc)).1 = None ->
            syntax_error line).
  { intros line Hn. unfold syntax_error, read_exe.
    change (rc_line (set_rc_line line rc)) with line.
    change (exe_vars_init E (set_rc_line line rc)) with (exe_vars_init E rc).
    destruct (scan_exe E line (exe_vars_init E rc)) as [fo x]. cbn in Hn. subst fo.
    eauto. }
  split_and!.
  - exact (Hreg _ _ _ (scan_exe_fields9 i ut tm ex pool wl f raw dur uri rest _
             Hi Hut Htm Hex Hpool Hf Hraw Hdur Hw Hl Hrest) eq_refl eq_refl).
  - exact (Hreg _ _ _ (scan_exe_fields6 i ut tm ex pool uri path rest _
             Hs Hpath Hi Hut Htm Hex Hpool Hw Hl Hrest) eq_refl eq_refl).
  - exact (Hreg _ _ _ (scan_exe_fields5 i ut tm ex uri path rest _
             Hs Hpath Hi Hut Htm Hex Hw Hl Hrest) eq_refl eq_refl).
  - apply Herr. by apply scan_exe_fields4.
  - intros line H9 H6 H5. apply Herr. unfold scan_exe. cbv zeta.
    apply Nat.leb_gt in H9, H6. apply Nat.ltb_lt in H5. by rewrite H9, H6, H5.
  - intros line rc' w' Hread Hok H9. revert Hread. unfold read_exe.
    change (rc_line (set_rc_line line rc)) with line.
    change (exe_vars_init E (set_rc_line line rc)) with (exe_vars_init E rc).
    destruct (scan_exe E line (exe_vars_init E rc)) as [[fo|] x] eqn:Hscan;
      [|intros [= <- <-]; by rewrite rc_failed_errmsg in Hok].
    cbn [rc_filebuf set_rc_filebuf].
    destruct (g_filename_from_uri E (v_filebuf x)) as [p|] eqn:Hp;
      [|intros [= <- <-]; by rewrite rc_failed_err in Hok].
    pose proof (Hs _ _ Hp) as Hfile.
    unfold kp_exe_new. cbn [foldl].
    destruct (bool_decide _);
      [destruct (kp_exe_free _ _); [intros [= <- <-]; by rewrite rc_failed_errmsg in Hok|done]|].
    destruct (bool_decide _) eqn:Hdup;
      [destruct (kp_exe_free _ _); [intros [= <- <-]; by rewrite rc_failed_errmsg in Hok|done]|].
    apply bool_decide_eq_false in Hdup. rewrite <- eq_None_not_Some in Hdup.
    cbn in Hdup.
    erewrite kp_state_register_exe_new;
      [|cbn [exe_heap with_exes bump]; rewrite !lookup_alter_eq, lookup_insert_eq;
        reflexivity|exact Hdup].
    intros [= <- <-]. eexists. split; [cbn; by rewrite lookup_insert_eq|].
    cbn [e_weighted_launches e_raw_launches e_total_duration_sec e_pool set_exe_seq
         exe_with].
    assert (Hfo : fo <> Form9).
    { intros ->. revert Hscan. unfold scan_exe. cbv zeta.
      apply Nat.leb_gt in H9. rewrite H9.
      destruct (6 <=? _)%nat; [done|]. by destruct (_ <? 5)%nat. }
    destruct (scan_exe_defaults E _ _ _ _ Hscan Hfile Hfo) as (-> & -> & -> & Hobs).
    split_and!; try done. intros H6. apply Hobs.
    revert Hscan. unfold scan_exe. cbv zeta. apply Nat.leb_gt in H9, H6. rewrite H9, H6.
    destruct (_ <? 5)%nat; [done|]. by intros [= <- _].
Qed.

End ExeWidths.

Lemma read_exe_widths_witness :
  exists rc' w',
    read_exe sample_platform
      (set_rc_line (exe_fields6 1 (-1) 5 (-1) 0 "file:///bin/a" (tab ++ "extra" ++ newline))
         rc_init) world_init = Some (rc', w')
    /\ st_exes (kp_state w') !! "/bin/a"%string = Some 0%nat
    /\ exe_heap w' !! 0%nat = Some (exe_read "/bin/a" 5 (-1) 0 fzero 0 0 world_init).
Proof.
  destruct (read_exe_widths sample_platform 1 (-1) 5 (-1) 0 "0.000000" PrimFloat.zero 0 0
              "file:///bin/a" "/bin/a" (tab ++ "extra" ++ newline) rc_init world_init)
    as (_ & (rc' & w' & Hr & _ & _ & _ & Hx & He & _) & _).
  - apply sample_uri_scheme.
  - unfold in_int, INT_MIN, INT_MAX. lia.
  - unfold in_int, INT_MIN, INT_MAX. lia.
  - unfold in_int, INT_MIN, INT_MAX. lia.
  - unfold in_int, INT_MIN, INT_MAX. lia.
  - unfold in_int, INT_MIN, INT_MAX. lia.
  - intros r. reflexivity.
  - unfold in_ulong, ULONG_MAX. lia.
  - unfold in_ulong, ULONG_MAX. lia.
  - split; [discriminate|reflexivity].
  - cbn. lia.
  - exists "009"%char, ("extra" ++ newline)%string. split; reflexivity.
  - reflexivity.
  - reflexivity.
  - reflexivity.
  - exists rc', w'. split; [exact Hr|]. split; [|exact He].
    rewrite Hx. reflexivity.
Defined.

(** C8 (the claim fails). An [EXE] line of seven columns is read without
    an error, and its exe is registered: the six leading fields match the
    format of six fields, and the seventh is not looked at. *)
Lemma exe_line_of_seven_columns :
  nth_error seven_column_file 1
  = Some (record ["EXE"; "1"; "-1"; "5"; "-1"; "0"; "file:///bin/a"; "extra"])
  /\ exists w ea e,
       read_state sample_platform seven_column_file world_init = Some (None, w)
       /\ st_exes (kp_state w) !! "/bin/a"%string = Some ea
       /\ exe_heap w !! ea = Some e
       /\ e_time e = 5 /\ e_pool e = 0 /\ e_raw_launches e = 0.
Proof.
  split; [reflexivity|].
  eexists _, _, _. split; [vm_compute; reflexivity|].
  split; [vm_compute; reflexivity|]. split; [vm_compute; reflexivity|].
  split_and!; reflexivity.
Qed.
